(** * Camera capture-and-render pipeline: a shallow embedding

    The definitions below transcribe, function by function, the parts of
    [src/js/util.js] (the performance monitor) and [src/js/views/camera.js]
    (resolution negotiation, head-tracker scheduling, draw-mode selection,
    main-frame drawing and the effects' ribbon) that the specification's
    testable properties talk about.

    Conventions.
    - JavaScript numbers holding pixel sizes are [Z].  The two counters
      ([frame_], [staleEffectsRefreshIndex_]) start at 0 and are only ever
      incremented: they are [nat], and [%] on them is [Nat.modulo].
    - JavaScript numbers holding times are exact rationals [Q]
      (milliseconds for [performance.now()], seconds for
      [video.currentTime]); rounding of doubles is not modelled there.
      Divisions that JavaScript answers with [Infinity] or [NaN] are
      written out.  Where a result depends on the rounding of doubles
      (the average of a monitor, the scale of the preview), the numbers
      are binary64 floats and the operations those of IEEE 754.
    - Objects mutated through [this] become records threaded explicitly
      through the functions; calls into the GPU, the DOM, the detector and
      the host are returned, in the order they are made, beside the new
      state. *)

From Stdlib Require Import ZArith QArith Qround Lqa List String Bool Lia Sorted.
From Stdlib Require Import Permutation.
From Stdlib Require Floats Uint63.
Import ListNotations.

Set Implicit Arguments.

(* ===================================================================== *)
(** * JavaScript helpers *)
(* ===================================================================== *)

Module JS.

(** Strict [<] on numbers that are neither [NaN] nor infinite. *)
Definition Qlt_bool (x y : Q) : bool := negb (Qle_bool y x).

(** [Math.round]: the nearest integer, halves rounded towards
    plus infinity. *)
Definition Math_round (x : Q) : Z := Qfloor (x + (1 # 2)).

(** The value of a quotient [n / d * 1000] of a non-negative count by a
    time difference: finite, [Infinity] (positive count over zero) or
    [NaN] (zero over zero). *)
Inductive Num : Type :=
| Fin (q : Q)
| PosInf
| NaN.

(** Numeric equality of results ([NaN] is kept equal to itself here: this
    is equality of the model's values, not JavaScript's [==]). *)
Definition Num_eq (a b : Num) : Prop :=
  match a, b with
  | Fin p, Fin q => p == q
  | PosInf, PosInf => True
  | NaN, NaN => True
  | _, _ => False
  end.

End JS.

(* ===================================================================== *)
(** * util.js: camera.util.PerformanceMonitor *)
(* ===================================================================== *)

Module PerformanceMonitor.

(** A probe is the pair [[timestamp, duration]]. *)
Definition Probe : Type := (Q * Q)%type.

Record t : Type := mk {
  probes_ : list Probe;
  tailStartTime_ : Q
}.

(** [camera.util.PerformanceMonitor.HISTORY_LENGTH = 3 * 1000]. *)
Definition HISTORY_LENGTH : Q := 3 * 1000.

(** The constructor, run when [performance.now()] reads [now]. *)
Definition create (now : Q) : t :=
  {| probes_ := []; tailStartTime_ := now |}.

(** [reset()], run when [performance.now()] reads [now]. *)
Definition reset (now : Q) (m : t) : t :=
  {| probes_ := []; tailStartTime_ := now |}.

(** [get fps()], queried when [performance.now()] reads [now]:
    [tailStartTime_ ? probes_.length / (now - tailStartTime_) * 1000 : 0]. *)
Definition fps (m : t) (now : Q) : JS.Num :=
  if Qeq_bool (tailStartTime_ m) 0 then JS.Fin 0
  else
    let elapsed := now - tailStartTime_ m in
    let count := List.length (probes_ m) in
    if Qeq_bool elapsed 0 then
      match count with
      | O => JS.NaN
      | S _ => JS.PosInf
      end
    else JS.Fin (inject_Z (Z.of_nat count) / elapsed * 1000).

(** The [while] loop of [finishMeasuring_]: the number of leading probes
    whose timestamp is below the threshold. *)
Fixpoint countOld (threshold : Q) (ps : list Probe) : nat :=
  match ps with
  | p :: rest =>
      if JS.Qlt_bool (fst p) threshold then S (countOld threshold rest)
      else O
  | [] => O
  end.

(** One completion of a measurement.  [performance.now()] is read three
    times by [finishMeasuring_]: for the timestamp, for the duration and
    for the threshold. *)
Record Call : Type := mkCall {
  startTime : Q;
  nowStamp : Q;
  nowDuration : Q;
  nowThreshold : Q
}.

(** [finishMeasuring_(startTime)].  [None] stands for the [TypeError]
    raised by [this.probes_[i][0]] when every probe, the new one
    included, is older than the threshold. *)
Definition finishMeasuring_ (c : Call) (m : t) : option t :=
  let probes := probes_ m ++ [(nowStamp c, nowDuration c - startTime c)] in
  let threshold := nowThreshold c - HISTORY_LENGTH in
  let i := countOld threshold probes in
  match i with
  | O => Some {| probes_ := probes; tailStartTime_ := tailStartTime_ m |}
  | S _ =>
      match nth_error probes i with
      | Some p => Some {| probes_ := skipn i probes; tailStartTime_ := fst p |}
      | None => None
      end
  end.

(** A measurement started at [start] and completed at [now], the clock
    not advancing while [finishMeasuring_] runs. *)
Definition measured (start now : Q) : Call :=
  {| startTime := start; nowStamp := now;
     nowDuration := now; nowThreshold := now |}.

(** A sequence of completions on one monitor. *)
Fixpoint run (calls : list Call) (m : t) : option t :=
  match calls with
  | [] => Some m
  | c :: rest =>
      match finishMeasuring_ c m with
      | Some m' => run rest m'
      | None => None
      end
  end.

(** The clock never goes back, and one [finishMeasuring_] takes no
    longer than the history length: [last] is the latest reading made
    before the calls. *)
Fixpoint chronological (last : Q) (calls : list Call) : Prop :=
  match calls with
  | [] => True
  | c :: rest =>
      last <= nowStamp c /\ nowStamp c <= nowDuration c /\
      nowDuration c <= nowThreshold c /\
      nowThreshold c - HISTORY_LENGTH <= nowStamp c /\
      chronological (nowThreshold c) rest
  end.

(** The latest clock reading after the calls. *)
Definition lastReading (t0 : Q) (calls : list Call) : Q :=
  fold_left (fun _ c => nowThreshold c) calls t0.

(** The timestamp of the oldest retained probe, if any. *)
Definition oldestStamp (m : t) : option Q :=
  match probes_ m with
  | p :: _ => Some (fst p)
  | [] => None
  end.

(** The timestamp of the latest probe, if any. *)
Definition latestStamp (m : t) : option Q :=
  match rev (probes_ m) with
  | p :: _ => Some (fst p)
  | [] => None
  end.

(** The specification's reading of the fps query, for comparison with
    [fps]: the retained sample count divided by the time elapsed between
    the oldest retained sample and the latest sample (in seconds, the
    timestamps being milliseconds). *)
Definition spec_fps (m : t) : option Q :=
  match oldestStamp m, latestStamp m with
  | Some oldest, Some latest =>
      Some (inject_Z (Z.of_nat (List.length (probes_ m)))
            / ((latest - oldest) / 1000))
  | _, _ => None
  end.

(** The probe a call pushes. *)
Definition probeOf (c : Call) : Probe :=
  (nowStamp c, nowDuration c - startTime c).

(** A probe is recent at clock reading [now] when its timestamp is not
    below [now - HISTORY_LENGTH]. *)
Definition recent (now : Q) (p : Probe) : bool :=
  negb (JS.Qlt_bool (fst p) (now - HISTORY_LENGTH)).

Definition byStamp (p q : Probe) : Prop := fst p <= fst q.

(** What holds of a monitor created at [t0] after the probes [pushed],
    the clock last read [last]. *)
Record windowInv (t0 : Q) (pushed : list Probe) (last : Q) (m : t)
  : Prop := mkWindowInv {
  inv_retained : probes_ m = filter (recent last) pushed;
  inv_sorted : StronglySorted byStamp pushed;
  inv_past : Forall (fun p => fst p <= last) pushed;
  inv_start :
    (List.length (probes_ m) = List.length pushed /\ tailStartTime_ m = t0)
    \/ ((List.length (probes_ m) < List.length pushed)%nat /\
        oldestStamp m = Some (tailStartTime_ m))
}.


(** Measurements completed a second apart on a monitor created at
    1000 ms, and the same followed by one three seconds later. *)
Definition sparseCalls : list Call :=
  [measured 1990 2000; measured 2990 3000].
Definition prunedCalls : list Call :=
  [measured 1990 2000; measured 2990 3000; measured 5990 6000].

End PerformanceMonitor.

(* ===================================================================== *)
(** * State and log passing *)
(* ===================================================================== *)

(** A computation reads and writes the fields of its object (the state
    [S]) and makes calls that leave the object (the events [E]), returning
    them in the order they were made. *)
Module Flow.
Section Flow.
Variables S E : Type.

Definition M (A : Type) : Type := S -> A * S * list E.

Definition ret {A : Type} (a : A) : M A := fun s => (a, s, []).

Definition bind {A B : Type} (c : M A) (k : A -> M B) : M B :=
  fun s =>
    let '(a, s1, e1) := c s in
    let '(b, s2, e2) := k a s1 in
    (b, s2, e1 ++ e2).

Definition get : M S := fun s => (s, s, []).
Definition modify (f : S -> S) : M unit := fun s => (tt, f s, []).
Definition emit (e : E) : M unit := fun s => (tt, s, [e]).

Definition result {A : Type} (c : M A) (s : S) : A := fst (fst (c s)).
Definition exec {A : Type} (c : M A) (s : S) : S := snd (fst (c s)).
Definition trace {A : Type} (c : M A) (s : S) : list E := snd (c s).
End Flow.

Arguments ret {S E A} a.
Arguments bind {S E A B} c k.
Arguments get {S E}.
Arguments modify {S E} f.
Arguments emit {S E} e.
Arguments result {S E A} c s.
Arguments exec {S E A} c s.
Arguments trace {S E A} c s.
End Flow.

(* ===================================================================== *)
(** * camera.js: enumerations and constants *)
(* ===================================================================== *)

(** [camera.views.Camera.DrawMode]. *)
Module DrawMode.
Inductive t : Type :=
| FAST     (* Quality optimized for best performance. *)
| NORMAL   (* Quality adapted to the window's current size. *)
| BEST.    (* The best quality possible. *)

Definition eqb (a b : t) : bool :=
  match a, b with
  | FAST, FAST | NORMAL, NORMAL | BEST, BEST => true
  | _, _ => false
  end.
End DrawMode.

(** [camera.views.Camera.HeadTrackerQuality]. *)
Module HeadTrackerQuality.
Inductive t : Type :=
| LOW      (* Very low resolution, used for the effects' previews. *)
| NORMAL.  (* Default resolution, still low though. *)
End HeadTrackerQuality.

(** The capability queries of an effect ([usesHeadTracker()],
    [isMultiframe()], [isSlow()]): all the frame loop asks of it. *)
Module Effect.
Record t : Type := mk {
  usesHeadTracker : bool;
  isMultiframe : bool;
  isSlow : bool
}.
End Effect.

(** The head tracker, as far as the frame loop uses it. *)
Module Tracker.
(** Modelled from the spec: [camera.Tracker] ([tracker.js]) is not among
    the sources.  The specification gives its boundary: [busy] is true
    while an asynchronous detection request is outstanding, [detect] is
    fire-and-forget and its completion arrives as a later callback,
    [update] is a synchronous interpolation step.  The number of
    outstanding requests is kept so that overlapping requests, if the
    caller issued any, would show. *)
Record t : Type := mk {
  outstanding : nat
}.

(** Modelled from the spec: [busy], true while a request is
    outstanding. *)
Definition busy (k : t) : bool := negb (Nat.eqb (outstanding k) 0).

(** Modelled from the spec: [detect()], one more request outstanding. *)
Definition detect (k : t) : t := {| outstanding := S (outstanding k) |}.

(** Modelled from the spec: the completion callback of a request. *)
Definition completed (k : t) : t :=
  {| outstanding := Nat.pred (outstanding k) |}.

(** Modelled from the spec: [update()], which leaves the requests alone. *)
Definition update (k : t) : t := k.
End Tracker.

(* ===================================================================== *)
(** * camera.js: camera.views.Camera, the frame loop *)
(* ===================================================================== *)

Module Camera.

(** [PREVIEW_BUFFER_SKIP_FRAMES] and [RIBBON_HEAD_TRACKER_SKIP_FRAMES]. *)
Definition PREVIEW_BUFFER_SKIP_FRAMES : nat := 3.
Definition RIBBON_HEAD_TRACKER_SKIP_FRAMES : nat := 30.

(** Horizontal bounds of a preview's output, from
    [processor.output.getBoundingClientRect()]. *)
Record Rect : Type := mkRect {
  rect_left : Q;
  rect_right : Q
}.

(** What the frame loop reads and never writes: flags kept by the other
    event handlers of the view, the video element, the current effect of
    [mainProcessor_] and the layout of the ribbon.  [effectProcessors_]
    lists the preview processors by their position in the array, each
    with its current bounds. *)
Record Env : Type := mkEnv {
  active : bool;                 (* this.active *)
  resizing : bool;               (* this.context.resizing *)
  isUIAnimating : bool;          (* this.context.isUIAnimating() *)
  taking_ : bool;
  toolbarEffect_animating : bool;
  controlsEffect_animating : bool;
  toastEffect_animating : bool;
  scrollTracker_scrolling : bool;
  expanded_ : bool;
  ribbonInitialization_ : bool;
  effect : Effect.t;             (* this.mainProcessor_.effect *)
  currentTime : Q;               (* this.video_.currentTime *)
  videoWidth : Z;
  videoHeight : Z;
  width : Z;                     (* this.video_.width *)
  height : Z;                    (* this.video_.height *)
  effectInputCanvas_ : Z * Z;    (* width, height *)
  effectProcessors_ : list Rect;
  offsetWidth : Z                (* document.body.offsetWidth *)
}.

(** The [hidden] attribute of the three wrappers
    [mainCanvas_.parentNode], [mainPreviewCanvas_.parentNode] and
    [mainFastCanvas_.parentNode]. *)
Record Surfaces : Type := mkSurfaces {
  mainCanvas_hidden : bool;
  mainPreviewCanvas_hidden : bool;
  mainFastCanvas_hidden : bool
}.

(** What the frame loop writes.  [frame_] and
    [staleEffectsRefreshIndex_] start at 0 and are only ever
    incremented: they are natural numbers. *)
Record t : Type := mk {
  env : Env;
  lastFrameTime_ : Q;
  frame_ : nat;
  staleEffectsRefreshIndex_ : nat;
  trackerInputCanvas_ : Z * Z;   (* width, height *)
  tracker_ : Tracker.t;
  surfaces : Surfaces
}.

Definition set_env (e : Env) (s : t) : t :=
  mk e (lastFrameTime_ s) (frame_ s) (staleEffectsRefreshIndex_ s)
     (trackerInputCanvas_ s) (tracker_ s) (surfaces s).
Definition set_lastFrameTime_ (x : Q) (s : t) : t :=
  mk (env s) x (frame_ s) (staleEffectsRefreshIndex_ s)
     (trackerInputCanvas_ s) (tracker_ s) (surfaces s).
Definition set_frame_ (n : nat) (s : t) : t :=
  mk (env s) (lastFrameTime_ s) n (staleEffectsRefreshIndex_ s)
     (trackerInputCanvas_ s) (tracker_ s) (surfaces s).
Definition set_staleEffectsRefreshIndex_ (n : nat) (s : t) : t :=
  mk (env s) (lastFrameTime_ s) (frame_ s) n
     (trackerInputCanvas_ s) (tracker_ s) (surfaces s).
Definition set_trackerInputCanvas_ (c : Z * Z) (s : t) : t :=
  mk (env s) (lastFrameTime_ s) (frame_ s) (staleEffectsRefreshIndex_ s)
     c (tracker_ s) (surfaces s).
Definition set_tracker_ (k : Tracker.t) (s : t) : t :=
  mk (env s) (lastFrameTime_ s) (frame_ s) (staleEffectsRefreshIndex_ s)
     (trackerInputCanvas_ s) k (surfaces s).
Definition set_surfaces (v : Surfaces) (s : t) : t :=
  mk (env s) (lastFrameTime_ s) (frame_ s) (staleEffectsRefreshIndex_ s)
     (trackerInputCanvas_ s) (tracker_ s) v.
Definition set_mainCanvas_hidden (b : bool) (s : t) : t :=
  set_surfaces
    {| mainCanvas_hidden := b;
       mainPreviewCanvas_hidden := mainPreviewCanvas_hidden (surfaces s);
       mainFastCanvas_hidden := mainFastCanvas_hidden (surfaces s) |} s.
Definition set_mainPreviewCanvas_hidden (b : bool) (s : t) : t :=
  set_surfaces
    {| mainCanvas_hidden := mainCanvas_hidden (surfaces s);
       mainPreviewCanvas_hidden := b;
       mainFastCanvas_hidden := mainFastCanvas_hidden (surfaces s) |} s.
Definition set_mainFastCanvas_hidden (b : bool) (s : t) : t :=
  set_surfaces
    {| mainCanvas_hidden := mainCanvas_hidden (surfaces s);
       mainPreviewCanvas_hidden := mainPreviewCanvas_hidden (surfaces s);
       mainFastCanvas_hidden := b |} s.

(** The fields as the constructor leaves them ([dom] is the markup's
    state of the three wrappers; a canvas element starts 300 by 150). *)
Definition create (e : Env) (dom : Surfaces) : t :=
  {| env := e; lastFrameTime_ := -1; frame_ := 0;
     staleEffectsRefreshIndex_ := 0; trackerInputCanvas_ := (300, 150)%Z;
     tracker_ := {| Tracker.outstanding := 0 |}; surfaces := dom |}.

(** ** Calls leaving the view, in the order they are made *)

Inductive Texture : Type :=
| MainCanvasTexture
| MainPreviewCanvasTexture
| MainFastCanvasTexture
| EffectCanvasTexture.

Inductive Processor : Type :=
| MainProcessor
| MainPreviewProcessor
| MainFastProcessor
| EffectProcessor (index : nat).

Inductive Event : Type :=
| StartMeasuring (name : string)      (* performanceMonitors_.startMeasuring *)
| FinishMeasuring (name : string)     (* the completion it returned *)
| LoadContentsOf (texture : Texture)  (* texture.loadContentsOf(...) *)
| ProcessFrame (p : Processor)        (* processor.processFrame() *)
| DrawEffectInput (sx sy sw sh : Z)   (* drawImage onto effectInputCanvas_ *)
| DrawTrackerInput (w h : Z)          (* drawImage onto trackerInputCanvas_ *)
| Detect                              (* tracker_.detect() *)
| Update.                             (* tracker_.update() *)

(** ** State and log passing *)

Definition M : Type -> Type := Flow.M t Event.

Definition ret {A : Type} (a : A) : M A := Flow.ret a.
Definition bind {A B : Type} (c : M A) (k : A -> M B) : M B := Flow.bind c k.
Definition get : M t := Flow.get.
Definition modify (f : t -> t) : M unit := Flow.modify f.
Definition emit (e : Event) : M unit := Flow.emit e.
Definition exec {A : Type} (c : M A) (s : t) : t := Flow.exec c s.
Definition trace {A : Type} (c : M A) (s : t) : list Event := Flow.trace c s.

Declare Scope camera_scope.
Delimit Scope camera_scope with camera.
Notation "x <- c ;; k" := (bind c (fun x => k))
  (at level 61, c at next level, right associativity) : camera_scope.
Notation "c ;; k" := (bind c (fun _ => k))
  (at level 61, right associativity) : camera_scope.
Local Open Scope camera_scope.

(** A block bracketed by [startMeasuring(name)] and [finishMeasuring()]. *)
Definition measuring (name : string) (body : M unit) : M unit :=
  emit (StartMeasuring name) ;;
  body ;;
  emit (FinishMeasuring name).

(** [n % k == 0] on a counter. *)
Definition multipleOf (k n : nat) : bool := Nat.eqb (n mod k) 0.

(** ** setHeadTrackerQuality_ *)

(** [videoWidth / videoHeight < bound].  A zero height makes the quotient
    [Infinity], [-Infinity] or [NaN]; only [-Infinity] is below the
    bound. *)
Definition videoRatioBelow (w h : Z) (bound : Q) : bool :=
  if (h =? 0)%Z then (w <? 0)%Z
  else JS.Qlt_bool (inject_Z w / inject_Z h) bound.

(** The [switch] on the quality. *)
Definition headTrackerScale (quality : HeadTrackerQuality.t) : Q :=
  match quality with
  | HeadTrackerQuality.NORMAL => 1
  | HeadTrackerQuality.LOW => 75 # 100
  end.

(** The size given to [trackerInputCanvas_]. *)
Definition trackerInputSize (quality : HeadTrackerQuality.t) (w h : Z)
  : Z * Z :=
  let scale := headTrackerScale quality in
  if videoRatioBelow w h (15 # 10) then
    (* For resolutions: 800x600. *)
    (JS.Math_round (120 * scale), JS.Math_round (90 * scale))
  else
    (* For wide resolutions (any other). *)
    (JS.Math_round (160 * scale), JS.Math_round (90 * scale)).

Definition setHeadTrackerQuality_ (quality : HeadTrackerQuality.t) : M unit :=
  s <- get ;;
  modify (set_trackerInputCanvas_
            (trackerInputSize quality (videoWidth (env s))
               (videoHeight (env s)))).

(** ** drawEffectsRibbon_ *)

(** The test of the loop: the preview is drawn now when the mode is
    [NORMAL] and its bounds meet the viewport. *)
Definition drawnNow (mode : DrawMode.t) (r : Rect) (bodyWidth : Z) : bool :=
  DrawMode.eqb mode DrawMode.NORMAL &&
  Qle_bool 0 (rect_right r) &&
  JS.Qlt_bool (rect_left r) (inject_Z bodyWidth).

(** The [for] loop over [effectProcessors_], from position [index] on:
    visible previews are processed, the others collected in
    [notDrawn]. *)
Fixpoint drawVisible (mode : DrawMode.t) (bodyWidth : Z)
    (rest : list Rect) (index : nat) (notDrawn : list nat)
  : M (list nat) :=
  match rest with
  | [] => ret notDrawn
  | r :: rest' =>
      if drawnNow mode r bodyWidth then
        emit (ProcessFrame (EffectProcessor index)) ;;
        drawVisible mode bodyWidth rest' (S index) notDrawn
      else
        drawVisible mode bodyWidth rest' (S index) (notDrawn ++ [index])
  end.

Definition drawEffectsRibbon_ (mode : DrawMode.t) : M unit :=
  s <- get ;;
  notDrawn <- drawVisible mode (offsetWidth (env s))
                (effectProcessors_ (env s)) 0 [] ;;
  (* Additionally, draw one frame which is not visible. *)
  modify (fun s => set_staleEffectsRefreshIndex_
                     (S (staleEffectsRefreshIndex_ s)) s) ;;
  s <- get ;;
  match notDrawn with
  | [] => ret tt
  | _ :: _ =>
      match nth_error notDrawn
              (staleEffectsRefreshIndex_ s mod List.length notDrawn) with
      | Some index => emit (ProcessFrame (EffectProcessor index))
      | None => ret tt   (* out of the array: never, the index is a remainder *)
      end
  end.

(** ** drawCameraFrame_ *)

Definition drawCameraFrame_ (mode : DrawMode.t) : M unit :=
  measuring "main-fast-processor-load-contents-and-process" (
    s <- get ;;
    if multipleOf 10 (frame_ s) || DrawMode.eqb mode DrawMode.FAST then
      emit (LoadContentsOf MainFastCanvasTexture) ;;
      emit (ProcessFrame MainFastProcessor)
    else ret tt) ;;
  match mode with
  | DrawMode.FAST =>
      modify (set_mainCanvas_hidden true) ;;
      modify (set_mainPreviewCanvas_hidden true) ;;
      modify (set_mainFastCanvas_hidden false)
  | DrawMode.NORMAL =>
      measuring "main-preview-processor-load-contents-and-process" (
        emit (LoadContentsOf MainPreviewCanvasTexture) ;;
        emit (ProcessFrame MainPreviewProcessor)) ;;
      modify (set_mainCanvas_hidden true) ;;
      modify (set_mainPreviewCanvas_hidden false) ;;
      modify (set_mainFastCanvas_hidden true)
  | DrawMode.BEST =>
      measuring "main-processor-canvas-to-texture" (
        emit (LoadContentsOf MainCanvasTexture)) ;;
      emit (ProcessFrame MainProcessor) ;;
      measuring "main-processor-dom" (
        modify (set_mainCanvas_hidden false) ;;
        modify (set_mainPreviewCanvas_hidden true) ;;
        modify (set_mainFastCanvas_hidden true))
  end.

(** ** onAnimationFrame_ *)

(** [this.frame_++]. *)
Definition incrementFrame : M unit :=
  modify (fun s => set_frame_ (S (frame_ s)) s).

(** Copy the video frame to the back buffer of the effects' previews
    (the input canvas is 80 by 80 from the constructor on; a zero height is
    not modelled). *)
Definition resampleAndUploadPreviewTexture : M unit :=
  measuring "resample-and-upload-preview-texture" (
    s <- get ;;
    if multipleOf PREVIEW_BUFFER_SKIP_FRAMES (frame_ s) then
      let e := env s in
      let ratio := inject_Z (fst (effectInputCanvas_ e))
                   / inject_Z (snd (effectInputCanvas_ e)) in
      let sh := height e in
      let sw := JS.Math_round (inject_Z (height e) * ratio) in
      let sy := 0%Z in
      let sx := JS.Math_round (inject_Z (width e) / 2 - inject_Z sw / 2) in
      emit (DrawEffectInput sx sy sw sh) ;;
      emit (LoadContentsOf EffectCanvasTexture)
    else ret tt).

(** [requestHeadTrackerUpdate]: always if the head tracker is used by the
    active effect, or periodically if used on the visible ribbon only. *)
Definition requestHeadTrackerUpdate (s : t) : bool :=
  Effect.usesHeadTracker (effect (env s)) ||
  (expanded_ (env s) &&
   multipleOf RIBBON_HEAD_TRACKER_SKIP_FRAMES (frame_ s)).

(** Copy the video frame to the back buffer of the head tracker and
    schedule a detection. *)
Definition resampleAndScheduleHeadTracking : M unit :=
  s <- get ;;
  let request := requestHeadTrackerUpdate s in
  measuring "resample-and-schedule-head-tracking" (
    s <- get ;;
    if negb (Tracker.busy (tracker_ s)) && request then
      setHeadTrackerQuality_
        (if Effect.usesHeadTracker (effect (env s))
         then HeadTrackerQuality.NORMAL
         else HeadTrackerQuality.LOW) ;;
      s <- get ;;
      emit (DrawTrackerInput (fst (trackerInputCanvas_ s))
              (snd (trackerInputCanvas_ s))) ;;
      emit Detect ;;
      modify (fun s => set_tracker_ (Tracker.detect (tracker_ s)) s)
    else ret tt).

(** Update internal state of the tracker. *)
Definition interpolateHeadTracker : M unit :=
  measuring "interpolate-head-tracker" (
    emit Update ;;
    modify (fun s => set_tracker_ (Tracker.update (tracker_ s)) s)).

(** Draw the camera frame. *)
Definition drawFrame : M unit :=
  measuring "draw-frame" (
    s <- get ;;
    let e := env s in
    if Effect.isMultiframe (effect e) then
      (* Always draw in best quality as taken pictures need multiple
         frames. *)
      drawCameraFrame_ DrawMode.BEST
    else if taking_ e || toolbarEffect_animating e ||
            controlsEffect_animating e || Effect.isSlow (effect e) ||
            isUIAnimating e || toastEffect_animating e ||
            (scrollTracker_scrolling e && expanded_ e) then
      drawCameraFrame_ DrawMode.FAST
    else
      drawCameraFrame_ DrawMode.NORMAL).

(** Draw the effects' ribbon. *)
Definition drawRibbon : M unit :=
  measuring "draw-ribbon" (
    s <- get ;;
    let e := env s in
    if negb (taking_ e) && negb (controlsEffect_animating e) &&
       negb (isUIAnimating e) && negb (scrollTracker_scrolling e) &&
       negb (toolbarEffect_animating e) && negb (toastEffect_animating e) ||
       ribbonInitialization_ e then
      if expanded_ e &&
         multipleOf PREVIEW_BUFFER_SKIP_FRAMES (frame_ s) then
        (* Render all visible + one not visible. *)
        drawEffectsRibbon_ DrawMode.NORMAL
      else
        (* Render only one effect per frame. *)
        drawEffectsRibbon_ DrawMode.FAST
    else ret tt).

(** Whether the video shows a frame that has not been processed yet. *)
Definition newFrame (s : t) : bool :=
  negb (Qeq_bool (lastFrameTime_ s) (currentTime (env s))).

Definition onAnimationFrame_ : M unit :=
  s <- get ;;
  (* No capturing when the view is inactive. *)
  if negb (active (env s)) then ret tt
  (* No capturing while resizing. *)
  else if resizing (env s) then ret tt
  (* No processing when the video provides no new input. *)
  else if negb (newFrame s) then ret tt
  else
    emit (StartMeasuring "main") ;;
    incrementFrame ;;
    resampleAndUploadPreviewTexture ;;
    resampleAndScheduleHeadTracking ;;
    interpolateHeadTracker ;;
    drawFrame ;;
    drawRibbon ;;
    incrementFrame ;;
    emit (FinishMeasuring "main") ;;
    modify (fun s => set_lastFrameTime_ (currentTime (env s)) s).

(** Whether [onAnimationFrame_] gets past its three early returns. *)
Definition processes (s : t) : bool :=
  active (env s) && negb (resizing (env s)) && newFrame s.

(** ** Runs of the view *)

(** What happens to the view between and at animation frames. *)
Inductive Action : Type :=
| Host (e : Env)           (* handlers and the host change what is read *)
| DetectionCompleted       (* the detector answers the outstanding request *)
| AnimationFrame           (* the display refresh: onAnimationFrame_() *)
| PictureTimeout.          (* takePictureImmediately_: drawCameraFrame_(BEST) *)

Definition step (a : Action) : M unit :=
  match a with
  | Host e => modify (set_env e)
  | DetectionCompleted =>
      modify (fun s => set_tracker_ (Tracker.completed (tracker_ s)) s)
  | AnimationFrame => onAnimationFrame_
  | PictureTimeout => drawCameraFrame_ DrawMode.BEST
  end.

Fixpoint run (actions : list Action) : M unit :=
  match actions with
  | [] => ret tt
  | a :: rest => step a ;; run rest
  end.

(** ** Vocabulary of the properties *)

(** The positions, from [index] on, of the previews the loop of
    [drawEffectsRibbon_] processes, and of those it leaves in
    [notDrawn]. *)
Fixpoint drawnIndices (mode : DrawMode.t) (bodyWidth : Z)
    (rest : list Rect) (index : nat) : list nat :=
  match rest with
  | [] => []
  | r :: rest' =>
      if drawnNow mode r bodyWidth
      then index :: drawnIndices mode bodyWidth rest' (S index)
      else drawnIndices mode bodyWidth rest' (S index)
  end.

Fixpoint notDrawnIndices (mode : DrawMode.t) (bodyWidth : Z)
    (rest : list Rect) (index : nat) : list nat :=
  match rest with
  | [] => []
  | r :: rest' =>
      if drawnNow mode r bodyWidth
      then notDrawnIndices mode bodyWidth rest' (S index)
      else index :: notDrawnIndices mode bodyWidth rest' (S index)
  end.

(** The call made for the preview at position [i]. *)
Definition processEffect (i : nat) : Event :=
  ProcessFrame (EffectProcessor i).

(** The additional refresh of [drawEffectsRibbon_], the counter being
    [index] once incremented. *)
Definition extraRefresh (notDrawn : list nat) (index : nat) : list Event :=
  match notDrawn with
  | [] => []
  | _ :: _ =>
      match nth_error notDrawn (index mod List.length notDrawn) with
      | Some i => [processEffect i]
      | None => []
      end
  end.

(** The previews that are not visible: those left undrawn in [NORMAL]
    mode. *)
Definition notVisibleIn (e : Env) : list nat :=
  notDrawnIndices DrawMode.NORMAL (offsetWidth e) (effectProcessors_ e) 0.

Definition notVisible (s : t) : list nat := notVisibleIn (env s).

(** What one processed frame does, phase by phase, the counter reading
    [f] during the phases: the calls of each phase in order, as the
    equation [onAnimationFrame_eq] below establishes. *)
Definition previewEvents (e : Env) (f : nat) : list Event :=
  [StartMeasuring "resample-and-upload-preview-texture"]
  ++ (if multipleOf PREVIEW_BUFFER_SKIP_FRAMES f then
        let ratio := inject_Z (fst (effectInputCanvas_ e))
                     / inject_Z (snd (effectInputCanvas_ e)) in
        let sw := JS.Math_round (inject_Z (height e) * ratio) in
        [DrawEffectInput
           (JS.Math_round (inject_Z (width e) / 2 - inject_Z sw / 2))
           0 sw (height e);
         LoadContentsOf EffectCanvasTexture]
      else [])
  ++ [FinishMeasuring "resample-and-upload-preview-texture"].

(** Whether the frame issues a detection request. *)
Definition detects (e : Env) (k : Tracker.t) (f : nat) : bool :=
  negb (Tracker.busy k) &&
  (Effect.usesHeadTracker (effect e) ||
   (expanded_ e && multipleOf RIBBON_HEAD_TRACKER_SKIP_FRAMES f)).

(** The size the tracker's input gets when a request is issued. *)
Definition detectSize (e : Env) : Z * Z :=
  trackerInputSize
    (if Effect.usesHeadTracker (effect e)
     then HeadTrackerQuality.NORMAL else HeadTrackerQuality.LOW)
    (videoWidth e) (videoHeight e).

Definition trackingEvents (e : Env) (k : Tracker.t) (f : nat)
  : list Event :=
  [StartMeasuring "resample-and-schedule-head-tracking"]
  ++ (if detects e k f then
        [DrawTrackerInput (fst (detectSize e)) (snd (detectSize e)); Detect]
      else [])
  ++ [FinishMeasuring "resample-and-schedule-head-tracking"].

Definition interpolateEvents : list Event :=
  [StartMeasuring "interpolate-head-tracker"; Update;
   FinishMeasuring "interpolate-head-tracker"].

Definition drawCameraFrameEvents (mode : DrawMode.t) (f : nat)
  : list Event :=
  [StartMeasuring "main-fast-processor-load-contents-and-process"]
  ++ (if multipleOf 10 f || DrawMode.eqb mode DrawMode.FAST then
        [LoadContentsOf MainFastCanvasTexture;
         ProcessFrame MainFastProcessor]
      else [])
  ++ [FinishMeasuring "main-fast-processor-load-contents-and-process"]
  ++ match mode with
     | DrawMode.FAST => []
     | DrawMode.NORMAL =>
         [StartMeasuring "main-preview-processor-load-contents-and-process";
          LoadContentsOf MainPreviewCanvasTexture;
          ProcessFrame MainPreviewProcessor;
          FinishMeasuring "main-preview-processor-load-contents-and-process"]
     | DrawMode.BEST =>
         [StartMeasuring "main-processor-canvas-to-texture";
          LoadContentsOf MainCanvasTexture;
          FinishMeasuring "main-processor-canvas-to-texture";
          ProcessFrame MainProcessor;
          StartMeasuring "main-processor-dom";
          FinishMeasuring "main-processor-dom"]
     end.

(** Whether the ribbon is drawn at all, and in which mode. *)
Definition ribbonRuns (e : Env) : bool :=
  negb (taking_ e) && negb (controlsEffect_animating e) &&
  negb (isUIAnimating e) && negb (scrollTracker_scrolling e) &&
  negb (toolbarEffect_animating e) && negb (toastEffect_animating e) ||
  ribbonInitialization_ e.

Definition ribbonMode (e : Env) (f : nat) : DrawMode.t :=
  if expanded_ e && multipleOf PREVIEW_BUFFER_SKIP_FRAMES f
  then DrawMode.NORMAL else DrawMode.FAST.

Definition drawEffectsRibbonEvents (mode : DrawMode.t) (e : Env)
    (index : nat) : list Event :=
  map processEffect
    (drawnIndices mode (offsetWidth e) (effectProcessors_ e) 0)
  ++ extraRefresh
       (notDrawnIndices mode (offsetWidth e) (effectProcessors_ e) 0)
       (S index).

Definition ribbonEvents (e : Env) (index f : nat) : list Event :=
  [StartMeasuring "draw-ribbon"]
  ++ (if ribbonRuns e
      then drawEffectsRibbonEvents (ribbonMode e f) e index else [])
  ++ [FinishMeasuring "draw-ribbon"].

(** The invocation of the ribbon renderer by the frame that
    [onAnimationFrame_] processes in state [s], if it makes one: its
    mode and the previews its loop leaves in [notDrawn]. *)
Definition ribbonInvocation (s : t) : option (DrawMode.t * list nat) :=
  if processes s && ribbonRuns (env s) then
    let mode := ribbonMode (env s) (S (frame_ s)) in
    Some (mode,
          notDrawnIndices mode (offsetWidth (env s))
            (effectProcessors_ (env s)) 0)
  else None.

(** The invocations of the ribbon renderer in a run of the view from
    [s], in the order they are made. *)
Fixpoint invocations (actions : list Action) (s : t)
  : list (DrawMode.t * list nat) :=
  match actions with
  | [] => []
  | a :: rest =>
      match a, ribbonInvocation s with
      | AnimationFrame, Some invocation => [invocation]
      | _, _ => []
      end ++ invocations rest (exec (step a) s)
  end.

(** How many of the [n] numbers following [a] leave the remainder [p]
    modulo [k]. *)
Fixpoint hits (k p a n : nat) : nat :=
  match n with
  | O => 0
  | S n' => (if Nat.eqb (S a mod k) p then 1 else 0) + hits k p (S a) n'
  end.

(** The quotient rounded up. *)
Definition ceilDiv (n k : nat) : nat := (n + k - 1) / k.

(** The surfaces with only the one of [mode] shown. *)
Definition onlyShown (mode : DrawMode.t) : Surfaces :=
  match mode with
  | DrawMode.FAST => mkSurfaces true true false
  | DrawMode.NORMAL => mkSurfaces true false true
  | DrawMode.BEST => mkSurfaces false true true
  end.

(** How many of the three surfaces are shown. *)
Definition shownCount (v : Surfaces) : nat :=
  (if mainCanvas_hidden v then 0 else 1)
  + (if mainPreviewCanvas_hidden v then 0 else 1)
  + (if mainFastCanvas_hidden v then 0 else 1).

(** The calls of one kind. *)
Definition isProcessFrame (p : Processor) (e : Event) : bool :=
  match e, p with
  | ProcessFrame MainProcessor, MainProcessor => true
  | ProcessFrame MainPreviewProcessor, MainPreviewProcessor => true
  | ProcessFrame MainFastProcessor, MainFastProcessor => true
  | ProcessFrame (EffectProcessor i), EffectProcessor j => Nat.eqb i j
  | _, _ => false
  end.

Definition isLoadContentsOf (x : Texture) (e : Event) : bool :=
  match e, x with
  | LoadContentsOf MainCanvasTexture, MainCanvasTexture => true
  | LoadContentsOf MainPreviewCanvasTexture, MainPreviewCanvasTexture => true
  | LoadContentsOf MainFastCanvasTexture, MainFastCanvasTexture => true
  | LoadContentsOf EffectCanvasTexture, EffectCanvasTexture => true
  | _, _ => false
  end.

Definition isDetect (e : Event) : bool :=
  match e with
  | Detect => true
  | _ => false
  end.

Definition isUpdate (e : Event) : bool :=
  match e with
  | Update => true
  | _ => false
  end.

Definition isDrawTrackerInput (e : Event) : bool :=
  match e with
  | DrawTrackerInput _ _ => true
  | _ => false
  end.

(** A canvas size scaled by [k], each side rounded. *)
Definition scaled (k : Q) (size : Z * Z) : Z * Z :=
  (JS.Math_round (k * inject_Z (fst size)),
   JS.Math_round (k * inject_Z (snd size))).

(** The specification's low-quality size, for comparison with
    [trackerInputSize]: the normal-quality size at half the linear
    scale. *)
Definition spec_lowSize (w h : Z) : Z * Z :=
  scaled (1 # 2) (trackerInputSize HeadTrackerQuality.NORMAL w h).

(** How many times a call of some kind occurs in a trace. *)
Definition count (f : Event -> bool) (evs : list Event) : nat :=
  List.length (filter f evs).

(** A frame drawn in [mode]: afterwards only the surface of [mode] is
    shown, and the render passes made are those of [mode] (the
    full-quality processor in [BEST] only, the preview processor in
    [NORMAL] only, the fast processor always in [FAST]). *)
Definition drawnIn (mode : DrawMode.t) (after : t) (evs : list Event)
  : Prop :=
  surfaces after = onlyShown mode /\
  count (isProcessFrame MainProcessor) evs
  = (if DrawMode.eqb mode DrawMode.BEST then 1 else 0)%nat /\
  count (isProcessFrame MainPreviewProcessor) evs
  = (if DrawMode.eqb mode DrawMode.NORMAL then 1 else 0)%nat /\
  (mode = DrawMode.FAST ->
   count (isProcessFrame MainFastProcessor) evs = 1%nat).

End Camera.

(* ===================================================================== *)
(** * The specification's draw-mode selector *)
(* ===================================================================== *)

(** The decision rule as the specification words it, for comparison with
    the chain of tests in [Camera.drawFrame]: the highest-priority
    condition wins. *)
Module DrawModeSelector.

Record Flags : Type := mkFlags {
  isMultiframe : bool;          (* the current effect is multi-frame *)
  takingPhoto : bool;           (* still taking a photo *)
  toolbarTransition : bool;     (* toolbar transition in progress *)
  controlsTransition : bool;    (* window-controls transition in progress *)
  isSlow : bool;                (* the current effect is slow *)
  uiAnimation : bool;           (* any UI-level animation in progress *)
  toastTransition : bool;       (* toast transition in progress *)
  scrollWhileExpanded : bool    (* scroll while the ribbon is expanded *)
}.

Definition busy (f : Flags) : bool :=
  takingPhoto f || toolbarTransition f || controlsTransition f ||
  isSlow f || uiAnimation f || toastTransition f || scrollWhileExpanded f.

Definition select (f : Flags) : DrawMode.t :=
  if isMultiframe f then DrawMode.BEST
  else if busy f then DrawMode.FAST
  else DrawMode.NORMAL.

(** The declared inputs, read off the view. *)
Definition flagsOf (e : Camera.Env) : Flags :=
  {| isMultiframe := Effect.isMultiframe (Camera.effect e);
     takingPhoto := Camera.taking_ e;
     toolbarTransition := Camera.toolbarEffect_animating e;
     controlsTransition := Camera.controlsEffect_animating e;
     isSlow := Effect.isSlow (Camera.effect e);
     uiAnimation := Camera.isUIAnimating e;
     toastTransition := Camera.toastEffect_animating e;
     scrollWhileExpanded :=
       Camera.scrollTracker_scrolling e && Camera.expanded_ e |}.

End DrawModeSelector.

(* ===================================================================== *)
(** * Scenarios *)
(* ===================================================================== *)

(** Concrete views and runs used to exercise the properties. *)
Module Scenario.

Import Camera.

(** The video element showing the frame of time [time]. *)
Definition withCurrentTime (time : Q) (e : Env) : Env :=
  {| active := active e; resizing := resizing e;
     isUIAnimating := isUIAnimating e; taking_ := taking_ e;
     toolbarEffect_animating := toolbarEffect_animating e;
     controlsEffect_animating := controlsEffect_animating e;
     toastEffect_animating := toastEffect_animating e;
     scrollTracker_scrolling := scrollTracker_scrolling e;
     expanded_ := expanded_ e;
     ribbonInitialization_ := ribbonInitialization_ e;
     effect := effect e; currentTime := time;
     videoWidth := videoWidth e; videoHeight := videoHeight e;
     width := width e; height := height e;
     effectInputCanvas_ := effectInputCanvas_ e;
     effectProcessors_ := effectProcessors_ e;
     offsetWidth := offsetWidth e |}.

(** [n] times in a row, the video shows a new frame (of times
    [from + 1], [from + 2], ...) and the display refreshes, nothing else
    changing. *)
Fixpoint steady (e : Env) (from n : nat) : list Action :=
  match n with
  | O => []
  | S n' =>
      Host (withCurrentTime (inject_Z (Z.of_nat (S from))) e)
      :: AnimationFrame :: steady e (S from) n'
  end.

(** An active 1280 by 720 view with the ribbon expanded and nothing
    animating; four previews, the first two within the window. *)
Definition viewWith (fx : Effect.t) (scrolling : bool) : Env :=
  {| active := true; resizing := false; isUIAnimating := false;
     taking_ := false; toolbarEffect_animating := false;
     controlsEffect_animating := false; toastEffect_animating := false;
     scrollTracker_scrolling := scrolling; expanded_ := true;
     ribbonInitialization_ := false; effect := fx; currentTime := 1;
     videoWidth := 1280; videoHeight := 720; width := 1280; height := 720;
     effectInputCanvas_ := (80, 80)%Z;
     effectProcessors_ :=
       [mkRect 0 80; mkRect 90 170; mkRect 2000 2080; mkRect 2090 2170];
     offsetWidth := 1280 |}.

(** An effect with no capability declared, a multi-frame one and one
    using the head tracker. *)
Definition normalEffect : Effect.t := Effect.mk false false false.
Definition multiframeEffect : Effect.t := Effect.mk false true false.
Definition headEffect : Effect.t := Effect.mk true false false.

Definition plain : Env := viewWith normalEffect false.
Definition multiframeWhileScrolling : Env := viewWith multiframeEffect true.

(** The three wrappers as the markup leaves them. *)
Definition wrappers : Surfaces := mkSurfaces false false false.

(** The view [plain] with five previews, the first two within the
    window. *)
Definition threeHidden : Env :=
  {| active := true; resizing := false; isUIAnimating := false;
     taking_ := false; toolbarEffect_animating := false;
     controlsEffect_animating := false; toastEffect_animating := false;
     scrollTracker_scrolling := false; expanded_ := true;
     ribbonInitialization_ := false; effect := normalEffect;
     currentTime := 1;
     videoWidth := 1280; videoHeight := 720; width := 1280; height := 720;
     effectInputCanvas_ := (80, 80)%Z;
     effectProcessors_ :=
       [mkRect 0 80; mkRect 90 170; mkRect 2000 2080; mkRect 2090 2170;
        mkRect 2180 2260];
     offsetWidth := 1280 |}.

(** The view [plain] with the ribbon collapsed. *)
Definition collapsed : Env :=
  {| active := true; resizing := false; isUIAnimating := false;
     taking_ := false; toolbarEffect_animating := false;
     controlsEffect_animating := false; toastEffect_animating := false;
     scrollTracker_scrolling := false; expanded_ := false;
     ribbonInitialization_ := false; effect := normalEffect;
     currentTime := 1;
     videoWidth := 1280; videoHeight := 720; width := 1280; height := 720;
     effectInputCanvas_ := (80, 80)%Z;
     effectProcessors_ :=
       [mkRect 0 80; mkRect 90 170; mkRect 2000 2080; mkRect 2090 2170];
     offsetWidth := 1280 |}.

(** The state in which the [j]-th frame of the steady run of [e] is
    processed. *)
Definition atFrame (e : Env) (j : nat) : t :=
  exec
    (run (steady e 0 (Nat.pred j)
          ++ [Host (withCurrentTime (inject_Z (Z.of_nat j)) e)]))
    (create e wrappers).

(** Five new video frames, the ribbon being scrolled while the first,
    the third and the fourth are processed. *)
Definition interrupted : list Action :=
  [Host (withCurrentTime 1 (viewWith normalEffect true)); AnimationFrame;
   Host (withCurrentTime 2 plain); AnimationFrame;
   Host (withCurrentTime 3 (viewWith normalEffect true)); AnimationFrame;
   Host (withCurrentTime 4 (viewWith normalEffect true)); AnimationFrame;
   Host (withCurrentTime 5 plain); AnimationFrame].

End Scenario.

(* ===================================================================== *)
(** * camera.js: camera.views.Camera, starting the capture *)
(* ===================================================================== *)

Module Negotiation.

(** [camera.views.Camera.RESOLUTIONS], as [[width, height]]. *)
Definition Resolution : Type := (Z * Z)%type.
Definition RESOLUTIONS : list Resolution :=
  [(1920, 1080); (1280, 720); (800, 600); (640, 480)]%Z.

(** The functions handed to [setTimeout] and [setInterval]. *)
Inductive Callback : Type :=
| StartCallback                (* this.start_.bind(this) *)
| TryNextResolutionCallback    (* tryNextResolution *)
| RibbonInitializationCallback (* ribbonInitialization_ = false *)
| WatchdogCallback.            (* the stream's liveness check *)

Definition isStartCallback (c : Callback) : bool :=
  match c with
  | StartCallback => true
  | _ => false
  end.

(** A timer the host holds: its identifier (the host hands out positive
    integers, never twice the same), what it calls and after how many
    milliseconds. *)
Record Timer : Type := mkTimer {
  timerId : positive;
  callback : Callback;
  delay : Z
}.

Inductive Event : Type :=
| GetUserMedia (minWidth minHeight : Z)  (* navigator.webkitGetUserMedia *)
| VideoPlay                              (* video_.play() *)
| VideoPause                             (* video_.pause() *)
| FrameLoopStarted                       (* the first onAnimationFrame() *)
| InitializingRemoved                    (* classList.remove('initializing') *)
| OnError (identifier : string)          (* context_.onError *)
| OnErrorRecovered (identifier : string) (* context_.onErrorRecovered *)
| TypeError.                             (* reading [0] of undefined *)

Record t : Type := mk {
  locked_ : bool;
  running_ : bool;
  capturing_ : bool;
  retryStartTimer_ : option positive;
  watchdog_ : option positive;
  timers : list Timer;          (* the host's pending timers *)
  nextTimerId : positive        (* the next identifier the host hands out *)
}.

Definition set_locked_ (b : bool) (s : t) : t :=
  mk b (running_ s) (capturing_ s)
     (retryStartTimer_ s) (watchdog_ s) (timers s) (nextTimerId s).
Definition set_running_ (b : bool) (s : t) : t :=
  mk (locked_ s) b (capturing_ s)
     (retryStartTimer_ s) (watchdog_ s) (timers s) (nextTimerId s).
Definition set_capturing_ (b : bool) (s : t) : t :=
  mk (locked_ s) (running_ s) b
     (retryStartTimer_ s) (watchdog_ s) (timers s) (nextTimerId s).
Definition set_retryStartTimer_ (x : option positive) (s : t) : t :=
  mk (locked_ s) (running_ s) (capturing_ s)
     x (watchdog_ s) (timers s) (nextTimerId s).
Definition set_watchdog_ (x : option positive) (s : t) : t :=
  mk (locked_ s) (running_ s) (capturing_ s)
     (retryStartTimer_ s) x (timers s) (nextTimerId s).
Definition set_timers (l : list Timer) (n : positive) (s : t) : t :=
  mk (locked_ s) (running_ s) (capturing_ s)
     (retryStartTimer_ s) (watchdog_ s) l n.

Definition M : Type -> Type := Flow.M t Event.

Definition ret {A : Type} (a : A) : M A := Flow.ret a.
Definition bind {A B : Type} (c : M A) (k : A -> M B) : M B := Flow.bind c k.
Definition get : M t := Flow.get.
Definition modify (f : t -> t) : M unit := Flow.modify f.
Definition emit (e : Event) : M unit := Flow.emit e.
Definition exec {A : Type} (c : M A) (s : t) : t := Flow.exec c s.
Definition trace {A : Type} (c : M A) (s : t) : list Event := Flow.trace c s.

Declare Scope negotiation_scope.
Delimit Scope negotiation_scope with negotiation.
Notation "x <- c ;; k" := (bind c (fun x => k))
  (at level 61, c at next level, right associativity) : negotiation_scope.
Notation "c ;; k" := (bind c (fun _ => k))
  (at level 61, right associativity) : negotiation_scope.
Local Open Scope negotiation_scope.

(** ** The host's timers *)

(** [setTimeout(callback, delay)] and [setInterval(callback, delay)]. *)
Definition setTimeout (c : Callback) (ms : Z) : M positive :=
  s <- get ;;
  let id := nextTimerId s in
  modify (set_timers (timers s ++ [mkTimer id c ms]) (Pos.succ id)) ;;
  ret id.

(** [clearTimeout(id)] and [clearInterval(id)]. *)
Definition clearTimeout (id : positive) : M unit :=
  modify (fun s =>
    set_timers (filter (fun tm => negb (Pos.eqb (timerId tm) id)) (timers s))
               (nextTimerId s) s).

(** The pending timers that would call [start_]. *)
Definition pendingRetries (s : t) : list Timer :=
  filter (fun tm => isStartCallback (callback tm)) (timers s).

(** ** stop *)

Definition stop : M unit :=
  modify (set_running_ false) ;;
  modify (set_capturing_ false) ;;
  emit VideoPause ;;
  s <- get ;;
  match watchdog_ s with
  | Some id => clearTimeout id ;; modify (set_watchdog_ None)
  | None => ret tt
  end.

(** ** startWithResolution_ *)

(** [if (this.running_) this.stop();] *)
Definition stopIfRunning : M unit :=
  s <- get ;;
  if running_ s then stop else ret tt.

(** [granted] is the host's answer to this request.  On success the
    metadata of the stream gets loaded, the watchdog and the frame loop
    are started and [onSuccess] is called; otherwise [onFailure] is. *)
Definition startWithResolution_ (resolution : Resolution) (granted : bool)
    (onSuccess onFailure : M unit) : M unit :=
  stopIfRunning ;;
  emit (GetUserMedia (fst resolution) (snd resolution)) ;;
  if granted then
    emit VideoPlay ;;
    modify (set_running_ true) ;;
    id <- setTimeout WatchdogCallback 1000 ;;
    modify (set_watchdog_ (Some id)) ;;
    modify (set_capturing_ true) ;;
    emit FrameLoopStarted ;;
    onSuccess
  else onFailure.

(** ** start_ *)

(** The host during one run of [start_]: its answer to the request made
    for [RESOLUTIONS[index]], and the idle state its listener has left in
    [locked_] by the time the deferred [tryNextResolution] for [index]
    runs. *)
Record Host : Type := mkHost {
  grants : nat -> bool;
  lockedAt : nat -> bool
}.

(** [if (this.retryStartTimer_) { clearTimeout(...); ... = null; }] *)
Definition clearRetryStartTimer : M unit :=
  s <- get ;;
  match retryStartTimer_ s with
  | Some id => clearTimeout id ;; modify (set_retryStartTimer_ None)
  | None => ret tt
  end.

Definition scheduleRetry : M unit :=
  clearRetryStartTimer ;;
  id <- setTimeout StartCallback 1000 ;;
  modify (set_retryStartTimer_ (Some id)).

Definition onSuccess : M unit :=
  (* The default window geometry is outside the model. *)
  (* Remove the initialization layer. *)
  emit InitializingRemoved ;;
  (* Set the ribbon in the initialization mode for 500 ms. *)
  _ <- setTimeout RibbonInitializationCallback 500 ;;
  clearRetryStartTimer ;;
  emit (OnErrorRecovered "no-camera").

Definition onFailure : M unit :=
  emit InitializingRemoved ;;
  emit (OnError "no-camera") ;;
  scheduleRetry.

(** [setTimeout(tryNextResolution, 0)], the timer firing at once and the
    idle listener having left [locked] in [locked_] by then. *)
Definition deferred (locked : bool) (continuation : M unit) : M unit :=
  id <- setTimeout TryNextResolutionCallback 0 ;;
  clearTimeout id ;;
  modify (set_locked_ locked) ;;
  continuation.

(** [tryNextResolution], the closure variable [index] passed along.
    [fuel] bounds the deferred calls and is never exhausted ([index] only
    grows and stays below the length of [RESOLUTIONS]). *)
Fixpoint tryNextResolution (h : Host) (fuel index : nat) : M unit :=
  s <- get ;;
  if locked_ s then scheduleRetry
  else
    match nth_error RESOLUTIONS index, fuel with
    | Some resolution, S fuel' =>
        startWithResolution_ resolution (grants h index)
          onSuccess
          (let index := S index in
           if index <? List.length RESOLUTIONS then
             (* TODO(mtomasz): Workaround for crbug.com/383241. *)
             deferred (lockedAt h index) (tryNextResolution h fuel' index)
           else onFailure)
    | _, _ => emit TypeError
    end.

Definition start_ (h : Host) : M unit :=
  s <- get ;;
  if locked_ s then scheduleRetry
  else tryNextResolution h (List.length RESOLUTIONS) 0.

(** ** Vocabulary of the properties *)

(** What [startWithResolution_] does once the host has granted the
    request. *)
Definition connected : M unit :=
  emit VideoPlay ;;
  modify (set_running_ true) ;;
  id <- setTimeout WatchdogCallback 1000 ;;
  modify (set_watchdog_ (Some id)) ;;
  modify (set_capturing_ true) ;;
  emit FrameLoopStarted ;;
  onSuccess.

(** The resolutions requested from the host, in order. *)
Fixpoint requested (evs : list Event) : list Resolution :=
  match evs with
  | GetUserMedia w h :: rest => (w, h) :: requested rest
  | _ :: rest => requested rest
  | [] => []
  end.

(** How many times the "no camera" failure was reported. *)
Fixpoint reportedNoCamera (evs : list Event) : nat :=
  match evs with
  | OnError identifier :: rest =>
      (if String.eqb identifier "no-camera" then 1 else 0)
      + reportedNoCamera rest
  | _ :: rest => reportedNoCamera rest
  | [] => 0
  end.

(** The position of the first resolution the host grants among the
    first [n] from [index] on, if any. *)
Fixpoint firstGranted (h : Host) (index n : nat) : option nat :=
  match n with
  | O => None
  | S n' => if grants h index then Some index
            else firstGranted h (S index) n'
  end.

(** How a run of [start_] ends. *)
Inductive Outcome : Type :=
| Connected (index : nat)  (* the host granted RESOLUTIONS[index] *)
| NoCamera                 (* the host refused every resolution *)
| Locked (index : nat).    (* found locked before requesting RESOLUTIONS[index] *)

(** The outcome read off the host: [lockedNow] is [locked_] when
    [tryNextResolution] runs for [index], [n] resolutions being left. *)
Fixpoint ladder (h : Host) (lockedNow : bool) (index n : nat) : Outcome :=
  match n with
  | O => NoCamera
  | S n' =>
      if lockedNow then Locked index
      else if grants h index then Connected index
      else ladder h (lockedAt h (S index)) (S index) n'
  end.

(** The resolutions an outcome has requested. *)
Definition tried (o : Outcome) : list Resolution :=
  match o with
  | Connected index => firstn (S index) RESOLUTIONS
  | NoCamera => RESOLUTIONS
  | Locked index => firstn index RESOLUTIONS
  end.

(** The retry timer is a single slot: a pending timer that would call
    [start_] is the one [retryStartTimer_] holds. *)
Definition singleSlot (s : t) : Prop :=
  forall tm : Timer,
    In tm (timers s) -> isStartCallback (callback tm) = true ->
    retryStartTimer_ s = Some (timerId tm).

(** A step that leaves the retry slot and the lock alone and sets no
    timer that would call [start_]. *)
Definition calm (s s' : t) : Prop :=
  retryStartTimer_ s' = retryStartTimer_ s /\
  locked_ s' = locked_ s /\
  forall tm : Timer,
    In tm (timers s') -> isStartCallback (callback tm) = true ->
    In tm (timers s).

(** What a run of [start_] that ends in [o] has done, [index] resolutions
    having been requested before: the requests made, the failure reported
    once when the host refused everything and not otherwise, and the
    retry, pending once in its slot unless the capture has started. *)
Definition settled (o : Outcome) (index : nat) (s' : t) (evs : list Event)
  : Prop :=
  firstn index RESOLUTIONS ++ requested evs = tried o /\
  reportedNoCamera evs
  = match o with NoCamera => 1%nat | _ => 0%nat end /\
  ~ In TypeError evs /\
  singleSlot s' /\
  match o with
  | Connected _ =>
      pendingRetries s' = [] /\ retryStartTimer_ s' = None /\
      running_ s' = true /\ capturing_ s' = true
  | _ =>
      exists id : positive,
        pendingRetries s' = [mkTimer id StartCallback 1000] /\
        retryStartTimer_ s' = Some id
  end.

(** The view as constructed, the device locked or not. *)
Definition create (locked : bool) : t :=
  {| locked_ := locked; running_ := false; capturing_ := false;
     retryStartTimer_ := None; watchdog_ := None;
     timers := []; nextTimerId := 1%positive |}.

(** A camera that supports 1280 by 720 but not 1920 by 1080, on a device
    that gets locked right after the first refusal; a camera that
    supports nothing, on a device that stays unlocked. *)
Definition lockedAfterFirstRefusal : Host :=
  {| grants := fun index => Nat.eqb index 1;
     lockedAt := fun index => Nat.eqb index 1 |}.
Definition noCamera : Host :=
  {| grants := fun _ => false; lockedAt := fun _ => false |}.

End Negotiation.

(* ===================================================================== *)
(** * Sequencing of computations *)
(* ===================================================================== *)

(** The [do]-like notation of [Flow], shared by the modules below. *)
Declare Scope flow_scope.
Delimit Scope flow_scope with flow.
Notation "x <- c ;; k" := (Flow.bind c (fun x => k))
  (at level 61, c at next level, right associativity) : flow_scope.
Notation "c ;; k" := (Flow.bind c (fun _ => k))
  (at level 61, right associativity) : flow_scope.

(* ===================================================================== *)
(** * util.js: camera.util.Queue *)
(* ===================================================================== *)

Module Queue.
Local Open Scope flow_scope.

(** A closure handed to [run].  The queue stores it and calls it with its
    own [continue_] as the completion callback; a number names it. *)
Definition Closure : Type := nat.

Record t : Type := mk {
  closures_ : list Closure;
  running_ : bool
}.

Definition set_closures_ (l : list Closure) (q : t) : t :=
  mk l (running_ q).
Definition set_running_ (b : bool) (q : t) : t :=
  mk (closures_ q) b.

(** The calls leaving the queue. *)
Inductive Event : Type :=
| Call (closure : Closure).  (* closure(this.continue_.bind(this)) *)

Definition M : Type -> Type := Flow.M t Event.

(** The constructor. *)
Definition create : t := {| closures_ := []; running_ := false |}.

(** [continue_()]. *)
Definition continue_ : M unit :=
  q <- Flow.get ;;
  match closures_ q with
  | [] => Flow.modify (set_running_ false)
  | closure :: rest =>
      Flow.modify (set_running_ true) ;;
      Flow.modify (set_closures_ rest) ;;      (* closures_.shift() *)
      Flow.emit (Call closure)
  end.

(** [run(closure)]. *)
Definition run (closure : Closure) : M unit :=
  Flow.modify (fun q => set_closures_ (closures_ q ++ [closure]) q) ;;
  q <- Flow.get ;;
  if running_ q then Flow.ret tt else continue_.

(** What happens to a queue: a closure is submitted, or a closure that
    was called calls the completion callback it was given.  (A closure
    that calls it before returning is a [Completed] right after its
    [Call]: neither [run] nor [continue_] does anything after calling a
    closure.) *)
Inductive Action : Type :=
| Run (closure : Closure)
| Completed.

Definition step (a : Action) : M unit :=
  match a with
  | Run closure => run closure
  | Completed => continue_
  end.

Fixpoint steps (acts : list Action) : M unit :=
  match acts with
  | [] => Flow.ret tt
  | a :: rest => step a ;; steps rest
  end.

(** ** Vocabulary of the properties *)

(** The closures submitted, in order. *)
Fixpoint submitted (acts : list Action) : list Closure :=
  match acts with
  | Run closure :: rest => closure :: submitted rest
  | Completed :: rest => submitted rest
  | [] => []
  end.

(** The closures called, in order. *)
Definition called (evs : list Event) : list Closure :=
  map (fun e => match e with Call closure => closure end) evs.

(** How many completion callbacks were called. *)
Fixpoint completions (acts : list Action) : nat :=
  match acts with
  | Completed :: rest => S (completions rest)
  | Run _ :: rest => completions rest
  | [] => O
  end.

(** The closures play by the rule: a completion callback is called only
    while a closure that was called has not yet called its own, [inFlight]
    counting those. *)
Fixpoint answered (acts : list Action) (inFlight : nat) (q : t) : bool :=
  match acts with
  | [] => true
  | Run closure :: rest =>
      answered rest
        (inFlight + List.length (Flow.trace (run closure) q))
        (Flow.exec (run closure) q)
  | Completed :: rest =>
      match inFlight with
      | O => false
      | S n =>
          answered rest
            (n + List.length (Flow.trace continue_ q))
            (Flow.exec continue_ q)
      end
  end.

(** The queue is idle only when nothing waits. *)
Definition idleEmpty (q : t) : Prop :=
  running_ q = false -> closures_ q = [].

End Queue.

(* ===================================================================== *)
(** * util.js: camera.util.NamedPerformanceMonitors *)
(* ===================================================================== *)

Module NamedPerformanceMonitors.

(** [monitors_], an object used as a map: its own properties, in the
    order they were added (see [keys] for the order they are listed
    in).  A monitor, once added, is the same object
    for good: its name stands for it. *)
Record t : Type := mk {
  monitors_ : list (string * PerformanceMonitor.t)
}.

(** The constructor. *)
Definition create : t := {| monitors_ := [] |}.

(** The names [monitors_] answers without having them: the properties
    of [Object.prototype]. *)
Definition inherited (name : string) : bool :=
  existsb (String.eqb name)
    ["constructor"; "hasOwnProperty"; "isPrototypeOf";
     "propertyIsEnumerable"; "toLocaleString"; "toString"; "valueOf";
     "__defineGetter__"; "__defineSetter__"; "__lookupGetter__";
     "__lookupSetter__"; "__proto__"]%string.

(** The own property [name], if any. *)
Fixpoint own (name : string) (l : list (string * PerformanceMonitor.t))
  : option PerformanceMonitor.t :=
  match l with
  | [] => None
  | (identifier, m) :: rest =>
      if String.eqb identifier name then Some m else own name rest
  end.

(** Assigning through the reference to the monitor [name]. *)
Fixpoint assign (name : string) (m : PerformanceMonitor.t)
    (l : list (string * PerformanceMonitor.t))
  : list (string * PerformanceMonitor.t) :=
  match l with
  | [] => []
  | (identifier, old) :: rest =>
      if String.eqb identifier name then (identifier, m) :: rest
      else (identifier, old) :: assign name m rest
  end.

(** The names of the own properties, in the order they were added. *)
Definition created (s : t) : list string := map fst (monitors_ s).

(** The value of a decimal digit. *)
Definition digit (c : Ascii.ascii) : option N :=
  let code := Ascii.N_of_ascii c in
  if (48 <=? code)%N && (code <=? 57)%N then Some (code - 48)%N else None.

(** The number a string of decimal digits writes, after [acc]. *)
Fixpoint decimal (acc : N) (name : string) : option N :=
  match name with
  | EmptyString => Some acc
  | String c rest =>
      match digit c with
      | Some d => decimal (acc * 10 + d) rest
      | None => None
      end
  end.

(** The array index a property name stands for, if it does: the name is
    the canonical numeral of a number below [2^32 - 1]. *)
Definition arrayIndex (name : string) : option N :=
  match name with
  | EmptyString => None
  | String c rest =>
      if (Ascii.N_of_ascii c =? 48)%N && negb (String.eqb rest EmptyString)
      then None                               (* a leading zero *)
      else
        match decimal 0 name with
        | Some index =>
            if (index <? 4294967295)%N then Some index else None
        | None => None
        end
  end.

Definition isArrayIndex (name : string) : bool :=
  match arrayIndex name with
  | Some _ => true
  | None => false
  end.

(** The name [name] of index [index] put at its place among names in
    ascending order of index. *)
Fixpoint insertIndex (index : N) (name : string) (l : list (N * string))
  : list (N * string) :=
  match l with
  | [] => [(index, name)]
  | (other, otherName) :: rest =>
      if (index <=? other)%N then (index, name) :: l
      else (other, otherName) :: insertIndex index name rest
  end.

(** The names that are array indices, in ascending order of index. *)
Fixpoint indices (names : list string) : list (N * string) :=
  match names with
  | [] => []
  | name :: rest =>
      match arrayIndex name with
      | Some index => insertIndex index name (indices rest)
      | None => indices rest
      end
  end.

(** The order in which the host lists the own properties of an object,
    [names] being these in the order they were added: the array indices
    first, in ascending order, then the other names in the order they
    were added. *)
Definition ownPropertyKeys (names : list string) : list string :=
  map snd (indices names)
  ++ filter (fun name => negb (isArrayIndex name)) names.

(** [Object.keys(this.monitors_)]. *)
Definition keys (s : t) : list string := ownPropertyKeys (created s).

(** [get_(name)], [performance.now()] reading [now] if a monitor gets
    constructed.  [None] is a value that is not a monitor, found on
    [Object.prototype]. *)
Definition get_ (name : string) (now : Q) (s : t)
  : option PerformanceMonitor.t * t :=
  match own name (monitors_ s) with
  | Some m => (Some m, s)
  | None =>
      if inherited name then (None, s)
      else
        let m := PerformanceMonitor.create now in
        (Some m, mk (monitors_ s ++ [(name, m)]))
  end.

(** [startMeasuring(name)]: the monitor gets looked up; the callback
    returned is bound to it.  [false] stands for the [TypeError] of
    calling [startMeasuring] on what is not a monitor. *)
Definition startMeasuring (name : string) (now : Q) (s : t) : bool * t :=
  match get_ name now s with
  | (Some _, s') => (true, s')
  | (None, s') => (false, s')
  end.

(** The callback returned by [startMeasuring(name)], called: the
    monitor's [finishMeasuring_].  When it throws, the probe has been
    pushed already. *)
Definition finishMeasuring (name : string) (c : PerformanceMonitor.Call)
    (s : t) : t :=
  match own name (monitors_ s) with
  | Some m =>
      let m' :=
        match PerformanceMonitor.finishMeasuring_ c m with
        | Some m' => m'
        | None =>
            PerformanceMonitor.mk
              (PerformanceMonitor.probes_ m ++ [PerformanceMonitor.probeOf c])
              (PerformanceMonitor.tailStartTime_ m)
        end in
      mk (assign name m' (monitors_ s))
  | None => s
  end.

(** [reset()], [performance.now()] reading [now identifier] when the
    monitor [identifier] is reset. *)
Definition reset (now : string -> Q) (s : t) : t :=
  mk (map (fun entry =>
             (fst entry, PerformanceMonitor.reset (now (fst entry))
                                                  (snd entry)))
          (monitors_ s)).

(** [fps(name)], [performance.now()] reading [now] if a monitor gets
    constructed and [later] in its [fps]; [None] is [undefined]. *)
Definition fps (name : string) (now later : Q) (s : t)
  : option JS.Num * t :=
  match get_ name now s with
  | (Some m, s') => (Some (PerformanceMonitor.fps m later), s')
  | (None, s') => (None, s')
  end.

(** [average(name)]: the monitor whose [average] is read; [None] is
    [undefined]. *)
Definition average (name : string) (now : Q) (s : t)
  : option PerformanceMonitor.t * t :=
  get_ name now s.

(** What is done to the monitors. *)
Inductive Action : Type :=
| StartMeasuring (name : string) (now : Q)
| FinishMeasuring (name : string) (c : PerformanceMonitor.Call)
| Reset (now : string -> Q)
| Fps (name : string) (now later : Q)
| Average (name : string) (now : Q).

Definition step (a : Action) (s : t) : t :=
  match a with
  | StartMeasuring name now => snd (startMeasuring name now s)
  | FinishMeasuring name c => finishMeasuring name c s
  | Reset now => reset now s
  | Fps name now later => snd (fps name now later s)
  | Average name now => snd (average name now s)
  end.

Definition steps (acts : list Action) (s : t) : t :=
  fold_left (fun s a => step a s) acts s.

(** ** Vocabulary of the properties *)

(** The name an action looks up with [get_]. *)
Definition asked (a : Action) : option string :=
  match a with
  | StartMeasuring name _ | Fps name _ _ | Average name _ => Some name
  | FinishMeasuring _ _ | Reset _ => None
  end.

(** The names to find in [monitors_] after the actions, [known] being
    there before: every name asked for that [Object.prototype] does not
    answer, once, in the order of the first use. *)
Fixpoint firstUses (known : list string) (acts : list Action)
  : list string :=
  match acts with
  | [] => known
  | a :: rest =>
      match asked a with
      | Some name =>
          if existsb (String.eqb name) known || inherited name
          then firstUses known rest
          else firstUses (known ++ [name]) rest
      | None => firstUses known rest
      end
  end.

End NamedPerformanceMonitors.

(* ===================================================================== *)
(** * Numbers in double precision *)
(* ===================================================================== *)

(** JavaScript numbers as binary64 floats, where the rounding of the
    operations matters. *)
Module Doubles.
Import PrimFloat.
Local Open Scope float_scope.

(** An integer as a number (exact below [2^53]). *)
Definition ofZ (z : Z) : float :=
  if (z <? 0)%Z then - of_uint63 (Uint63.of_Z (- z))
  else of_uint63 (Uint63.of_Z z).

(** [Math.min(x, y)]: [NaN] when an argument is; [-0] is below [+0]. *)
Definition min (x y : float) : float :=
  if is_nan x || is_nan y then nan
  else if x <? y then x
  else if y <? x then y
  else
    match classify x with
    | FloatClass.NZero => x
    | _ => y
    end.

(** The integers from [from] on, [n] of them. *)
Fixpoint range (from : Z) (n : nat) : list Z :=
  match n with
  | O => []
  | S n' => from :: range (Z.succ from) n'
  end.

End Doubles.

(* ===================================================================== *)
(** * util.js: camera.util.PerformanceMonitor, the average *)
(* ===================================================================== *)

(** The durations of a monitor and their average, in double precision. *)
Module PerformanceMonitorDoubles.
Import PrimFloat.
Local Open Scope float_scope.

(** A probe is the pair [[timestamp, duration]]. *)
Definition Probe : Type := (float * float)%type.

(** The probe that [finishMeasuring_(startTime)] pushes,
    [performance.now()] reading [nowStamp] and then [nowDuration]. *)
Definition probeOf (startTime nowStamp nowDuration : float) : Probe :=
  (nowStamp, nowDuration - startTime).

(** [get average()]. *)
Definition average (probes_ : list Probe) : float :=
  match probes_ with
  | [] => 0
  | _ :: _ =>
      fold_left (fun result p => result + snd p) probes_ 0
      / Doubles.ofZ (Z.of_nat (List.length probes_))
  end.

(** ** Vocabulary of the properties *)

(** Three measurements of 690.8 ms each, as the clock reads them. *)
#[warnings="-inexact-float"]
Definition threeMeasurements : list Probe :=
  [probeOf 257.315 948.115 948.115;
   probeOf 948.12 1638.92 1638.92;
   probeOf 1638.925 2329.725 2329.725].

(** Their durations as the subtractions give them (690.79999999999995,
    690.80000000000007 and 690.79999999999995), the shortest of them,
    and 690.79999999999984. *)
Definition durationsOfThree : list float :=
  [0x1.5966666666666p+9; 0x1.5966666666667p+9; 0x1.5966666666666p+9].
Definition shortestOfThree : float := 0x1.5966666666666p+9.
Definition belowThree : float := 0x1.5966666666665p+9.

End PerformanceMonitorDoubles.

(* ===================================================================== *)
(** * util.js: waitForAnimationCompletion, waitForTransitionCompletion *)
(* ===================================================================== *)

(** The two functions are the same code, one listening to
    [webkitAnimationEnd] and the other to [webkitTransitionEnd]. *)
Module Completion.
Local Open Scope flow_scope.

(** One wait: the closure variable [completed], whether the listener is
    still registered on the element, and whether the timer set for a
    non-zero [timeout] is still to fire. *)
Record t : Type := mk {
  completed : bool;
  listening : bool;
  timerPending : bool
}.

Inductive Event : Type :=
| OnCompletion.  (* onCompletion() *)

Definition M : Type -> Type := Flow.M t Event.

(** [waitForTransitionCompletion(element, timeout, onCompletion)]:
    [if (timeout) setTimeout(...)], then [addEventListener]. *)
Definition wait (timeout : Z) : t :=
  {| completed := false;
     listening := true;
     timerPending := negb (Z.eqb timeout 0) |}.

(** [onTransitionCompleted(opt_event)]: [onTarget] is [None] when the
    timer calls it, without an event, and otherwise tells whether
    [opt_event.target] is the element. *)
Definition onTransitionCompleted (onTarget : option bool) : M unit :=
  w <- Flow.get ;;
  if completed w
     || match onTarget with
        | Some sameElement => negb sameElement
        | None => false
        end
  then Flow.ret tt
  else
    Flow.modify (fun w => mk true (listening w) (timerPending w)) ;;
    Flow.modify (fun w => mk (completed w) false (timerPending w)) ;;
    Flow.emit OnCompletion.

(** What the host does to a wait: an end-of-transition event reaches the
    element (its target being the element itself or one inside it), or the
    timer is due.  The host calls the listener only while it is
    registered and the timer only once. *)
Inductive Action : Type :=
| Dispatched (sameElement : bool)
| TimerFired.

Definition step (a : Action) : M unit :=
  w <- Flow.get ;;
  match a with
  | Dispatched sameElement =>
      if listening w then onTransitionCompleted (Some sameElement)
      else Flow.ret tt
  | TimerFired =>
      if timerPending w then
        Flow.modify (fun w => mk (completed w) (listening w) false) ;;
        onTransitionCompleted None
      else Flow.ret tt
  end.

Fixpoint steps (acts : list Action) : M unit :=
  match acts with
  | [] => Flow.ret tt
  | a :: rest => step a ;; steps rest
  end.

(** The actions that end the wait: an event of the element itself, and
    the timer when one was set. *)
Definition ends (timeout : Z) (a : Action) : bool :=
  match a with
  | Dispatched sameElement => sameElement
  | TimerFired => negb (Z.eqb timeout 0)
  end.

End Completion.

(* ===================================================================== *)
(** * util.js: camera.util.StyleEffect *)
(* ===================================================================== *)

Module StyleEffect.
Section StyleEffect.
Local Open Scope flow_scope.

(** The [state] handed to the closure and the completion callbacks are
    the caller's. *)
Variables State Callback : Type.

(** A pending [setTimeout(invokeClosure, opt_delay)], with the [state] and
    the [callback] its closure has captured. *)
Record Timer : Type := mkTimer {
  timerId : positive;
  timerState : State;
  timerCallback : Callback;
  delay : Z
}.

Record t : Type := mk {
  callback_ : option Callback;
  invocationTimer_ : option positive;
  timers : list Timer;     (* the host's pending timers of this effect *)
  nextTimerId : positive   (* the next identifier the host hands out *)
}.

Definition set_callback_ (c : option Callback) (s : t) : t :=
  mk c (invocationTimer_ s) (timers s) (nextTimerId s).
Definition set_invocationTimer_ (x : option positive) (s : t) : t :=
  mk (callback_ s) x (timers s) (nextTimerId s).
Definition set_timers (l : list Timer) (n : positive) (s : t) : t :=
  mk (callback_ s) (invocationTimer_ s) l n.

(** The calls leaving the effect. *)
Inductive Event : Type :=
| Invoked (state : State) (callback : Callback)
    (* closure_(state, completion), callback_ holding callback *)
| Deferred (callback : Callback).
    (* setTimeout(callback, 0) *)

Definition M : Type -> Type := Flow.M t Event.

(** The constructor. *)
Definition create : t :=
  {| callback_ := None; invocationTimer_ := None;
     timers := []; nextTimerId := 1%positive |}.

(** [get animating()]: [!!this.callback_]. *)
Definition animating (s : t) : bool :=
  match callback_ s with
  | Some _ => true
  | None => false
  end.

Definition setTimeout (state : State) (callback : Callback) (ms : Z)
  : M positive :=
  s <- Flow.get ;;
  let id := nextTimerId s in
  Flow.modify
    (set_timers (timers s ++ [mkTimer id state callback ms]) (Pos.succ id)) ;;
  Flow.ret id.

Definition clearTimeout (id : positive) : M unit :=
  Flow.modify (fun s =>
    set_timers (filter (fun tm => negb (Pos.eqb (timerId tm) id)) (timers s))
               (nextTimerId s) s).

(** [invokeClosure], the closure of [invoke] over [state] and
    [callback]. *)
Definition invokeClosure (state : State) (callback : Callback) : M unit :=
  Flow.modify (set_callback_ (Some callback)) ;;
  Flow.emit (Invoked state callback).

(** The function handed to [closure_], to be called when the animation
    or the transition has ended.  It reads [this.callback_], not the
    [callback] of the invocation that made it. *)
Definition completion : M unit :=
  s <- Flow.get ;;
  match callback_ s with
  | None => Flow.ret tt
  | Some callback =>
      Flow.modify (set_callback_ None) ;;
      (* Let the animation neatly finish. *)
      Flow.emit (Deferred callback)
  end.

(** [invoke(state, callback, opt_delay)]; [None] is an [opt_delay] left
    [undefined]. *)
Definition invoke (state : State) (callback : Callback)
    (opt_delay : option Z) : M unit :=
  s <- Flow.get ;;
  match invocationTimer_ s with
  | Some id =>
      clearTimeout id ;;
      Flow.modify (set_invocationTimer_ None)
  | None => Flow.ret tt
  end ;;
  match opt_delay with
  | Some ms =>
      id <- setTimeout state callback ms ;;
      Flow.modify (set_invocationTimer_ (Some id))
  | None => invokeClosure state callback
  end.

(** What happens to an effect: it is invoked, the host fires a pending
    invocation timer, or a closure started earlier reports the end of its
    animation by calling the function it was handed. *)
Inductive Action : Type :=
| Invoke (state : State) (callback : Callback) (opt_delay : option Z)
| TimerFired (id : positive)
| AnimationEnded.

(** The host fires a timer only while it is pending, and once. *)
Definition fire (id : positive) : M unit :=
  s <- Flow.get ;;
  match find (fun tm => Pos.eqb (timerId tm) id) (timers s) with
  | Some tm =>
      clearTimeout id ;;   (* the timer is no longer pending *)
      invokeClosure (timerState tm) (timerCallback tm)
  | None => Flow.ret tt
  end.

Definition step (a : Action) : M unit :=
  match a with
  | Invoke state callback opt_delay => invoke state callback opt_delay
  | TimerFired id => fire id
  | AnimationEnded => completion
  end.

Fixpoint steps (acts : list Action) : M unit :=
  match acts with
  | [] => Flow.ret tt
  | a :: rest => step a ;; steps rest
  end.

(** ** Vocabulary of the properties *)

(** Only the callback of the latest invocation is ever deferred, and once:
    [waiting] is the callback of the latest invocation when it has not
    been deferred yet. *)
Fixpoint latestOnly (waiting : option Callback) (evs : list Event) : Prop :=
  match evs with
  | [] => True
  | Invoked _ callback :: rest => latestOnly (Some callback) rest
  | Deferred callback :: rest =>
      waiting = Some callback /\ latestOnly None rest
  end.

(** The callback still waiting after the events. *)
Fixpoint waitingAfter (waiting : option Callback) (evs : list Event)
  : option Callback :=
  match evs with
  | [] => waiting
  | Invoked _ callback :: rest => waitingAfter (Some callback) rest
  | Deferred _ :: rest => waitingAfter None rest
  end.

(** The delayed invocation is a single slot: at most one timer is
    pending, and it is the one [invocationTimer_] holds. *)
Definition singleSlot (s : t) : Prop :=
  (List.length (timers s) <= 1)%nat /\
  (forall tm : Timer,
     In tm (timers s) -> invocationTimer_ s = Some (timerId tm)).

End StyleEffect.

Arguments create {State Callback}.
Arguments completion {State Callback}.
Arguments AnimationEnded {State Callback}.
Arguments TimerFired {State Callback} id.
Arguments Deferred {State Callback} callback.
Arguments clearTimeout {State Callback} id.
Arguments fire {State Callback} id.
End StyleEffect.

(* ===================================================================== *)
(** * util.js: camera.util.PointerTracker *)
(* ===================================================================== *)

Module PointerTracker.
Local Open Scope flow_scope.

(** The events the tracker listens to, with [screenX] and [screenY] for
    those of the mouse. *)
Inductive PointerEvent : Type :=
| MouseDown (screenX screenY : Z)
| MouseMove (screenX screenY : Z)
| TouchStart
| TouchMove.

Record t : Type := mk {
  lastMousePosition_ : option (Z * Z)
}.

Inductive Event : Type :=
| Callback (event : PointerEvent).  (* this.callback_(event) *)

Definition M : Type -> Type := Flow.M t Event.

Definition create : t := {| lastMousePosition_ := None |}.

Definition onMouseDown_ (screenX screenY : Z) : M unit :=
  Flow.emit (Callback (MouseDown screenX screenY)) ;;
  Flow.modify (fun _ => mk (Some (screenX, screenY))).

Definition onMouseMove_ (screenX screenY : Z) : M unit :=
  s <- Flow.get ;;
  (* Ignore mouse events, which are invoked on the same position. *)
  if match lastMousePosition_ s with
     | Some last => Z.eqb (fst last) screenX && Z.eqb (snd last) screenY
     | None => false
     end
  then Flow.ret tt
  else
    Flow.emit (Callback (MouseMove screenX screenY)) ;;
    Flow.modify (fun _ => mk (Some (screenX, screenY))).

Definition onTouchStart_ : M unit := Flow.emit (Callback TouchStart).
Definition onTouchMove_ : M unit := Flow.emit (Callback TouchMove).

(** The listener registered for each kind of event. *)
Definition handle (event : PointerEvent) : M unit :=
  match event with
  | MouseDown screenX screenY => onMouseDown_ screenX screenY
  | MouseMove screenX screenY => onMouseMove_ screenX screenY
  | TouchStart => onTouchStart_
  | TouchMove => onTouchMove_
  end.

Fixpoint handleAll (events : list PointerEvent) : M unit :=
  match events with
  | [] => Flow.ret tt
  | event :: rest => handle event ;; handleAll rest
  end.

(** ** Vocabulary of the properties *)

(** The position of a mouse event. *)
Definition position (event : PointerEvent) : option (Z * Z) :=
  match event with
  | MouseDown screenX screenY | MouseMove screenX screenY =>
      Some (screenX, screenY)
  | TouchStart | TouchMove => None
  end.

Definition samePosition (p q : Z * Z) : bool :=
  Z.eqb (fst p) (fst q) && Z.eqb (snd p) (snd q).

(** The events the callback is to see: all but the mouse moves made at
    the position [last] of the mouse event seen before. *)
Fixpoint reported (last : option (Z * Z)) (events : list PointerEvent)
  : list PointerEvent :=
  match events with
  | [] => []
  | MouseMove screenX screenY :: rest =>
      match last with
      | Some p =>
          if samePosition p (screenX, screenY) then reported last rest
          else MouseMove screenX screenY
               :: reported (Some (screenX, screenY)) rest
      | None =>
          MouseMove screenX screenY
          :: reported (Some (screenX, screenY)) rest
      end
  | MouseDown screenX screenY :: rest =>
      MouseDown screenX screenY :: reported (Some (screenX, screenY)) rest
  | event :: rest => event :: reported last rest
  end.

(** No mouse move in the list is at the position of the mouse event
    before it, [last] being the position of the one before the list. *)
Fixpoint moving (last : option (Z * Z)) (events : list PointerEvent)
  : Prop :=
  match events with
  | [] => True
  | MouseMove screenX screenY :: rest =>
      last <> Some (screenX, screenY)
      /\ moving (Some (screenX, screenY)) rest
  | MouseDown screenX screenY :: rest =>
      moving (Some (screenX, screenY)) rest
  | _ :: rest => moving last rest
  end.

(** The events handed to the callback. *)
Definition seen (evs : list Event) : list PointerEvent :=
  map (fun e => match e with Callback event => event end) evs.

End PointerTracker.

(* ===================================================================== *)
(** * util.js: camera.util.ScrollTracker *)
(* ===================================================================== *)

Module ScrollTracker.
Local Open Scope flow_scope.

(** A scroll position, [[scrollLeft, scrollTop]]. *)
Definition Position : Type := (Q * Q)%type.

Record t : Type := mk {
  timer_ : option positive;
  noChangeTimer_ : option positive;
  scrolling_ : bool;
  startScrollPosition_ : Position;
  lastScrollPosition_ : Position;
  touchPressed_ : bool;
  mousePressed_ : bool;
  nextTimerId : positive    (* the next identifier the host hands out *)
}.

Definition set_timer_ (x : option positive) (s : t) : t :=
  mk x (noChangeTimer_ s) (scrolling_ s) (startScrollPosition_ s)
     (lastScrollPosition_ s) (touchPressed_ s) (mousePressed_ s)
     (nextTimerId s).
Definition set_noChangeTimer_ (x : option positive) (s : t) : t :=
  mk (timer_ s) x (scrolling_ s) (startScrollPosition_ s)
     (lastScrollPosition_ s) (touchPressed_ s) (mousePressed_ s)
     (nextTimerId s).
Definition set_scrolling_ (b : bool) (s : t) : t :=
  mk (timer_ s) (noChangeTimer_ s) b (startScrollPosition_ s)
     (lastScrollPosition_ s) (touchPressed_ s) (mousePressed_ s)
     (nextTimerId s).
Definition set_startScrollPosition_ (p : Position) (s : t) : t :=
  mk (timer_ s) (noChangeTimer_ s) (scrolling_ s) p
     (lastScrollPosition_ s) (touchPressed_ s) (mousePressed_ s)
     (nextTimerId s).
Definition set_lastScrollPosition_ (p : Position) (s : t) : t :=
  mk (timer_ s) (noChangeTimer_ s) (scrolling_ s) (startScrollPosition_ s)
     p (touchPressed_ s) (mousePressed_ s) (nextTimerId s).
Definition set_touchPressed_ (b : bool) (s : t) : t :=
  mk (timer_ s) (noChangeTimer_ s) (scrolling_ s) (startScrollPosition_ s)
     (lastScrollPosition_ s) b (mousePressed_ s) (nextTimerId s).
Definition set_mousePressed_ (b : bool) (s : t) : t :=
  mk (timer_ s) (noChangeTimer_ s) (scrolling_ s) (startScrollPosition_ s)
     (lastScrollPosition_ s) (touchPressed_ s) b (nextTimerId s).
Definition set_nextTimerId (n : positive) (s : t) : t :=
  mk (timer_ s) (noChangeTimer_ s) (scrolling_ s) (startScrollPosition_ s)
     (lastScrollPosition_ s) (touchPressed_ s) (mousePressed_ s) n.

Inductive Event : Type :=
| OnScrollStarted   (* this.onScrollStarted_() *)
| OnScrollEnded.    (* this.onScrollEnded_() *)

Definition M : Type -> Type := Flow.M t Event.

(** The constructor. *)
Definition create : t :=
  {| timer_ := None; noChangeTimer_ := None; scrolling_ := false;
     startScrollPosition_ := (0, 0); lastScrollPosition_ := (0, 0);
     touchPressed_ := false; mousePressed_ := false;
     nextTimerId := 1%positive |}.

(** [get scrolling()]. *)
Definition scrolling (s : t) : bool := scrolling_ s.

(** [get delta()]. *)
Definition delta (s : t) : Position :=
  (fst (startScrollPosition_ s) - fst (lastScrollPosition_ s),
   snd (startScrollPosition_ s) - snd (lastScrollPosition_ s)).

(** [setInterval] and [setTimeout]: the host hands out a new
    identifier. *)
Definition newTimer : M positive :=
  s <- Flow.get ;;
  Flow.modify (set_nextTimerId (Pos.succ (nextTimerId s))) ;;
  Flow.ret (nextTimerId s).

Definition onMouseDown_ : M unit := Flow.modify (set_mousePressed_ true).
Definition onMouseUp_ : M unit := Flow.modify (set_mousePressed_ false).
Definition onTouchStart_ : M unit := Flow.modify (set_touchPressed_ true).
Definition onTouchEnd_ : M unit := Flow.modify (set_touchPressed_ false).

(** [start()]. *)
Definition start : M unit :=
  s <- Flow.get ;;
  match timer_ s with
  | Some _ => Flow.ret tt
  | None =>
      id <- newTimer ;;      (* setInterval(this.probe_.bind(this), 100) *)
      Flow.modify (set_timer_ (Some id))
  end.

(** [stop()]. *)
Definition stop : M unit :=
  s <- Flow.get ;;
  match timer_ s with
  | None => Flow.ret tt
  | Some _ => Flow.modify (set_timer_ None)   (* after clearTimeout *)
  end.

(** [var scrollChanged] of [probe_]. *)
Definition scrollChanged (scrollLeft scrollTop : Q) (animating : bool)
    (s : t) : bool :=
  negb (Qeq_bool scrollLeft (fst (lastScrollPosition_ s)))
  || negb (Qeq_bool scrollTop (snd (lastScrollPosition_ s)))
  || animating.

Definition isSet (timer : option positive) : bool :=
  match timer with
  | Some _ => true
  | None => false
  end.

(** [probe_()], the scroller reading [scrollLeft], [scrollTop] and
    [animating]. *)
Definition probe_ (scrollLeft scrollTop : Q) (animating : bool) : M unit :=
  s <- Flow.get ;;
  let changed := scrollChanged scrollLeft scrollTop animating s in
  (if changed then
     (if negb (scrolling_ s) then
        Flow.modify (set_startScrollPosition_ (scrollLeft, scrollTop)) ;;
        Flow.emit OnScrollStarted
      else Flow.ret tt) ;;
     Flow.modify (set_scrolling_ true)
   else
     if negb (mousePressed_ s) && negb (touchPressed_ s) && scrolling_ s
     then
       Flow.emit OnScrollEnded ;;
       Flow.modify (set_scrolling_ false)
     else Flow.ret tt) ;;
  (* Workaround for: crbug.com/135780. *)
  s <- Flow.get ;;
  (if touchPressed_ s then
     if changed then
       (* Scrolling changed, cancel the timer. *)
       if isSet (noChangeTimer_ s) then
         Flow.modify (set_noChangeTimer_ None)   (* after clearTimeout *)
       else Flow.ret tt
     else
       (* Scrolling previously, but now no change is detected, so set a
          timer. *)
       if scrolling_ s && negb (isSet (noChangeTimer_ s)) then
         id <- newTimer ;;
         Flow.modify (set_noChangeTimer_ (Some id))
       else Flow.ret tt
   else Flow.ret tt) ;;
  Flow.modify (set_lastScrollPosition_ (scrollLeft, scrollTop)).

(** The function handed to [setTimeout] with 200 ms by [probe_]. *)
Definition noChangeTimeout : M unit :=
  Flow.emit OnScrollEnded ;;
  Flow.modify (set_scrolling_ false) ;;
  Flow.modify (set_touchPressed_ false) ;;
  Flow.modify (set_noChangeTimer_ None).

(** What happens to a tracker.  The host calls [probe_] at the ticks of
    the interval [timer_] holds, and the 200 ms function when its timer
    is due: [noChangeTimer_] is reset whenever that timer is cancelled or
    has fired, so it holds a timer exactly while one is pending. *)
Inductive Action : Type :=
| Start
| Stop
| MouseDown
| MouseUp
| TouchStart
| TouchEnd
| Tick (scrollLeft scrollTop : Q) (animating : bool)
| NoChangeTimerFired.

Definition step (a : Action) : M unit :=
  match a with
  | Start => start
  | Stop => stop
  | MouseDown => onMouseDown_
  | MouseUp => onMouseUp_
  | TouchStart => onTouchStart_
  | TouchEnd => onTouchEnd_
  | Tick scrollLeft scrollTop animating =>
      s <- Flow.get ;;
      if isSet (timer_ s) then probe_ scrollLeft scrollTop animating
      else Flow.ret tt
  | NoChangeTimerFired =>
      s <- Flow.get ;;
      if isSet (noChangeTimer_ s) then noChangeTimeout
      else Flow.ret tt
  end.

Fixpoint steps (acts : list Action) : M unit :=
  match acts with
  | [] => Flow.ret tt
  | a :: rest => step a ;; steps rest
  end.

(** ** Vocabulary of the properties *)

(** A start is reported only while no scroll is under way, and an end
    only after a start: [scrolling] tells whether the last report before
    the list was a start, [begun] whether there was a start at all. *)
Fixpoint startsOnce (scrolling begun : bool) (evs : list Event) : Prop :=
  match evs with
  | [] => True
  | OnScrollStarted :: rest =>
      scrolling = false /\ startsOnce true true rest
  | OnScrollEnded :: rest =>
      begun = true /\ startsOnce false begun rest
  end.

(** Whether the last report is a start. *)
Fixpoint scrollingAfter (scrolling : bool) (evs : list Event) : bool :=
  match evs with
  | [] => scrolling
  | OnScrollStarted :: rest => scrollingAfter true rest
  | OnScrollEnded :: rest => scrollingAfter false rest
  end.

(** What is known of a tracker between two calls: a scroll under way or
    a pending 200 ms timer come after a reported start. *)
Definition begunBy (begun : bool) (s : t) : Prop :=
  (scrolling_ s = true -> begun = true)
  /\ (isSet (noChangeTimer_ s) = true -> begun = true).

End ScrollTracker.

(* ===================================================================== *)
(** * util.js: camera.util.Puller *)
(* ===================================================================== *)

Module Puller.
Local Open Scope flow_scope.

(** A point of the screen, [[x, y]]. *)
Definition Point : Type := (Z * Z)%type.

Record t : Type := mk {
  pullStartPoint_ : option Point;
  pullLastPoint_ : option Point
}.

Inductive Event : Type :=
| ResetClassRemoved            (* wrapper_.classList.remove('puller-reset') *)
| Translated (pixels : Q)      (* webkitTransform = 'translateY(...px)' *)
| OnPullReleased (distance : Z)  (* this.onPullReleased_(distance) *)
| ResetClassAdded              (* wrapper_.classList.add('puller-reset') *)
| TransformCleared             (* webkitTransform = '' *)
| DefaultPrevented             (* event.preventDefault() *)
| TypeError.                   (* reading [1] of null *)

Definition M : Type -> Type := Flow.M t Event.

(** The constructor. *)
Definition create : t :=
  {| pullStartPoint_ := None; pullLastPoint_ := None |}.

(** [startPulling_(x, y)]. *)
Definition startPulling_ (x y : Z) : M unit :=
  Flow.modify (fun s => mk (Some (x, y)) (pullLastPoint_ s)) ;;
  Flow.modify (fun s => mk (pullStartPoint_ s) (Some (x, y))) ;;
  Flow.emit ResetClassRemoved.

(** [updatePulling_(x, y)]. *)
Definition updatePulling_ (x y : Z) : M bool :=
  s <- Flow.get ;;
  match pullStartPoint_ s with
  | None => Flow.ret false
  | Some start =>
      let distance := (y - snd start)%Z in
      Flow.emit (Translated (inject_Z distance / 3)) ;;
      Flow.modify (fun s => mk (pullStartPoint_ s) (Some (x, y))) ;;
      Flow.ret true
  end.

(** [endPulling_()]. *)
Definition endPulling_ : M unit :=
  s <- Flow.get ;;
  match pullStartPoint_ s with
  | None => Flow.ret tt
  | Some start =>
      match pullLastPoint_ s with
      | None => Flow.emit TypeError
      | Some last =>
          let distance := (snd last - snd start)%Z in
          Flow.emit (OnPullReleased distance) ;;
          Flow.emit ResetClassAdded ;;
          Flow.emit TransformCleared ;;
          Flow.modify (fun s => mk None (pullLastPoint_ s)) ;;
          Flow.modify (fun s => mk (pullStartPoint_ s) None)
      end
  end.

Definition onTouchStart_ (screenX screenY : Z) : M unit :=
  startPulling_ screenX screenY.

Definition onTouchMove_ (screenX screenY : Z) : M unit :=
  handled <- updatePulling_ screenX screenY ;;
  if handled then Flow.emit DefaultPrevented  (* no native scrolling *)
  else Flow.ret tt.

Definition onTouchEnd_ : M unit := endPulling_.

Definition onMouseDown_ (screenX screenY : Z) : M unit :=
  startPulling_ screenX screenY.

Definition onMouseMove_ (screenX screenY : Z) : M unit :=
  _ <- updatePulling_ screenX screenY ;; Flow.ret tt.

Definition onMouseUp_ : M unit := endPulling_.

(** The events the puller listens to: touches and presses on the
    element, moves and releases anywhere in the window. *)
Inductive Action : Type :=
| TouchStart (screenX screenY : Z)
| TouchMove (screenX screenY : Z)
| TouchEnd
| MouseDown (screenX screenY : Z)
| MouseMove (screenX screenY : Z)
| MouseUp.

Definition step (a : Action) : M unit :=
  match a with
  | TouchStart x y => onTouchStart_ x y
  | TouchMove x y => onTouchMove_ x y
  | TouchEnd => onTouchEnd_
  | MouseDown x y => onMouseDown_ x y
  | MouseMove x y => onMouseMove_ x y
  | MouseUp => onMouseUp_
  end.

Fixpoint steps (acts : list Action) : M unit :=
  match acts with
  | [] => Flow.ret tt
  | a :: rest => step a ;; steps rest
  end.

(** ** Vocabulary of the properties *)

(** Where a press or a move is made. *)
Definition point (a : Action) : option Point :=
  match a with
  | TouchStart x y | TouchMove x y | MouseDown x y | MouseMove x y =>
      Some (x, y)
  | TouchEnd | MouseUp => None
  end.

Definition isStart (a : Action) : bool :=
  match a with
  | TouchStart _ _ | MouseDown _ _ => true
  | _ => false
  end.

Definition isMove (a : Action) : bool :=
  match a with
  | TouchMove _ _ | MouseMove _ _ => true
  | _ => false
  end.

Definition isEnd (a : Action) : bool :=
  match a with
  | TouchEnd | MouseUp => true
  | _ => false
  end.

(** The point the pull has reached after the moves, from [p]. *)
Definition reached (p : Point) (moves : list Action) : Point :=
  fold_left (fun q a => match point a with Some r => r | None => q end)
            moves p.

(** The distances handed to [onPullReleased_]. *)
Fixpoint released (evs : list Event) : list Z :=
  match evs with
  | OnPullReleased distance :: rest => distance :: released rest
  | _ :: rest => released rest
  | [] => []
  end.

End Puller.

(* ===================================================================== *)
(** * util.js: camera.util.SmoothScroller *)
(* ===================================================================== *)

(** [Math.min] and [Math.max] on numbers that are neither [NaN] nor
    infinite. *)
Module JSMath.
Definition min (x y : Q) : Q := if Qle_bool x y then x else y.
Definition max (x y : Q) : Q := if Qle_bool x y then y else x.
End JSMath.

Module SmoothScroller.
Local Open Scope flow_scope.

(** [camera.util.SmoothScroller.Mode]. *)
Inductive Mode : Type :=
| SMOOTH    (* 0 *)
| INSTANT.  (* 1 *)

(** What the getters read from the DOM when a function runs: the sizes of
    the padder and of the element, and the place where the padder is
    drawn ([-getBoundingClientRect().left] and [.top]), which during a
    transition lies between its ends. *)
Record Layout : Type := mkLayout {
  scrollWidth : Q;
  scrollHeight : Q;
  clientWidth : Q;
  clientHeight : Q;
  scrollLeft : Q;
  scrollTop : Q
}.

(** The object and the properties of the DOM it writes:
    [element_.scrollLeft] and [element_.scrollTop] (read back as they
    were assigned), [padder_.style.webkitTransform] ([None] for the empty
    string, else the two lengths of [translate], two transforms being
    compared by their lengths) and [padder_.style.transition] (set or
    empty).  [waits] holds the calls of [waitForTransitionCompletion] on
    the padder, each with the [currentAnimationId] of its callback. *)
Record t : Type := mk {
  animating_ : bool;
  animationId_ : nat;
  element_scrollLeft : Q;
  element_scrollTop : Q;
  webkitTransform : option (Q * Q);
  transition : bool;
  waits : list (nat * Completion.t)
}.

Definition set_animating_ (b : bool) (s : t) : t :=
  mk b (animationId_ s) (element_scrollLeft s) (element_scrollTop s)
     (webkitTransform s) (transition s) (waits s).
Definition set_animationId_ (n : nat) (s : t) : t :=
  mk (animating_ s) n (element_scrollLeft s) (element_scrollTop s)
     (webkitTransform s) (transition s) (waits s).
Definition set_element_scroll (x y : Q) (s : t) : t :=
  mk (animating_ s) (animationId_ s) x y
     (webkitTransform s) (transition s) (waits s).
Definition set_style (transform : option (Q * Q)) (transitioned : bool)
    (s : t) : t :=
  mk (animating_ s) (animationId_ s) (element_scrollLeft s)
     (element_scrollTop s) transform transitioned (waits s).
Definition set_waits (l : list (nat * Completion.t)) (s : t) : t :=
  mk (animating_ s) (animationId_ s) (element_scrollLeft s)
     (element_scrollTop s) (webkitTransform s) (transition s) l.

(** The scroller calls nothing but the DOM properties above. *)
Definition M : Type -> Type := Flow.M t Empty_set.

(** The constructor, on an element not scrolled yet. *)
Definition create : t :=
  {| animating_ := false; animationId_ := 0;
     element_scrollLeft := 0; element_scrollTop := 0;
     webkitTransform := None; transition := false; waits := [] |}.

(** [get animating()]. *)
Definition animating (s : t) : bool := animating_ s.

(** [flushScroll_()]. *)
Definition flushScroll_ (dom : Layout) : M unit :=
  let scrollLeft := scrollLeft dom in
  let scrollTop := scrollTop dom in
  Flow.modify (set_style None false) ;;
  Flow.modify (set_element_scroll scrollLeft scrollTop) ;;
  (* Invalidate the animation by increasing the id. *)
  Flow.modify (fun s => set_animationId_ (S (animationId_ s)) s) ;;
  Flow.modify (set_animating_ false).

(** The callback [scrollTo] hands to [waitForTransitionCompletion]. *)
Definition onTransitionCompleted (currentAnimationId : nat) (dom : Layout)
  : M unit :=
  s <- Flow.get ;;
  (* Check if the animation got invalidated by a later scroll. *)
  if Nat.eqb currentAnimationId (animationId_ s) then flushScroll_ dom
  else Flow.ret tt.

Definition sameTransform (a b : Q * Q) : bool :=
  Qeq_bool (fst a) (fst b) && Qeq_bool (snd a) (snd b).

(** [scrollTo(x, y, opt_mode)]; [None] is an [opt_mode] left
    [undefined]. *)
Definition scrollTo (dom : Layout) (x y : Q) (opt_mode : option Mode)
  : M unit :=
  let mode :=                       (* opt_mode || Mode.SMOOTH *)
    match opt_mode with
    | Some INSTANT => INSTANT
    | _ => SMOOTH
    end in
  (* Limit to the allowed values. *)
  let x := JSMath.max 0 (JSMath.min x (scrollWidth dom - clientWidth dom)) in
  let y :=
    JSMath.max 0 (JSMath.min y (scrollHeight dom - clientHeight dom)) in
  match mode with
  | INSTANT =>
      (* Cancel any current animations. *)
      s <- Flow.get ;;
      (if animating_ s then flushScroll_ dom else Flow.ret tt) ;;
      Flow.modify (set_element_scroll x y)
  | SMOOTH =>
      s <- Flow.get ;;
      (* Calculate translating offset using the accelerated CSS3
         transform. *)
      let dx := x - element_scrollLeft s in
      let dy := y - element_scrollTop s in
      let transformString := (- dx, - dy) in
      (* If nothing to change, then return. *)
      if match webkitTransform s with
         | Some current => sameTransform current transformString
         | None => Qeq_bool dx 0 && Qeq_bool dy 0
         end
      then Flow.ret tt
      else
        (* Invalidate previous invocations. *)
        Flow.modify (fun s => set_animationId_ (S (animationId_ s)) s) ;;
        s <- Flow.get ;;
        let currentAnimationId := animationId_ s in
        (* Start the accelerated animation. *)
        Flow.modify (set_animating_ true) ;;
        Flow.modify (set_style (Some transformString) true) ;;
        Flow.modify (fun s =>
          set_waits (waits s ++ [(currentAnimationId, Completion.wait 0)])
                    s)
  end.

(** An end-of-transition event reaches the padder: each wait sees it, in
    the order the listeners were added, and the waits it completes run
    their callbacks. *)
Fixpoint dispatch (sameElement : bool) (dom : Layout)
    (pending : list (nat * Completion.t)) : M (list (nat * Completion.t)) :=
  match pending with
  | [] => Flow.ret []
  | (currentAnimationId, w) :: rest =>
      let listener := Completion.step (Completion.Dispatched sameElement) in
      match Flow.trace listener w with
      | [] => Flow.ret tt
      | _ :: _ => onTransitionCompleted currentAnimationId dom
      end ;;
      rest' <- dispatch sameElement dom rest ;;
      Flow.ret ((currentAnimationId, Flow.exec listener w) :: rest')
  end.

(** What happens to a scroller. *)
Inductive Action : Type :=
| ScrollTo (dom : Layout) (x y : Q) (opt_mode : option Mode)
| TransitionEnd (sameElement : bool) (dom : Layout).

Definition step (a : Action) : M unit :=
  match a with
  | ScrollTo dom x y opt_mode => scrollTo dom x y opt_mode
  | TransitionEnd sameElement dom =>
      s <- Flow.get ;;
      rest <- dispatch sameElement dom (waits s) ;;
      Flow.modify (set_waits rest)
  end.

Fixpoint steps (acts : list Action) : M unit :=
  match acts with
  | [] => Flow.ret tt
  | a :: rest => step a ;; steps rest
  end.

(** ** Vocabulary of the properties *)

(** A wait that has not completed yet. *)
Definition waiting (w : Completion.t) : bool :=
  negb (Completion.completed w) && Completion.listening w.

(** The scroller is consistent: it is animating exactly while a
    transform is set on the padder, and exactly while the wait of the
    current animation has not completed; no wait is for a later
    animation. *)
Definition consistent (s : t) : Prop :=
  (animating_ s = true <-> webkitTransform s <> None)
  /\ transition s = animating_ s
  /\ (animating_ s = true ->
      exists w : Completion.t,
        In (animationId_ s, w) (waits s) /\ waiting w = true)
  /\ (forall (id : nat) (w : Completion.t),
        In (id, w) (waits s) -> (id <= animationId_ s)%nat)
  /\ (forall w : Completion.t,
        In (animationId_ s, w) (waits s) -> waiting w = true ->
        animating_ s = true).

(** The scroller after [flushScroll_], the padder being drawn where [dom]
    tells. *)
Definition flushed (dom : Layout) (s : t) : t :=
  mk false (S (animationId_ s)) (scrollLeft dom) (scrollTop dom)
     None false (waits s).

(** Nothing is being animated and the padder carries no style. *)
Definition settled (s : t) : Prop :=
  animating_ s = false /\ webkitTransform s = None /\ transition s = false.

(** [x] limited to the allowed values, from 0 to [limit]. *)
Definition limited (x limit : Q) : Q :=
  JSMath.max 0 (JSMath.min x limit).

End SmoothScroller.

(* ===================================================================== *)
(** * util.js: camera.util.MouseScroller *)
(* ===================================================================== *)

Module MouseScroller.
Local Open Scope flow_scope.

Record t : Type := mk {
  startPosition_ : option (Z * Z);
  startScrollPosition_ : option (Q * Q)
}.

Inductive Event : Type :=
| ScrollTo (x y : Q) (mode : SmoothScroller.Mode)
    (* this.scroller_.scrollTo(scrollLeft, scrollTop, Mode.INSTANT) *)
| TypeError.
    (* reading [0] of null *)

Definition M : Type -> Type := Flow.M t Event.

(** The constructor. *)
Definition create : t :=
  {| startPosition_ := None; startScrollPosition_ := None |}.

(** [onMouseDown_(event)], the scroller reading [scrollLeft] and
    [scrollTop]. *)
Definition onMouseDown_ (which screenX screenY : Z)
    (scrollLeft scrollTop : Q) : M unit :=
  if negb (Z.eqb which 1) then Flow.ret tt
  else
    Flow.modify (fun s => mk (Some (screenX, screenY))
                             (startScrollPosition_ s)) ;;
    Flow.modify (fun s => mk (startPosition_ s)
                             (Some (scrollLeft, scrollTop))).

(** [onMouseMove_(event)]. *)
Definition onMouseMove_ (which screenX screenY : Z) : M unit :=
  s <- Flow.get ;;
  match startPosition_ s with
  | None => Flow.ret tt
  | Some startPosition =>
      (* It may happen that we won't receive the mouseup event, when
         clicking on the -webkit-app-region: drag area. *)
      if negb (Z.eqb which 1) then
        Flow.modify (fun s => mk None (startScrollPosition_ s)) ;;
        Flow.modify (fun s => mk (startPosition_ s) None)
      else
        match startScrollPosition_ s with
        | None => Flow.emit TypeError
        | Some startScrollPosition =>
            let scrollLeft :=
              fst startScrollPosition
              - inject_Z (screenX - fst startPosition) in
            let scrollTop :=
              snd startScrollPosition
              - inject_Z (screenY - snd startPosition) in
            Flow.emit (ScrollTo scrollLeft scrollTop SmoothScroller.INSTANT)
        end
  end.

(** [onMouseUp_(event)]. *)
Definition onMouseUp_ : M unit :=
  Flow.modify (fun s => mk None (startScrollPosition_ s)) ;;
  Flow.modify (fun s => mk (startPosition_ s) None).

(** The events the scroller listens to: presses on the element, with the
    readings of the scroller, moves and releases anywhere in the
    window. *)
Inductive Action : Type :=
| MouseDown (which screenX screenY : Z) (scrollLeft scrollTop : Q)
| MouseMove (which screenX screenY : Z)
| MouseUp.

Definition step (a : Action) : M unit :=
  match a with
  | MouseDown which x y scrollLeft scrollTop =>
      onMouseDown_ which x y scrollLeft scrollTop
  | MouseMove which x y => onMouseMove_ which x y
  | MouseUp => onMouseUp_
  end.

Fixpoint steps (acts : list Action) : M unit :=
  match acts with
  | [] => Flow.ret tt
  | a :: rest => step a ;; steps rest
  end.

(** ** Vocabulary of the properties *)

(** A move of the mouse with the first button held. *)
Definition drag (p : Z * Z) : Action := MouseMove 1 (fst p) (snd p).

(** The scroll position that puts under the mouse at [p] what was under
    it at [start] when the scroll position was [startScroll]. *)
Definition follows (start : Z * Z) (startScroll : Q * Q) (p : Z * Z)
  : Event :=
  ScrollTo (fst startScroll - inject_Z (fst p - fst start))
           (snd startScroll - inject_Z (snd p - snd start))
           SmoothScroller.INSTANT.

(** Pressing the first button on the element. *)
Definition pressesFirst (a : Action) : bool :=
  match a with
  | MouseDown which _ _ _ _ => Z.eqb which 1
  | _ => false
  end.

(** What ends a drag: releasing the button, or a move that shows the
    first button is no longer held. *)
Definition endsDrag (a : Action) : bool :=
  match a with
  | MouseUp => true
  | MouseMove which _ _ => negb (Z.eqb which 1)
  | MouseDown _ _ _ _ _ => false
  end.

End MouseScroller.

(* ===================================================================== *)
(** * util.js: camera.util.getShortcutIdentifier *)
(* ===================================================================== *)

Module Keyboard.
Local Open Scope string_scope.

(** What [getShortcutIdentifier] reads of a keyboard event.  [None] is a property that is [undefined]. *)
Record KeyboardEvent : Type := mkEvent {
  ctrlKey : bool;
  altKey : bool;
  shiftKey : bool;
  metaKey : bool;
  keyIdentifier : option string;
  key : option string
}.

(** A string in a condition: [undefined] and the empty string are
    false. *)
Definition truthy (s : option string) : bool :=
  match s with
  | Some s => negb (String.eqb s EmptyString)
  | None => false
  end.

(** The [switch] on [event.keyIdentifier]. *)
Definition ofKeyIdentifier (keyIdentifier : string) : string :=
  if String.eqb keyIdentifier "U+001B" then "Escape"
  else if String.eqb keyIdentifier "U+007F" then "Delete"
  else if String.eqb keyIdentifier "U+0020" then "Space"
  else if String.eqb keyIdentifier "U+0041" then "A"
  else if String.eqb keyIdentifier "U+0050" then "P"
  else if String.eqb keyIdentifier "U+0053" then "S"
  else if String.eqb keyIdentifier "U+0047" then "G"
  else keyIdentifier.

(** The [switch] on [event.key]. *)
Definition ofKey (key : string) : string :=
  if String.eqb key "ArrowLeft" then "Left"
  else if String.eqb key "ArrowRight" then "Right"
  else if String.eqb key "ArrowDown" then "Down"
  else if String.eqb key "ArrowUp" then "Up"
  else if String.eqb key " " then "Space"
  else if String.eqb key "a" then "A"
  else if String.eqb key "p" then "P"
  else if String.eqb key "s" then "S"
  else if String.eqb key "g" then "G"
  else key.

(** The modifiers of the identifier. *)
Definition modifiers (event : KeyboardEvent) : string :=
  (if ctrlKey event then "Ctrl-" else EmptyString)
  ++ (if altKey event then "Alt-" else EmptyString)
  ++ (if shiftKey event then "Shift-" else EmptyString)
  ++ (if metaKey event then "Meta-" else EmptyString).

(** [camera.util.getShortcutIdentifier(event)]. *)
Definition getShortcutIdentifier (event : KeyboardEvent) : string :=
  let identifier := modifiers event in
  (* Handle both KeyboardEvent keyIdentifier and key. *)
  let identifier :=
    if truthy (keyIdentifier event) && negb (truthy (key event)) then
      match keyIdentifier event with
      | Some keyIdentifier => identifier ++ ofKeyIdentifier keyIdentifier
      | None => identifier
      end
    else identifier in
  if truthy (key event) then
    match key event with
    | Some key => identifier ++ ofKey key
    | None => identifier
    end
  else identifier.

(** ** Vocabulary of the properties *)

(** Some modifier is held. *)
Definition modified (event : KeyboardEvent) : bool :=
  ctrlKey event || altKey event || shiftKey event || metaKey event.

(** The event of a browser that knows [keyIdentifier] only, and of one
    that knows [key] only, the modifiers being those of [event]. *)
Definition legacy (event : KeyboardEvent) (keyIdentifier : string)
  : KeyboardEvent :=
  mkEvent (ctrlKey event) (altKey event) (shiftKey event) (metaKey event)
          (Some keyIdentifier) None.
Definition modern (event : KeyboardEvent) (key : string) : KeyboardEvent :=
  mkEvent (ctrlKey event) (altKey event) (shiftKey event) (metaKey event)
          None (Some key).

(** The keys the two [switch] statements both know, as [keyIdentifier]
    and as [key]. *)
Definition bothKnown : list (string * string) :=
  [("U+0020", " "); ("U+0041", "a"); ("U+0050", "p"); ("U+0053", "s");
   ("U+0047", "g"); ("U+001B", "Escape"); ("U+007F", "Delete")].

(** The identifiers the view compares the result with (the [switch]
    statements of [onWindowKeyDown_] and [onKeyPressed], and the tests
    of the toggles). *)
Definition shortcuts : list string :=
  ["Right"; "Left"; "Up"; "Down"; "Space"; "Home"; "End"; "Escape"; "G";
   "Enter"].

End Keyboard.

(* ===================================================================== *)
(** * camera.js: camera.views.Camera, the ribbon and the window controls *)
(* ===================================================================== *)

Module Controls.
Local Open Scope flow_scope.

(** The completion callbacks the view hands to its effects. *)
Inductive Callback : Type :=
| SetExpanded   (* function() { this.expanded_ = true; } *)
| Noop.         (* function() {} *)

(** The fields of the view the handlers below use, with the two classes
    the closures of the effects set on the page, the functions the
    effects have handed to [setTimeout(callback, 0)] and that the host
    has not run yet, and the host's pending collapse timers. *)
Record t : Type := mk {
  performanceTestTimer_ : option positive;
  expanded_ : bool;
  controlsVisible_ : bool;
  collapseTimer_ : option positive;
  toolbarEffect_ : StyleEffect.t bool Callback;
  controlsEffect_ : StyleEffect.t bool Callback;
  toolbarExpanded : bool;      (* #toolbar has the class 'expanded' *)
  controlsShown : bool;        (* body has the class 'controls-visible' *)
  deferred : list Callback;
  collapseTimers : list positive;
  nextTimerId : positive
}.

Definition set_expanded_ (b : bool) (s : t) : t :=
  mk (performanceTestTimer_ s) b (controlsVisible_ s) (collapseTimer_ s)
     (toolbarEffect_ s) (controlsEffect_ s) (toolbarExpanded s)
     (controlsShown s) (deferred s) (collapseTimers s) (nextTimerId s).
Definition set_controlsVisible_ (b : bool) (s : t) : t :=
  mk (performanceTestTimer_ s) (expanded_ s) b (collapseTimer_ s)
     (toolbarEffect_ s) (controlsEffect_ s) (toolbarExpanded s)
     (controlsShown s) (deferred s) (collapseTimers s) (nextTimerId s).
Definition set_collapseTimer_ (x : option positive) (s : t) : t :=
  mk (performanceTestTimer_ s) (expanded_ s) (controlsVisible_ s) x
     (toolbarEffect_ s) (controlsEffect_ s) (toolbarExpanded s)
     (controlsShown s) (deferred s) (collapseTimers s) (nextTimerId s).
Definition set_toolbarEffect_ (e : StyleEffect.t bool Callback) (s : t)
  : t :=
  mk (performanceTestTimer_ s) (expanded_ s) (controlsVisible_ s)
     (collapseTimer_ s) e (controlsEffect_ s) (toolbarExpanded s)
     (controlsShown s) (deferred s) (collapseTimers s) (nextTimerId s).
Definition set_controlsEffect_ (e : StyleEffect.t bool Callback) (s : t)
  : t :=
  mk (performanceTestTimer_ s) (expanded_ s) (controlsVisible_ s)
     (collapseTimer_ s) (toolbarEffect_ s) e (toolbarExpanded s)
     (controlsShown s) (deferred s) (collapseTimers s) (nextTimerId s).
Definition set_toolbarExpanded (b : bool) (s : t) : t :=
  mk (performanceTestTimer_ s) (expanded_ s) (controlsVisible_ s)
     (collapseTimer_ s) (toolbarEffect_ s) (controlsEffect_ s) b
     (controlsShown s) (deferred s) (collapseTimers s) (nextTimerId s).
Definition set_controlsShown (b : bool) (s : t) : t :=
  mk (performanceTestTimer_ s) (expanded_ s) (controlsVisible_ s)
     (collapseTimer_ s) (toolbarEffect_ s) (controlsEffect_ s)
     (toolbarExpanded s) b (deferred s) (collapseTimers s) (nextTimerId s).
Definition set_deferred (l : list Callback) (s : t) : t :=
  mk (performanceTestTimer_ s) (expanded_ s) (controlsVisible_ s)
     (collapseTimer_ s) (toolbarEffect_ s) (controlsEffect_ s)
     (toolbarExpanded s) (controlsShown s) l (collapseTimers s)
     (nextTimerId s).
Definition set_collapseTimers (l : list positive) (n : positive) (s : t)
  : t :=
  mk (performanceTestTimer_ s) (expanded_ s) (controlsVisible_ s)
     (collapseTimer_ s) (toolbarEffect_ s) (controlsEffect_ s)
     (toolbarExpanded s) (controlsShown s) (deferred s) l n.

(** The changes of the page: the two classes. *)
Inductive Event : Type :=
| ToolbarExpanded (expanded : bool)
    (* toolbar.classList.add('expanded') / remove('expanded') *)
| ControlsShown (visible : bool).
    (* document.body.classList.add / remove('controls-visible') *)

Definition M : Type -> Type := Flow.M t Event.

(** The view as constructed, the page showing the window controls and
    the toolbar collapsed; [performanceTestTimer] is set while a
    performance test runs. *)
Definition create (performanceTestTimer : option positive) : t :=
  {| performanceTestTimer_ := performanceTestTimer;
     expanded_ := false;
     controlsVisible_ := true;
     collapseTimer_ := None;
     toolbarEffect_ := StyleEffect.create;
     controlsEffect_ := StyleEffect.create;
     toolbarExpanded := false;
     controlsShown := true;
     deferred := [];
     collapseTimers := [];
     nextTimerId := 1%positive |}.

Definition isSet (timer : option positive) : bool :=
  match timer with
  | Some _ => true
  | None => false
  end.

(** ** The two effects *)

(** The closure of [toolbarEffect_], as far as the class of the toolbar
    goes (the tab order and the focus are left out), and what the effect
    does with its callbacks. *)
Fixpoint toolbarClosure (evs : list (StyleEffect.Event bool Callback))
  : M unit :=
  match evs with
  | [] => Flow.ret tt
  | StyleEffect.Invoked args _ :: rest =>
      Flow.emit (ToolbarExpanded args) ;;
      Flow.modify (set_toolbarExpanded args) ;;
      toolbarClosure rest
  | StyleEffect.Deferred callback :: rest =>
      Flow.modify (fun s => set_deferred (deferred s ++ [callback]) s) ;;
      toolbarClosure rest
  end.

(** The closure of [controlsEffect_]. *)
Fixpoint controlsClosure (evs : list (StyleEffect.Event bool Callback))
  : M unit :=
  match evs with
  | [] => Flow.ret tt
  | StyleEffect.Invoked args _ :: rest =>
      Flow.emit (ControlsShown args) ;;
      Flow.modify (set_controlsShown args) ;;
      controlsClosure rest
  | StyleEffect.Deferred callback :: rest =>
      Flow.modify (fun s => set_deferred (deferred s ++ [callback]) s) ;;
      controlsClosure rest
  end.

(** A method of [toolbarEffect_], called by the view. *)
Definition onToolbarEffect (c : StyleEffect.M bool Callback unit)
  : M unit :=
  s <- Flow.get ;;
  Flow.modify (set_toolbarEffect_ (Flow.exec c (toolbarEffect_ s))) ;;
  toolbarClosure (Flow.trace c (toolbarEffect_ s)).

(** A method of [controlsEffect_], called by the view. *)
Definition onControlsEffect (c : StyleEffect.M bool Callback unit)
  : M unit :=
  s <- Flow.get ;;
  Flow.modify (set_controlsEffect_ (Flow.exec c (controlsEffect_ s))) ;;
  controlsClosure (Flow.trace c (controlsEffect_ s)).

(** ** setExpanded_ and setControlsVisible_ *)

(** [setExpanded_(expanded)]; [hovered] is what
    [webkitMatchesSelector(':hover')] answers for the toolbar. *)
Definition setExpanded_ (hovered : bool) (expanded : bool) : M unit :=
  s <- Flow.get ;;
  match collapseTimer_ s with
  | Some id =>
      Flow.modify (fun s =>
        set_collapseTimers
          (filter (fun other => negb (Pos.eqb other id)) (collapseTimers s))
          (nextTimerId s) s) ;;                     (* clearTimeout *)
      Flow.modify (set_collapseTimer_ None)
  | None => Flow.ret tt
  end ;;
  s <- Flow.get ;;
  if expanded then
    (if negb hovered && negb (isSet (performanceTestTimer_ s)) then
       let id := nextTimerId s in   (* setTimeout(setExpanded_(false), 3000) *)
       Flow.modify
         (set_collapseTimers (collapseTimers s ++ [id]) (Pos.succ id)) ;;
       Flow.modify (set_collapseTimer_ (Some id))
     else Flow.ret tt) ;;
    if negb (expanded_ s) then
      onToolbarEffect (StyleEffect.invoke true SetExpanded None)
    else Flow.ret tt
  else
    if expanded_ s then
      Flow.modify (set_expanded_ false) ;;
      onToolbarEffect (StyleEffect.invoke false Noop None)
    else Flow.ret tt.

(** [setControlsVisible_(visible, opt_delay)]. *)
Definition setControlsVisible_ (visible : bool) (opt_delay : option Z)
  : M unit :=
  s <- Flow.get ;;
  if Bool.eqb (controlsVisible_ s) visible then Flow.ret tt
  else
    onControlsEffect (StyleEffect.invoke visible Noop opt_delay) ;;
    (* Set the visibility property as soon as possible, to avoid races. *)
    Flow.modify (set_controlsVisible_ visible).

(** ** The handlers *)

(** [if (this.performanceTestTimer_) return;] *)
Definition unlessTesting (c : M unit) : M unit :=
  s <- Flow.get ;;
  if isSet (performanceTestTimer_ s) then Flow.ret tt else c.

Definition onFiltersToggleClicked_ (hovered : bool) : M unit :=
  unlessTesting (
    s <- Flow.get ;;
    setExpanded_ hovered (negb (expanded_ s))).

Definition onRibbonPullReleased_ (hovered : bool) (distance : Z) : M unit :=
  unlessTesting (
    s <- Flow.get ;;
    if (distance <? -50)%Z then setExpanded_ hovered (negb (expanded_ s))
    else if (25 <? distance)%Z then setExpanded_ hovered false
    else Flow.ret tt).

(** [onWindowMouseOut_(event)]; [leftWindow] is
    [event.toElement === null]. *)
Definition onWindowMouseOut_ (leftWindow : bool) : M unit :=
  unlessTesting (
    if negb leftWindow then Flow.ret tt
    else setControlsVisible_ false (Some 1000%Z)).

(** The keys that hide the controls, in [onWindowKeyDown_]. *)
Definition navigationKeys : list string :=
  ["Right"; "Left"; "Up"; "Down"; "Space"; "Home"; "End"]%string.

(** [onWindowKeyDown_(event)]; [ribbonFocused] is
    [document.activeElement == document.querySelector('#effects-wrapper')]. *)
Definition onWindowKeyDown_ (hovered ribbonFocused : bool)
    (event : Keyboard.KeyboardEvent) : M unit :=
  unlessTesting (
    (* When the ribbon is focused, then do not collapse it when pressing
       keys. *)
    if ribbonFocused then
      setExpanded_ hovered true ;;
      setControlsVisible_ true None
    else
      (* If anything else is focused, then hide controls when navigation
         keys are pressed (or space). *)
      if existsb (String.eqb (Keyboard.getShortcutIdentifier event))
                 navigationKeys
      then
        setControlsVisible_ false None ;;
        setControlsVisible_ true None      (* no break: falls through *)
      else setControlsVisible_ true None).

(** [onPointerActivity_(event)]; [mousedown] is [event.type ==
    'mousedown'] and [onStaticArea] tells whether the target is the body
    or lies in one of the wrappers of the main canvases. *)
Definition onPointerActivity_ (hovered mousedown onStaticArea : bool)
  : M unit :=
  unlessTesting (
    (* Show the window controls. *)
    setControlsVisible_ true None ;;
    (* Update the ribbon's visibility. *)
    s <- Flow.get ;;
    if mousedown && onStaticArea then
      (* Toggle the ribbon if clicking on static area. *)
      setExpanded_ hovered (negb (expanded_ s))
    else
      (* Prevent auto-hiding the ribbon for any other activity. *)
      if expanded_ s then setExpanded_ hovered true else Flow.ret tt).

(** ** What happens to the view *)

Inductive Action : Type :=
| FiltersToggleClicked (hovered : bool)
| RibbonPullReleased (hovered : bool) (distance : Z)
| WindowMouseOut (leftWindow : bool)
| WindowKeyDown (hovered ribbonFocused : bool)
    (event : Keyboard.KeyboardEvent)
| PointerActivity (hovered mousedown onStaticArea : bool)
| CollapseTimerFired (id : positive)
    (* the host calls this.setExpanded_.bind(this, false) *)
| ToolbarTransitionEnded
    (* a wait of the toolbar's closure calls the effect's function *)
| ControlsTransitionEnded
    (* a wait of the controls' closure calls the effect's function *)
| ControlsTimerFired (id : positive)
    (* the host calls a delayed invokeClosure of controlsEffect_ *)
| DeferredRun.
    (* the host calls the oldest function of setTimeout(callback, 0) *)

Definition step (a : Action) : M unit :=
  match a with
  | FiltersToggleClicked hovered => onFiltersToggleClicked_ hovered
  | RibbonPullReleased hovered distance =>
      onRibbonPullReleased_ hovered distance
  | WindowMouseOut leftWindow => onWindowMouseOut_ leftWindow
  | WindowKeyDown hovered ribbonFocused event =>
      onWindowKeyDown_ hovered ribbonFocused event
  | PointerActivity hovered mousedown onStaticArea =>
      onPointerActivity_ hovered mousedown onStaticArea
  | CollapseTimerFired id =>
      s <- Flow.get ;;
      if existsb (Pos.eqb id) (collapseTimers s) then
        Flow.modify (fun s =>
          set_collapseTimers
            (filter (fun other => negb (Pos.eqb other id))
                    (collapseTimers s))
            (nextTimerId s) s) ;;
        setExpanded_ false false   (* the toolbar's hover is not read *)
      else Flow.ret tt
  | ToolbarTransitionEnded => onToolbarEffect StyleEffect.completion
  | ControlsTransitionEnded => onControlsEffect StyleEffect.completion
  | ControlsTimerFired id => onControlsEffect (StyleEffect.fire id)
  | DeferredRun =>
      s <- Flow.get ;;
      match deferred s with
      | [] => Flow.ret tt
      | callback :: rest =>
          Flow.modify (set_deferred rest) ;;
          match callback with
          | SetExpanded => Flow.modify (set_expanded_ true)
          | Noop => Flow.ret tt
          end
      end
  end.

Fixpoint steps (acts : list Action) : M unit :=
  match acts with
  | [] => Flow.ret tt
  | a :: rest => step a ;; steps rest
  end.

(** ** Vocabulary of the properties *)

(** The page and the view agree on the window controls: the class of
    the page is what [controlsVisible_] tells, or is about to be, a
    delayed invocation of the effect being pending with that state. *)
Definition controlsAgree (s : t) : Prop :=
  StyleEffect.singleSlot (controlsEffect_ s)
  /\ match StyleEffect.timers (controlsEffect_ s) with
     | [] => controlsShown s = controlsVisible_ s
     | tm :: _ => StyleEffect.timerState tm = controlsVisible_ s
     end.

(** The collapse timer is a single slot: at most one is pending, and it
    is the one [collapseTimer_] holds. *)
Definition collapseSlot (s : t) : Prop :=
  (List.length (collapseTimers s) <= 1)%nat
  /\ forall id : positive,
       In id (collapseTimers s) -> collapseTimer_ s = Some id.

(** A step that leaves the window controls alone. *)
Definition keepsControls (s s' : t) : Prop :=
  controlsEffect_ s' = controlsEffect_ s
  /\ controlsShown s' = controlsShown s
  /\ controlsVisible_ s' = controlsVisible_ s
  /\ performanceTestTimer_ s' = performanceTestTimer_ s.

(** A step that leaves the collapse timer alone. *)
Definition keepsCollapse (s s' : t) : Prop :=
  collapseTimers s' = collapseTimers s
  /\ collapseTimer_ s' = collapseTimer_ s
  /\ nextTimerId s' = nextTimerId s
  /\ performanceTestTimer_ s' = performanceTestTimer_ s.

(** [setExpanded_] as far as the collapse timer goes: the pending timer
    is cancelled, and a new one is set when the toolbar is to stay
    expanded without being hovered. *)
Definition cancelled (s : t) : t :=
  match collapseTimer_ s with
  | Some id =>
      set_collapseTimer_ None
        (set_collapseTimers
           (filter (fun other => negb (Pos.eqb other id)) (collapseTimers s))
           (nextTimerId s) s)
  | None => s
  end.
Definition armed (hovered expanded : bool) (s : t) : t :=
  if expanded && negb hovered && negb (isSet (performanceTestTimer_ s))
  then
    set_collapseTimer_ (Some (nextTimerId s))
      (set_collapseTimers (collapseTimers s ++ [nextTimerId s])
                          (Pos.succ (nextTimerId s)) s)
  else s.

(** The changes of the class of the window controls, in order. *)
Fixpoint shown (evs : list Event) : list bool :=
  match evs with
  | ControlsShown visible :: rest => visible :: shown rest
  | ToolbarExpanded _ :: rest => shown rest
  | [] => []
  end.

(** A computation that leaves the class of the window controls alone. *)
Definition quiet {A : Type} (c : M A) : Prop :=
  forall s : t, shown (Flow.trace c s) = [].

(** What holds of the view between two calls. *)
Definition invariant (s : t) : Prop := controlsAgree s /\ collapseSlot s.

(** A computation that keeps it. *)
Definition preserves (c : M unit) : Prop :=
  forall s : t, invariant s -> invariant (Flow.exec c s).

End Controls.

(* ===================================================================== *)
(** * camera.js: camera.views.Camera, taking pictures *)
(* ===================================================================== *)

(** One call of [takePicture_] and the timers it sets: the count-down,
    the multi-shot and, for every picture, the timeout in which
    [takePictureImmediately_] draws and stores it.  (The buttons are
    disabled until the count-down and the multi-shot are over.  The
    preview of a picture and its fly-away animation, [flyAnimations_]
    and [taking_], are not part of the model.) *)
Module Shutter.
Local Open Scope flow_scope.

(** The functions handed to [setTimeout] and [setInterval]. *)
Inductive Callback : Type :=
| OnTimerTick    (* onTimerTick *)
| Blink          (* toggleTimer.classList.remove('animate'), if counting *)
| TakePicture    (* takePicture, every 250 ms *)
| Capture.       (* the function of takePictureImmediately_, after 0 ms *)

Record Timer : Type := mkTimer {
  timerId : positive;
  callback : Callback
}.

(** The fields of the view, the variables [tickCounter] and
    [multiShotCounter] of the call, the state of the buttons and the
    host's pending timers. *)
Record t : Type := mk {
  running_ : bool;
  model_ : bool;                       (* this.model_ is set *)
  takePictureTimer_ : option positive;
  multiShotInterval_ : option positive;
  tickCounter : Z;
  multiShotCounter : Z;
  disabled : bool;     (* of #toggle-timer, #toggle-multi, #take-picture *)
  animate : bool;      (* #toggle-timer has the class 'animate' *)
  timers : list Timer;
  nextTimerId : positive
}.

Definition set_takePictureTimer_ (x : option positive) (s : t) : t :=
  mk (running_ s) (model_ s) x (multiShotInterval_ s) (tickCounter s)
     (multiShotCounter s) (disabled s) (animate s) (timers s)
     (nextTimerId s).
Definition set_multiShotInterval_ (x : option positive) (s : t) : t :=
  mk (running_ s) (model_ s) (takePictureTimer_ s) x (tickCounter s)
     (multiShotCounter s) (disabled s) (animate s) (timers s)
     (nextTimerId s).
Definition set_tickCounter (n : Z) (s : t) : t :=
  mk (running_ s) (model_ s) (takePictureTimer_ s) (multiShotInterval_ s)
     n (multiShotCounter s) (disabled s) (animate s) (timers s)
     (nextTimerId s).
Definition set_multiShotCounter (n : Z) (s : t) : t :=
  mk (running_ s) (model_ s) (takePictureTimer_ s) (multiShotInterval_ s)
     (tickCounter s) n (disabled s) (animate s) (timers s) (nextTimerId s).
Definition set_disabled (b : bool) (s : t) : t :=
  mk (running_ s) (model_ s) (takePictureTimer_ s) (multiShotInterval_ s)
     (tickCounter s) (multiShotCounter s) b (animate s) (timers s)
     (nextTimerId s).
Definition set_animate (b : bool) (s : t) : t :=
  mk (running_ s) (model_ s) (takePictureTimer_ s) (multiShotInterval_ s)
     (tickCounter s) (multiShotCounter s) (disabled s) b (timers s)
     (nextTimerId s).
Definition set_timers (l : list Timer) (n : positive) (s : t) : t :=
  mk (running_ s) (model_ s) (takePictureTimer_ s) (multiShotInterval_ s)
     (tickCounter s) (multiShotCounter s) (disabled s) (animate s) l n.

Inductive Event : Type :=
| TickSound      (* this.tickSound_.play() *)
| ShutterSound   (* this.shutterSound_.play() *)
| Picture.       (* drawCameraFrame_(BEST) and this.model_.addPicture *)

Definition M : Type -> Type := Flow.M t Event.

(** The view before the call, capturing or not and with a model or
    not. *)
Definition create (running model : bool) : t :=
  {| running_ := running; model_ := model;
     takePictureTimer_ := None; multiShotInterval_ := None;
     tickCounter := 0; multiShotCounter := 0;
     disabled := false; animate := false;
     timers := []; nextTimerId := 1%positive |}.

(** [setTimeout(callback, ...)] and [setInterval(callback, ...)]. *)
Definition setTimeout (c : Callback) : M positive :=
  s <- Flow.get ;;
  let id := nextTimerId s in
  Flow.modify (set_timers (timers s ++ [mkTimer id c]) (Pos.succ id)) ;;
  Flow.ret id.

(** [clearTimeout(id)]. *)
Definition clearTimeout (id : positive) : M unit :=
  Flow.modify (fun s =>
    set_timers (filter (fun tm => negb (Pos.eqb (timerId tm) id)) (timers s))
               (nextTimerId s) s).

(** [resetTakePicture_()]. *)
Definition resetTakePicture_ : M unit :=
  s <- Flow.get ;;
  match takePictureTimer_ s with
  | Some id => clearTimeout id ;; Flow.modify (set_takePictureTimer_ None)
  | None => Flow.ret tt
  end ;;
  s <- Flow.get ;;
  match multiShotInterval_ s with
  | Some id => clearTimeout id ;; Flow.modify (set_multiShotInterval_ None)
  | None => Flow.ret tt
  end ;;
  Flow.modify (set_animate false) ;;
  Flow.modify (set_disabled false).

(** [takePictureImmediately_()], called without a callback: nothing
    when the view is not capturing; else the shutter sounds and the
    picture is left to a timeout of 0 ms, whose identifier is not
    kept. *)
Definition takePictureImmediately_ : M unit :=
  s <- Flow.get ;;
  if negb (running_ s) then Flow.ret tt
  else
    Flow.emit ShutterSound ;;
    _ <- setTimeout Capture ;;
    Flow.ret tt.

(** The function [takePictureImmediately_] hands to [setTimeout]: the
    frame is drawn and the picture added to the model, whether the view
    still captures or not. *)
Definition capture : M unit := Flow.emit Picture.

(** [takePicture], the closure of [onTimerTick]. *)
Definition takePicture : M unit :=
  takePictureImmediately_ ;;
  Flow.modify (fun s => set_multiShotCounter (multiShotCounter s - 1) s) ;;
  s <- Flow.get ;;
  if Z.eqb (multiShotCounter s) 0 then resetTakePicture_ else Flow.ret tt.

(** [onTimerTick], the closure of [takePicture_]. *)
Definition onTimerTick : M unit :=
  Flow.modify (fun s => set_tickCounter (tickCounter s - 1) s) ;;
  s <- Flow.get ;;
  if Z.eqb (tickCounter s) 0 then
    takePicture ;;
    s <- Flow.get ;;
    if negb (Z.eqb (multiShotCounter s) 0) then
      id <- setTimeout TakePicture ;;      (* setInterval(takePicture, 250) *)
      Flow.modify (set_multiShotInterval_ (Some id))
    else Flow.ret tt
  else
    id <- setTimeout OnTimerTick ;;        (* after 1000 ms *)
    Flow.modify (set_takePictureTimer_ (Some id)) ;;
    Flow.emit TickSound ;;
    (* Blink the toggle timer button. *)
    Flow.modify (set_animate true) ;;
    _ <- setTimeout Blink ;;               (* after 500 ms *)
    Flow.ret tt.

(** The function handed to [setTimeout] with 500 ms by [onTimerTick]. *)
Definition blink : M unit :=
  s <- Flow.get ;;
  match takePictureTimer_ s with
  | Some _ => Flow.modify (set_animate false)
  | None => Flow.ret tt
  end.

(** [takePicture_()], the two toggles being checked or not. *)
Definition takePicture_ (timerEnabled multiEnabled : bool) : M unit :=
  s <- Flow.get ;;
  if negb (running_ s) || negb (model_ s) then Flow.ret tt
  else
    Flow.modify (set_disabled true) ;;
    Flow.modify (set_tickCounter (if timerEnabled then 6 else 1)) ;;
    Flow.modify (set_multiShotCounter (if multiEnabled then 3 else 1)) ;;
    (* First tick immediately in the next message loop cycle. *)
    id <- setTimeout OnTimerTick ;;
    Flow.modify (set_takePictureTimer_ (Some id)).

(** The pending timers but the first with identifier [id]. *)
Fixpoint without (id : positive) (l : list Timer) : list Timer :=
  match l with
  | [] => []
  | tm :: rest =>
      if Pos.eqb (timerId tm) id then rest else tm :: without id rest
  end.

(** The host fires the pending timer [id]: a timeout is no longer
    pending then, an interval still is. *)
Definition fire (id : positive) : M unit :=
  s <- Flow.get ;;
  match find (fun tm => Pos.eqb (timerId tm) id) (timers s) with
  | None => Flow.ret tt
  | Some tm =>
      match callback tm with
      | OnTimerTick =>
          Flow.modify (set_timers (without id (timers s)) (nextTimerId s)) ;;
          onTimerTick
      | Blink =>
          Flow.modify (set_timers (without id (timers s)) (nextTimerId s)) ;;
          blink
      | TakePicture => takePicture
      | Capture =>
          Flow.modify (set_timers (without id (timers s)) (nextTimerId s)) ;;
          capture
      end
  end.

Fixpoint fires (ids : list positive) : M unit :=
  match ids with
  | [] => Flow.ret tt
  | id :: rest => fire id ;; fires rest
  end.

(** ** Vocabulary of the properties *)

(** The timers of the count-down and of the multi-shot, and those in
    which a picture is taken. *)
Definition isCountdown (tm : Timer) : bool :=
  match callback tm with
  | OnTimerTick | TakePicture => true
  | Blink | Capture => false
  end.

Definition isCapture (tm : Timer) : bool :=
  match callback tm with
  | Capture => true
  | _ => false
  end.

Definition countdown (s : t) : list Timer := filter isCountdown (timers s).
Definition captures (s : t) : list Timer := filter isCapture (timers s).

Definition isTickSound (e : Event) : bool :=
  match e with
  | TickSound => true
  | _ => false
  end.

(** The ticks, the releases of the shutter and the pictures taken. *)
Definition sounds (evs : list Event) : Z :=
  Z.of_nat (List.length (filter isTickSound evs)).

Definition released (evs : list Event) : Z :=
  Z.of_nat (List.length
              (filter (fun e => match e with
                                | ShutterSound => true
                                | _ => false
                                end) evs)).

Definition taken (evs : list Event) : Z :=
  Z.of_nat (List.length
              (filter (fun e => match e with
                                | Picture => true
                                | _ => false
                                end) evs)).

(** No tick comes after the shutter has been released. *)
Fixpoint ticksFirst (evs : list Event) : bool :=
  match evs with
  | [] => true
  | TickSound :: rest => ticksFirst rest
  | _ :: rest => forallb (fun e => negb (isTickSound e)) rest
  end.

(** The pictures and the ticks of a call. *)
Definition pictures (multiEnabled : bool) : Z :=
  if multiEnabled then 3 else 1.
Definition seconds (timerEnabled : bool) : Z :=
  if timerEnabled then 5 else 0.

(** The timers the slot can clear. *)
Definition cleared (slot : option positive) (l : list Timer) : list Timer :=
  match slot with
  | Some id => filter (fun tm => negb (Pos.eqb (timerId tm) id)) l
  | None => l
  end.

(** The host hands out each identifier once: the pending timers and the
    two slots hold identifiers handed out already, and no slot holds the
    identifier of a timeout in which a picture is taken. *)
Definition handedOut (slot : option positive) (n : positive) : Prop :=
  match slot with
  | Some id => (id < n)%positive
  | None => True
  end.

Definition uniqueIds (takePictureTimer multiShotInterval : option positive)
    (pending : list Timer) (next : positive) : Prop :=
  Forall (fun tm => (timerId tm < next)%positive) pending
  /\ handedOut takePictureTimer next
  /\ handedOut multiShotInterval next
  /\ Forall (fun tm => takePictureTimer <> Some (timerId tm)
                       /\ multiShotInterval <> Some (timerId tm))
            (filter isCapture pending).

Definition wellFormed (s : t) : Prop :=
  uniqueIds (takePictureTimer_ s) (multiShotInterval_ s) (timers s)
    (nextTimerId s).

(** Where a call stands after the calls [evs]: counting down, taking
    the pictures of a multi-shot, or over.  Every release of the shutter
    has its picture taken or its timeout pending. *)
Definition standing (timerEnabled multiEnabled : bool) (evs : list Event)
    (s : t) : Prop :=
  running_ s = true
  /\ wellFormed s
  /\ (taken evs + Z.of_nat (List.length (captures s)) = released evs)%Z
  /\ ((exists id : positive,
         countdown s = [mkTimer id OnTimerTick]
         /\ takePictureTimer_ s = Some id
         /\ (0 < tickCounter s)%Z
         /\ (sounds evs + tickCounter s = seconds timerEnabled + 1)%Z
         /\ multiShotCounter s = pictures multiEnabled
         /\ forallb isTickSound evs = true
         /\ disabled s = true)
      \/ (exists id : positive,
            countdown s = [mkTimer id TakePicture]
            /\ multiShotInterval_ s = Some id
            /\ (0 < multiShotCounter s)%Z
            /\ (released evs + multiShotCounter s = pictures multiEnabled)%Z
            /\ sounds evs = seconds timerEnabled
            /\ ticksFirst evs = true
            /\ disabled s = true)
      \/ (countdown s = []
          /\ takePictureTimer_ s = None
          /\ multiShotInterval_ s = None
          /\ released evs = pictures multiEnabled
          /\ sounds evs = seconds timerEnabled
          /\ ticksFirst evs = true
          /\ disabled s = false)).

(** After [resetTakePicture_]: nothing counts down, the slots are
    empty. *)
Definition idle (s : t) : Prop :=
  countdown s = []
  /\ takePictureTimer_ s = None
  /\ multiShotInterval_ s = None
  /\ disabled s = false.

End Shutter.

(* ===================================================================== *)
(** * camera.js: camera.views.Camera, synchronizeBounds_ *)
(* ===================================================================== *)

Module Bounds.
Import PrimFloat.
Local Open Scope float_scope.

(** What [synchronizeBounds_] writes: the scales of the preview and of
    the fast processors, and the size of the video element. *)
Record t : Type := mk {
  mainPreviewProcessor_scale : float;
  mainFastProcessor_scale : float;
  video_width : Z;
  video_height : Z
}.

(** [synchronizeBounds_()], the video being [videoWidth] by
    [videoHeight] and the body [offsetHeight] pixels high. *)
Definition synchronizeBounds_ (videoWidth videoHeight offsetHeight : Z)
    (s : t) : t :=
  if Z.eqb videoHeight 0 then s
  else
    let scale :=
      Doubles.min 1 (Doubles.ofZ offsetHeight / Doubles.ofZ videoHeight) in
    {| mainPreviewProcessor_scale := scale;
       mainFastProcessor_scale := scale / 2;
       video_width := videoWidth;
       video_height := videoHeight |}.

(** ** Vocabulary of the properties *)

(** The height of the video once scaled is within [2^-20] of a pixel of
    [height]. *)
Definition scaledTo (scale : float) (videoHeight height : Z) : bool :=
  abs (scale * Doubles.ofZ videoHeight - Doubles.ofZ height) <? 0x1p-20.

(** What a call leaves, the view being [s] before: a scale between 0
    and 1, that is 1 exactly when the window is as high as the video or
    higher, the video scaled to the lower of the two heights, half of
    the scale for the fast processor, and the size of the video. *)
Definition fits (videoWidth videoHeight offsetHeight : Z) (s : t) : bool :=
  let s' := synchronizeBounds_ videoWidth videoHeight offsetHeight s in
  let scale := mainPreviewProcessor_scale s' in
  (0 <=? scale) && (scale <=? 1)
  && Bool.eqb (scale =? 1) (videoHeight <=? offsetHeight)%Z
  && scaledTo scale videoHeight (Z.min offsetHeight videoHeight)
  && (mainFastProcessor_scale s' * 2 =? scale)
  && (video_width s' =? videoWidth)%Z
  && (video_height s' =? videoHeight)%Z.

End Bounds.

(* ===================================================================== *)
(** * camera.js: camera.views.Camera, the watchdog of the stream *)
(* ===================================================================== *)

Module Watchdog.
Import Negotiation.
Local Open Scope negotiation_scope.

(** The function [startWithResolution_] hands to [setInterval] with
    1000 ms; [active] is [stream.active], and [onDisconnected] is the
    [scheduleRetry] that [start_] passes. *)
Definition check (active : bool) : M unit :=
  if negb active then
    modify (set_capturing_ false) ;;
    scheduleRetry ;;                         (* onDisconnected() *)
    s <- get ;;
    match watchdog_ s with
    | Some id => clearTimeout id             (* clearInterval *)
    | None => ret tt
    end ;;
    modify (set_watchdog_ None)
  else ret tt.

(** The watchdog timers still pending. *)
Definition pendingWatchdogs (s : t) : list Timer :=
  filter (fun tm => match callback tm with
                    | WatchdogCallback => true
                    | _ => false
                    end) (timers s).

End Watchdog.

(* ===================================================================== *)
(** * util.js: getPhotoOrientation, orientPhoto *)
(* ===================================================================== *)

Module Photo.
Local Open Scope Z_scope.

(** The contents of the blob, as the [DataView] reads them. *)
Definition DataView : Type := list Byte.byte.

Definition byteLength (view : DataView) : Z := Z.of_nat (List.length view).

(** One byte; [None] stands for the [RangeError] of reading outside the
    view. *)
Definition byteAt (view : DataView) (byteOffset : Z) : option Z :=
  if byteOffset <? 0 then None
  else option_map (fun b => Z.of_N (Byte.to_N b))
                  (nth_error view (Z.to_nat byteOffset)).

(** [view.getUint16(byteOffset, littleEndian)]. *)
Definition getUint16 (view : DataView) (byteOffset : Z)
    (littleEndian : bool) : option Z :=
  match byteAt view byteOffset, byteAt view (byteOffset + 1) with
  | Some b0, Some b1 =>
      Some (if littleEndian then b1 * 256 + b0 else b0 * 256 + b1)
  | _, _ => None
  end.

(** [view.getUint32(byteOffset, littleEndian)]. *)
Definition getUint32 (view : DataView) (byteOffset : Z)
    (littleEndian : bool) : option Z :=
  match byteAt view byteOffset, byteAt view (byteOffset + 1),
        byteAt view (byteOffset + 2), byteAt view (byteOffset + 3) with
  | Some b0, Some b1, Some b2, Some b3 =>
      Some (if littleEndian
            then ((b3 * 256 + b2) * 256 + b1) * 256 + b0
            else ((b0 * 256 + b1) * 256 + b2) * 256 + b3)
  | _, _, _, _ => None
  end.

(** How the reading of a blob ends: the promise is resolved with an
    orientation, or a [RangeError] leaves it pending for ever.
    [OutOfFuel] is the model's only: the loop below never gets there. *)
Inductive Outcome : Type :=
| Resolved (orientation : Z)
| RangeError
| OutOfFuel.

(** The [for] loop over the tags, [remaining] of them being left from
    [i] on. *)
Fixpoint tagsLoop (remaining : nat) (view : DataView) (offset : Z)
    (little : bool) (i : Z) : option Outcome :=
  match remaining with
  | O => None                           (* the loop ends: no such tag *)
  | S remaining' =>
      match getUint16 view (offset + i * 12) little with
      | None => Some RangeError
      | Some tag =>
          if tag =? 0x0112 then
            match getUint16 view (offset + i * 12 + 8) little with
            | Some orientation => Some (Resolved orientation)
            | None => Some RangeError
            end
          else tagsLoop remaining' view offset little (i + 1)
      end
  end.

(** The [while] loop of [reader.onload], from [offset] on. *)
Fixpoint scan (fuel : nat) (view : DataView) (offset : Z) : Outcome :=
  match fuel with
  | O => OutOfFuel
  | S fuel' =>
      if offset <? byteLength view then
        match getUint16 view (offset + 2) false with
        | None => RangeError
        | Some size =>
            if size <=? 8 then Resolved 1            (* break *)
            else
              match getUint16 view offset false with
              | None => RangeError
              | Some marker =>
                  let offset := offset + 2 in
                  if marker =? 0xFFE1 then
                    let offset := offset + 2 in
                    match getUint32 view offset false with
                    | None => RangeError
                    | Some exif =>
                        if negb (exif =? 0x45786966) then Resolved 1
                        else
                          let offset := offset + 6 in
                          match getUint16 view offset false with
                          | None => RangeError
                          | Some order =>
                              let little := order =? 0x4949 in
                              match getUint32 view (offset + 4) little with
                              | None => RangeError
                              | Some first =>
                                  let offset := offset + first in
                                  match getUint16 view offset little with
                                  | None => RangeError
                                  | Some tags =>
                                      let offset := offset + 2 in
                                      match tagsLoop (Z.to_nat tags) view
                                                     offset little 0 with
                                      | Some outcome => outcome
                                      | None => scan fuel' view offset
                                      end
                                  end
                              end
                          end
                    end
                  else if negb (Z.land marker 0xFF00 =? 0xFF00)
                  then Resolved 1                    (* break *)
                  else
                    match getUint16 view offset false with
                    | None => RangeError
                    | Some length => scan fuel' view (offset + length)
                    end
              end
        end
      else Resolved 1
  end.

(** [reader.onload]: what the promise [getOrientation] is resolved
    with. *)
Definition getOrientation (view : DataView) : Outcome :=
  match getUint16 view 0 false with
  | None => RangeError
  | Some magic =>
      if negb (magic =? 0xFFD8) then Resolved 1
      else scan (S (Z.to_nat (byteLength view))) view 2
  end.

(** The clockwise rotation and the flip that orient a photo upright. *)
Record Orientation : Type := mkOrientation {
  rotation : Z;
  flip : bool
}.

(** The [switch] of [getPhotoOrientation]. *)
Definition upright (orientation : Z) : Orientation :=
  if orientation =? 1 then mkOrientation 0 false
  else if orientation =? 2 then mkOrientation 0 true
  else if orientation =? 3 then mkOrientation 180 false
  else if orientation =? 4 then mkOrientation 180 true
  else if orientation =? 5 then mkOrientation 90 true
  else if orientation =? 6 then mkOrientation 90 false
  else if orientation =? 7 then mkOrientation 270 true
  else if orientation =? 8 then mkOrientation 270 false
  else mkOrientation 0 false.

(** [camera.util.getPhotoOrientation(blob)]: the value its promise is
    fulfilled with, if it ever is. *)
Definition getPhotoOrientation (blob : DataView) : option Orientation :=
  match getOrientation blob with
  | Resolved orientation => Some (upright orientation)
  | RangeError | OutOfFuel => None
  end.

(** The size of the output canvas of [drawPhoto], for an image of
    [width] by [height]. *)
Definition outputSize (orientation : Orientation) (width height : Z)
  : Z * Z :=
  if (rotation orientation =? 90) || (rotation orientation =? 270)
  then (height, width)
  else (width, height).

(** What [orientPhoto] does with the blob. *)
Inductive Oriented : Type :=
| Unchanged                             (* onSuccess(blob) *)
| Redrawn (orientation : Orientation)   (* drawPhoto(original, ...) *)
| Pending.                              (* neither callback is called *)

(** [camera.util.orientPhoto(blob, onSuccess, onFailure)], up to the
    drawing. *)
Definition orientPhoto (blob : DataView) : Oriented :=
  match getPhotoOrientation blob with
  | Some orientation =>
      if (rotation orientation =? 0) && negb (flip orientation)
      then Unchanged
      else Redrawn orientation
  | None => Pending
  end.

(** ** Vocabulary of the properties *)

(** The bytes of a list of numbers below 256. *)
Definition bytes (l : list N) : DataView :=
  map (fun n => match Byte.of_N n with
                | Some b => b
                | None => Byte.x00
                end) l.

End Photo.

(* ===================================================================== *)
(** * Properties *)
(* ===================================================================== *)


(** ** Comparisons of times *)

Lemma Qlt_bool_iff (x y : Q) : JS.Qlt_bool x y = true <-> x < y.
Proof.
  unfold JS.Qlt_bool. rewrite negb_true_iff. split.
  - intros H. apply Qnot_le_lt. intros Hle.
    apply Qle_bool_iff in Hle. congruence.
  - intros H. destruct (Qle_bool y x) eqn:E; [|reflexivity].
    apply Qle_bool_iff in E. exfalso. exact (Qlt_not_le _ _ H E).
Qed.

Lemma Qlt_bool_false_iff (x y : Q) : JS.Qlt_bool x y = false <-> y <= x.
Proof.
  unfold JS.Qlt_bool. rewrite negb_false_iff. apply Qle_bool_iff.
Qed.

(** ** The performance monitor *)

Section MonitorWindow.

Import PerformanceMonitor.

Lemma countOld_le (thr : Q) (ps : list Probe) :
  (countOld thr ps <= List.length ps)%nat.
Proof.
  induction ps as [|p ps IH]; simpl; [lia|].
  destruct (JS.Qlt_bool (fst p) thr); simpl; lia.
Qed.

(** On probes in timestamp order, dropping the leading old ones leaves
    exactly the recent ones. *)
Lemma skipn_countOld (now : Q) (ps : list Probe) :
  StronglySorted byStamp ps ->
  skipn (countOld (now - HISTORY_LENGTH) ps) ps = filter (recent now) ps.
Proof.
  induction 1 as [|p ps Hs IH Hall]; simpl; [reflexivity|].
  unfold recent at 1.
  destruct (JS.Qlt_bool (fst p) (now - HISTORY_LENGTH)) eqn:E; simpl.
  - exact IH.
  - f_equal. symmetry. apply forallb_filter_id.
    apply forallb_forall. intros q Hq.
    rewrite Forall_forall in Hall. specialize (Hall q Hq).
    unfold recent. rewrite negb_true_iff.
    apply Qlt_bool_false_iff. apply Qlt_bool_false_iff in E.
    unfold byStamp in Hall. lra.
Qed.

Lemma sorted_snoc (ps : list Probe) (p : Probe) :
  StronglySorted byStamp ps ->
  Forall (fun q => fst q <= fst p) ps ->
  StronglySorted byStamp (ps ++ [p]).
Proof.
  induction 1 as [|q ps Hs IH Hall]; intros Hle; simpl.
  - constructor; constructor.
  - inversion Hle; subst. constructor.
    + apply IH. assumption.
    + apply Forall_app. split; [assumption|].
      constructor; [assumption|constructor].
Qed.

Lemma sorted_filter (f : Probe -> bool) (ps : list Probe) :
  StronglySorted byStamp ps -> StronglySorted byStamp (filter f ps).
Proof.
  induction 1 as [|q ps Hs IH Hall]; simpl; [constructor|].
  destruct (f q); [|assumption].
  constructor; [assumption|].
  rewrite Forall_forall in *. intros x Hx.
  apply filter_In in Hx. apply Hall. tauto.
Qed.

Lemma filter_recent_later (t t' : Q) (ps : list Probe) :
  t <= t' -> filter (recent t') (filter (recent t) ps) = filter (recent t') ps.
Proof.
  intros Hle. induction ps as [|p ps IH]; simpl; [reflexivity|].
  destruct (recent t p) eqn:E; simpl.
  - rewrite IH. reflexivity.
  - rewrite IH. assert (recent t' p = false) as ->; [|reflexivity].
    unfold recent in *. rewrite negb_false_iff in *.
    apply Qlt_bool_iff. apply Qlt_bool_iff in E. lra.
Qed.

Lemma countOld_snoc_recent (now : Q) (ps : list Probe) (p : Probe) :
  recent now p = true ->
  (countOld (now - HISTORY_LENGTH) (ps ++ [p]) <= List.length ps)%nat.
Proof.
  unfold recent. rewrite negb_true_iff. intros Hp.
  induction ps as [|q ps IH]; simpl.
  - rewrite Hp. lia.
  - destruct (JS.Qlt_bool (fst q) (now - HISTORY_LENGTH)); simpl; lia.
Qed.

Lemma skipn_nth_error_head (A : Type) (l : list A) (i : nat) (x : A) :
  nth_error l i = Some x -> exists rest, skipn i l = x :: rest.
Proof.
  revert l. induction i as [|i IH]; intros [|y l] H; simpl in *;
    try discriminate.
  - injection H as ->. eauto.
  - apply IH. exact H.
Qed.

Lemma windowInv_create (t0 : Q) : windowInv t0 [] t0 (create t0).
Proof.
  constructor; simpl; auto; constructor.
Qed.

Lemma windowInv_finish (t0 : Q) (pushed : list Probe) (last : Q) (m : t)
    (c : Call) :
  windowInv t0 pushed last m ->
  last <= nowStamp c -> nowStamp c <= nowDuration c ->
  nowDuration c <= nowThreshold c ->
  nowThreshold c - HISTORY_LENGTH <= nowStamp c ->
  exists m', finishMeasuring_ c m = Some m' /\
             windowInv t0 (pushed ++ [probeOf c]) (nowThreshold c) m'.
Proof.
  intros [Hret Hsort Hpast Hstart] H1 H2 H3 H4.
  set (new := probeOf c).
  set (probes := probes_ m ++ [new]).
  assert (Hsorted' : StronglySorted byStamp (pushed ++ [new])).
  { apply sorted_snoc; [assumption|].
    eapply Forall_impl; [|exact Hpast]. simpl. intros q Hq. lra. }
  assert (Hps : StronglySorted byStamp probes).
  { unfold probes. rewrite Hret. apply sorted_snoc.
    - apply sorted_filter. assumption.
    - rewrite Forall_forall in *. intros q Hq. apply filter_In in Hq.
      destruct Hq as [Hq _]. specialize (Hpast q Hq). simpl in *. lra. }
  assert (Hnew : recent (nowThreshold c) new = true).
  { unfold recent. rewrite negb_true_iff. apply Qlt_bool_false_iff.
    simpl. exact H4. }
  assert (Hskip : skipn (countOld (nowThreshold c - HISTORY_LENGTH) probes)
                    probes
                  = filter (recent (nowThreshold c)) (pushed ++ [new])).
  { rewrite skipn_countOld by assumption. unfold probes.
    rewrite Hret, !filter_app, filter_recent_later by lra. reflexivity. }
  assert (Hcount : (countOld (nowThreshold c - HISTORY_LENGTH) probes
                    <= List.length (probes_ m))%nat).
  { apply countOld_snoc_recent. exact Hnew. }
  assert (Hpast' : Forall (fun p => fst p <= nowThreshold c) (pushed ++ [new])).
  { apply Forall_app. split.
    - eapply Forall_impl; [|exact Hpast]. simpl. intros q Hq. lra.
    - constructor; [simpl; lra|constructor]. }
  assert (Hlen : List.length probes = S (List.length (probes_ m))).
  { unfold probes. rewrite length_app. simpl. lia. }
  unfold finishMeasuring_. cbv zeta.
  change (probes_ m ++ [(nowStamp c, nowDuration c - startTime c)])
    with probes.
  destruct (countOld (nowThreshold c - HISTORY_LENGTH) probes) as [|i] eqn:Ei.
  - eexists. split; [reflexivity|].
    constructor; simpl; [exact Hskip|assumption|assumption|].
    rewrite Hlen, length_app. simpl.
    destruct Hstart as [[Hl Ht]|[Hl Ho]]; [left|right]; split;
      try lia; try assumption.
    unfold oldestStamp in *. simpl. unfold probes.
    destruct (probes_ m); [discriminate|exact Ho].
  - destruct (nth_error probes (S i)) as [p|] eqn:En.
    2:{ apply nth_error_None in En. lia. }
    eexists. split; [reflexivity|].
    constructor; simpl; [exact Hskip|assumption|assumption|].
    right. split.
    + change (List.length (skipn (S i) probes)
              < List.length (pushed ++ [new]))%nat.
      rewrite length_skipn, Hlen, length_app. simpl.
      destruct Hstart as [[Hl _]|[Hl _]]; lia.
    + destruct (skipn_nth_error_head _ _ En) as [l2 Hsk].
      unfold oldestStamp.
      change (match skipn (S i) probes with
              | [] => None
              | q :: _ => Some (fst q)
              end = Some (fst p)).
      rewrite Hsk. reflexivity.
Qed.

Lemma windowInv_run (t0 : Q) (calls : list Call) :
  forall (pushed : list Probe) (last : Q) (m : t),
    windowInv t0 pushed last m -> chronological last calls ->
    exists m', run calls m = Some m' /\
               windowInv t0 (pushed ++ map probeOf calls)
                 (lastReading last calls) m'.
Proof.
  induction calls as [|c calls IH]; intros pushed last m Hinv Hchr.
  - exists m. split; [reflexivity|]. simpl. rewrite app_nil_r. exact Hinv.
  - destruct Hchr as (H1 & H2 & H3 & H4 & Hrest).
    destruct (windowInv_finish c Hinv H1 H2 H3 H4) as (m1 & Hm1 & Hinv1).
    destruct (IH _ _ _ Hinv1 Hrest) as (m' & Hm' & Hinv').
    exists m'. split.
    + simpl. rewrite Hm1. exact Hm'.
    + simpl. unfold lastReading in *. simpl.
      rewrite <- app_assoc in Hinv'. exact Hinv'.
Qed.

End MonitorWindow.

(** C2, as amended.  Whatever measurements complete on a monitor created
    at [t0] (the clock never going back, no completion lasting longer than
    the history length), every completion succeeds; the probes retained
    are exactly the pushed ones whose timestamp is not below the latest
    clock reading minus [HISTORY_LENGTH]; [tailStartTime_] is still the
    creation time while nothing has been discarded and is the timestamp of
    the oldest retained probe afterwards; and a query made at [query]
    answers the retained count divided by [query - tailStartTime_], times
    1000: the history length is never the divisor. *)
Theorem C2_fps_window (t0 : Q) (calls : list PerformanceMonitor.Call) :
  PerformanceMonitor.chronological t0 calls ->
  exists m : PerformanceMonitor.t,
    PerformanceMonitor.run calls (PerformanceMonitor.create t0) = Some m /\
    PerformanceMonitor.probes_ m
      = filter (PerformanceMonitor.recent
                  (PerformanceMonitor.lastReading t0 calls))
          (map PerformanceMonitor.probeOf calls) /\
    (if Nat.eqb (List.length (PerformanceMonitor.probes_ m))
                (List.length calls)
     then PerformanceMonitor.tailStartTime_ m = t0
     else PerformanceMonitor.oldestStamp m
          = Some (PerformanceMonitor.tailStartTime_ m)) /\
    forall query : Q,
      (PerformanceMonitor.tailStartTime_ m == 0 ->
       PerformanceMonitor.fps m query = JS.Fin 0) /\
      (~ PerformanceMonitor.tailStartTime_ m == 0 ->
       ~ query == PerformanceMonitor.tailStartTime_ m ->
       PerformanceMonitor.fps m query
       = JS.Fin (inject_Z
                   (Z.of_nat (List.length (PerformanceMonitor.probes_ m)))
                 / (query - PerformanceMonitor.tailStartTime_ m) * 1000)).
Proof.
  intros Hchr.
  destruct (windowInv_run calls (windowInv_create t0) Hchr)
    as (m & Hrun & [Hret Hsort Hpast Hstart]).
  simpl in *. exists m. split; [exact Hrun|]. split; [exact Hret|]. split.
  - rewrite length_map in Hstart.
    destruct (Nat.eqb_spec (List.length (PerformanceMonitor.probes_ m))
                (List.length calls)) as [E|E].
    + destruct Hstart as [[_ H]|[H _]]; [exact H|lia].
    + destruct Hstart as [[H _]|[_ H]]; [contradiction|exact H].
  - intros query. unfold PerformanceMonitor.fps. split.
    + intros Htail. apply Qeq_bool_iff in Htail. rewrite Htail. reflexivity.
    + intros Htail Hquery.
      destruct (Qeq_bool (PerformanceMonitor.tailStartTime_ m) 0) eqn:E0.
      { apply Qeq_bool_iff in E0. contradiction. }
      destruct (Qeq_bool (query - PerformanceMonitor.tailStartTime_ m) 0)
        eqn:E1.
      { apply Qeq_bool_iff in E1. exfalso. apply Hquery. lra. }
      reflexivity.
Qed.

(** C2 at three measurements, the last one three seconds after the second:
    the first probe is discarded and the window starts at the oldest
    retained probe. *)
Lemma C2_fps_window_witness :
  PerformanceMonitor.chronological 1000 PerformanceMonitor.prunedCalls /\
  exists m : PerformanceMonitor.t,
    PerformanceMonitor.run PerformanceMonitor.prunedCalls
      (PerformanceMonitor.create 1000) = Some m /\
    PerformanceMonitor.oldestStamp m
    = Some (PerformanceMonitor.tailStartTime_ m).
Proof.
  assert (H : PerformanceMonitor.chronological 1000
                PerformanceMonitor.prunedCalls).
  { vm_compute. intuition discriminate. }
  split; [exact H|].
  destruct (C2_fps_window 1000 PerformanceMonitor.prunedCalls H)
    as (m & Hrun & _ & Hstart & _).
  exists m. split; [exact Hrun|].
  vm_compute in Hrun. injection Hrun as <-. exact Hstart.
Defined.

(** C2 as stated fails.  On a monitor created at 1000 ms with two
    measurements completed at 2000 ms and 3000 ms, nothing is discarded,
    the window still starts at the creation time, and the query made at
    3000 ms answers 2 / (3000 - 1000) * 1000 = 1, whereas the count divided
    by the time between the oldest and the latest retained probe is 2 per
    second (0.002 per millisecond).  With a third measurement completed at
    6000 ms the first probe is discarded and the window starts at
    3000 ms; the query made at 7000 ms answers 2 / (7000 - 3000) * 1000,
    a half, not 2 / 3 s. *)
Lemma C2_counterexample :
  (PerformanceMonitor.chronological 1000 PerformanceMonitor.sparseCalls /\
   exists m : PerformanceMonitor.t,
     PerformanceMonitor.run PerformanceMonitor.sparseCalls
       (PerformanceMonitor.create 1000) = Some m /\
     PerformanceMonitor.lastReading 1000 PerformanceMonitor.sparseCalls
     = 3000 /\
     JS.Num_eq (PerformanceMonitor.fps m 3000) (JS.Fin 1) /\
     (exists q : Q, PerformanceMonitor.spec_fps m = Some q /\ q == 2) /\
     ~ (exists q : Q, PerformanceMonitor.spec_fps m = Some q /\
                      (JS.Num_eq (PerformanceMonitor.fps m 3000) (JS.Fin q) \/
                       JS.Num_eq (PerformanceMonitor.fps m 3000)
                         (JS.Fin (q / 1000))))) /\
  (PerformanceMonitor.chronological 1000 PerformanceMonitor.prunedCalls /\
   exists m : PerformanceMonitor.t,
     PerformanceMonitor.run PerformanceMonitor.prunedCalls
       (PerformanceMonitor.create 1000) = Some m /\
     PerformanceMonitor.tailStartTime_ m = 3000 /\
     JS.Num_eq (PerformanceMonitor.fps m 7000) (JS.Fin (1 # 2)) /\
     (exists q : Q, PerformanceMonitor.spec_fps m = Some q /\ q == 2 # 3)).
Proof.
  split.
  - split; [vm_compute; intuition discriminate|].
    eexists. split; [reflexivity|]. split; [reflexivity|]. split.
    + vm_compute. reflexivity.
    + split.
      * eexists. split; [reflexivity|]. vm_compute. reflexivity.
      * intros (q & Hq & Heq). vm_compute in Hq. injection Hq as <-.
        destruct Heq as [Heq|Heq]; vm_compute in Heq; discriminate.
  - split; [vm_compute; intuition discriminate|].
    eexists. split; [reflexivity|]. split; [reflexivity|]. split.
    + vm_compute. reflexivity.
    + eexists. split; [reflexivity|]. vm_compute. reflexivity.
Qed.

(** ** The frame loop: how computations compose *)

Section CameraFlow.

Import Camera.
Local Open Scope camera_scope.

Lemma drawVisible_eq (mode : DrawMode.t) (w : Z) (rest : list Rect) :
  forall (index : nat) (notDrawn : list nat) (s : t),
    drawVisible mode w rest index notDrawn s
    = (notDrawn ++ notDrawnIndices mode w rest index, s,
       map processEffect (drawnIndices mode w rest index)).
Proof.
  induction rest as [|r rest IH]; intros index notDrawn s; simpl.
  - rewrite app_nil_r. reflexivity.
  - destruct (drawnNow mode r w).
    + unfold bind, Flow.bind, emit, Flow.emit. rewrite IH. reflexivity.
    + rewrite IH, <- app_assoc. reflexivity.
Qed.

Lemma drawEffectsRibbon_eq (mode : DrawMode.t) (s : t) :
  drawEffectsRibbon_ mode s
  = (tt,
     set_staleEffectsRefreshIndex_ (S (staleEffectsRefreshIndex_ s)) s,
     drawEffectsRibbonEvents mode (env s) (staleEffectsRefreshIndex_ s)).
Proof.
  unfold drawEffectsRibbon_, drawEffectsRibbonEvents, bind, Flow.bind,
    get, Flow.get.
  rewrite drawVisible_eq. simpl.
  unfold extraRefresh.
  destruct (notDrawnIndices mode (offsetWidth (env s))
              (effectProcessors_ (env s)) 0) as [|i l] eqn:E.
  - reflexivity.
  - destruct (nth_error (i :: l) _); reflexivity.
Qed.

Ltac run_flow :=
  unfold measuring, incrementFrame, setHeadTrackerQuality_,
    bind, ret, get, modify, emit,
    Flow.bind, Flow.ret, Flow.get, Flow.modify, Flow.emit.

Lemma drawCameraFrame_eq (mode : DrawMode.t) (s : t) :
  drawCameraFrame_ mode s
  = (tt, set_surfaces (onlyShown mode) s,
     drawCameraFrameEvents mode (frame_ s)).
Proof.
  unfold drawCameraFrame_, drawCameraFrameEvents. run_flow.
  destruct mode, (multipleOf 10 (frame_ s)); reflexivity.
Qed.

Lemma resampleAndUploadPreviewTexture_eq (s : t) :
  resampleAndUploadPreviewTexture s
  = (tt, s, previewEvents (env s) (frame_ s)).
Proof.
  unfold resampleAndUploadPreviewTexture, previewEvents. run_flow.
  destruct (multipleOf PREVIEW_BUFFER_SKIP_FRAMES (frame_ s)); reflexivity.
Qed.

Lemma resampleAndScheduleHeadTracking_eq (s : t) :
  resampleAndScheduleHeadTracking s
  = (tt,
     if detects (env s) (tracker_ s) (frame_ s)
     then set_tracker_ (Tracker.detect (tracker_ s))
            (set_trackerInputCanvas_ (detectSize (env s)) s)
     else s,
     trackingEvents (env s) (tracker_ s) (frame_ s)).
Proof.
  unfold resampleAndScheduleHeadTracking, trackingEvents, detects,
    requestHeadTrackerUpdate, detectSize. run_flow.
  destruct (negb (Tracker.busy (tracker_ s)) && _); reflexivity.
Qed.

Lemma interpolateHeadTracker_eq (s : t) :
  interpolateHeadTracker s = (tt, s, interpolateEvents).
Proof.
  unfold interpolateHeadTracker, interpolateEvents. run_flow.
  destruct s. reflexivity.
Qed.

Lemma drawFrame_eq (s : t) :
  drawFrame s
  = (tt,
     set_surfaces
       (onlyShown (DrawModeSelector.select
                     (DrawModeSelector.flagsOf (env s)))) s,
     [StartMeasuring "draw-frame"]
     ++ drawCameraFrameEvents
          (DrawModeSelector.select (DrawModeSelector.flagsOf (env s)))
          (frame_ s)
     ++ [FinishMeasuring "draw-frame"]).
Proof.
  unfold drawFrame, DrawModeSelector.select, DrawModeSelector.busy,
    DrawModeSelector.flagsOf.
  unfold measuring, bind, get, emit, Flow.bind, Flow.get, Flow.emit.
  cbn [DrawModeSelector.isMultiframe DrawModeSelector.takingPhoto
       DrawModeSelector.toolbarTransition DrawModeSelector.controlsTransition
       DrawModeSelector.isSlow DrawModeSelector.uiAnimation
       DrawModeSelector.toastTransition DrawModeSelector.scrollWhileExpanded].
  destruct (Effect.isMultiframe (effect (env s))).
  - rewrite drawCameraFrame_eq. reflexivity.
  - destruct (taking_ (env s) || _ || _ || _ || _ || _ || _);
      rewrite drawCameraFrame_eq; reflexivity.
Qed.

Lemma drawRibbon_eq (s : t) :
  drawRibbon s
  = (tt,
     if ribbonRuns (env s)
     then set_staleEffectsRefreshIndex_ (S (staleEffectsRefreshIndex_ s)) s
     else s,
     ribbonEvents (env s) (staleEffectsRefreshIndex_ s) (frame_ s)).
Proof.
  unfold drawRibbon, ribbonEvents, ribbonRuns, ribbonMode.
  unfold measuring, bind, get, emit, ret, Flow.bind, Flow.get, Flow.emit,
    Flow.ret.
  destruct (_ || ribbonInitialization_ (env s)).
  - destruct (expanded_ (env s) && _);
      rewrite drawEffectsRibbon_eq; reflexivity.
  - reflexivity.
Qed.

(** One processed frame, written out. *)
Lemma onAnimationFrame_eq (s : t) :
  processes s = true ->
  onAnimationFrame_ s
  = (tt,
     {| env := env s;
        lastFrameTime_ := currentTime (env s);
        frame_ := S (S (frame_ s));
        staleEffectsRefreshIndex_ :=
          if ribbonRuns (env s) then S (staleEffectsRefreshIndex_ s)
          else staleEffectsRefreshIndex_ s;
        trackerInputCanvas_ :=
          if detects (env s) (tracker_ s) (S (frame_ s))
          then detectSize (env s) else trackerInputCanvas_ s;
        tracker_ :=
          if detects (env s) (tracker_ s) (S (frame_ s))
          then Tracker.detect (tracker_ s) else tracker_ s;
        surfaces :=
          onlyShown (DrawModeSelector.select
                       (DrawModeSelector.flagsOf (env s))) |},
     [StartMeasuring "main"]
     ++ previewEvents (env s) (S (frame_ s))
     ++ trackingEvents (env s) (tracker_ s) (S (frame_ s))
     ++ interpolateEvents
     ++ [StartMeasuring "draw-frame"]
     ++ drawCameraFrameEvents
          (DrawModeSelector.select (DrawModeSelector.flagsOf (env s)))
          (S (frame_ s))
     ++ [FinishMeasuring "draw-frame"]
     ++ ribbonEvents (env s) (staleEffectsRefreshIndex_ s) (S (frame_ s))
     ++ [FinishMeasuring "main"]).
Proof.
  unfold processes. intros H.
  apply andb_true_iff in H. destruct H as [H Hnew].
  apply andb_true_iff in H. destruct H as [Hact Hres].
  apply negb_true_iff in Hres.
  unfold onAnimationFrame_.
  unfold bind at 1, get at 1, Flow.bind, Flow.get.
  rewrite Hact, Hres, Hnew. cbn [negb].
  unfold incrementFrame, bind, modify, emit, Flow.bind, Flow.modify,
    Flow.emit.
  rewrite resampleAndUploadPreviewTexture_eq.
  rewrite resampleAndScheduleHeadTracking_eq.
  rewrite interpolateHeadTracker_eq.
  rewrite drawFrame_eq.
  rewrite drawRibbon_eq.
  cbn [env lastFrameTime_ frame_ staleEffectsRefreshIndex_
       trackerInputCanvas_ tracker_ surfaces set_frame_].
  destruct (detects (env s) (tracker_ s) (S (frame_ s)));
    cbn [env lastFrameTime_ frame_ staleEffectsRefreshIndex_
         trackerInputCanvas_ tracker_ surfaces set_frame_ set_tracker_
         set_trackerInputCanvas_ set_surfaces];
    destruct (ribbonRuns (env s)); 
    cbn [env lastFrameTime_ frame_ staleEffectsRefreshIndex_
         trackerInputCanvas_ tracker_ surfaces set_frame_ set_tracker_
         set_trackerInputCanvas_ set_surfaces set_lastFrameTime_
         set_staleEffectsRefreshIndex_ app];
    rewrite <- ?app_assoc; reflexivity.
Qed.

Lemma onAnimationFrame_skip (s : t) :
  processes s = false -> onAnimationFrame_ s = (tt, s, []).
Proof.
  unfold processes, onAnimationFrame_. intros H.
  unfold bind at 1, get at 1, Flow.bind, Flow.get.
  destruct (active (env s)); simpl in *; [|reflexivity].
  destruct (resizing (env s)); simpl in *; [reflexivity|].
  rewrite H. reflexivity.
Qed.

(** ** Counting calls in a frame *)

Lemma count_app (f : Event -> bool) (l1 l2 : list Event) :
  count f (l1 ++ l2) = (count f l1 + count f l2)%nat.
Proof.
  unfold count. rewrite filter_app, length_app. reflexivity.
Qed.

Lemma count_none (f : Event -> bool) (l : list Event) :
  (forall e, In e l -> f e = false) -> count f l = 0%nat.
Proof.
  unfold count. induction l as [|x l IH]; intros H; simpl; [reflexivity|].
  rewrite (H x (or_introl eq_refl)). apply IH.
  intros e He. apply H. right. exact He.
Qed.

(** The calls of the ribbon are all of the previews' processors. *)
Lemma ribbonEvents_previews (e : Env) (index f : nat) (ev : Event) :
  In ev (ribbonEvents e index f) ->
  (exists i, ev = processEffect i) \/ ev = StartMeasuring "draw-ribbon"
  \/ ev = FinishMeasuring "draw-ribbon".
Proof.
  unfold ribbonEvents, drawEffectsRibbonEvents, extraRefresh.
  intros H. repeat (apply in_app_or in H; destruct H as [H|H]).
  - destruct H as [<-|[]]. auto.
  - destruct (ribbonRuns e); [|destruct H].
    apply in_app_or in H. destruct H as [H|H].
    + apply in_map_iff in H. destruct H as (i & <- & _). eauto.
    + destruct (notDrawnIndices _ _ _ _) as [|j l]; [destruct H|].
      destruct (nth_error (j :: l) _) as [i|]; [|destruct H].
      destruct H as [<-|[]]. eauto.
  - destruct H as [<-|[]]. auto.
Qed.

Lemma count_ribbonEvents (g : Event -> bool) (e : Env) (index f : nat) :
  (forall i, g (processEffect i) = false) ->
  g (StartMeasuring "draw-ribbon") = false ->
  g (FinishMeasuring "draw-ribbon") = false ->
  count g (ribbonEvents e index f) = 0%nat.
Proof.
  intros H1 H2 H3. apply count_none. intros ev Hev.
  destruct (@ribbonEvents_previews _ _ _ _ Hev) as [[i ->]|[->| ->]]; auto.
Qed.

Lemma count_previewEvents (g : Event -> bool) (e : Env) (f : nat) :
  (forall ev, g ev = true ->
     match ev with
     | ProcessFrame _ | Detect | Update | DrawTrackerInput _ _ => True
     | LoadContentsOf x =>
         match x with EffectCanvasTexture => False | _ => True end
     | _ => False
     end) ->
  count g (previewEvents e f) = 0%nat.
Proof.
  intros H. apply count_none. intros ev Hev.
  destruct (g ev) eqn:E; [|reflexivity]. exfalso.
  specialize (H ev E). unfold previewEvents in Hev.
  destruct (multipleOf PREVIEW_BUFFER_SKIP_FRAMES f); simpl in Hev;
    intuition (subst; auto).
Qed.

End CameraFlow.

(** ** C1: the draw mode of a frame *)

Section DrawModeFacts.

Import Camera.

Ltac quiet :=
  let ev := fresh "ev" in
  intros ev; destruct ev as [? | ? | [] | [] | | | | ]; simpl;
  intros; try discriminate; exact I.

Lemma drawnIn_frame (s : t) :
  processes s = true ->
  drawnIn (DrawModeSelector.select (DrawModeSelector.flagsOf (env s)))
    (exec onAnimationFrame_ s) (trace onAnimationFrame_ s).
Proof.
  intros H. unfold exec, trace, Flow.exec, Flow.trace.
  rewrite (onAnimationFrame_eq s H). cbn [fst snd surfaces].
  unfold drawnIn. split; [reflexivity|].
  rewrite !count_app.
  rewrite !count_ribbonEvents by (intros; reflexivity).
  rewrite !count_previewEvents by quiet.
  unfold trackingEvents, interpolateEvents, drawCameraFrameEvents.
  destruct (detects _ _ _);
    destruct (DrawModeSelector.select _);
    destruct (multipleOf 10 _); simpl; repeat split;
    intros; try discriminate; reflexivity.
Qed.

End DrawModeFacts.

(** C1.  On every frame that is processed, the main view is drawn in the
    mode the specification's rule selects from the declared flags: in
    [BEST] whenever the current effect is multi-frame, whatever the other
    flags; otherwise in [FAST] when a picture is being taken, the toolbar,
    the window controls or the toast is animating, the effect is slow, the
    UI is animating, or the ribbon is scrolled while expanded; otherwise in
    [NORMAL]. *)
Theorem C1_draw_mode_priority (s : Camera.t) :
  Camera.processes s = true ->
  let e := Camera.env s in
  let after := Camera.exec Camera.onAnimationFrame_ s in
  let evs := Camera.trace Camera.onAnimationFrame_ s in
  Camera.drawnIn (DrawModeSelector.select (DrawModeSelector.flagsOf e))
    after evs /\
  (Effect.isMultiframe (Camera.effect e) = true ->
   Camera.drawnIn DrawMode.BEST after evs) /\
  (Effect.isMultiframe (Camera.effect e) = false ->
   Camera.taking_ e || Camera.toolbarEffect_animating e ||
   Camera.controlsEffect_animating e || Effect.isSlow (Camera.effect e) ||
   Camera.isUIAnimating e || Camera.toastEffect_animating e ||
   (Camera.scrollTracker_scrolling e && Camera.expanded_ e) = true ->
   Camera.drawnIn DrawMode.FAST after evs) /\
  (Effect.isMultiframe (Camera.effect e) = false ->
   Camera.taking_ e || Camera.toolbarEffect_animating e ||
   Camera.controlsEffect_animating e || Effect.isSlow (Camera.effect e) ||
   Camera.isUIAnimating e || Camera.toastEffect_animating e ||
   (Camera.scrollTracker_scrolling e && Camera.expanded_ e) = false ->
   Camera.drawnIn DrawMode.NORMAL after evs).
Proof.
  intros H e after evs. pose proof (drawnIn_frame s H) as D.
  fold e after evs in D.
  unfold DrawModeSelector.select, DrawModeSelector.busy,
    DrawModeSelector.flagsOf in D. simpl in D.
  split; [exact (drawnIn_frame s H)|].
  split; [|split]; intros;
    repeat match goal with
           | E : _ = _ |- _ => rewrite E in D
           end; exact D.
Qed.

(** C1 on a multi-frame effect while the expanded ribbon is scrolled: the
    frame is drawn in [BEST]. *)
Lemma C1_draw_mode_priority_witness :
  Camera.processes
    (Camera.create Scenario.multiframeWhileScrolling Scenario.wrappers)
  = true /\
  Camera.drawnIn DrawMode.BEST
    (Camera.exec Camera.onAnimationFrame_
       (Camera.create Scenario.multiframeWhileScrolling Scenario.wrappers))
    (Camera.trace Camera.onAnimationFrame_
       (Camera.create Scenario.multiframeWhileScrolling Scenario.wrappers)).
Proof.
  split; [reflexivity|].
  exact (proj1 (proj2 (C1_draw_mode_priority
                         (Camera.create Scenario.multiframeWhileScrolling
                            Scenario.wrappers) eq_refl)) eq_refl).
Defined.

(** ** C8: the three surfaces *)

(** C8.  After a main-frame draw in any mode, from any state of the three
    surfaces, only the surface of that mode is shown and the other two are
    hidden; and so it is after an animation frame that is processed, while
    one that is skipped leaves the surfaces as they were. *)
Theorem C8_exactly_one_surface (mode : DrawMode.t) (s : Camera.t) :
  Camera.surfaces (Camera.exec (Camera.drawCameraFrame_ mode) s)
  = Camera.onlyShown mode /\
  Camera.shownCount
    (Camera.surfaces (Camera.exec (Camera.drawCameraFrame_ mode) s)) = 1%nat /\
  (if Camera.processes s
   then Camera.shownCount
          (Camera.surfaces (Camera.exec Camera.onAnimationFrame_ s)) = 1%nat
   else Camera.surfaces (Camera.exec Camera.onAnimationFrame_ s)
        = Camera.surfaces s).
Proof.
  unfold Camera.exec, Flow.exec. rewrite drawCameraFrame_eq.
  cbn [fst snd Camera.surfaces Camera.set_surfaces].
  split; [reflexivity|]. split; [destruct mode; reflexivity|].
  destruct (Camera.processes s) eqn:H.
  - rewrite (onAnimationFrame_eq s H). cbn [fst snd Camera.surfaces].
    destruct (DrawModeSelector.select _); reflexivity.
  - rewrite (onAnimationFrame_skip s H). reflexivity.
Qed.

(** ** Runs of the view: what every action preserves *)

Section RunFacts.

Import Camera.

Lemma exec_run_cons (a : Action) (rest : list Action) (s : t) :
  exec (run (a :: rest)) s = exec (run rest) (exec (step a) s).
Proof.
  unfold exec, Flow.exec. simpl. unfold bind, Flow.bind.
  destruct (step a s) as [[u s1] e1]. simpl.
  destruct (run rest s1) as [[v s2] e2]. reflexivity.
Qed.

Lemma trace_run_cons (a : Action) (rest : list Action) (s : t) :
  trace (run (a :: rest)) s
  = trace (step a) s ++ trace (run rest) (exec (step a) s).
Proof.
  unfold exec, trace, Flow.exec, Flow.trace. simpl. unfold bind, Flow.bind.
  destruct (step a s) as [[u s1] e1]. simpl.
  destruct (run rest s1) as [[v s2] e2]. reflexivity.
Qed.

(** A frame is either skipped or processed. *)
Lemma onAnimationFrame_cases (s : t) :
  (processes s = false /\ onAnimationFrame_ s = (tt, s, []))
  \/ (processes s = true /\
      frame_ (exec onAnimationFrame_ s) = S (S (frame_ s)) /\
      env (exec onAnimationFrame_ s) = env s /\
      tracker_ (exec onAnimationFrame_ s)
      = if detects (env s) (tracker_ s) (S (frame_ s))
        then Tracker.detect (tracker_ s) else tracker_ s).
Proof.
  destruct (processes s) eqn:H; [right|left]; split; try reflexivity.
  - unfold exec, Flow.exec. rewrite (onAnimationFrame_eq s H).
    repeat split.
  - exact (onAnimationFrame_skip s H).
Qed.

(** The counter stays even from one action to the next. *)
Lemma step_even (a : Action) (s : t) :
  Nat.Even (frame_ s) -> Nat.Even (frame_ (exec (step a) s)).
Proof.
  intros He. destruct a as [e| | |]; simpl; try exact He.
  - destruct (onAnimationFrame_cases s) as [[_ E]|[_ [E _]]].
    + unfold exec, Flow.exec. rewrite E. exact He.
    + rewrite E. destruct He as [k Hk]. exists (S k). lia.
  - unfold exec, Flow.exec. rewrite drawCameraFrame_eq. exact He.
Qed.

Lemma run_even (actions : list Action) :
  forall s : t, Nat.Even (frame_ s) ->
                Nat.Even (frame_ (exec (run actions) s)).
Proof.
  induction actions as [|a rest IH]; intros s He; [exact He|].
  rewrite exec_run_cons. apply IH. apply step_even. exact He.
Qed.

(** At most one detection request is outstanding, from one action to the
    next. *)
Lemma step_outstanding (a : Action) (s : t) :
  (Tracker.outstanding (tracker_ s) <= 1)%nat ->
  (Tracker.outstanding (tracker_ (exec (step a) s)) <= 1)%nat.
Proof.
  intros Hle. destruct a as [e| | |]; simpl; try exact Hle.
  - unfold exec, Flow.exec. simpl. lia.
  - destruct (onAnimationFrame_cases s) as [[_ E]|[_ [_ [_ E]]]].
    + unfold exec, Flow.exec. rewrite E. exact Hle.
    + rewrite E. unfold detects, Tracker.busy.
      destruct (Tracker.outstanding (tracker_ s)) as [|k] eqn:Ek; simpl.
      * destruct (_ || _); simpl; rewrite ?Ek; lia.
      * rewrite Ek. exact Hle.
  - unfold exec, Flow.exec. rewrite drawCameraFrame_eq. exact Hle.
Qed.

Lemma run_outstanding (actions : list Action) :
  forall s : t, (Tracker.outstanding (tracker_ s) <= 1)%nat ->
                (Tracker.outstanding (tracker_ (exec (run actions) s)) <= 1)%nat.
Proof.
  induction actions as [|a rest IH]; intros s Hle; [exact Hle|].
  rewrite exec_run_cons. apply IH. apply step_outstanding. exact Hle.
Qed.

(** An odd counter is a multiple neither of 10 nor of 30. *)
Lemma odd_not_multiple (k n : nat) :
  Nat.Even k -> k <> 0%nat -> Nat.Odd n -> multipleOf k n = false.
Proof.
  intros [a Ha] Hk [b Hb]. unfold multipleOf.
  apply Nat.eqb_neq. intros Hm.
  pose proof (Nat.div_mod_eq n k) as Hd. rewrite Hm in Hd.
  subst k n. lia.
Qed.

End RunFacts.

(** ** Calls made by one processed frame *)

Section FrameCounts.

Import Camera.

Ltac silent :=
  let ev := fresh "ev" in
  intros ev; destruct ev as [? | ? | [] | [] | | | | ]; simpl;
  intros; try discriminate; exact I.

Ltac count_frame H :=
  unfold trace, Flow.trace; rewrite (onAnimationFrame_eq _ H);
  cbn [fst snd]; rewrite !count_app;
  rewrite !count_ribbonEvents by (intros; reflexivity);
  rewrite !count_previewEvents by silent;
  unfold trackingEvents, interpolateEvents, drawCameraFrameEvents.

(** The interpolation step runs once. *)
Lemma frame_updates (s : t) :
  processes s = true ->
  count isUpdate (trace onAnimationFrame_ s) = 1%nat.
Proof.
  intros H. count_frame H.
  destruct (detects _ _ _), (DrawModeSelector.select _),
    (multipleOf 10 _); reflexivity.
Qed.

(** A detection is requested when [detects] says so, once. *)
Lemma frame_detects (s : t) :
  processes s = true ->
  count isDetect (trace onAnimationFrame_ s)
  = (if detects (env s) (tracker_ s) (S (frame_ s)) then 1 else 0)%nat.
Proof.
  intros H. count_frame H.
  destruct (detects _ _ _), (DrawModeSelector.select _),
    (multipleOf 10 _); reflexivity.
Qed.

(** The fast path is reloaded and re-run when the test of
    [drawCameraFrame_] says so, once. *)
Lemma frame_fast_path (s : t) :
  processes s = true ->
  let refreshed :=
    multipleOf 10 (S (frame_ s)) ||
    DrawMode.eqb (DrawModeSelector.select (DrawModeSelector.flagsOf (env s)))
      DrawMode.FAST in
  count (isLoadContentsOf MainFastCanvasTexture) (trace onAnimationFrame_ s)
  = (if refreshed then 1 else 0)%nat /\
  count (isProcessFrame MainFastProcessor) (trace onAnimationFrame_ s)
  = (if refreshed then 1 else 0)%nat.
Proof.
  intros H. cbv zeta. split; count_frame H;
    destruct (detects _ _ _), (DrawModeSelector.select _),
      (multipleOf 10 _); reflexivity.
Qed.

(** The size of the tracker's input is drawn when a detection is
    requested. *)
Lemma frame_tracker_input (s : t) :
  processes s = true ->
  filter isDrawTrackerInput (trace onAnimationFrame_ s)
  = if detects (env s) (tracker_ s) (S (frame_ s))
    then [DrawTrackerInput (fst (detectSize (env s)))
            (snd (detectSize (env s)))]
    else [].
Proof.
  intros H. unfold trace, Flow.trace. rewrite (onAnimationFrame_eq _ H).
  cbn [fst snd]. rewrite !filter_app.
  assert (Hp : forall e f, filter
                 isDrawTrackerInput (previewEvents e f) = []).
  { intros e f. unfold previewEvents.
    destruct (multipleOf PREVIEW_BUFFER_SKIP_FRAMES f); reflexivity. }
  assert (Hr : forall e i f, filter
                 isDrawTrackerInput (ribbonEvents e i f) = []).
  { intros e i f.
    assert (Hc := @count_ribbonEvents
                    isDrawTrackerInput e i f
                    (fun _ => eq_refl) eq_refl eq_refl).
    unfold count in Hc. apply length_zero_iff_nil. exact Hc. }
  rewrite Hp, Hr.
  unfold trackingEvents, interpolateEvents, drawCameraFrameEvents.
  destruct (detects _ _ _), (DrawModeSelector.select _),
    (multipleOf 10 _); reflexivity.
Qed.

End FrameCounts.

(** ** Steady runs: a new video frame at every display refresh *)

Section SteadyRuns.

Import Camera.

Variable e : Env.
Hypothesis e_active : active e = true.
Hypothesis e_not_resizing : resizing e = false.

Lemma steady_processes (time : Q) (s : t) :
  lastFrameTime_ s < time ->
  processes (exec (step (Host (Scenario.withCurrentTime time e))) s) = true.
Proof.
  intros Hlt. unfold processes, newFrame, exec, Flow.exec. simpl.
  rewrite e_active, e_not_resizing. simpl.
  apply negb_true_iff. destruct (Qeq_bool (lastFrameTime_ s) time) eqn:E;
    [|reflexivity].
  apply Qeq_bool_iff in E. lra.
Qed.

(** In a steady run every frame is processed; the counter, even before,
    reads an odd value at every test, so the fast path is refreshed in
    [FAST] mode only, and an effect that does not use the head tracker
    never has a detection requested. *)
Lemma steady_counts (n : nat) :
  forall (from : nat) (s : t),
    Nat.Even (frame_ s) ->
    lastFrameTime_ s < inject_Z (Z.of_nat (S from)) ->
    let evs := trace (run (Scenario.steady e from n)) s in
    let fast :=
      DrawMode.eqb (DrawModeSelector.select (DrawModeSelector.flagsOf e))
        DrawMode.FAST in
    count isUpdate evs = n /\
    (Effect.usesHeadTracker (effect e) = false ->
     count isDetect evs = 0%nat) /\
    count (isLoadContentsOf MainFastCanvasTexture) evs
    = (if fast then n else 0%nat) /\
    count (isProcessFrame MainFastProcessor) evs
    = (if fast then n else 0%nat) /\
    count (isProcessFrame MainPreviewProcessor) evs
    = (if DrawMode.eqb (DrawModeSelector.select (DrawModeSelector.flagsOf e))
            DrawMode.NORMAL
       then n else 0%nat).
Proof.
  induction n as [|n IH]; intros from s He Hlt.
  - cbv zeta. simpl. unfold trace, Flow.trace. simpl.
    repeat split; try reflexivity; destruct (DrawMode.eqb _ _); reflexivity.
  - cbv zeta. cbn [Scenario.steady].
    set (time := inject_Z (Z.of_nat (S from))) in *.
    set (e' := Scenario.withCurrentTime time e).
    rewrite trace_run_cons.
    set (s1 := exec (step (Host e')) s).
    assert (H1 : processes s1 = true) by (apply steady_processes; exact Hlt).
    assert (Hf1 : frame_ s1 = frame_ s) by reflexivity.
    assert (He1 : env s1 = e') by reflexivity.
    rewrite trace_run_cons.
    set (s2 := exec (step AnimationFrame) s1).
    assert (Hs2 : Nat.Even (frame_ s2) /\
                  lastFrameTime_ s2 < inject_Z (Z.of_nat (S (S from)))).
    { unfold s2, exec, Flow.exec. cbn [step].
      rewrite (onAnimationFrame_eq s1 H1). cbn [fst snd frame_ lastFrameTime_].
      rewrite Hf1, He1. split.
      - destruct He as [k Hk]. exists (S k). lia.
      - cbn [currentTime e' Scenario.withCurrentTime]. unfold time.
        rewrite <- Zlt_Qlt. lia. }
    destruct Hs2 as [He2 Hlt2].
    destruct (IH (S from) s2 He2 Hlt2) as (IHu & IHd & IHl & IHp & IHn).
    assert (Hodd : Nat.Odd (S (frame_ s1))).
    { rewrite Hf1. destruct He as [k Hk]. exists k. lia. }
    assert (H10 : multipleOf 10 (S (frame_ s1)) = false).
    { apply odd_not_multiple; [exists 5%nat; reflexivity|discriminate|exact Hodd]. }
    assert (H30 : multipleOf RIBBON_HEAD_TRACKER_SKIP_FRAMES (S (frame_ s1))
                  = false).
    { apply odd_not_multiple; [exists 15%nat; reflexivity|discriminate|exact Hodd]. }
    rewrite !count_app. cbn [step].
    change (trace (modify (set_env e')) s) with (@nil Event).
    cbn [count filter List.length].
    rewrite (frame_updates s1 H1), (frame_detects s1 H1).
    destruct (frame_fast_path s1 H1) as [Hl Hp]. cbv zeta in Hl, Hp.
    rewrite Hl, Hp, H10, He1. cbn [orb].
    change (DrawModeSelector.flagsOf e') with (DrawModeSelector.flagsOf e).
    destruct (drawnIn_frame s1 H1) as (_ & _ & Hn & _).
    rewrite He1 in Hn.
    change (DrawModeSelector.flagsOf e') with (DrawModeSelector.flagsOf e)
      in Hn.
    rewrite Hn, IHu, IHl, IHp, IHn.
    split; [reflexivity|]. split; [|split; [|split]].
    + intros Hno. rewrite (IHd Hno). unfold detects. rewrite H30.
      change (effect e') with (effect e). rewrite Hno.
      rewrite andb_false_r. destruct (negb _); reflexivity.
    + destruct (DrawMode.eqb _ DrawMode.FAST); reflexivity.
    + destruct (DrawMode.eqb _ DrawMode.FAST); reflexivity.
    + destruct (DrawMode.eqb _ DrawMode.NORMAL); reflexivity.
Qed.

End SteadyRuns.

(** ** C4 and C5: the cadences of 10 and 30 frames *)

(** C4, on the code.  A processed frame reloads the fast-path texture and
    runs the fast processor exactly when its mode is [FAST] or the counter,
    which reads [frame_ + 1] at that point, is a multiple of 10.  On the
    view as constructed, the ribbon expanded, a plain effect and nothing
    animating, so that no frame is drawn in [FAST] mode: however many new
    video frames are processed in a row, the fast-path texture is never
    reloaded and the fast processor never run.  The counter is incremented
    before the phases and again after them, so the test [frame_ % 10 == 0]
    of [drawCameraFrame_] reads 1, 3, 5, ... *)
Theorem C4_fast_path_never_refreshed (s : Camera.t) (n : nat) :
  (if Camera.processes s then
     Camera.count (Camera.isLoadContentsOf Camera.MainFastCanvasTexture)
       (Camera.trace Camera.onAnimationFrame_ s)
     = (if Camera.multipleOf 10 (S (Camera.frame_ s)) ||
           DrawMode.eqb
             (DrawModeSelector.select
                (DrawModeSelector.flagsOf (Camera.env s))) DrawMode.FAST
        then 1 else 0)%nat
   else True) /\
  let evs :=
    Camera.trace (Camera.run (Scenario.steady Scenario.plain 0 n))
      (Camera.create Scenario.plain Scenario.wrappers) in
  Camera.count Camera.isUpdate evs = n /\
  Camera.count (Camera.isProcessFrame Camera.MainPreviewProcessor) evs = n /\
  Camera.count (Camera.isLoadContentsOf Camera.MainFastCanvasTexture) evs
  = 0%nat /\
  Camera.count (Camera.isProcessFrame Camera.MainFastProcessor) evs = 0%nat.
Proof.
  split.
  { destruct (Camera.processes s) eqn:H; [|exact I].
    exact (proj1 (frame_fast_path s H)). }
  cbv zeta.
  destruct (@steady_counts Scenario.plain eq_refl eq_refl n 0
              (Camera.create Scenario.plain Scenario.wrappers))
    as (Hu & _ & Hl & Hp & Hn).
  - exists 0%nat. reflexivity.
  - reflexivity.
  - repeat split; assumption.
Qed.

(** C5, on the code.  A processed frame requests a detection exactly when
    the detector is not busy and either the current effect uses the head
    tracker or the ribbon is expanded and the counter, which reads
    [frame_ + 1] at that point, is a multiple of 30.  On the view as
    constructed, whose effect does not use the head tracker, the ribbon
    kept expanded and the detector never busy: however many new video
    frames are processed in a row, no detection is ever requested, the
    test [frame_ % 30 == 0] reading 1, 3, 5, ... *)
Theorem C5_ribbon_detection_never_requested (s : Camera.t) (n : nat) :
  (if Camera.processes s then
     Camera.count Camera.isDetect (Camera.trace Camera.onAnimationFrame_ s)
     = (if negb (Tracker.busy (Camera.tracker_ s)) &&
           (Effect.usesHeadTracker (Camera.effect (Camera.env s)) ||
            (Camera.expanded_ (Camera.env s) &&
             Camera.multipleOf Camera.RIBBON_HEAD_TRACKER_SKIP_FRAMES
               (S (Camera.frame_ s))))
        then 1 else 0)%nat
   else True) /\
  let evs :=
    Camera.trace (Camera.run (Scenario.steady Scenario.plain 0 n))
      (Camera.create Scenario.plain Scenario.wrappers) in
  Camera.expanded_ Scenario.plain = true /\
  Effect.usesHeadTracker (Camera.effect Scenario.plain) = false /\
  Camera.count Camera.isUpdate evs = n /\
  Camera.count Camera.isDetect evs = 0%nat.
Proof.
  split.
  { destruct (Camera.processes s) eqn:H; [|exact I].
    exact (frame_detects s H). }
  cbv zeta.
  destruct (@steady_counts Scenario.plain eq_refl eq_refl n 0
              (Camera.create Scenario.plain Scenario.wrappers))
    as (Hu & Hd & _).
  - exists 0%nat. reflexivity.
  - reflexivity.
  - repeat split; try assumption. apply Hd. reflexivity.
Qed.

(** ** C6: one detection at a time, interpolation at every frame *)

(** C6.  In whatever state the view is after any actions from its
    construction, at most one detection request is outstanding; an
    animation frame run there makes the interpolation step once if it is
    processed (and nothing otherwise), requests a detection at most once,
    exactly when it is processed, the detector is not busy and the trigger
    holds, and requests none while the detector is busy. *)
Theorem C6_single_outstanding_detection
    (e : Camera.Env) (dom : Camera.Surfaces) (actions : list Camera.Action) :
  let s := Camera.exec (Camera.run actions) (Camera.create e dom) in
  let evs := Camera.trace Camera.onAnimationFrame_ s in
  (Tracker.outstanding (Camera.tracker_ s) <= 1)%nat /\
  (Tracker.outstanding
     (Camera.tracker_ (Camera.exec Camera.onAnimationFrame_ s)) <= 1)%nat /\
  Camera.count Camera.isUpdate evs
  = (if Camera.processes s then 1 else 0)%nat /\
  Camera.count Camera.isDetect evs
  = (if Camera.processes s &&
        Camera.detects (Camera.env s) (Camera.tracker_ s)
          (S (Camera.frame_ s))
     then 1 else 0)%nat /\
  (if Tracker.busy (Camera.tracker_ s)
   then Camera.count Camera.isDetect evs = 0%nat
   else True).
Proof.
  intros s evs.
  assert (Hs : (Tracker.outstanding (Camera.tracker_ s) <= 1)%nat).
  { apply run_outstanding. simpl. lia. }
  split; [exact Hs|]. split.
  { exact (step_outstanding Camera.AnimationFrame s Hs). }
  assert (Hd : Camera.count Camera.isDetect evs
               = (if Camera.processes s &&
                     Camera.detects (Camera.env s) (Camera.tracker_ s)
                       (S (Camera.frame_ s))
                  then 1 else 0)%nat).
  { unfold evs. destruct (Camera.processes s) eqn:H.
    - rewrite (frame_detects s H). reflexivity.
    - unfold Camera.trace, Flow.trace.
      rewrite (onAnimationFrame_skip s H). reflexivity. }
  split; [|split; [exact Hd|]].
  - unfold evs. destruct (Camera.processes s) eqn:H.
    + exact (frame_updates s H).
    + unfold Camera.trace, Flow.trace.
      rewrite (onAnimationFrame_skip s H). reflexivity.
  - destruct (Tracker.busy (Camera.tracker_ s)) eqn:Hb; [|exact I].
    rewrite Hd. unfold Camera.detects. rewrite Hb.
    rewrite andb_false_r. reflexivity.
Qed.

(** ** C10: the frame counter *)

(** C10.  In whatever state the view is after any actions from its
    construction, the counter is even; an animation frame that is
    processed there increments it once before its phases and once after
    them: every phase, hence every cadence test ([% 3], [% 10], [% 30]),
    reads the odd value [frame_ + 1], which is a multiple neither of 10 nor
    of 30, and the counter ends two higher.  A skipped frame leaves it
    alone. *)
Theorem C10_frame_counter_odd
    (e : Camera.Env) (dom : Camera.Surfaces) (actions : list Camera.Action) :
  let s := Camera.exec (Camera.run actions) (Camera.create e dom) in
  let f := S (Camera.frame_ s) in
  Nat.Even (Camera.frame_ s) /\ Nat.Odd f /\
  Camera.multipleOf 10 f = false /\
  Camera.multipleOf Camera.RIBBON_HEAD_TRACKER_SKIP_FRAMES f = false /\
  (if Camera.processes s then
     Camera.frame_ (Camera.exec Camera.onAnimationFrame_ s)
     = (Camera.frame_ s + 2)%nat /\
     Camera.trace Camera.onAnimationFrame_ s
     = [Camera.StartMeasuring "main"]
       ++ Camera.previewEvents (Camera.env s) f
       ++ Camera.trackingEvents (Camera.env s) (Camera.tracker_ s) f
       ++ Camera.interpolateEvents
       ++ [Camera.StartMeasuring "draw-frame"]
       ++ Camera.drawCameraFrameEvents
            (DrawModeSelector.select
               (DrawModeSelector.flagsOf (Camera.env s))) f
       ++ [Camera.FinishMeasuring "draw-frame"]
       ++ Camera.ribbonEvents (Camera.env s)
            (Camera.staleEffectsRefreshIndex_ s) f
       ++ [Camera.FinishMeasuring "main"]
   else
     Camera.frame_ (Camera.exec Camera.onAnimationFrame_ s)
     = Camera.frame_ s /\
     Camera.trace Camera.onAnimationFrame_ s = []).
Proof.
  intros s f.
  assert (He : Nat.Even (Camera.frame_ s)).
  { apply run_even. exists 0%nat. reflexivity. }
  assert (Ho : Nat.Odd f).
  { destruct He as [k Hk]. exists k. unfold f. lia. }
  split; [exact He|]. split; [exact Ho|].
  split; [apply odd_not_multiple;
          [exists 5%nat; reflexivity|discriminate|exact Ho]|].
  split; [apply odd_not_multiple;
          [exists 15%nat; reflexivity|discriminate|exact Ho]|].
  unfold Camera.exec, Camera.trace, Flow.exec, Flow.trace.
  destruct (Camera.processes s) eqn:H.
  - rewrite (onAnimationFrame_eq s H). cbn [fst snd Camera.frame_].
    split; [lia|reflexivity].
  - rewrite (onAnimationFrame_skip s H). split; reflexivity.
Qed.

(** ** C9: the quality of the tracker's input *)

Lemma trackerInputSize_low (w h : Z) :
  Camera.trackerInputSize HeadTrackerQuality.LOW w h
  = Camera.scaled (75 # 100)
      (Camera.trackerInputSize HeadTrackerQuality.NORMAL w h).
Proof.
  unfold Camera.trackerInputSize.
  destruct (Camera.videoRatioBelow w h (15 # 10)); reflexivity.
Qed.

(** C9, as amended.  The size [setHeadTrackerQuality_] gives the tracker's
    input at low quality is the size it gives at normal quality (160 by 90,
    or 120 by 90 for narrow video) scaled by 0.75, each side rounded; and
    a processed frame that requests a detection draws the video onto the
    tracker's input once, at the normal size when the current effect uses
    the head tracker and at the low one otherwise. *)
Theorem C9_low_quality_three_quarters (s : Camera.t) :
  let low :=
    Camera.trackerInputCanvas_
      (Camera.exec (Camera.setHeadTrackerQuality_ HeadTrackerQuality.LOW) s) in
  let normal :=
    Camera.trackerInputCanvas_
      (Camera.exec (Camera.setHeadTrackerQuality_ HeadTrackerQuality.NORMAL) s)
  in
  low = Camera.scaled (75 # 100) normal /\
  (normal = (160, 90)%Z /\ low = (120, 68)%Z \/
   normal = (120, 90)%Z /\ low = (90, 68)%Z) /\
  filter Camera.isDrawTrackerInput (Camera.trace Camera.onAnimationFrame_ s)
  = if Camera.processes s &&
       Camera.detects (Camera.env s) (Camera.tracker_ s) (S (Camera.frame_ s))
    then
      let size :=
        if Effect.usesHeadTracker (Camera.effect (Camera.env s))
        then normal else low in
      [Camera.DrawTrackerInput (fst size) (snd size)]
    else [].
Proof.
  cbv zeta.
  change (Camera.trackerInputCanvas_
            (Camera.exec
               (Camera.setHeadTrackerQuality_ HeadTrackerQuality.LOW) s))
    with (Camera.trackerInputSize HeadTrackerQuality.LOW
            (Camera.videoWidth (Camera.env s))
            (Camera.videoHeight (Camera.env s))).
  change (Camera.trackerInputCanvas_
            (Camera.exec
               (Camera.setHeadTrackerQuality_ HeadTrackerQuality.NORMAL) s))
    with (Camera.trackerInputSize HeadTrackerQuality.NORMAL
            (Camera.videoWidth (Camera.env s))
            (Camera.videoHeight (Camera.env s))).
  split; [apply trackerInputSize_low|]. split.
  - unfold Camera.trackerInputSize.
    destruct (Camera.videoRatioBelow _ _ _); [right|left]; split; reflexivity.
  - destruct (Camera.processes s) eqn:H; cbn [andb].
    + rewrite (frame_tracker_input s H). unfold Camera.detectSize.
      destruct (Camera.detects _ _ _); [|reflexivity].
      destruct (Effect.usesHeadTracker _); reflexivity.
    + unfold Camera.trace, Flow.trace.
      rewrite (onAnimationFrame_skip s H). reflexivity.
Qed.

(** C9 as stated fails: for a 1280 by 720 video the low-quality input is
    120 by 68, the normal-quality one 160 by 90, and half of that is 80 by
    45. *)
Lemma C9_counterexample :
  Camera.trackerInputCanvas_
    (Camera.exec (Camera.setHeadTrackerQuality_ HeadTrackerQuality.LOW)
       (Camera.create Scenario.plain Scenario.wrappers))
  = (120, 68)%Z /\
  Camera.trackerInputCanvas_
    (Camera.exec (Camera.setHeadTrackerQuality_ HeadTrackerQuality.NORMAL)
       (Camera.create Scenario.plain Scenario.wrappers))
  = (160, 90)%Z /\
  Camera.spec_lowSize 1280 720 = (80, 45)%Z /\
  Camera.trackerInputCanvas_
    (Camera.exec (Camera.setHeadTrackerQuality_ HeadTrackerQuality.LOW)
       (Camera.create Scenario.plain Scenario.wrappers))
  <> Camera.spec_lowSize
       (Camera.videoWidth Scenario.plain) (Camera.videoHeight Scenario.plain).
Proof.
  repeat split; try reflexivity. vm_compute. discriminate.
Qed.

(** ** C7: the round robin over the previews that are not visible *)

Section RoundRobin.

Import Camera.

(** *** Counting remainders *)

Lemma div_succ (k y : nat) :
  (0 < k)%nat ->
  (S y / k = y / k + (if Nat.eqb (S y mod k) 0 then 1 else 0))%nat.
Proof.
  intros Hk.
  pose proof (Nat.div_mod_eq y k) as Hy.
  pose proof (Nat.mod_upper_bound y k ltac:(lia)) as Hr.
  destruct (Nat.eq_dec (S (y mod k)) k) as [E|E].
  - assert (Hm : (S y mod k = 0)%nat).
    { symmetry. apply (Nat.mod_unique (S y) k (S (y / k)) 0); lia. }
    assert (Hd : (S y / k = S (y / k))%nat).
    { symmetry. apply (Nat.div_unique (S y) k (S (y / k)) 0); lia. }
    rewrite Hm, Hd. simpl. lia.
  - assert (Hm : (S y mod k = S (y mod k))%nat).
    { symmetry. apply (Nat.mod_unique (S y) k (y / k) (S (y mod k))); lia. }
    assert (Hd : (S y / k = y / k)%nat).
    { symmetry. apply (Nat.div_unique (S y) k (y / k) (S (y mod k))); lia. }
    rewrite Hm, Hd. simpl. lia.
Qed.

Lemma mod_shift (k p m : nat) :
  (p < k)%nat ->
  Nat.eqb ((m + k - p) mod k) 0 = Nat.eqb (m mod k) p.
Proof.
  intros Hp.
  pose proof (Nat.div_mod_eq m k) as Hm.
  pose proof (Nat.mod_upper_bound m k ltac:(lia)) as Hr.
  destruct (Nat.lt_trichotomy (m mod k) p) as [Hlt|[Heq|Hgt]].
  - assert (E : ((m + k - p) mod k = m mod k + k - p)%nat).
    { symmetry. apply (Nat.mod_unique _ k (m / k)); lia. }
    rewrite E.
    destruct (Nat.eqb_spec (m mod k + k - p) 0),
             (Nat.eqb_spec (m mod k) p); try reflexivity; lia.
  - assert (E : ((m + k - p) mod k = 0)%nat).
    { symmetry. apply (Nat.mod_unique _ k (S (m / k))); lia. }
    rewrite E, Heq, !Nat.eqb_refl. reflexivity.
  - assert (E : ((m + k - p) mod k = m mod k - p)%nat).
    { symmetry. apply (Nat.mod_unique _ k (S (m / k))); lia. }
    rewrite E.
    destruct (Nat.eqb_spec (m mod k - p) 0),
             (Nat.eqb_spec (m mod k) p); try reflexivity; lia.
Qed.

Lemma hits_closed (k p : nat) :
  (p < k)%nat ->
  forall n a : nat,
    (hits k p a n + (a + k - p) / k = (a + n + k - p) / k)%nat.
Proof.
  intros Hp. induction n as [|n IH]; intros a; cbn [hits].
  - rewrite Nat.add_0_r. reflexivity.
  - specialize (IH (S a)).
    replace (a + S n + k - p)%nat with (S a + n + k - p)%nat by lia.
    rewrite <- IH.
    replace (S a + k - p)%nat with (S (a + k - p)) by lia.
    rewrite (@div_succ k (a + k - p) ltac:(lia)).
    replace (S (a + k - p)) with (S a + k - p)%nat by lia.
    rewrite (mod_shift (S a) Hp). lia.
Qed.

(** Among [n] consecutive numbers, a given remainder modulo [k] occurs
    the quotient of [n] by [k] times, rounded down or up. *)
Lemma hits_fair (k p a n : nat) :
  (p < k)%nat -> hits k p a n = (n / k)%nat \/ hits k p a n = ceilDiv n k.
Proof.
  intros Hp. pose proof (hits_closed Hp n a) as Hc.
  set (y := (a + k - p)%nat) in *.
  replace (a + n + k - p)%nat with (y + n)%nat in Hc by (unfold y; lia).
  pose proof (Nat.div_mod_eq y k) as Hy.
  pose proof (Nat.mod_upper_bound y k ltac:(lia)) as Hry.
  pose proof (Nat.div_mod_eq n k) as Hn.
  pose proof (Nat.mod_upper_bound n k ltac:(lia)) as Hrn.
  destruct (Nat.lt_ge_cases (y mod k + n mod k) k) as [Hlt|Hge].
  - left.
    assert (E : ((y + n) / k = y / k + n / k)%nat).
    { symmetry.
      apply (Nat.div_unique _ k _ (y mod k + n mod k)); [exact Hlt|]. lia. }
    lia.
  - right. unfold ceilDiv.
    assert (E : ((y + n) / k = S (y / k + n / k))%nat).
    { symmetry.
      apply (Nat.div_unique _ k _ (y mod k + n mod k - k)); lia. }
    assert (E' : ((n + k - 1) / k = S (n / k))%nat).
    { symmetry. apply (Nat.div_unique _ k _ (n mod k - 1)); lia. }
    lia.
Qed.

(** *** The previews left undrawn *)

Lemma drawnIndices_ge (mode : DrawMode.t) (w : Z) (rest : list Rect) :
  forall index i : nat,
    In i (drawnIndices mode w rest index) -> (index <= i)%nat.
Proof.
  induction rest as [|r rest IH]; intros index i H; simpl in H; [destruct H|].
  destruct (drawnNow mode r w).
  - destruct H as [<-|H]; [lia|]. apply IH in H. lia.
  - apply IH in H. lia.
Qed.

Lemma notDrawnIndices_ge (mode : DrawMode.t) (w : Z) (rest : list Rect) :
  forall index i : nat,
    In i (notDrawnIndices mode w rest index) -> (index <= i)%nat.
Proof.
  induction rest as [|r rest IH]; intros index i H; simpl in H; [destruct H|].
  destruct (drawnNow mode r w).
  - apply IH in H. lia.
  - destruct H as [<-|H]; [lia|]. apply IH in H. lia.
Qed.

Lemma notDrawnIndices_NoDup (mode : DrawMode.t) (w : Z) (rest : list Rect) :
  forall index : nat, NoDup (notDrawnIndices mode w rest index).
Proof.
  induction rest as [|r rest IH]; intros index; simpl; [constructor|].
  destruct (drawnNow mode r w); [apply IH|].
  constructor; [|apply IH].
  intros H. apply notDrawnIndices_ge in H. lia.
Qed.

Lemma drawn_not_notDrawn (mode : DrawMode.t) (w : Z) (rest : list Rect) :
  forall index i : nat,
    In i (notDrawnIndices mode w rest index) ->
    ~ In i (drawnIndices mode w rest index).
Proof.
  induction rest as [|r rest IH]; intros index i H Hd; simpl in *;
    [destruct H|].
  destruct (drawnNow mode r w).
  - destruct Hd as [<-|Hd].
    + apply notDrawnIndices_ge in H. lia.
    + exact (IH _ _ H Hd).
  - destruct H as [<-|H].
    + apply drawnIndices_ge in Hd. lia.
    + exact (IH _ _ H Hd).
Qed.

(** *** Counting the refreshes of one preview *)

Lemma count_processEffect_absent (j : nat) (l : list nat) :
  ~ In j l ->
  count (isProcessFrame (EffectProcessor j)) (map processEffect l) = 0%nat.
Proof.
  intros H. apply count_none. intros ev Hev.
  apply in_map_iff in Hev. destruct Hev as (i & <- & Hi). simpl.
  apply Nat.eqb_neq. intros ->. contradiction.
Qed.

Lemma count_extraRefresh (notDrawn : list nat) (j p index : nat) :
  NoDup notDrawn -> nth_error notDrawn p = Some j ->
  count (isProcessFrame (EffectProcessor j)) (extraRefresh notDrawn index)
  = (if Nat.eqb (index mod List.length notDrawn) p then 1 else 0)%nat.
Proof.
  intros Hnd Hp.
  assert (Hlen : (p < List.length notDrawn)%nat).
  { apply nth_error_Some. rewrite Hp. discriminate. }
  unfold extraRefresh. destruct notDrawn as [|x l] eqn:E; [simpl in Hlen; lia|].
  rewrite <- E in *. clear E x l.
  pose proof (Nat.mod_upper_bound index (List.length notDrawn) ltac:(lia))
    as Hr.
  destruct (nth_error notDrawn (index mod List.length notDrawn)) as [i|] eqn:Ei.
  2:{ apply nth_error_None in Ei. lia. }
  unfold count. simpl.
  destruct (Nat.eqb_spec (index mod List.length notDrawn) p) as [Heq|Hne].
  - rewrite Heq, Hp in Ei. injection Ei as ->. rewrite Nat.eqb_refl.
    reflexivity.
  - destruct (Nat.eqb_spec i j) as [->|Hij]; [|reflexivity].
    exfalso. apply Hne.
    rewrite NoDup_nth_error in Hnd. apply Hnd; [exact Hr|].
    rewrite Ei, Hp. reflexivity.
Qed.

(** The calls for the preview [j], left undrawn, in one invocation. *)
Lemma count_drawEffectsRibbonEvents (mode : DrawMode.t) (e : Env)
    (index j p : nat) :
  nth_error (notDrawnIndices mode (offsetWidth e) (effectProcessors_ e) 0) p
  = Some j ->
  count (isProcessFrame (EffectProcessor j))
    (drawEffectsRibbonEvents mode e index)
  = (if Nat.eqb
          (S index
           mod List.length
                 (notDrawnIndices mode (offsetWidth e)
                    (effectProcessors_ e) 0)) p
     then 1 else 0)%nat.
Proof.
  intros Hp. unfold drawEffectsRibbonEvents. rewrite count_app.
  rewrite count_processEffect_absent.
  - apply count_extraRefresh; [apply notDrawnIndices_NoDup|exact Hp].
  - apply drawn_not_notDrawn. eapply nth_error_In. exact Hp.
Qed.

(** Of a processed frame, only the ribbon calls the previews'
    processors. *)
Lemma count_frame_preview (s : t) (j : nat) :
  processes s = true ->
  count (isProcessFrame (EffectProcessor j)) (trace onAnimationFrame_ s)
  = (if ribbonRuns (env s)
     then count (isProcessFrame (EffectProcessor j))
            (drawEffectsRibbonEvents
               (ribbonMode (env s) (S (frame_ s))) (env s)
               (staleEffectsRefreshIndex_ s))
     else 0)%nat.
Proof.
  intros H. unfold trace, Flow.trace. rewrite (onAnimationFrame_eq _ H).
  cbn [fst snd]. rewrite !count_app.
  rewrite count_previewEvents.
  2:{ intros ev. destruct ev as [? | ? | [] | [] | | | | ]; simpl;
        intros; try discriminate; exact I. }
  unfold trackingEvents, interpolateEvents, drawCameraFrameEvents,
    ribbonEvents.
  rewrite !count_app.
  destruct (ribbonRuns (env s)), (detects _ _ _),
    (DrawModeSelector.select _), (multipleOf 10 _);
    cbn [count filter List.length isProcessFrame app Nat.add orb
         DrawMode.eqb];
    try reflexivity; unfold count; lia.
Qed.

(** Over a run whose invocations all leave [notDrawn] undrawn, the
    refreshes of one of these previews are the hits of its position. *)
Lemma count_run_invocations (notDrawn : list nat) (j p : nat) :
  nth_error notDrawn p = Some j ->
  forall (actions : list Action) (s : t),
    Forall (fun i => snd i = notDrawn) (invocations actions s) ->
    count (isProcessFrame (EffectProcessor j)) (trace (run actions) s)
    = hits (List.length notDrawn) p (staleEffectsRefreshIndex_ s)
        (List.length (invocations actions s))
    /\ staleEffectsRefreshIndex_ (exec (run actions) s)
       = (staleEffectsRefreshIndex_ s
          + List.length (invocations actions s))%nat.
Proof.
  intros Hp. induction actions as [|a rest IH]; intros s Hall.
  - split; [reflexivity|]. cbn [invocations List.length].
    unfold exec, Flow.exec. simpl. lia.
  - rewrite trace_run_cons, exec_run_cons, count_app.
    cbn [invocations] in Hall |- *.
    apply Forall_app in Hall. destruct Hall as [Hhere Hrest].
    destruct (IH _ Hrest) as [IHc IHi]. rewrite IHc, IHi, length_app.
    clear IH IHc IHi Hrest.
    set (n := List.length (invocations rest (exec (step a) s))).
    destruct a as [e| | |].
    + cbn [List.length Nat.add]. split; reflexivity.
    + cbn [List.length Nat.add]. split; reflexivity.
    + cbn [step].
      destruct (processes s) eqn:Hproc.
      * rewrite (@count_frame_preview s j Hproc).
        unfold ribbonInvocation in Hhere |- *. rewrite Hproc in Hhere |- *.
        assert (Hindex : staleEffectsRefreshIndex_ (exec onAnimationFrame_ s)
                         = if ribbonRuns (env s)
                           then S (staleEffectsRefreshIndex_ s)
                           else staleEffectsRefreshIndex_ s).
        { unfold exec, Flow.exec. rewrite (onAnimationFrame_eq s Hproc).
          reflexivity. }
        rewrite Hindex.
        destruct (ribbonRuns (env s)); cbn [andb] in Hhere |- *.
        -- apply Forall_inv in Hhere. cbn [snd] in Hhere.
           rewrite (@count_drawEffectsRibbonEvents _ _ _ j p)
             by (rewrite Hhere; exact Hp).
           rewrite Hhere. cbn [List.length Nat.add hits].
           split; [reflexivity|lia].
        -- cbn [List.length Nat.add]. split; reflexivity.
      * unfold ribbonInvocation. rewrite Hproc. cbn [andb List.length Nat.add].
        unfold trace, exec, Flow.trace, Flow.exec.
        rewrite (onAnimationFrame_skip s Hproc). split; reflexivity.
    + assert (Hnone : match ribbonInvocation s with
                      | Some _ | None => @nil (DrawMode.t * list nat)
                      end = []) by (destruct (ribbonInvocation s); reflexivity).
      cbn [step]. unfold trace, exec, Flow.trace, Flow.exec.
      rewrite drawCameraFrame_eq. cbn [fst snd List.length Nat.add].
      split; [|reflexivity].
      unfold drawCameraFrameEvents.
      destruct (multipleOf 10 (frame_ s)); reflexivity.
Qed.

End RoundRobin.

(** C7, as the code has it.  Over the invocations of the ribbon renderer
    in a run of the view, whatever else happens in between, as long as
    every one of them leaves the same [k >= 1] previews undrawn (in
    [NORMAL] mode the previews that are not visible): the counter goes
    up by one at each invocation, whatever its mode, and each of these
    previews gets the additional refresh the quotient of the number [n]
    of invocations by [k] times, rounded down or rounded up. *)
Theorem C7_round_robin_fair
    (notDrawn : list nat) (actions : list Camera.Action) (s : Camera.t)
    (j : nat) :
  In j notDrawn ->
  Forall (fun i => snd i = notDrawn) (Camera.invocations actions s) ->
  let k := List.length notDrawn in
  let n := List.length (Camera.invocations actions s) in
  let refreshes :=
    Camera.count (Camera.isProcessFrame (Camera.EffectProcessor j))
      (Camera.trace (Camera.run actions) s) in
  (1 <= k)%nat /\
  Camera.staleEffectsRefreshIndex_ (Camera.exec (Camera.run actions) s)
  = (Camera.staleEffectsRefreshIndex_ s + n)%nat /\
  (refreshes = (n / k)%nat \/ refreshes = Camera.ceilDiv n k).
Proof.
  intros Hj Hall k n refreshes.
  destruct (In_nth_error _ _ Hj) as [p Hp].
  assert (Hlt : (p < k)%nat).
  { apply nth_error_Some. rewrite Hp. discriminate. }
  destruct (@count_run_invocations notDrawn j p Hp actions s Hall)
    as [Hc Hi].
  split; [lia|]. split; [exact Hi|].
  unfold refreshes. rewrite Hc. apply hits_fair. exact Hlt.
Qed.

(** C7 on the view with four previews of which the last two are not
    visible, the ribbon being scrolled while the first, the third and
    the fourth of five frames are processed: the ribbon renderer is
    invoked twice, in [NORMAL] mode, and each of the two previews is
    refreshed once. *)
Lemma C7_round_robin_fair_witness :
  Camera.invocations Scenario.interrupted
    (Camera.create Scenario.plain Scenario.wrappers)
  = [(DrawMode.NORMAL, [2; 3]%nat); (DrawMode.NORMAL, [2; 3]%nat)] /\
  (Camera.count (Camera.isProcessFrame (Camera.EffectProcessor 2))
     (Camera.trace (Camera.run Scenario.interrupted)
        (Camera.create Scenario.plain Scenario.wrappers))
   = (2 / 2)%nat
   \/
   Camera.count (Camera.isProcessFrame (Camera.EffectProcessor 2))
     (Camera.trace (Camera.run Scenario.interrupted)
        (Camera.create Scenario.plain Scenario.wrappers))
   = Camera.ceilDiv 2 2).
Proof.
  assert (H1 : In 2%nat [2; 3]%nat) by (left; reflexivity).
  assert (H2 : Forall (fun i => snd i = [2; 3]%nat)
                 (Camera.invocations Scenario.interrupted
                    (Camera.create Scenario.plain Scenario.wrappers))).
  { vm_compute. repeat constructor. }
  split; [vm_compute; reflexivity|].
  exact (proj2 (proj2
           (@C7_round_robin_fair [2; 3]%nat Scenario.interrupted
              (Camera.create Scenario.plain Scenario.wrappers) 2%nat
              H1 H2))).
Defined.

(** With the ribbon collapsed every frame of the loop invokes the
    ribbon renderer in [FAST] mode, which leaves all four previews
    undrawn: over six frames each is refreshed once or twice. *)
Example collapsed_round_robin :
  let evs :=
    Camera.trace (Camera.run (Scenario.steady Scenario.collapsed 0 6))
      (Camera.create Scenario.collapsed Scenario.wrappers) in
  Camera.invocations (Scenario.steady Scenario.collapsed 0 6)
    (Camera.create Scenario.collapsed Scenario.wrappers)
  = repeat (DrawMode.FAST, [0; 1; 2; 3]%nat) 6 /\
  map (fun j => Camera.count
                  (Camera.isProcessFrame (Camera.EffectProcessor j)) evs)
      [0; 1; 2; 3]%nat
  = [1; 2; 2; 1]%nat.
Proof.
  split; vm_compute; reflexivity.
Qed.

(** C7 as stated fails in the frame loop.  On the view with five
    previews of which the last three are not visible, the ribbon
    expanded and nothing animating, the frame loop invokes the ribbon
    renderer in [NORMAL] mode at every third frame and in [FAST] mode at
    the two frames between, which advance the same counter: at the three
    [NORMAL] invocations of the first nine frames the counter reads 2, 5
    and 8, and the additional refresh goes to the fifth preview three
    times and never to the third or the fourth, where the claim has each
    of the three refreshed once. *)
Lemma C7_counterexample :
  let e := Scenario.threeHidden in
  let normalFrames :=
    Camera.trace Camera.onAnimationFrame_ (Scenario.atFrame e 2)
    ++ Camera.trace Camera.onAnimationFrame_ (Scenario.atFrame e 5)
    ++ Camera.trace Camera.onAnimationFrame_ (Scenario.atFrame e 8) in
  let refreshes (j : nat) :=
    Camera.count (Camera.isProcessFrame (Camera.EffectProcessor j))
      normalFrames in
  Camera.notVisibleIn e = [2; 3; 4]%nat /\
  Camera.invocations (Scenario.steady e 0 9)
    (Camera.create e Scenario.wrappers)
  = [(DrawMode.FAST, [0; 1; 2; 3; 4]%nat);
     (DrawMode.NORMAL, [2; 3; 4]%nat);
     (DrawMode.FAST, [0; 1; 2; 3; 4]%nat);
     (DrawMode.FAST, [0; 1; 2; 3; 4]%nat);
     (DrawMode.NORMAL, [2; 3; 4]%nat);
     (DrawMode.FAST, [0; 1; 2; 3; 4]%nat);
     (DrawMode.FAST, [0; 1; 2; 3; 4]%nat);
     (DrawMode.NORMAL, [2; 3; 4]%nat);
     (DrawMode.FAST, [0; 1; 2; 3; 4]%nat)] /\
  refreshes 2%nat = 0%nat /\
  refreshes 3%nat = 0%nat /\
  refreshes 4%nat = 3%nat /\
  ~ (forall j : nat,
       In j [2; 3; 4]%nat ->
       refreshes j = (3 / 3)%nat \/ refreshes j = Camera.ceilDiv 3 3).
Proof.
  cbv zeta.
  split; [vm_compute; reflexivity|].
  split; [vm_compute; reflexivity|].
  split; [vm_compute; reflexivity|].
  split; [vm_compute; reflexivity|].
  split; [vm_compute; reflexivity|].
  intros H. specialize (H 2%nat (or_introl eq_refl)).
  vm_compute in H. destruct H; discriminate.
Qed.

(** ** C3: starting the capture *)

Section Ladder.

Import Negotiation.
Local Open Scope negotiation_scope.

Ltac nflow :=
  unfold exec, trace, Flow.exec, Flow.trace, stopIfRunning, stop,
    clearRetryStartTimer, scheduleRetry, onSuccess, onFailure, deferred,
    setTimeout, clearTimeout, bind, ret, get, modify, emit,
    Flow.bind, Flow.ret, Flow.get, Flow.modify, Flow.emit.

Lemma exec_bind (A B : Type) (c : M A) (k : A -> M B) (s : t) :
  exec (bind c k) s = exec (k (Flow.result c s)) (exec c s).
Proof.
  unfold exec, bind, Flow.exec, Flow.bind, Flow.result.
  destruct (c s) as [[a s1] e1]. simpl.
  destruct (k a s1) as [[b s2] e2]. reflexivity.
Qed.

Lemma trace_bind (A B : Type) (c : M A) (k : A -> M B) (s : t) :
  trace (bind c k) s = trace c s ++ trace (k (Flow.result c s)) (exec c s).
Proof.
  unfold exec, trace, bind, Flow.exec, Flow.trace, Flow.bind, Flow.result.
  destruct (c s) as [[a s1] e1]. simpl.
  destruct (k a s1) as [[b s2] e2]. reflexivity.
Qed.

Lemma requested_app (l1 l2 : list Event) :
  requested (l1 ++ l2) = requested l1 ++ requested l2.
Proof.
  induction l1 as [|[] l1 IH]; simpl; rewrite ?IH; reflexivity.
Qed.

Lemma reportedNoCamera_app (l1 l2 : list Event) :
  reportedNoCamera (l1 ++ l2)
  = (reportedNoCamera l1 + reportedNoCamera l2)%nat.
Proof.
  induction l1 as [|[] l1 IH]; simpl; rewrite ?IH; try reflexivity. lia.
Qed.

(** *** Calm steps keep the slot *)

Lemma calm_refl (s : t) : calm s s.
Proof. unfold calm. auto. Qed.

Lemma calm_trans (s1 s2 s3 : t) : calm s1 s2 -> calm s2 s3 -> calm s1 s3.
Proof.
  intros (R1 & L1 & T1) (R2 & L2 & T2). unfold calm.
  repeat split; try congruence. auto.
Qed.

Lemma calm_singleSlot (s s' : t) : calm s s' -> singleSlot s -> singleSlot s'.
Proof.
  intros (R & _ & T) H tm Hin Hst. rewrite R. apply H; auto.
Qed.

Lemma calm_clearTimeout (id : positive) (s : t) :
  calm s (exec (clearTimeout id) s).
Proof.
  nflow. simpl. unfold calm. simpl. repeat split.
  intros tm Hin _. apply filter_In in Hin. tauto.
Qed.

Lemma calm_setTimeout (c : Callback) (ms : Z) (s : t) :
  isStartCallback c = false -> calm s (exec (setTimeout c ms) s).
Proof.
  intros Hc. nflow. simpl. unfold calm. simpl. repeat split.
  intros tm Hin Hst. apply in_app_or in Hin. destruct Hin as [Hin|[<-|[]]].
  - exact Hin.
  - simpl in Hst. congruence.
Qed.

Lemma stopIfRunning_spec (s : t) :
  calm s (exec stopIfRunning s) /\
  requested (trace stopIfRunning s) = [] /\
  reportedNoCamera (trace stopIfRunning s) = 0%nat /\
  ~ In TypeError (trace stopIfRunning s).
Proof.
  nflow. destruct (running_ s); simpl.
  - destruct (watchdog_ s) as [id|]; simpl.
    + unfold calm. simpl. repeat split.
      * intros tm Hin _. apply filter_In in Hin. tauto.
      * intros [H|[]]. discriminate.
    + unfold calm. simpl. repeat split; auto.
      intros [H|[]]. discriminate.
  - unfold calm. repeat split; auto.
Qed.

(** *** The retry slot *)

Lemma singleSlot_cleared (id : positive) (s : t) :
  singleSlot s -> retryStartTimer_ s = Some id ->
  filter (fun tm => isStartCallback (callback tm))
    (filter (fun tm => negb (Pos.eqb (timerId tm) id)) (timers s)) = [].
Proof.
  intros H Hid.
  destruct (filter _ (filter _ (timers s))) as [|tm l] eqn:E; [reflexivity|].
  assert (Hin : In tm (tm :: l)) by (left; reflexivity).
  rewrite <- E in Hin. apply filter_In in Hin. destruct Hin as [Hin Hst].
  apply filter_In in Hin. destruct Hin as [Hin Hne].
  specialize (H tm Hin Hst). rewrite Hid in H. injection H as ->.
  rewrite Pos.eqb_refl in Hne. discriminate.
Qed.

Lemma singleSlot_empty (s : t) :
  singleSlot s -> retryStartTimer_ s = None -> pendingRetries s = [].
Proof.
  intros H Hnone. unfold pendingRetries.
  destruct (filter _ (timers s)) as [|tm l] eqn:E; [reflexivity|].
  assert (Hin : In tm (tm :: l)) by (left; reflexivity).
  rewrite <- E in Hin. apply filter_In in Hin. destruct Hin as [Hin Hst].
  specialize (H tm Hin Hst). congruence.
Qed.

Lemma pending_singleSlot (s : t) :
  (pendingRetries s = [] \/
   exists tm, pendingRetries s = [tm] /\
              retryStartTimer_ s = Some (timerId tm)) ->
  singleSlot s.
Proof.
  intros H tm Hin Hst.
  assert (Hp : In tm (pendingRetries s)).
  { unfold pendingRetries. apply filter_In. auto. }
  destruct H as [H|(tm' & H & Hid)]; rewrite H in Hp.
  - destruct Hp.
  - destruct Hp as [<-|[]]. exact Hid.
Qed.

Lemma clearRetryStartTimer_spec (s : t) :
  singleSlot s ->
  pendingRetries (exec clearRetryStartTimer s) = [] /\
  retryStartTimer_ (exec clearRetryStartTimer s) = None /\
  locked_ (exec clearRetryStartTimer s) = locked_ s /\
  running_ (exec clearRetryStartTimer s) = running_ s /\
  capturing_ (exec clearRetryStartTimer s) = capturing_ s /\
  trace clearRetryStartTimer s = [].
Proof.
  intros H. nflow. destruct (retryStartTimer_ s) as [id|] eqn:E; simpl.
  - repeat split. unfold pendingRetries. simpl.
    apply singleSlot_cleared; assumption.
  - rewrite E. repeat split. apply singleSlot_empty; assumption.
Qed.

(** A retry request replaces whatever retry is pending: afterwards exactly
    one timer would call [start_], after 1000 ms, and the slot holds it. *)
Lemma scheduleRetry_spec (s : t) :
  singleSlot s ->
  (exists id : positive,
     pendingRetries (exec scheduleRetry s) = [mkTimer id StartCallback 1000]
     /\ retryStartTimer_ (exec scheduleRetry s) = Some id) /\
  singleSlot (exec scheduleRetry s) /\
  trace scheduleRetry s = [].
Proof.
  intros H.
  destruct (clearRetryStartTimer_spec H) as (Hp & Hr & _ & _ & _ & Ht).
  unfold scheduleRetry. rewrite exec_bind, trace_bind, Ht.
  set (s1 := exec clearRetryStartTimer s) in *.
  assert (E : (exists id : positive,
                 pendingRetries
                   (exec (id <- setTimeout StartCallback 1000 ;;
                          modify (set_retryStartTimer_ (Some id))) s1)
                 = [mkTimer id StartCallback 1000] /\
                 retryStartTimer_
                   (exec (id <- setTimeout StartCallback 1000 ;;
                          modify (set_retryStartTimer_ (Some id))) s1)
                 = Some id) /\
              trace (id <- setTimeout StartCallback 1000 ;;
                     modify (set_retryStartTimer_ (Some id))) s1 = []).
  { nflow. simpl. split; [|reflexivity].
    exists (nextTimerId s1). split; [|reflexivity].
    unfold pendingRetries in *. simpl. rewrite filter_app, Hp. reflexivity. }
  destruct E as [(id & E1 & E2) E3].
  split; [exists id; split; assumption|]. split.
  - apply pending_singleSlot. right. eexists. split; [exact E1|exact E2].
  - rewrite E3. reflexivity.
Qed.

Lemma onFailure_spec (s : t) :
  singleSlot s ->
  (exists id : positive,
     pendingRetries (exec onFailure s) = [mkTimer id StartCallback 1000]
     /\ retryStartTimer_ (exec onFailure s) = Some id) /\
  singleSlot (exec onFailure s) /\
  trace onFailure s = [InitializingRemoved; OnError "no-camera"].
Proof.
  intros H. destruct (scheduleRetry_spec H) as (Hp & Hs & Ht).
  unfold onFailure. rewrite !exec_bind, !trace_bind. cbv beta.
  change (exec (emit InitializingRemoved) s) with s.
  change (exec (emit (OnError "no-camera")) s) with s.
  rewrite Ht. repeat split; assumption.
Qed.

(** *** A granted request *)

Lemma connected_spec (s : t) :
  singleSlot s ->
  pendingRetries (exec connected s) = [] /\
  retryStartTimer_ (exec connected s) = None /\
  running_ (exec connected s) = true /\
  capturing_ (exec connected s) = true /\
  trace connected s
  = [VideoPlay; FrameLoopStarted; InitializingRemoved;
     OnErrorRecovered "no-camera"].
Proof.
  intros H. unfold connected, onSuccess.
  repeat (rewrite ?exec_bind, ?trace_bind; cbv beta).
  set (s3 := exec (setTimeout RibbonInitializationCallback 500) _).
  assert (H3 : singleSlot s3 /\ running_ s3 = true /\ capturing_ s3 = true).
  { unfold s3. nflow. simpl. split; [|split; reflexivity].
    intros tm Hin Hst. simpl in *.
    apply in_app_or in Hin. destruct Hin as [Hin|[<-|[]]];
      [|simpl in Hst; discriminate].
    apply in_app_or in Hin. destruct Hin as [Hin|[<-|[]]];
      [|simpl in Hst; discriminate].
    apply H; assumption. }
  destruct H3 as (Hs3 & Hr3 & Hc3).
  destruct (clearRetryStartTimer_spec Hs3) as (Hp & Hr & _ & Hrun & Hcap & Ht).
  change (exec (emit (OnErrorRecovered "no-camera"))
            (exec clearRetryStartTimer s3))
    with (exec clearRetryStartTimer s3).
  rewrite Hp, Hr, Hrun, Hcap, Ht. repeat split; assumption.
Qed.

(** *** The ladder *)

Lemma firstn_snoc (A : Type) (l : list A) :
  forall (i : nat) (x : A),
    nth_error l i = Some x -> firstn (S i) l = firstn i l ++ [x].
Proof.
  induction l as [|y l IH]; intros [|i] x H; simpl in *; try discriminate.
  - injection H as ->. reflexivity.
  - f_equal. apply IH. exact H.
Qed.

Lemma settled_prepend (o : Outcome) (index : nat) (r : Resolution)
    (pre evs : list Event) (s' : t) :
  nth_error RESOLUTIONS index = Some r ->
  requested pre = [] -> reportedNoCamera pre = 0%nat -> ~ In TypeError pre ->
  settled o (S index) s' evs ->
  settled o index s' (pre ++ GetUserMedia (fst r) (snd r) :: evs).
Proof.
  intros Hr Hq Hn Ht (S1 & S2 & S3 & S4 & S5). unfold settled.
  rewrite requested_app, reportedNoCamera_app, Hq, Hn. simpl.
  repeat split; try assumption.
  - rewrite <- S1, (firstn_snoc _ _ Hr), <- app_assoc.
    destruct r. reflexivity.
  - intros Hin. apply in_app_or in Hin.
    destruct Hin as [Hin|[Hin|Hin]]; [auto|discriminate|auto].
Qed.

Lemma tryNextResolution_settles (h : Host) :
  forall (fuel index : nat) (s : t),
    singleSlot s -> (index + fuel = 4)%nat -> (1 <= fuel)%nat ->
    settled (ladder h (locked_ s) index fuel) index
      (exec (tryNextResolution h fuel index) s)
      (trace (tryNextResolution h fuel index) s).
Proof.
  induction fuel as [|fuel IH]; intros index s Hs Hsum Hpos; [lia|].
  cbn [ladder tryNextResolution].
  rewrite exec_bind, trace_bind.
  change (Flow.result get s) with s. change (exec get s) with s.
  change (trace get s) with (@nil Event). cbn [app].
  destruct (locked_ s) eqn:L.
  - destruct (scheduleRetry_spec Hs) as (Hp & Hs' & Ht).
    unfold settled. rewrite Ht. simpl. rewrite app_nil_r.
    repeat split; auto.
  - destruct (nth_error RESOLUTIONS index) as [r|] eqn:Er.
    2:{ apply nth_error_None in Er. simpl in Er. lia. }
    unfold startWithResolution_.
    rewrite exec_bind, trace_bind. cbv beta.
    destruct (stopIfRunning_spec s) as (Hcalm & Hq & Hn & Hte).
    set (s0 := exec stopIfRunning s) in *.
    set (pre := trace stopIfRunning s) in *.
    assert (Hs0 : singleSlot s0) by (eapply calm_singleSlot; eassumption).
    rewrite exec_bind, trace_bind. cbv beta.
    change (exec (emit (GetUserMedia (fst r) (snd r))) s0) with s0.
    change (trace (emit (GetUserMedia (fst r) (snd r))) s0)
      with [GetUserMedia (fst r) (snd r)].
    cbn [app].
    destruct (grants h index) eqn:G.
    + (* granted *)
      fold connected.
      destruct (connected_spec Hs0) as (Hp & Hr & Hrun & Hcap & Ht).
      apply settled_prepend; try assumption.
      unfold settled. rewrite Ht. simpl.
      repeat split; try assumption.
      * rewrite app_nil_r. reflexivity.
      * intros [H|[H|[H|[H|[]]]]]; discriminate.
      * apply pending_singleSlot. left. exact Hp.
    + (* refused *)
      apply settled_prepend; try assumption.
      destruct (S index <? List.length RESOLUTIONS) eqn:Elt.
      * (* a further resolution is left *)
        apply Nat.ltb_lt in Elt. simpl in Elt.
        unfold deferred.
        repeat (rewrite ?exec_bind, ?trace_bind; cbv beta).
        set (s1 := exec (modify (set_locked_ (lockedAt h (S index)))) _).
        assert (H1 : singleSlot s1 /\ locked_ s1 = lockedAt h (S index)).
        { unfold s1. split; [|reflexivity].
          assert (Hc : calm s0
                         (exec (clearTimeout
                                  (Flow.result
                                     (setTimeout TryNextResolutionCallback 0)
                                     s0))
                            (exec (setTimeout TryNextResolutionCallback 0)
                               s0))).
          { eapply calm_trans;
              [exact (@calm_setTimeout TryNextResolutionCallback 0 s0 eq_refl)|].
            apply calm_clearTimeout. }
          pose proof (calm_singleSlot Hc Hs0) as Hs1.
          intros tm Hin Hst. exact (Hs1 tm Hin Hst). }
        destruct H1 as [Hs1 Hl1].
        assert (Hpos' : (1 <= fuel)%nat) by lia.
        pose proof (IH (S index) s1 Hs1 ltac:(lia) Hpos') as Hset.
        rewrite Hl1 in Hset.
        match goal with
        | |- settled _ _ _ ?evs =>
            replace evs with (trace (tryNextResolution h fuel (S index)) s1)
        end; [exact Hset|].
        reflexivity.
      * (* the last resolution was refused *)
        apply Nat.ltb_ge in Elt. simpl in Elt.
        assert (fuel = 0%nat) as -> by lia. assert (index = 3%nat) as -> by lia.
        cbn [ladder].
        destruct (onFailure_spec Hs0) as (Hp & Hs' & Ht).
        unfold settled. rewrite Ht. simpl.
        repeat split; try assumption.
        intros [H|[H|[]]]; discriminate.
Qed.

End Ladder.

Lemma ladder_unlocked (h : Negotiation.Host) :
  Negotiation.lockedAt h 1 || Negotiation.lockedAt h 2 ||
  Negotiation.lockedAt h 3 = false ->
  Negotiation.ladder h false 0 (List.length Negotiation.RESOLUTIONS)
  = match Negotiation.firstGranted h 0 (List.length Negotiation.RESOLUTIONS)
    with
    | Some index => Negotiation.Connected index
    | None => Negotiation.NoCamera
    end.
Proof.
  intros H. apply orb_false_iff in H. destruct H as [H H3].
  apply orb_false_iff in H. destruct H as [H1 H2].
  cbn [Negotiation.ladder Negotiation.firstGranted List.length
       Negotiation.RESOLUTIONS].
  rewrite H1, H2, H3.
  destruct (Negotiation.grants h 0), (Negotiation.grants h 1),
    (Negotiation.grants h 2), (Negotiation.grants h 3); reflexivity.
Qed.

(** C3, as amended.  A run of [start_] from a view whose retry timer is a
    single slot requests the resolutions of the ladder in order, up to and
    including the first one granted, or up to the point where the device is
    found locked (when the run starts or when a deferred attempt runs).
    When every resolution was refused the "no camera" failure is reported
    once; in every other case it is not reported.  Unless the capture has
    started, exactly one timer calling [start_] is pending afterwards, set
    for 1000 ms and held in the slot: whatever retry was pending has been
    replaced.  When the device is never found locked, the run ends at the
    first resolution granted, or with the failure if there is none. *)
Theorem C3_resolution_ladder (h : Negotiation.Host) (s : Negotiation.t) :
  Negotiation.singleSlot s ->
  let o :=
    Negotiation.ladder h (Negotiation.locked_ s) 0
      (List.length Negotiation.RESOLUTIONS) in
  let s' := Negotiation.exec (Negotiation.start_ h) s in
  let evs := Negotiation.trace (Negotiation.start_ h) s in
  Negotiation.requested evs = Negotiation.tried o /\
  Negotiation.reportedNoCamera evs
  = match o with Negotiation.NoCamera => 1%nat | _ => 0%nat end /\
  ~ In Negotiation.TypeError evs /\
  Negotiation.singleSlot s' /\
  match o with
  | Negotiation.Connected _ =>
      Negotiation.pendingRetries s' = [] /\
      Negotiation.retryStartTimer_ s' = None /\
      Negotiation.running_ s' = true /\ Negotiation.capturing_ s' = true
  | _ =>
      exists id : positive,
        Negotiation.pendingRetries s'
        = [Negotiation.mkTimer id Negotiation.StartCallback 1000] /\
        Negotiation.retryStartTimer_ s' = Some id
  end /\
  (if Negotiation.locked_ s || Negotiation.lockedAt h 1 ||
      Negotiation.lockedAt h 2 || Negotiation.lockedAt h 3
   then True
   else o = match Negotiation.firstGranted h 0
                    (List.length Negotiation.RESOLUTIONS) with
            | Some index => Negotiation.Connected index
            | None => Negotiation.NoCamera
            end).
Proof.
  intros Hs o s' evs.
  assert (Hset : Negotiation.settled o 0 s' evs).
  { unfold o, s', evs, Negotiation.start_.
    rewrite exec_bind, trace_bind.
    change (Flow.result Negotiation.get s) with s.
    change (Negotiation.exec Negotiation.get s) with s.
    change (Negotiation.trace Negotiation.get s) with (@nil Negotiation.Event).
    cbn [app].
    destruct (Negotiation.locked_ s) eqn:L.
    - destruct (scheduleRetry_spec Hs) as (Hp & Hs' & Ht).
      unfold Negotiation.settled. rewrite Ht. simpl.
      repeat split; auto.
    - pose proof (@tryNextResolution_settles h
                    (List.length Negotiation.RESOLUTIONS) 0 s Hs
                    eq_refl ltac:(simpl; lia)) as H.
      rewrite L in H. exact H. }
  destruct Hset as (H1 & H2 & H3 & H4 & H5).
  repeat (split; [assumption|]).
  destruct (Negotiation.locked_ s) eqn:L; [exact I|].
  cbn [orb].
  destruct (Negotiation.lockedAt h 1 || Negotiation.lockedAt h 2 ||
            Negotiation.lockedAt h 3) eqn:E; [exact I|].
  unfold o. apply ladder_unlocked. exact E.
Qed.

(** C3 on a camera that supports none of the resolutions, the device
    unlocked: the four resolutions are requested, the failure is reported
    once and one retry is pending. *)
Lemma C3_resolution_ladder_witness :
  Negotiation.singleSlot (Negotiation.create false) /\
  Negotiation.requested
    (Negotiation.trace (Negotiation.start_ Negotiation.noCamera)
       (Negotiation.create false))
  = Negotiation.tried
      (Negotiation.ladder Negotiation.noCamera
         (Negotiation.locked_ (Negotiation.create false)) 0
         (List.length Negotiation.RESOLUTIONS)).
Proof.
  assert (H : Negotiation.singleSlot (Negotiation.create false)).
  { intros tm Hin. destruct Hin. }
  split; [exact H|].
  exact (proj1 (C3_resolution_ladder Negotiation.noCamera H)).
Defined.

(** C3 as stated fails: the camera supports 1280 by 720 but the device gets
    locked after 1920 by 1080 was refused; the run requests 1920 by 1080
    only, although the first resolution granted is the second of the
    ladder, starts no capture, reports nothing and leaves a retry
    pending. *)
Lemma C3_counterexample :
  Negotiation.locked_ (Negotiation.create false) = false /\
  Negotiation.firstGranted Negotiation.lockedAfterFirstRefusal 0
    (List.length Negotiation.RESOLUTIONS) = Some 1%nat /\
  Negotiation.requested
    (Negotiation.trace (Negotiation.start_ Negotiation.lockedAfterFirstRefusal)
       (Negotiation.create false))
  = [(1920, 1080)%Z] /\
  Negotiation.requested
    (Negotiation.trace (Negotiation.start_ Negotiation.lockedAfterFirstRefusal)
       (Negotiation.create false))
  <> firstn 2 Negotiation.RESOLUTIONS /\
  Negotiation.running_
    (Negotiation.exec (Negotiation.start_ Negotiation.lockedAfterFirstRefusal)
       (Negotiation.create false)) = false /\
  Negotiation.reportedNoCamera
    (Negotiation.trace (Negotiation.start_ Negotiation.lockedAfterFirstRefusal)
       (Negotiation.create false)) = 0%nat /\
  Negotiation.pendingRetries
    (Negotiation.exec (Negotiation.start_ Negotiation.lockedAfterFirstRefusal)
       (Negotiation.create false))
  = [Negotiation.mkTimer 2 Negotiation.StartCallback 1000].
Proof.
  repeat split; try reflexivity. vm_compute. discriminate.
Qed.

(** ** Concrete runs *)

(** The first frame processed by the view as constructed: the counter
    reads 1 during the phases, the frame is drawn in [NORMAL] mode and the
    ribbon in [FAST] mode (one preview, the second of the array). *)
Example first_frame_calls :
  Camera.trace Camera.onAnimationFrame_
    (Camera.create Scenario.plain Scenario.wrappers)
  = [Camera.StartMeasuring "main";
     Camera.StartMeasuring "resample-and-upload-preview-texture";
     Camera.FinishMeasuring "resample-and-upload-preview-texture";
     Camera.StartMeasuring "resample-and-schedule-head-tracking";
     Camera.FinishMeasuring "resample-and-schedule-head-tracking";
     Camera.StartMeasuring "interpolate-head-tracker";
     Camera.Update;
     Camera.FinishMeasuring "interpolate-head-tracker";
     Camera.StartMeasuring "draw-frame";
     Camera.StartMeasuring "main-fast-processor-load-contents-and-process";
     Camera.FinishMeasuring "main-fast-processor-load-contents-and-process";
     Camera.StartMeasuring "main-preview-processor-load-contents-and-process";
     Camera.LoadContentsOf Camera.MainPreviewCanvasTexture;
     Camera.ProcessFrame Camera.MainPreviewProcessor;
     Camera.FinishMeasuring "main-preview-processor-load-contents-and-process";
     Camera.FinishMeasuring "draw-frame";
     Camera.StartMeasuring "draw-ribbon";
     Camera.ProcessFrame (Camera.EffectProcessor 1);
     Camera.FinishMeasuring "draw-ribbon";
     Camera.FinishMeasuring "main"]
  /\ Camera.frame_
       (Camera.exec Camera.onAnimationFrame_
          (Camera.create Scenario.plain Scenario.wrappers)) = 2%nat.
Proof. split; reflexivity. Qed.

(** With an effect that uses the head tracker, the first frame requests a
    detection on a 160 by 90 input, the second requests none (the detector
    is busy), and the third, the detector having answered, requests one
    again. *)
Example head_effect_detections :
  filter (fun ev => Camera.isDetect ev || Camera.isDrawTrackerInput ev)
    (Camera.trace
       (Camera.run
          [Camera.AnimationFrame;
           Camera.Host (Scenario.withCurrentTime 2
                          (Scenario.viewWith Scenario.headEffect false));
           Camera.AnimationFrame;
           Camera.DetectionCompleted;
           Camera.Host (Scenario.withCurrentTime 3
                          (Scenario.viewWith Scenario.headEffect false));
           Camera.AnimationFrame])
       (Camera.create (Scenario.viewWith Scenario.headEffect false)
          Scenario.wrappers))
  = [Camera.DrawTrackerInput 160 90; Camera.Detect;
     Camera.DrawTrackerInput 160 90; Camera.Detect].
Proof. reflexivity. Qed.

(** Were the counter to read 30 during a frame (it never does, see C10),
    the plain effect with the ribbon expanded would have a detection
    requested on the low-quality input of 120 by 68. *)
Example low_quality_detection :
  filter (fun ev => Camera.isDetect ev || Camera.isDrawTrackerInput ev)
    (Camera.trace Camera.onAnimationFrame_
       (Camera.set_frame_ 29
          (Camera.create Scenario.plain Scenario.wrappers)))
  = [Camera.DrawTrackerInput 120 68; Camera.Detect].
Proof. reflexivity. Qed.

(** A camera that supports 1280 by 720 only, the device unlocked: two
    requests, then the capture runs and no retry is pending. *)
Example second_resolution_granted :
  let h := {| Negotiation.grants := fun index => Nat.eqb index 1;
              Negotiation.lockedAt := fun _ => false |} in
  Negotiation.requested
    (Negotiation.trace (Negotiation.start_ h) (Negotiation.create false))
  = [(1920, 1080)%Z; (1280, 720)%Z] /\
  Negotiation.running_
    (Negotiation.exec (Negotiation.start_ h) (Negotiation.create false))
  = true /\
  Negotiation.pendingRetries
    (Negotiation.exec (Negotiation.start_ h) (Negotiation.create false))
  = [].
Proof. repeat split; reflexivity. Qed.

(** A retry requested while one is pending replaces it. *)
Example retry_replaced :
  Negotiation.pendingRetries
    (Negotiation.exec
       (Negotiation.bind Negotiation.scheduleRetry
          (fun _ => Negotiation.scheduleRetry))
       (Negotiation.create true))
  = [Negotiation.mkTimer 2 Negotiation.StartCallback 1000].
Proof. reflexivity. Qed.

(* ===================================================================== *)
(** * Further properties of the utilities and of the view *)
(* ===================================================================== *)

(** ** Sequencing *)

Section FlowFacts.
Variables S E : Type.
Local Open Scope flow_scope.

Lemma flow_exec_bind (A B : Type) (c : Flow.M S E A) (k : A -> Flow.M S E B)
    (s : S) :
  Flow.exec (x <- c ;; k x) s
  = Flow.exec (k (Flow.result c s)) (Flow.exec c s).
Proof.
  unfold Flow.exec, Flow.bind, Flow.result.
  destruct (c s) as [[a s1] e1]. simpl.
  destruct (k a s1) as [[b s2] e2]. reflexivity.
Qed.

Lemma flow_trace_bind (A B : Type) (c : Flow.M S E A) (k : A -> Flow.M S E B)
    (s : S) :
  Flow.trace (x <- c ;; k x) s
  = Flow.trace c s ++ Flow.trace (k (Flow.result c s)) (Flow.exec c s).
Proof.
  unfold Flow.exec, Flow.trace, Flow.bind, Flow.result.
  destruct (c s) as [[a s1] e1]. simpl.
  destruct (k a s1) as [[b s2] e2]. reflexivity.
Qed.

Lemma flow_result_bind (A B : Type) (c : Flow.M S E A)
    (k : A -> Flow.M S E B) (s : S) :
  Flow.result (x <- c ;; k x) s
  = Flow.result (k (Flow.result c s)) (Flow.exec c s).
Proof.
  unfold Flow.exec, Flow.bind, Flow.result.
  destruct (c s) as [[a s1] e1]. simpl.
  destruct (k a s1) as [[b s2] e2]. reflexivity.
Qed.

End FlowFacts.

(** ** The queue of asynchronous closures *)

Section QueueFacts.
Import Queue.
Local Open Scope flow_scope.

Ltac qflow :=
  unfold Flow.exec, Flow.trace, Flow.result, run, continue_,
    Flow.bind, Flow.ret, Flow.get, Flow.modify, Flow.emit.

Lemma queue_continue_eq (q : t) :
  continue_ q
  = match closures_ q with
    | [] => (tt, set_running_ false q, [])
    | closure :: rest => (tt, mk rest true, [Call closure])
    end.
Proof.
  qflow. destruct q as [[|c l] r]; reflexivity.
Qed.

Lemma queue_run_eq (closure : Closure) (q : t) :
  run closure q
  = if running_ q then (tt, mk (closures_ q ++ [closure]) true, [])
    else match closures_ q ++ [closure] with
         | [] => (tt, mk [] false, [])
         | c :: rest => (tt, mk rest true, [Call c])
         end.
Proof.
  qflow. destruct q as [l [|]]; simpl; [reflexivity|].
  destruct (l ++ [closure]); reflexivity.
Qed.

Lemma queue_steps_app (a1 a2 : list Action) (q : t) :
  Flow.exec (steps (a1 ++ a2)) q
  = Flow.exec (steps a2) (Flow.exec (steps a1) q)
  /\ Flow.trace (steps (a1 ++ a2)) q
     = Flow.trace (steps a1) q
       ++ Flow.trace (steps a2) (Flow.exec (steps a1) q).
Proof.
  revert q. induction a1 as [|a a1 IH]; intros q.
  - split; reflexivity.
  - cbn [steps app]. rewrite !flow_exec_bind, !flow_trace_bind.
    destruct (IH (Flow.exec (step a) q)) as [He Ht].
    rewrite He, Ht, app_assoc. split; reflexivity.
Qed.

(** X1.  Whatever is submitted and whenever the completion callbacks are
    called, the closures are called in the order they were submitted and
    none is dropped: the closures called so far, followed by those still
    waiting, are the closures that were waiting at the start followed by
    the ones submitted since. *)
Theorem Queue_first_in_first_out (acts : list Queue.Action) (q : Queue.t) :
  Queue.called (Flow.trace (Queue.steps acts) q)
    ++ Queue.closures_ (Flow.exec (Queue.steps acts) q)
  = Queue.closures_ q ++ Queue.submitted acts.
Proof.
  revert q. induction acts as [|a acts IH]; intros q.
  - simpl. rewrite app_nil_r. reflexivity.
  - cbn [steps]. rewrite flow_exec_bind, flow_trace_bind.
    unfold called in *. rewrite map_app, <- app_assoc, IH.
    destruct a as [c|]; cbn [step submitted].
    + unfold Flow.exec, Flow.trace. rewrite queue_run_eq.
      destruct (running_ q) eqn:Er.
      * cbn [map app closures_ fst snd].
           rewrite <- app_assoc. reflexivity.
      * destruct (closures_ q ++ [c]) as [|c0 rest] eqn:El.
        -- destruct (closures_ q); discriminate.
        -- change (c :: submitted acts) with ([c] ++ submitted acts).
           rewrite (app_assoc (closures_ q)), El. reflexivity.
    + unfold Flow.exec, Flow.trace. rewrite queue_continue_eq.
      destruct q as [[|c0 rest] r]; reflexivity.
Qed.

Lemma queue_step_idleEmpty (a : Action) (q : t) :
  idleEmpty q -> idleEmpty (Flow.exec (step a) q).
Proof.
  unfold idleEmpty. intros H.
  destruct a as [c|]; cbn [step]; unfold Flow.exec.
  - rewrite queue_run_eq. destruct (running_ q) eqn:Er.
    + simpl. discriminate.
    + rewrite (H eq_refl). simpl. discriminate.
  - rewrite queue_continue_eq. destruct (closures_ q) as [|c0 rest] eqn:El.
    + simpl. intros _. exact El.
    + simpl. discriminate.
Qed.

Lemma queue_steps_idleEmpty (acts : list Action) (q : t) :
  idleEmpty q -> idleEmpty (Flow.exec (steps acts) q).
Proof.
  revert q. induction acts as [|a acts IH]; intros q H.
  - exact H.
  - cbn [steps]. rewrite flow_exec_bind. apply IH.
    apply queue_step_idleEmpty. exact H.
Qed.

End QueueFacts.

(** X2.  A queue that is not running has nothing waiting: in every state
    reached from a new queue, [running_] false leaves [closures_] empty,
    so that a closure submitted then is called at once. *)
Theorem Queue_idle_has_nothing_waiting (acts : list Queue.Action) :
  let q := Flow.exec (Queue.steps acts) Queue.create in
  Queue.running_ q = false ->
  Queue.closures_ q = []
  /\ forall closure : Queue.Closure,
       Flow.trace (Queue.run closure) q = [Queue.Call closure].
Proof.
  intros q Hidle.
  assert (He : Queue.closures_ q = []).
  { apply (@queue_steps_idleEmpty acts Queue.create); [|exact Hidle].
    intros _. reflexivity. }
  split; [exact He|].
  intros closure. unfold Flow.trace. rewrite queue_run_eq, Hidle, He.
  reflexivity.
Qed.

Lemma Queue_idle_has_nothing_waiting_witness :
  Queue.closures_
    (Flow.exec (Queue.steps [Queue.Run 1%nat; Queue.Completed]) Queue.create)
  = []
  /\ forall closure : Queue.Closure,
       Flow.trace (Queue.run closure)
         (Flow.exec (Queue.steps [Queue.Run 1%nat; Queue.Completed])
            Queue.create)
       = [Queue.Call closure].
Proof.
  apply (Queue_idle_has_nothing_waiting [Queue.Run 1%nat; Queue.Completed]).
  reflexivity.
Defined.

Section QueueExclusion.
Import Queue.
Local Open Scope flow_scope.

Lemma queue_answered_balance (acts : list Action) :
  forall (n : nat) (q : t),
    answered acts n q = true ->
    n = (if running_ q then 1 else 0)%nat ->
    forall pre post : list Action,
      acts = pre ++ post ->
      (n + List.length (Flow.trace (steps pre) q))%nat
      = (completions pre
         + (if running_ (Flow.exec (steps pre) q) then 1 else 0))%nat.
Proof.
  induction acts as [|a acts IH]; intros n q Ha Hn pre post Hsplit.
  - destruct pre; [|discriminate]. cbv [steps Flow.exec Flow.trace Flow.ret].
    simpl. rewrite Hn. destruct (running_ q); lia.
  - destruct pre as [|a' pre].
    + cbv [steps Flow.exec Flow.trace Flow.ret].
      simpl. rewrite Hn. destruct (running_ q); lia.
    + injection Hsplit as Heq Hsplit. subst a'.
      cbn [steps completions]. rewrite flow_exec_bind, flow_trace_bind.
      rewrite length_app.
      destruct a as [c|]; cbn [answered step] in *.
      * specialize (IH _ _ Ha).
        assert (Hn' :
          (n + List.length (Flow.trace (run c) q))%nat
          = (if running_ (Flow.exec (run c) q) then 1 else 0)%nat).
        { unfold Flow.trace, Flow.exec. rewrite queue_run_eq.
          destruct (running_ q) eqn:Er; simpl; [lia|].
          destruct (closures_ q ++ [c]) eqn:El.
          - destruct (closures_ q); discriminate.
          - simpl. lia. }
        specialize (IH Hn' pre post Hsplit). cbn [completions]. lia.
      * destruct n as [|n]; [discriminate|].
        specialize (IH _ _ Ha).
        assert (Hn' :
          (n + List.length (Flow.trace continue_ q))%nat
          = (if running_ (Flow.exec continue_ q) then 1 else 0)%nat).
        { unfold Flow.trace, Flow.exec. rewrite queue_continue_eq.
          destruct (running_ q) eqn:Er; [|discriminate].
          destruct (closures_ q); simpl; lia. }
        specialize (IH Hn' pre post Hsplit). lia.
Qed.

End QueueExclusion.

(** X3.  One closure at a time.  When every completion callback is called
    by a closure that was called and had not completed yet, then at every
    moment the closures called outnumber the completions by one while the
    queue is running and by none while it is idle: no closure is called
    before the previous one has completed. *)
Theorem Queue_one_closure_at_a_time
    (acts pre post : list Queue.Action) :
  Queue.answered acts 0 Queue.create = true ->
  acts = pre ++ post ->
  List.length (Flow.trace (Queue.steps pre) Queue.create)
  = (Queue.completions pre
     + (if Queue.running_ (Flow.exec (Queue.steps pre) Queue.create)
        then 1 else 0))%nat.
Proof.
  intros Ha Hsplit.
  exact (@queue_answered_balance acts 0%nat Queue.create Ha eq_refl
           pre post Hsplit).
Qed.

Lemma Queue_one_closure_at_a_time_witness :
  List.length
    (Flow.trace (Queue.steps [Queue.Run 1%nat; Queue.Run 2%nat])
       Queue.create)
  = (Queue.completions [Queue.Run 1%nat; Queue.Run 2%nat]
     + (if Queue.running_
             (Flow.exec (Queue.steps [Queue.Run 1%nat; Queue.Run 2%nat])
                Queue.create)
        then 1 else 0))%nat.
Proof.
  apply (@Queue_one_closure_at_a_time
           [Queue.Run 1%nat; Queue.Run 2%nat; Queue.Completed;
            Queue.Completed; Queue.Run 3%nat]
           [Queue.Run 1%nat; Queue.Run 2%nat]
           [Queue.Completed; Queue.Completed; Queue.Run 3%nat]).
  - reflexivity.
  - reflexivity.
Defined.

(** ** Waiting for the end of an animation or of a transition *)

Section CompletionFacts.
Import Completion.
Local Open Scope flow_scope.

Lemma completion_step_eq (a : Action) (w : t) :
  step a w
  = match a with
    | Dispatched sameElement =>
        if listening w && negb (completed w) && sameElement
        then (tt, mk true false (timerPending w), [OnCompletion])
        else (tt, w, [])
    | TimerFired =>
        if timerPending w then
          if completed w
          then (tt, mk true (listening w) false, [])
          else (tt, mk true false false, [OnCompletion])
        else (tt, w, [])
    end.
Proof.
  destruct w as [c l p], a as [[|]|]; destruct c, l, p; reflexivity.
Qed.

(** Once completed, nothing is called any more. *)
Lemma completion_done (acts : list Action) (w : t) :
  completed w = true -> listening w = false ->
  Flow.trace (steps acts) w = [].
Proof.
  revert w. induction acts as [|a acts IH]; intros w Hc Hl.
  - reflexivity.
  - cbn [steps]. rewrite flow_trace_bind.
    unfold Flow.trace at 1, Flow.exec. rewrite completion_step_eq.
    destruct a as [same|].
    + rewrite Hl. cbn [andb fst snd app]. apply IH; assumption.
    + destruct (timerPending w); rewrite ?Hc; cbn [fst snd app];
        apply IH; cbn [completed listening]; auto.
Qed.

Lemma completion_pending (timeout : Z) (acts : list Action) (w : t) :
  completed w = false -> listening w = true ->
  timerPending w = negb (Z.eqb timeout 0) ->
  Flow.trace (steps acts) w
  = if existsb (ends timeout) acts then [OnCompletion] else [].
Proof.
  revert w. induction acts as [|a acts IH]; intros w Hc Hl Hp.
  - reflexivity.
  - cbn [steps existsb]. rewrite flow_trace_bind.
    unfold Flow.trace at 1, Flow.exec. rewrite completion_step_eq.
    destruct a as [same|]; cbn [ends].
    + rewrite Hl, Hc. destruct same; simpl.
      * f_equal. apply completion_done; reflexivity.
      * apply IH; assumption.
    + rewrite Hp, Hc. destruct (negb (Z.eqb timeout 0)) eqn:Et; simpl.
      * f_equal. apply completion_done; reflexivity.
      * apply IH; assumption.
Qed.

End CompletionFacts.

(** X4.  [waitForAnimationCompletion] and [waitForTransitionCompletion]
    call [onCompletion] exactly once when the timer of a non-zero timeout
    fires or an end event of the element itself arrives, whichever comes
    first, and never otherwise: not for the end events of other elements,
    not a second time, and with a timeout of 0 not without an event. *)
Theorem Completion_exactly_once (timeout : Z)
    (acts : list Completion.Action) :
  Flow.trace (Completion.steps acts) (Completion.wait timeout)
  = if existsb (Completion.ends timeout) acts
    then [Completion.OnCompletion] else [].
Proof.
  apply completion_pending; reflexivity.
Qed.

(** ** Style effects *)

Section StyleEffectFacts.
Variables State Callback : Type.
Import StyleEffect.
Local Open Scope flow_scope.

Lemma styleEffect_invoke_eq (state : State) (callback : Callback)
    (opt_delay : option Z) (s : t State Callback) :
  invoke state callback opt_delay s
  = let kept :=
      match invocationTimer_ s with
      | Some id =>
          filter (fun tm => negb (Pos.eqb (timerId tm) id)) (timers s)
      | None => timers s
      end in
    match opt_delay with
    | Some ms =>
        (tt,
         mk (callback_ s) (Some (nextTimerId s))
            (kept ++ [mkTimer (nextTimerId s) state callback ms])
            (Pos.succ (nextTimerId s)),
         [])
    | None =>
        (tt, mk (Some callback) None kept (nextTimerId s),
         [Invoked state callback])
    end.
Proof.
  destruct s as [c [id|] l n], opt_delay as [ms|]; reflexivity.
Qed.

Lemma styleEffect_fire_eq (id : positive) (s : t State Callback) :
  fire id s
  = match find (fun tm => Pos.eqb (timerId tm) id) (timers s) with
    | Some tm =>
        (tt,
         mk (Some (timerCallback tm)) (invocationTimer_ s)
            (filter (fun tm => negb (Pos.eqb (timerId tm) id)) (timers s))
            (nextTimerId s),
         [Invoked (timerState tm) (timerCallback tm)])
    | None => (tt, s, [])
    end.
Proof.
  unfold fire, Flow.bind, Flow.get. cbn beta iota.
  destruct (find _ (timers s)) as [tm|]; [|reflexivity].
  destruct s as [c i l n]. reflexivity.
Qed.

Lemma styleEffect_completion_eq (s : t State Callback) :
  completion s
  = match callback_ s with
    | Some callback =>
        (tt, set_callback_ None s, [Deferred callback])
    | None => (tt, s, [])
    end.
Proof.
  destruct s as [[c|] i l n]; reflexivity.
Qed.

(** One step keeps the record of the callback that waits. *)
Lemma styleEffect_step_latest (a : Action State Callback) (s : t State Callback) (rest : list (Event State Callback))
    (w : option Callback) :
  (latestOnly (callback_ (Flow.exec (step a) s)) rest ->
   latestOnly (callback_ s) (Flow.trace (step a) s ++ rest))
  /\ waitingAfter (callback_ s) (Flow.trace (step a) s ++ rest)
     = waitingAfter (callback_ (Flow.exec (step a) s)) rest.
Proof.
  destruct a as [state callback opt_delay|id|]; cbn [step];
    unfold Flow.exec, Flow.trace.
  - rewrite styleEffect_invoke_eq. destruct opt_delay; cbn; auto.
  - rewrite styleEffect_fire_eq.
    destruct (find _ (timers s)); cbn; auto.
  - rewrite styleEffect_completion_eq.
    destruct (callback_ s) eqn:Ec; cbn; rewrite ?Ec; auto.
Qed.

Lemma styleEffect_steps_latest (acts : list (Action State Callback)) (s : t State Callback) :
  latestOnly (callback_ s) (Flow.trace (steps acts) s)
  /\ callback_ (Flow.exec (steps acts) s)
     = waitingAfter (callback_ s) (Flow.trace (steps acts) s).
Proof.
  revert s. induction acts as [|a acts IH]; intros s.
  - split; [exact I|reflexivity].
  - cbn [steps]. rewrite flow_exec_bind, flow_trace_bind.
    destruct (IH (Flow.exec (step a) s)) as [IH1 IH2].
    destruct (@styleEffect_step_latest a s
                (Flow.trace (steps acts) (Flow.exec (step a) s))
                (callback_ s)) as [H1 H2].
    split; [exact (H1 IH1)|]. rewrite H2. exact IH2.
Qed.

Lemma styleEffect_filter_slot (id : positive) (l : list (Timer State Callback)) :
  (forall tm, In tm l -> Some id = Some (timerId tm)) ->
  filter (fun tm => negb (Pos.eqb (timerId tm) id)) l = [].
Proof.
  induction l as [|tm l IH]; intros H; [reflexivity|].
  simpl. assert (Heq : Some id = Some (timerId tm)) by (apply H; now left).
  injection Heq as Heq. rewrite <- Heq, Pos.eqb_refl. simpl.
  apply IH. intros tm' Hin. apply H. now right.
Qed.

(** What [invoke] keeps of the pending timers: nothing. *)
Lemma styleEffect_kept (s : t State Callback) :
  singleSlot s ->
  match invocationTimer_ s with
  | Some id =>
      filter (fun tm => negb (Pos.eqb (timerId tm) id)) (timers s)
  | None => timers s
  end = [].
Proof.
  intros [Hlen Hslot].
  destruct (invocationTimer_ s) as [id|] eqn:Ei.
  - apply styleEffect_filter_slot. exact Hslot.
  - destruct (timers s) as [|tm l]; [reflexivity|].
    specialize (Hslot tm (or_introl eq_refl)). discriminate.
Qed.

Lemma styleEffect_step_slot (a : Action State Callback) (s : t State Callback) :
  singleSlot s -> singleSlot (Flow.exec (step a) s).
Proof.
  intros Hs. pose proof Hs as [Hlen Hslot].
  destruct a as [state callback opt_delay|id|]; cbn [step];
    unfold Flow.exec.
  - rewrite styleEffect_invoke_eq.
    cbv zeta. rewrite (styleEffect_kept Hs).
    destruct opt_delay as [ms|]; unfold singleSlot; cbn.
    + split; [lia|]. intros tm [<-|[]]. reflexivity.
    + split; [lia|]. intros tm [].
  - rewrite styleEffect_fire_eq.
    destruct (find _ (timers s)) as [tm|] eqn:Ef; cbn.
    + apply find_some in Ef. destruct Ef as [Hin Hid].
      apply Pos.eqb_eq in Hid.
      assert (Hkept :
        filter (fun tm => negb (Pos.eqb (timerId tm) id)) (timers s) = []).
      { apply styleEffect_filter_slot. intros tm' Hin'.
        rewrite <- (Hslot tm' Hin'), (Hslot tm Hin), Hid. reflexivity. }
      unfold singleSlot. cbn. rewrite Hkept. cbn.
      split; [lia|]. intros tm' [].
    + split; assumption.
  - rewrite styleEffect_completion_eq.
    destruct (callback_ s); cbn; split; assumption.
Qed.

Lemma styleEffect_steps_slot (acts : list (Action State Callback)) (s : t State Callback) :
  singleSlot s -> singleSlot (Flow.exec (steps acts) s).
Proof.
  revert s. induction acts as [|a acts IH]; intros s H.
  - exact H.
  - cbn [steps]. rewrite flow_exec_bind. apply IH.
    apply styleEffect_step_slot. exact H.
Qed.

End StyleEffectFacts.

(** X5.  Only the last callback is called.  However invocations, timers
    and ends of animations interleave, a callback the effect defers is the
    one of the latest invocation whose closure has run, and it is deferred
    at most once; the callbacks of earlier invocations that were still
    waiting are dropped.  The effect is [animating] exactly while the
    latest callback still waits. *)
Theorem StyleEffect_only_latest_callback (State Callback : Type)
    (acts : list (StyleEffect.Action State Callback)) :
  StyleEffect.latestOnly None
    (Flow.trace (StyleEffect.steps acts) StyleEffect.create)
  /\ StyleEffect.animating
       (Flow.exec (StyleEffect.steps acts) StyleEffect.create)
     = match StyleEffect.waitingAfter None
               (Flow.trace (StyleEffect.steps acts) StyleEffect.create)
       with
       | Some _ => true
       | None => false
       end.
Proof.
  destruct (styleEffect_steps_latest acts StyleEffect.create) as [H1 H2].
  split; [exact H1|]. unfold StyleEffect.animating. rewrite H2. reflexivity.
Qed.

(** X6.  A delayed invocation is a single slot: at most one invocation
    timer is pending at any time and it is the one [invocationTimer_]
    holds, so that the next [invoke] cancels it before its closure has
    run. *)
Theorem StyleEffect_single_delayed_invocation (State Callback : Type)
    (acts : list (StyleEffect.Action State Callback)) :
  let s := Flow.exec (StyleEffect.steps acts) StyleEffect.create in
  StyleEffect.singleSlot s
  /\ forall (state : State) (callback : Callback) (opt_delay : option Z),
       StyleEffect.timers
         (Flow.exec (StyleEffect.invoke state callback opt_delay) s)
       = match opt_delay with
         | Some ms =>
             [StyleEffect.mkTimer (StyleEffect.nextTimerId s)
                state callback ms]
         | None => []
         end.
Proof.
  intros s.
  assert (Hs : StyleEffect.singleSlot s).
  { apply styleEffect_steps_slot. split; [simpl; lia|]. intros tm []. }
  split; [exact Hs|].
  intros state callback opt_delay.
  unfold Flow.exec at 1. rewrite styleEffect_invoke_eq. cbv zeta.
  rewrite (styleEffect_kept Hs). destruct opt_delay; reflexivity.
Qed.

(** ** The pointer tracker *)

Section PointerTrackerFacts.
Import PointerTracker.
Local Open Scope flow_scope.

Lemma pointerTracker_handleAll (events : list PointerEvent) (s : t) :
  seen (Flow.trace (handleAll events) s)
  = reported (lastMousePosition_ s) events.
Proof.
  revert s. induction events as [|event events IH]; intros s.
  - reflexivity.
  - cbn [handleAll]. rewrite flow_trace_bind. unfold seen in *.
    rewrite map_app, IH.
    destruct event as [x y|x y| |]; cbn [handle reported];
      try reflexivity.
    destruct s as [[[lx ly]|]]; cbn [lastMousePosition_]; try reflexivity.
    unfold samePosition, onMouseMove_, Flow.trace, Flow.exec, Flow.bind,
      Flow.get, Flow.ret, Flow.emit, Flow.modify.
    cbn [lastMousePosition_ fst snd].
    destruct (Z.eqb lx x && Z.eqb ly y); reflexivity.
Qed.

Lemma pointerTracker_reported_moving (events : list PointerEvent) :
  forall last : option (Z * Z), moving last (reported last events).
Proof.
  induction events as [|event events IH]; intros last.
  - exact I.
  - destruct event as [x y|x y| |]; cbn [reported moving]; auto.
    destruct last as [[lx ly]|].
    + unfold samePosition. cbn [fst snd].
      destruct (Z.eqb lx x && Z.eqb ly y) eqn:E; [apply IH|].
      cbn [moving]. split; [|apply IH].
      intros Heq. injection Heq as -> ->.
      rewrite !Z.eqb_refl in E. discriminate.
    + cbn [moving]. split; [discriminate|apply IH].
Qed.

End PointerTrackerFacts.

(** X7.  The pointer tracker hands to its callback every mouse press and
    every touch, and of the mouse moves those that change the position:
    a mouse move reported is never at the screen position of the mouse
    event reported before it, and touches in between do not count as a
    change of position. *)
Theorem PointerTracker_reports_only_real_moves
    (events : list PointerTracker.PointerEvent) :
  let reports :=
    PointerTracker.seen
      (Flow.trace (PointerTracker.handleAll events) PointerTracker.create) in
  reports = PointerTracker.reported None events
  /\ PointerTracker.moving None reports.
Proof.
  intros reports. subst reports.
  rewrite pointerTracker_handleAll. split; [reflexivity|].
  apply pointerTracker_reported_moving.
Qed.

(** ** The scroll tracker *)

Section ScrollTrackerFacts.
Import ScrollTracker.
Local Open Scope flow_scope.

Ltac stflow :=
  unfold step, start, stop, probe_, noChangeTimeout, newTimer,
    onMouseDown_, onMouseUp_, onTouchStart_, onTouchEnd_,
    Flow.exec, Flow.trace, Flow.result,
    Flow.bind, Flow.ret, Flow.get, Flow.modify, Flow.emit.

Lemma scrollTracker_step (a : Action) (s : t) (begun : bool) :
  begunBy begun s ->
  exists begun' : bool,
    begunBy begun' (Flow.exec (step a) s)
    /\ scrollingAfter (scrolling_ s) (Flow.trace (step a) s)
       = scrolling_ (Flow.exec (step a) s)
    /\ forall rest : list Event,
         startsOnce (scrolling_ (Flow.exec (step a) s)) begun' rest ->
         startsOnce (scrolling_ s) begun (Flow.trace (step a) s ++ rest).
Proof.
  intros [Hs Ht]. unfold begunBy.
  destruct a as [| | | | | |l p an|].
  1-6: exists begun; stflow; unfold begunBy;
    destruct s as [tm nct sc sp lp tp mp n];
    destruct tm; cbn in *; auto.
  - destruct (isSet (timer_ s)) eqn:Etm.
    + remember (scrollChanged l p an s) as changed eqn:Ec.
      exists (begun || changed).
      stflow. rewrite Etm, <- Ec.
      destruct s as [tm nct sc sp lp tp mp n]. cbn in Hs, Ht |- *.
      clear Ec Etm.
      destruct changed, sc, mp, tp, nct; cbn in *;
        rewrite ?orb_true_r, ?orb_false_r;
        (split; [split; auto; try discriminate|]);
        (split; [reflexivity|]); intros rest Hr; cbn; auto;
        try (rewrite Hs in * by reflexivity; auto);
        try (rewrite Ht in * by reflexivity; auto).
    + exists begun. stflow. rewrite Etm. cbn. auto.
  - destruct (isSet (noChangeTimer_ s)) eqn:Et.
    + exists begun. stflow. rewrite Et.
      destruct s as [tm nct sc sp lp tp mp n]. cbn in Hs, Ht, Et |- *.
      split; [split; discriminate|]. split; [reflexivity|].
      intros rest Hr. cbn. split; [auto|exact Hr].
    + exists begun. stflow. rewrite Et. cbn.
      repeat split; auto. rewrite Et. discriminate.
Qed.

Lemma scrollTracker_steps (acts : list Action) :
  forall (s : t) (begun : bool),
    begunBy begun s ->
    startsOnce (scrolling_ s) begun (Flow.trace (steps acts) s)
    /\ scrollingAfter (scrolling_ s) (Flow.trace (steps acts) s)
       = scrolling_ (Flow.exec (steps acts) s).
Proof.
  induction acts as [|a acts IH]; intros s begun Hb.
  - split; [exact I|reflexivity].
  - cbn [steps]. rewrite flow_exec_bind, flow_trace_bind.
    destruct (scrollTracker_step a Hb) as (begun' & Hb' & Hsc & Hstep).
    destruct (IH _ _ Hb') as [IH1 IH2].
    split; [exact (Hstep _ IH1)|].
    rewrite <- IH2, <- Hsc. clear.
    generalize (scrolling_ s).
    induction (Flow.trace (step a) s) as [|[] l IHl]; intros b; cbn; auto.
Qed.

End ScrollTrackerFacts.

(** X8.  The scroll tracker never reports the start of a scroll twice in
    a row, and never reports an end before a first start: whatever the
    mouse, the touch screen, the probes and the 200 ms timer do, between
    two calls of [onScrollStarted_] there is a call of [onScrollEnded_].
    [scrolling] is true exactly when the last report is a start. *)
Theorem ScrollTracker_starts_once (acts : list ScrollTracker.Action) :
  ScrollTracker.startsOnce false false
    (Flow.trace (ScrollTracker.steps acts) ScrollTracker.create)
  /\ ScrollTracker.scrolling
       (Flow.exec (ScrollTracker.steps acts) ScrollTracker.create)
     = ScrollTracker.scrollingAfter false
         (Flow.trace (ScrollTracker.steps acts) ScrollTracker.create).
Proof.
  destruct (@scrollTracker_steps acts ScrollTracker.create false)
    as [H1 H2].
  { split; discriminate. }
  split; [exact H1|]. symmetry. exact H2.
Qed.

(** X9.  The end of one scroll can be reported twice.  While the screen
    is touched and a scroll is under way, a probe that sees no change
    sets the 200 ms timer; when the touch then ends, the next probe that
    sees no change reports the end and leaves the timer pending, and the
    timer reports the end again. *)
Theorem ScrollTracker_end_reported_twice (s : ScrollTracker.t) :
  ScrollTracker.isSet (ScrollTracker.timer_ s) = true ->
  ScrollTracker.scrolling_ s = true ->
  ScrollTracker.touchPressed_ s = true ->
  ScrollTracker.mousePressed_ s = false ->
  ScrollTracker.noChangeTimer_ s = None ->
  let still :=
    ScrollTracker.Tick
      (fst (ScrollTracker.lastScrollPosition_ s))
      (snd (ScrollTracker.lastScrollPosition_ s)) false in
  Flow.trace
    (ScrollTracker.steps
       [still; ScrollTracker.TouchEnd; still;
        ScrollTracker.NoChangeTimerFired]) s
  = [ScrollTracker.OnScrollEnded; ScrollTracker.OnScrollEnded].
Proof.
  intros Htm Hsc Htp Hmp Hnct still. subst still.
  destruct s as [tm nct sc sp [l p] tpr mpr n].
  cbn in Htm, Hsc, Htp, Hmp, Hnct. subst sc tpr mpr nct.
  cbn [ScrollTracker.lastScrollPosition_ fst snd].
  unfold Flow.trace, ScrollTracker.steps, ScrollTracker.step,
    ScrollTracker.probe_, ScrollTracker.noChangeTimeout,
    ScrollTracker.newTimer, ScrollTracker.onTouchEnd_,
    ScrollTracker.scrollChanged,
    Flow.bind, Flow.ret, Flow.get, Flow.modify, Flow.emit.
  destruct tm as [id|]; [clear Htm|discriminate].
  cbn -[Qeq_bool].
  repeat (rewrite ?Qeq_bool_refl; cbn -[Qeq_bool]).
  reflexivity.
Qed.

Lemma ScrollTracker_end_reported_twice_witness :
  let s :=
    Flow.exec
      (ScrollTracker.steps
         [ScrollTracker.Start; ScrollTracker.TouchStart;
          ScrollTracker.Tick 10 0 false])
      ScrollTracker.create in
  Flow.trace
    (ScrollTracker.steps
       [ScrollTracker.Tick 10 0 false; ScrollTracker.TouchEnd;
        ScrollTracker.Tick 10 0 false; ScrollTracker.NoChangeTimerFired]) s
  = [ScrollTracker.OnScrollEnded; ScrollTracker.OnScrollEnded].
Proof.
  intros s.
  apply (@ScrollTracker_end_reported_twice s); reflexivity.
Defined.

(** ** The puller *)

Section PullerFacts.
Import Puller.
Local Open Scope flow_scope.

Ltac pflow :=
  unfold step, onTouchStart_, onTouchMove_, onTouchEnd_, onMouseDown_,
    onMouseMove_, onMouseUp_, startPulling_, updatePulling_, endPulling_,
    Flow.exec, Flow.trace, Flow.result,
    Flow.bind, Flow.ret, Flow.get, Flow.modify, Flow.emit.

Lemma puller_moves (moves : list Action) :
  forall p0 last : Point,
    forallb isMove moves = true ->
    released (Flow.trace (steps moves) (mk (Some p0) (Some last))) = []
    /\ Flow.exec (steps moves) (mk (Some p0) (Some last))
       = mk (Some p0) (Some (reached last moves)).
Proof.
  induction moves as [|a moves IH]; intros p0 last Hm.
  - split; reflexivity.
  - cbn [forallb] in Hm. apply andb_true_iff in Hm. destruct Hm as [Ha Hm].
    cbn [steps]. rewrite flow_exec_bind, flow_trace_bind.
    destruct a as [x y|x y| |x y|x y|]; try discriminate Ha.
    + destruct (IH p0 (x, y) Hm) as [IH1 IH2]. split.
      * pflow. cbn in *. exact IH1.
      * exact IH2.
    + destruct (IH p0 (x, y) Hm) as [IH1 IH2]. split.
      * pflow. cbn in *. exact IH1.
      * exact IH2.
Qed.

Lemma puller_quiet (quiet : list Action) :
  forallb (fun a => negb (isStart a)) quiet = true ->
  Flow.trace (steps quiet) create = []
  /\ Flow.exec (steps quiet) create = create.
Proof.
  induction quiet as [|a quiet IH]; intros Hq.
  - split; reflexivity.
  - cbn [forallb] in Hq. apply andb_true_iff in Hq. destruct Hq as [Ha Hq].
    cbn [steps]. rewrite flow_exec_bind, flow_trace_bind.
    destruct (IH Hq) as [IH1 IH2].
    destruct a as [x y|x y| |x y|x y|]; try discriminate Ha;
      (split; [exact IH1|exact IH2]).
Qed.

Lemma puller_released_app (l1 l2 : list Event) :
  released (l1 ++ l2) = released l1 ++ released l2.
Proof.
  induction l1 as [|[] l1 IH]; simpl; rewrite ?IH; reflexivity.
Qed.

End PullerFacts.

(** X10.  One pull, one release.  From any state, a press or a touch at
    [p0] followed by any moves and by a release calls [onPullReleased_]
    exactly once, with the vertical distance between the last point
    reached and [p0]: the moves do not shift the start of the pull.
    Afterwards the puller is as constructed, and as long as nothing
    presses or touches the element again, moves and releases call
    nothing. *)
Theorem Puller_one_release_per_pull (s : Puller.t)
    (start finish : Puller.Action) (p0 : Puller.Point)
    (moves quiet : list Puller.Action) :
  Puller.isStart start = true ->
  Puller.point start = Some p0 ->
  forallb Puller.isMove moves = true ->
  Puller.isEnd finish = true ->
  forallb (fun a => negb (Puller.isStart a)) quiet = true ->
  let pull := start :: moves ++ [finish] in
  Puller.released (Flow.trace (Puller.steps pull) s)
  = [(snd (Puller.reached p0 moves) - snd p0)%Z]
  /\ Flow.exec (Puller.steps pull) s = Puller.create
  /\ Flow.trace (Puller.steps quiet) (Flow.exec (Puller.steps pull) s) = [].
Proof.
  intros Hstart Hp0 Hmoves Hfinish Hquiet pull.
  assert (Hstarted :
    Flow.exec (Puller.step start) s = Puller.mk (Some p0) (Some p0)
    /\ Puller.released (Flow.trace (Puller.step start) s) = []).
  { destruct start; try discriminate Hstart;
      injection Hp0 as <-; split; reflexivity. }
  destruct Hstarted as [Hs1 Hs2].
  destruct (@puller_moves moves p0 p0 Hmoves) as [Hm1 Hm2].
  assert (Hended :
    Flow.exec (Puller.step finish)
      (Puller.mk (Some p0) (Some (Puller.reached p0 moves)))
    = Puller.create
    /\ Puller.released
         (Flow.trace (Puller.step finish)
            (Puller.mk (Some p0) (Some (Puller.reached p0 moves))))
       = [(snd (Puller.reached p0 moves) - snd p0)%Z]).
  { destruct finish; try discriminate Hfinish; split; reflexivity. }
  destruct Hended as [He1 He2].
  assert (Hexec : Flow.exec (Puller.steps pull) s = Puller.create).
  { subst pull. cbn [Puller.steps]. rewrite flow_exec_bind, Hs1.
    assert (Happ : forall (l1 l2 : list Puller.Action) (q : Puller.t),
      Flow.exec (Puller.steps (l1 ++ l2)) q
      = Flow.exec (Puller.steps l2) (Flow.exec (Puller.steps l1) q)).
    { induction l1 as [|a l1 IH]; intros l2 q; [reflexivity|].
      cbn [Puller.steps app]. rewrite !flow_exec_bind. apply IH. }
    rewrite Happ, Hm2. cbn [Puller.steps]. rewrite flow_exec_bind, He1.
    reflexivity. }
  split; [|split].
  - subst pull. cbn [Puller.steps]. rewrite flow_trace_bind, Hs1.
    rewrite puller_released_app, Hs2. cbn [app].
    assert (Happ : forall (l1 l2 : list Puller.Action) (q : Puller.t),
      Flow.trace (Puller.steps (l1 ++ l2)) q
      = Flow.trace (Puller.steps l1) q
        ++ Flow.trace (Puller.steps l2) (Flow.exec (Puller.steps l1) q)).
    { induction l1 as [|a l1 IH]; intros l2 q; [reflexivity|].
      cbn [Puller.steps app]. rewrite !flow_trace_bind, flow_exec_bind.
      rewrite IH, app_assoc. reflexivity. }
    rewrite Happ, puller_released_app, Hm1, Hm2. cbn [app Puller.steps].
    rewrite flow_trace_bind, puller_released_app, He2. reflexivity.
  - exact Hexec.
  - rewrite Hexec. apply puller_quiet. exact Hquiet.
Qed.

Lemma Puller_one_release_per_pull_witness :
  Puller.released
    (Flow.trace
       (Puller.steps
          [Puller.MouseDown 100 400; Puller.MouseMove 100 380;
           Puller.TouchMove 102 340; Puller.MouseUp])
       Puller.create)
  = [(-60)%Z]
  /\ Flow.exec
       (Puller.steps
          [Puller.MouseDown 100 400; Puller.MouseMove 100 380;
           Puller.TouchMove 102 340; Puller.MouseUp])
       Puller.create
     = Puller.create
  /\ Flow.trace (Puller.steps [Puller.MouseMove 5 5; Puller.TouchEnd])
       (Flow.exec
          (Puller.steps
             [Puller.MouseDown 100 400; Puller.MouseMove 100 380;
              Puller.TouchMove 102 340; Puller.MouseUp])
          Puller.create)
     = [].
Proof.
  apply (@Puller_one_release_per_pull Puller.create
           (Puller.MouseDown 100 400) Puller.MouseUp (100, 400)%Z
           [Puller.MouseMove 100 380; Puller.TouchMove 102 340]
           [Puller.MouseMove 5 5; Puller.TouchEnd]);
    reflexivity.
Defined.

(** ** Scrolling by dragging the mouse *)

Section MouseScrollerFacts.
Import MouseScroller.
Local Open Scope flow_scope.

Lemma mouseScroller_drag (path : list (Z * Z)) (start : Z * Z)
    (startScroll : Q * Q) :
  Flow.trace (steps (map drag path)) (mk (Some start) (Some startScroll))
  = map (follows start startScroll) path.
Proof.
  induction path as [|p path IH]; [reflexivity|].
  cbn [map steps]. rewrite flow_trace_bind.
  change (Flow.exec (step (drag p)) (mk (Some start) (Some startScroll)))
    with (mk (Some start) (Some startScroll)).
  rewrite IH. reflexivity.
Qed.

Lemma mouseScroller_idle (acts : list Action) (s : t) :
  startPosition_ s = None ->
  forallb (fun a => negb (pressesFirst a)) acts = true ->
  Flow.trace (steps acts) s = [].
Proof.
  revert s. induction acts as [|a acts IH]; intros s Hs Hq; [reflexivity|].
  cbn [forallb] in Hq. apply andb_true_iff in Hq. destruct Hq as [Ha Hq].
  cbn [steps]. rewrite flow_trace_bind.
  destruct s as [sp ssp]. cbn in Hs. subst sp.
  destruct a as [which x y l p|which x y|].
  - cbn in Ha. apply negb_true_iff in Ha.
    unfold step, onMouseDown_, Flow.trace, Flow.exec. rewrite Ha.
    cbn. apply IH; [reflexivity|exact Hq].
  - cbn. apply IH; [reflexivity|exact Hq].
  - cbn. apply IH; [reflexivity|exact Hq].
Qed.

End MouseScrollerFacts.

(** X11.  A drag follows the mouse from its anchor.  After the first
    button is pressed on the element at [start], the scroller reading
    [startScroll], every move of the mouse with that button held asks the
    scroller, in [INSTANT] mode, for the position that keeps under the
    mouse what was under it at the press; the moves do not add up, so
    that a mouse back at [start] asks for [startScroll] again. *)
Theorem MouseScroller_drag_follows_mouse (s : MouseScroller.t)
    (start : Z * Z) (startScroll : Q * Q) (path : list (Z * Z)) :
  Flow.trace
    (MouseScroller.steps
       (MouseScroller.MouseDown 1 (fst start) (snd start)
          (fst startScroll) (snd startScroll)
        :: map MouseScroller.drag path)) s
  = map (MouseScroller.follows start startScroll) path.
Proof.
  cbn [MouseScroller.steps]. rewrite flow_trace_bind.
  destruct start as [x0 y0], startScroll as [l0 t0].
  change (Flow.exec
            (MouseScroller.step
               (MouseScroller.MouseDown 1 (fst (x0, y0)) (snd (x0, y0))
                  (fst (l0, t0)) (snd (l0, t0)))) s)
    with (MouseScroller.mk (Some (x0, y0)) (Some (l0, t0))).
  rewrite mouseScroller_drag. reflexivity.
Qed.

(** X12.  Nothing scrolls outside a drag.  Once the button is released,
    or a move shows that the first button is no longer held, the mouse
    scroller asks the scroller for nothing until the first button is
    pressed on the element again. *)
Theorem MouseScroller_scrolls_only_in_a_drag (s : MouseScroller.t)
    (a : MouseScroller.Action) (acts : list MouseScroller.Action) :
  MouseScroller.endsDrag a = true ->
  forallb (fun a => negb (MouseScroller.pressesFirst a)) acts = true ->
  Flow.trace (MouseScroller.steps (a :: acts)) s = [].
Proof.
  intros Ha Hq. cbn [MouseScroller.steps]. rewrite flow_trace_bind.
  destruct s as [sp ssp].
  destruct a as [which x y l p|which x y|]; try discriminate Ha.
  - cbn in Ha.
    unfold MouseScroller.step, MouseScroller.onMouseMove_,
      Flow.trace at 1, Flow.exec, Flow.bind, Flow.get, Flow.ret,
      Flow.modify, Flow.emit.
    cbn [MouseScroller.startPosition_]. destruct sp as [p0|].
    + rewrite Ha. cbn. apply mouseScroller_idle; [reflexivity|exact Hq].
    + cbn. apply mouseScroller_idle; [reflexivity|exact Hq].
  - cbn. apply mouseScroller_idle; [reflexivity|exact Hq].
Qed.

Lemma MouseScroller_scrolls_only_in_a_drag_witness :
  Flow.trace
    (MouseScroller.steps
       [MouseScroller.MouseMove 0 30 40; MouseScroller.MouseMove 1 35 40;
        MouseScroller.MouseDown 2 35 40 0 0; MouseScroller.MouseMove 2 50 40])
    (MouseScroller.mk (Some (10, 40)%Z) (Some (0, 0)))
  = [].
Proof.
  apply (@MouseScroller_scrolls_only_in_a_drag
           (MouseScroller.mk (Some (10, 40)%Z) (Some (0, 0)))
           (MouseScroller.MouseMove 0 30 40)
           [MouseScroller.MouseMove 1 35 40;
            MouseScroller.MouseDown 2 35 40 0 0;
            MouseScroller.MouseMove 2 50 40]);
    reflexivity.
Defined.

(** ** The smooth scroller *)

Section SmoothScrollerFacts.
Import SmoothScroller.
Local Open Scope flow_scope.

Lemma jsmath_limited_range (x limit : Q) :
  0 <= limited x limit
  /\ (0 <= limit -> limited x limit <= limit)
  /\ (0 <= x -> x <= limit -> limited x limit == x)
  /\ (limit <= 0 -> limited x limit == 0)
  /\ (x <= 0 -> limited x limit == 0)
  /\ (0 <= limit -> limit <= x -> limited x limit == limit).
Proof.
  unfold limited, JSMath.max, JSMath.min.
  destruct (Qle_bool x limit) eqn:E1.
  - apply Qle_bool_iff in E1.
    destruct (Qle_bool 0 x) eqn:E2.
    + apply Qle_bool_iff in E2. repeat split; intros; lra.
    + assert (Hx : ~ 0 <= x).
      { intros H. apply Qle_bool_iff in H. congruence. }
      repeat split; intros; lra.
  - assert (Hx : ~ x <= limit).
    { intros H. apply Qle_bool_iff in H. congruence. }
    destruct (Qle_bool 0 limit) eqn:E2.
    + apply Qle_bool_iff in E2. repeat split; intros; lra.
    + assert (Hl : ~ 0 <= limit).
      { intros H. apply Qle_bool_iff in H. congruence. }
      repeat split; intros; lra.
Qed.

Lemma smoothScroller_flush_eq (dom : Layout) (s : t) :
  flushScroll_ dom s = (tt, flushed dom s, []).
Proof.
  destruct s. reflexivity.
Qed.

Lemma smoothScroller_callback (id : nat) (dom : Layout) (s : t) :
  Flow.exec (onTransitionCompleted id dom) s
  = if Nat.eqb id (animationId_ s) then flushed dom s else s.
Proof.
  unfold onTransitionCompleted, Flow.exec, Flow.bind, Flow.get.
  cbn beta iota zeta.
  destruct (Nat.eqb id (animationId_ s)).
  - rewrite smoothScroller_flush_eq. reflexivity.
  - reflexivity.
Qed.

Lemma smoothScroller_listener (same : bool) (w : Completion.t) :
  Flow.trace (Completion.step (Completion.Dispatched same)) w
  = (if waiting w && same then [Completion.OnCompletion] else [])
  /\ waiting
       (Flow.exec (Completion.step (Completion.Dispatched same)) w)
     = waiting w && negb same.
Proof.
  unfold Flow.trace, Flow.exec. rewrite completion_step_eq.
  unfold waiting. destruct w as [[|] [|] p], same; split; reflexivity.
Qed.

(** One end-of-transition event of the padder, seen by the waits: the
    wait of the current animation flushes, if it has not completed, and
    no other does. *)
Lemma smoothScroller_dispatch (dom : Layout)
    (pending : list (nat * Completion.t)) :
  forall s : t,
    (forall (id : nat) (w : Completion.t),
       In (id, w) pending -> (id <= animationId_ s)%nat) ->
    let s' := Flow.exec (dispatch true dom pending) s in
    let rest := Flow.result (dispatch true dom pending) s in
    map fst rest = map fst pending
    /\ (forall (id : nat) (w : Completion.t),
          In (id, w) rest -> waiting w = false)
    /\ ((exists w : Completion.t,
           In (animationId_ s, w) pending /\ waiting w = true) ->
        s' = flushed dom s)
    /\ ((forall w : Completion.t,
           In (animationId_ s, w) pending -> waiting w = false) ->
        s' = s).
Proof.
  induction pending as [|[id w] pending IH]; intros s Hid.
  - cbn. split; [reflexivity|]. split; [intros id w []|].
    split; [intros [w [[] _]]|reflexivity].
  - cbn [dispatch]. cbv zeta.
    destruct (smoothScroller_listener true w) as [Hl Hw].
    rewrite andb_true_r in Hl.
    set (c := match Flow.trace
                      (Completion.step (Completion.Dispatched true)) w with
              | [] => Flow.ret tt
              | _ :: _ => onTransitionCompleted id dom
              end).
    assert (Hc :
      Flow.exec c s
      = if waiting w && Nat.eqb id (animationId_ s)
        then flushed dom s else s).
    { subst c. rewrite Hl. destruct (waiting w); cbn [andb].
      - apply smoothScroller_callback.
      - reflexivity. }
    rewrite !flow_exec_bind, !flow_result_bind.
    set (s1 := Flow.exec c s) in *.
    change (Flow.exec (Flow.ret ?x) ?y) with y.
    change (Flow.result (Flow.ret ?x) ?y) with x.
    cbn [map fst].
    assert (Hid1 : forall (id : nat) (w : Completion.t),
              In (id, w) pending -> (id <= animationId_ s1)%nat).
    { intros id0 w0 Hin. specialize (Hid id0 w0 (or_intror Hin)).
      rewrite Hc. destruct (waiting w && Nat.eqb id (animationId_ s));
        cbn; lia. }
    specialize (IH s1 Hid1). cbv zeta in IH.
    destruct IH as (I1 & I2 & I3 & I4).
    split; [f_equal; exact I1|].
    split.
    { intros id0 w0 [Heq|Hin].
      - injection Heq as _ <-. rewrite Hw, andb_false_r. reflexivity.
      - exact (I2 id0 w0 Hin). }
    destruct (waiting w && Nat.eqb id (animationId_ s)) eqn:E.
    + (* this wait flushes, and no later one does *)
      assert (Hrest : Flow.exec (dispatch true dom pending) s1 = s1).
      { apply I4. intros w0 Hin. rewrite Hc in Hin. cbn in Hin.
        specialize (Hid _ _ (or_intror Hin)). lia. }
      rewrite Hrest, Hc. split; [reflexivity|].
      intros Hnone. apply andb_true_iff in E. destruct E as [E1 E2].
      apply Nat.eqb_eq in E2. subst id.
      rewrite (Hnone w (or_introl eq_refl)) in E1. discriminate.
    + rewrite Hc in *. split.
      * intros [w0 [[Heq|Hin] Hw0]].
        -- injection Heq as -> ->. rewrite Hw0, Nat.eqb_refl in E.
           discriminate.
        -- apply I3. exists w0. split; assumption.
      * intros Hnone. apply I4. intros w0 Hin.
        apply Hnone. right. exact Hin.
Qed.

Lemma smoothScroller_dispatch_other (dom : Layout)
    (pending : list (nat * Completion.t)) (s : t) :
  dispatch false dom pending s = (pending, s, []).
Proof.
  revert s. induction pending as [|[id w] pending IH]; intros s.
  - reflexivity.
  - cbn [dispatch]. cbv zeta.
    destruct (smoothScroller_listener false w) as [Hl Hw].
    rewrite Hl, andb_false_r.
    unfold Flow.bind, Flow.ret. rewrite IH. cbn.
    unfold Flow.exec. rewrite completion_step_eq, andb_false_r.
    reflexivity.
Qed.

Lemma smoothScroller_transitionEnd_eq (same : bool) (dom : Layout) (s : t) :
  Flow.exec (step (TransitionEnd same dom)) s
  = set_waits (Flow.result (dispatch same dom (waits s)) s)
              (Flow.exec (dispatch same dom (waits s)) s).
Proof.
  cbn [step].
  unfold Flow.exec, Flow.result, Flow.bind, Flow.get, Flow.modify.
  cbn beta iota zeta.
  destruct (dispatch same dom (waits s) s) as [[rest s'] e]. reflexivity.
Qed.

(** After an end-of-transition event of the padder. *)
Lemma smoothScroller_transitionEnd (dom : Layout) (s : t) :
  consistent s ->
  let s' := Flow.exec (step (TransitionEnd true dom)) s in
  exists rest : list (nat * Completion.t),
    s' = set_waits rest (if animating_ s then flushed dom s else s)
    /\ map fst rest = map fst (waits s)
    /\ (forall (id : nat) (w : Completion.t),
          In (id, w) rest -> waiting w = false).
Proof.
  intros (Ha & Ht & Hw & Hid & Hcur). cbv zeta.
  rewrite smoothScroller_transitionEnd_eq.
  pose proof (@smoothScroller_dispatch dom (waits s) s Hid) as Hd.
  cbv zeta in Hd. destruct Hd as (D1 & D2 & D3 & D4).
  exists (Flow.result (dispatch true dom (waits s)) s).
  split; [|split; assumption].
  f_equal. destruct (animating_ s) eqn:Ean.
  - apply D3. destruct (Hw eq_refl) as [w [Hin Hwt]].
    exists w. split; assumption.
  - apply D4. intros w Hin. destruct (waiting w) eqn:Ew; [|reflexivity].
    specialize (Hcur w Hin Ew). discriminate.
Qed.

Lemma smoothScroller_scrollTo_instant (dom : Layout) (x y : Q) (s : t) :
  consistent s ->
  Flow.exec (scrollTo dom x y (Some INSTANT)) s
  = mk false
       (if animating_ s then S (animationId_ s) else animationId_ s)
       (limited x (scrollWidth dom - clientWidth dom))
       (limited y (scrollHeight dom - clientHeight dom))
       None false (waits s).
Proof.
  intros (Ha & Ht & _).
  unfold scrollTo, Flow.exec, Flow.bind, Flow.get, Flow.ret, Flow.modify.
  cbn beta iota zeta.
  destruct (animating_ s) eqn:Ea.
  - rewrite smoothScroller_flush_eq. reflexivity.
  - destruct s as [a n l p tr tn ws]. cbn in *. subst a tn.
    destruct tr as [tr|]; [|reflexivity].
    assert (false = true) by (apply Ha; discriminate). discriminate.
Qed.

Lemma smoothScroller_step_consistent (a : Action) (s : t) :
  consistent s -> consistent (Flow.exec (step a) s).
Proof.
  intros Hc. pose proof Hc as (Ha & Ht & Hw & Hid & Hcur).
  destruct a as [dom x y opt_mode|same dom].
  - cbn [step].
    assert (Hsmooth :
      consistent (Flow.exec (scrollTo dom x y None) s)).
    { unfold scrollTo, Flow.exec, Flow.bind, Flow.get, Flow.ret,
        Flow.modify.
      cbn beta iota zeta.
      match goal with
      | |- context [if ?c then _ else _] => destruct c
      end; [exact Hc|].
      destruct s as [an n l p tr tn ws]. cbn in *.
      unfold consistent. cbn.
      split; [split; [discriminate|reflexivity]|].
      split; [reflexivity|].
      split; [|split].
      - intros _. exists (Completion.wait 0). split; [|reflexivity].
        apply in_or_app. right. left. reflexivity.
      - intros id w Hin. apply in_app_or in Hin.
        destruct Hin as [Hin|[Heq|[]]].
        + specialize (Hid id w Hin). lia.
        + injection Heq as <- <-. lia.
      - reflexivity. }
    destruct opt_mode as [[|]|]; try exact Hsmooth.
    rewrite smoothScroller_scrollTo_instant by exact Hc.
    unfold consistent. cbn.
    split; [split; [discriminate|intros H; contradiction]|].
    split; [reflexivity|].
    split; [discriminate|].
    split.
    + intros id w Hin. specialize (Hid id w Hin).
      destruct (animating_ s); lia.
    + intros w Hin Hwt. destruct (animating_ s) eqn:Ean.
      * specialize (Hid _ _ Hin). lia.
      * exact (Hcur w Hin Hwt).
  - destruct same.
    + destruct (smoothScroller_transitionEnd dom Hc)
        as (rest & Hs' & Hm & Hdone).
      cbv zeta in Hs'. rewrite Hs'.
      assert (Hsettled :
        animating_ (if animating_ s then flushed dom s else s) = false
        /\ webkitTransform (if animating_ s then flushed dom s else s)
           = None
        /\ transition (if animating_ s then flushed dom s else s) = false).
      { destruct (animating_ s) eqn:Ean; [repeat split|].
        repeat split; [exact Ean| |congruence].
        destruct (webkitTransform s) eqn:Etr; [|reflexivity].
        assert (false = true) by (apply Ha; discriminate). discriminate. }
      destruct Hsettled as (S1 & S2 & S3).
      unfold consistent. cbn [set_waits animating_ webkitTransform
        transition waits animationId_].
      rewrite S1, S2, S3.
      split; [split; [discriminate|intros H; contradiction]|].
      split; [reflexivity|].
      split; [discriminate|].
      split.
      * intros id w Hin.
        assert (Hin' : In id (map fst rest)).
        { change id with (fst (id, w)). apply in_map. exact Hin. }
        rewrite Hm in Hin'. apply in_map_iff in Hin'.
        destruct Hin' as [[id0 w0] [Heq Hin0]]. cbn in Heq. subst id0.
        specialize (Hid id w0 Hin0).
        destruct (animating_ s); cbn; lia.
      * intros w Hin Hwt. rewrite (Hdone _ _ Hin) in Hwt. discriminate.
    + rewrite smoothScroller_transitionEnd_eq.
      unfold Flow.exec, Flow.result.
      rewrite smoothScroller_dispatch_other. cbn.
      destruct s. exact Hc.
Qed.

Lemma smoothScroller_steps_consistent (acts : list Action) (s : t) :
  consistent s -> consistent (Flow.exec (steps acts) s).
Proof.
  revert s. induction acts as [|a acts IH]; intros s H.
  - exact H.
  - cbn [steps]. rewrite flow_exec_bind. apply IH.
    apply smoothScroller_step_consistent. exact H.
Qed.

Lemma smoothScroller_create_consistent : consistent create.
Proof.
  unfold consistent. cbn.
  split; [split; [discriminate|intros H; contradiction]|].
  split; [reflexivity|]. split; [discriminate|].
  split; [intros id w []|intros w []].
Qed.

End SmoothScrollerFacts.

(** X13.  A scroller is [animating] exactly while a transform is set on
    the padder, and an end-of-transition event of the padder flushes once
    when the scroller is animating and not at all when it is not: however
    smooth and instant scrolls have followed one another, after the event
    nothing is animating and the padder carries no style; the position
    becomes the one the padder is drawn at when an animation was running
    and is left alone otherwise.  The waits of the scrolls that a later
    scroll has replaced or cancelled do nothing. *)
Theorem SmoothScroller_transition_end_settles
    (acts : list SmoothScroller.Action) (dom : SmoothScroller.Layout) :
  let s := Flow.exec (SmoothScroller.steps acts) SmoothScroller.create in
  let s' :=
    Flow.exec
      (SmoothScroller.step (SmoothScroller.TransitionEnd true dom)) s in
  (SmoothScroller.animating s = true
   <-> SmoothScroller.webkitTransform s <> None)
  /\ SmoothScroller.settled s'
  /\ SmoothScroller.animationId_ s'
     = (if SmoothScroller.animating s
        then S (SmoothScroller.animationId_ s)
        else SmoothScroller.animationId_ s)
  /\ SmoothScroller.element_scrollLeft s'
     = (if SmoothScroller.animating s
        then SmoothScroller.scrollLeft dom
        else SmoothScroller.element_scrollLeft s)
  /\ SmoothScroller.element_scrollTop s'
     = (if SmoothScroller.animating s
        then SmoothScroller.scrollTop dom
        else SmoothScroller.element_scrollTop s).
Proof.
  intros s s'.
  assert (Hc : SmoothScroller.consistent s).
  { apply smoothScroller_steps_consistent.
    apply smoothScroller_create_consistent. }
  split; [exact (proj1 Hc)|].
  destruct (smoothScroller_transitionEnd dom Hc) as (rest & Hs' & _).
  cbv zeta in Hs'. fold s' in Hs'. rewrite Hs'.
  pose proof Hc as (Ha & Ht & _).
  unfold SmoothScroller.animating.
  split; [|destruct (SmoothScroller.animating_ s); repeat split].
  destruct (SmoothScroller.animating_ s) eqn:Ean; [repeat split|].
  repeat split; cbn; [exact Ean| |congruence].
  destruct (SmoothScroller.webkitTransform s) eqn:Etr; [|reflexivity].
  assert (false = true) by (apply Ha; discriminate). discriminate.
Qed.

(** X14.  An instant scroll lands where it is asked to, within the
    allowed values: after [scrollTo] in [INSTANT] mode the scroller is
    settled, whatever animation was running, and [element_.scrollLeft]
    is the requested [x] brought between 0 and
    [scrollWidth - clientWidth]: [x] itself when it lies between them, 0
    when [x] is negative or the contents are narrower than the element,
    and [scrollWidth - clientWidth] when [x] is beyond it; likewise for
    [y]. *)
Theorem SmoothScroller_instant_scroll_in_range
    (acts : list SmoothScroller.Action) (dom : SmoothScroller.Layout)
    (x y : Q) :
  let s := Flow.exec (SmoothScroller.steps acts) SmoothScroller.create in
  let s' :=
    Flow.exec
      (SmoothScroller.scrollTo dom x y (Some SmoothScroller.INSTANT)) s in
  let width :=
    SmoothScroller.scrollWidth dom - SmoothScroller.clientWidth dom in
  let height :=
    SmoothScroller.scrollHeight dom - SmoothScroller.clientHeight dom in
  SmoothScroller.settled s'
  /\ 0 <= SmoothScroller.element_scrollLeft s'
  /\ 0 <= SmoothScroller.element_scrollTop s'
  /\ (0 <= width -> SmoothScroller.element_scrollLeft s' <= width)
  /\ (0 <= height -> SmoothScroller.element_scrollTop s' <= height)
  /\ (0 <= x -> x <= width -> SmoothScroller.element_scrollLeft s' == x)
  /\ (0 <= y -> y <= height -> SmoothScroller.element_scrollTop s' == y)
  /\ (width <= 0 -> SmoothScroller.element_scrollLeft s' == 0)
  /\ (height <= 0 -> SmoothScroller.element_scrollTop s' == 0)
  /\ (x <= 0 -> SmoothScroller.element_scrollLeft s' == 0)
  /\ (y <= 0 -> SmoothScroller.element_scrollTop s' == 0)
  /\ (0 <= width -> width <= x ->
      SmoothScroller.element_scrollLeft s' == width)
  /\ (0 <= height -> height <= y ->
      SmoothScroller.element_scrollTop s' == height).
Proof.
  intros s s' width height.
  assert (Hc : SmoothScroller.consistent s).
  { apply smoothScroller_steps_consistent.
    apply smoothScroller_create_consistent. }
  subst s'. rewrite smoothScroller_scrollTo_instant by exact Hc.
  cbn [SmoothScroller.element_scrollLeft SmoothScroller.element_scrollTop].
  destruct (jsmath_limited_range x width) as (X1 & X2 & X3 & X4 & X5 & X6).
  destruct (jsmath_limited_range y height) as (Y1 & Y2 & Y3 & Y4 & Y5 & Y6).
  split; [repeat split|].
  repeat (split; [assumption|]). assumption.
Qed.

(** ** The performance monitor: the average *)

(** X15.  The average duration a monitor reports is not always between
    the shortest and the longest of the durations it retains: the sum
    and the quotient are rounded.  Of three measurements of 690.8 ms,
    read off the clock as 690.79999999999995, 690.80000000000007 and
    690.79999999999995 ms, the average is 690.79999999999984 ms, below
    each of them. *)
Theorem PerformanceMonitor_average_below_shortest :
  let probes := PerformanceMonitorDoubles.threeMeasurements in
  map snd probes = PerformanceMonitorDoubles.durationsOfThree
  /\ PerformanceMonitorDoubles.average probes
     = PerformanceMonitorDoubles.belowThree
  /\ forallb (fun p => PrimFloat.ltb
                         (PerformanceMonitorDoubles.average probes) (snd p))
             probes = true
  /\ ~ (forall (probes : list PerformanceMonitorDoubles.Probe)
               (shortest : PrimFloat.float),
          probes <> [] ->
          Forall (fun p => PrimFloat.leb shortest (snd p) = true) probes ->
          PrimFloat.leb shortest (PerformanceMonitorDoubles.average probes)
          = true).
Proof.
  cbv zeta.
  split; [vm_compute; reflexivity|].
  split; [vm_compute; reflexivity|].
  split; [vm_compute; reflexivity|].
  intros H.
  specialize (H PerformanceMonitorDoubles.threeMeasurements
                PerformanceMonitorDoubles.shortestOfThree).
  assert (Hne : PerformanceMonitorDoubles.threeMeasurements <> [])
    by discriminate.
  assert (Hall : Forall
            (fun p => PrimFloat.leb PerformanceMonitorDoubles.shortestOfThree
                        (snd p) = true)
            PerformanceMonitorDoubles.threeMeasurements).
  { repeat constructor. }
  specialize (H Hne Hall). vm_compute in H. discriminate H.
Qed.

(** ** The performance monitors: names *)

Section NamedMonitors.
Import NamedPerformanceMonitors.

Lemma named_own_keys (name : string)
    (l : list (string * PerformanceMonitor.t)) :
  own name l = None <-> existsb (String.eqb name) (map fst l) = false.
Proof.
  induction l as [|[identifier m] l IH]; [split; reflexivity|].
  cbn [own map fst existsb]. rewrite (String.eqb_sym name identifier).
  destruct (String.eqb identifier name); cbn [orb].
  - split; intros H; discriminate H.
  - exact IH.
Qed.

Lemma named_assign_keys (name : string) (m : PerformanceMonitor.t)
    (l : list (string * PerformanceMonitor.t)) :
  map fst (assign name m l) = map fst l.
Proof.
  induction l as [|[identifier old] l IH]; [reflexivity|].
  cbn [assign]. destruct (String.eqb identifier name); cbn; [reflexivity|].
  rewrite IH. reflexivity.
Qed.

Lemma named_get_keys (name : string) (now : Q) (s : t) :
  created (snd (get_ name now s))
  = if existsb (String.eqb name) (created s) || inherited name
    then created s else created s ++ [name].
Proof.
  unfold get_, created.
  destruct (own name (monitors_ s)) eqn:Eo.
  - destruct (existsb (String.eqb name) (map fst (monitors_ s))) eqn:Ek;
      [reflexivity|].
    apply named_own_keys in Ek. congruence.
  - apply named_own_keys in Eo. rewrite Eo. cbn [orb].
    destruct (inherited name); [reflexivity|].
    cbn. rewrite map_app. reflexivity.
Qed.

Lemma named_step_keys (a : Action) (s : t) :
  created (step a s) = firstUses (created s) [a].
Proof.
  destruct a as [name now|name c|now|name now later|name now];
    cbn [step firstUses asked].
  - unfold startMeasuring.
    rewrite <- named_get_keys with (now := now).
    destruct (get_ name now s) as [[m|] s']; reflexivity.
  - unfold finishMeasuring, created.
    destruct (own name (monitors_ s)); [|reflexivity].
    cbn. apply named_assign_keys.
  - unfold reset, created. cbn. rewrite map_map. reflexivity.
  - unfold fps.
    rewrite <- named_get_keys with (now := now).
    destruct (get_ name now s) as [[m|] s']; reflexivity.
  - unfold average.
    rewrite <- named_get_keys with (now := now). reflexivity.
Qed.

Lemma named_steps_keys (acts : list Action) (s : t) :
  created (steps acts s) = firstUses (created s) acts.
Proof.
  revert s. induction acts as [|a acts IH]; intros s; [reflexivity|].
  unfold steps in *. cbn [fold_left]. rewrite IH, named_step_keys.
  cbn [firstUses]. destruct (asked a) as [name|]; [|reflexivity].
  destruct (existsb (String.eqb name) (created s) || inherited name);
    reflexivity.
Qed.

Lemma named_reset_own (now : string -> Q) (name : string)
    (l : list (string * PerformanceMonitor.t)) :
  own name
    (map (fun entry =>
            (fst entry,
             PerformanceMonitor.reset (now (fst entry)) (snd entry))) l)
  = match own name l with
    | Some m => Some (PerformanceMonitor.mk [] (now name))
    | None => None
    end.
Proof.
  induction l as [|[identifier m] l IH]; [reflexivity|].
  cbn [map own fst snd].
  destruct (String.eqb identifier name) eqn:E; [|exact IH].
  apply String.eqb_eq in E. subst identifier. reflexivity.
Qed.

(** *** The order of [Object.keys] *)

Lemma named_insertIndex_perm (index : N) (name : string)
    (l : list (N * string)) :
  Permutation (insertIndex index name l) ((index, name) :: l).
Proof.
  induction l as [|[other otherName] l IH]; cbn [insertIndex];
    [reflexivity|].
  destruct (index <=? other)%N; [reflexivity|].
  rewrite IH. apply perm_swap.
Qed.

Lemma named_insertIndex_sorted (index : N) (name : string)
    (l : list (N * string)) :
  Sorted (fun a b => (fst a <= fst b)%N) l ->
  Sorted (fun a b => (fst a <= fst b)%N) (insertIndex index name l).
Proof.
  induction l as [|[other otherName] l IH]; intros Hs; cbn [insertIndex].
  - repeat constructor.
  - destruct (N.leb_spec index other) as [Hle|Hgt].
    + constructor; [exact Hs|]. constructor. exact Hle.
    + apply Sorted_inv in Hs. destruct Hs as [Hs Hhd].
      constructor; [apply IH; exact Hs|].
      destruct l as [|[next nextName] l]; cbn [insertIndex].
      * constructor. cbn. lia.
      * destruct (index <=? next)%N; constructor; cbn.
        -- lia.
        -- apply HdRel_inv in Hhd. exact Hhd.
Qed.

Lemma named_indices_names (names : list string) :
  Forall (fun entry => arrayIndex (snd entry) = Some (fst entry))
         (indices names).
Proof.
  induction names as [|name names IH]; cbn [indices]; [constructor|].
  destruct (arrayIndex name) as [index|] eqn:E; [|exact IH].
  eapply Permutation_Forall.
  - symmetry. apply named_insertIndex_perm.
  - constructor; [exact E|exact IH].
Qed.

Lemma named_indices_perm (names : list string) :
  Permutation (map snd (indices names)) (filter isArrayIndex names).
Proof.
  induction names as [|name names IH]; cbn [indices filter]; [reflexivity|].
  unfold isArrayIndex at 1.
  destruct (arrayIndex name) as [index|]; [|exact IH].
  rewrite named_insertIndex_perm. cbn [map snd]. constructor. exact IH.
Qed.

Lemma named_filter_partition (A : Type) (f : A -> bool) (l : list A) :
  Permutation (filter f l ++ filter (fun x => negb (f x)) l) l.
Proof.
  induction l as [|x l IH]; [reflexivity|]. cbn [filter].
  destruct (f x); cbn [negb app].
  - constructor. exact IH.
  - rewrite <- Permutation_middle. constructor. exact IH.
Qed.

Lemma named_ownPropertyKeys_perm (names : list string) :
  Permutation (ownPropertyKeys names) names.
Proof.
  unfold ownPropertyKeys. rewrite named_indices_perm.
  apply named_filter_partition.
Qed.

Lemma named_ownPropertyKeys_others (names : list string) :
  filter (fun name => negb (isArrayIndex name)) (ownPropertyKeys names)
  = filter (fun name => negb (isArrayIndex name)) names.
Proof.
  unfold ownPropertyKeys. rewrite filter_app.
  assert (H : filter (fun name => negb (isArrayIndex name))
                (map snd (indices names)) = []).
  { pose proof (named_indices_names names) as Hall.
    induction Hall as [|[index name] l Hx _ IH]; [reflexivity|].
    cbn [map snd filter fst] in *. unfold isArrayIndex at 1.
    rewrite Hx. exact IH. }
  rewrite H. cbn [app]. clear H.
  induction names as [|name names IH]; [reflexivity|].
  cbn [filter]. destruct (negb (isArrayIndex name)) eqn:E; [|exact IH].
  cbn [filter]. rewrite E, IH. reflexivity.
Qed.

Lemma named_indices_sorted (names : list string) :
  Sorted (fun a b => (fst a <= fst b)%N) (indices names).
Proof.
  induction names as [|name names IH]; cbn [indices]; [constructor|].
  destruct (arrayIndex name); [|exact IH].
  apply named_insertIndex_sorted. exact IH.
Qed.

End NamedMonitors.

(** X16.  The named monitors never forget a name, and a query is enough
    to add one.  After any sequence of [startMeasuring], completions,
    [reset], [fps] and [average] on a new object, [monitors_] holds one
    monitor for every name that [startMeasuring], [fps] or [average] was
    called with (the properties of [Object.prototype] apart), added in
    the order of their first use.  [Object.keys] lists exactly these
    names: those that are array indices first, in ascending order, then
    the others in the order of their first use.  A [reset] removes none,
    and right after it the monitor that [average] reads has no probe,
    for every such name, whether it was known before or not. *)
Theorem NamedPerformanceMonitors_names_are_kept
    (acts : list NamedPerformanceMonitors.Action)
    (now : string -> Q) (name : string) (clock : Q) :
  let s :=
    NamedPerformanceMonitors.steps acts NamedPerformanceMonitors.create in
  let used := NamedPerformanceMonitors.firstUses [] acts in
  NamedPerformanceMonitors.created s = used
  /\ Permutation (NamedPerformanceMonitors.keys s) used
  /\ NamedPerformanceMonitors.keys s
     = map snd (NamedPerformanceMonitors.indices used)
       ++ filter (fun name =>
                    negb (NamedPerformanceMonitors.isArrayIndex name)) used
  /\ Sorted (fun a b => (fst a <= fst b)%N)
            (NamedPerformanceMonitors.indices used)
  /\ NamedPerformanceMonitors.keys (NamedPerformanceMonitors.reset now s)
     = NamedPerformanceMonitors.keys s
  /\ (NamedPerformanceMonitors.inherited name = false ->
      exists m : PerformanceMonitor.t,
        fst (NamedPerformanceMonitors.average name clock
               (NamedPerformanceMonitors.reset now s))
        = Some m
        /\ PerformanceMonitor.probes_ m = []).
Proof.
  intros s used.
  assert (Hcreated : NamedPerformanceMonitors.created s = used).
  { subst s used. rewrite named_steps_keys. reflexivity. }
  split; [exact Hcreated|]. split; [|split; [|split; [|split]]].
  - unfold NamedPerformanceMonitors.keys. rewrite Hcreated.
    apply named_ownPropertyKeys_perm.
  - unfold NamedPerformanceMonitors.keys. rewrite Hcreated. reflexivity.
  - apply named_indices_sorted.
  - unfold NamedPerformanceMonitors.reset, NamedPerformanceMonitors.keys,
      NamedPerformanceMonitors.created.
    cbn. rewrite map_map. reflexivity.
  - intros Hname.
    unfold NamedPerformanceMonitors.average, NamedPerformanceMonitors.get_,
      NamedPerformanceMonitors.reset.
    cbn [NamedPerformanceMonitors.monitors_].
    rewrite named_reset_own, Hname.
    destruct (NamedPerformanceMonitors.own name
                (NamedPerformanceMonitors.monitors_ s));
      eexists; split; reflexivity.
Qed.

(** The names ["b"] and ["1"] used in this order are listed as ["1"],
    ["b"]; [toString] adds nothing. *)
Lemma NamedPerformanceMonitors_names_are_kept_witness :
  NamedPerformanceMonitors.created
    (NamedPerformanceMonitors.steps
       [NamedPerformanceMonitors.StartMeasuring "b" 5;
        NamedPerformanceMonitors.Fps "1" 6 7;
        NamedPerformanceMonitors.Reset (fun _ => 8);
        NamedPerformanceMonitors.Average "toString" 9;
        NamedPerformanceMonitors.StartMeasuring "b" 10]
       NamedPerformanceMonitors.create)
  = ["b"; "1"]%string
  /\ NamedPerformanceMonitors.keys
       (NamedPerformanceMonitors.steps
          [NamedPerformanceMonitors.StartMeasuring "b" 5;
           NamedPerformanceMonitors.Fps "1" 6 7;
           NamedPerformanceMonitors.Reset (fun _ => 8);
           NamedPerformanceMonitors.Average "toString" 9;
           NamedPerformanceMonitors.StartMeasuring "b" 10]
          NamedPerformanceMonitors.create)
     = ["1"; "b"]%string.
Proof.
  pose proof (@NamedPerformanceMonitors_names_are_kept
           [NamedPerformanceMonitors.StartMeasuring "b" 5;
            NamedPerformanceMonitors.Fps "1" 6 7;
            NamedPerformanceMonitors.Reset (fun _ => 8);
            NamedPerformanceMonitors.Average "toString" 9;
            NamedPerformanceMonitors.StartMeasuring "b" 10]
           (fun _ => 0) "b"%string 0) as H.
  cbv zeta in H. destruct H as (H1 & _ & H3 & _).
  split; [exact H1|exact H3].
Defined.

(** ** Shortcut identifiers *)

Section KeyboardFacts.
Import Keyboard.
Local Open Scope string_scope.

Lemma keyboard_not_shortcut (a : Ascii.ascii) (rest : string) :
  forallb (fun s =>
             match s with
             | String b _ => negb (Ascii.eqb a b)
             | EmptyString => true
             end) shortcuts = true ->
  ~ In (String a rest) shortcuts.
Proof.
  intros Hall Hin.
  rewrite forallb_forall in Hall. specialize (Hall _ Hin).
  cbn in Hall. rewrite Ascii.eqb_refl in Hall. discriminate.
Qed.

Lemma string_append_assoc (a b c : string) :
  (a ++ b) ++ c = a ++ (b ++ c).
Proof.
  induction a as [|x a IH]; [reflexivity|]. cbn. rewrite IH. reflexivity.
Qed.

Lemma string_append_nil_r (a : string) : a ++ EmptyString = a.
Proof.
  induction a as [|x a IH]; [reflexivity|]. cbn. rewrite IH. reflexivity.
Qed.

Lemma keyboard_shape (event : KeyboardEvent) :
  exists rest : string,
    getShortcutIdentifier event = modifiers event ++ rest.
Proof.
  unfold getShortcutIdentifier.
  destruct (truthy (keyIdentifier event) && negb (truthy (key event))),
    (truthy (key event)), (keyIdentifier event) as [ki|],
    (key event) as [k|];
    rewrite ?string_append_assoc;
    eexists; try reflexivity;
    symmetry; apply string_append_nil_r.
Qed.

End KeyboardFacts.

(** X17.  A key pressed with a modifier triggers no shortcut of the view.
    With Ctrl, Alt, Shift or Meta held, the identifier starts with the
    name of the first of them that is held, in this order, followed by a
    dash, whatever the key: it is none of the bare identifiers the view
    compares it with ([Left], [Right], [Up], [Down], [Space], [Home],
    [End], [Escape], [G], [Enter]). *)
Theorem Keyboard_modifier_disables_shortcuts
    (event : Keyboard.KeyboardEvent) :
  Keyboard.modified event = true ->
  ~ In (Keyboard.getShortcutIdentifier event) Keyboard.shortcuts.
Proof.
  intros Hmod.
  destruct (keyboard_shape event) as [rest Hshape]. rewrite Hshape.
  unfold Keyboard.modified in Hmod. unfold Keyboard.modifiers.
  destruct (Keyboard.ctrlKey event);
    [apply keyboard_not_shortcut; reflexivity|].
  destruct (Keyboard.altKey event);
    [apply keyboard_not_shortcut; reflexivity|].
  destruct (Keyboard.shiftKey event).
  { cbn. intros Hin.
    repeat (destruct Hin as [Hin|Hin]; [discriminate Hin|]). exact Hin. }
  destruct (Keyboard.metaKey event);
    [apply keyboard_not_shortcut; reflexivity|].
  discriminate.
Qed.

Lemma Keyboard_modifier_disables_shortcuts_witness :
  ~ In (Keyboard.getShortcutIdentifier
          (Keyboard.mkEvent false false true false None
             (Some "ArrowLeft"%string)))
       Keyboard.shortcuts.
Proof.
  apply (@Keyboard_modifier_disables_shortcuts
           (Keyboard.mkEvent false false true false None
              (Some "ArrowLeft"%string))).
  reflexivity.
Defined.

(** X18.  Old and new keyboard events give the same identifier.  For the
    keys that both [switch] statements know (space, A, P, S, G, Escape
    and Delete), an event that carries [keyIdentifier] only and an event
    that carries [key] only are given the same identifier, under the same
    modifiers; when an event carries both, [key] decides alone. *)
Theorem Keyboard_old_and_new_events_agree
    (event : Keyboard.KeyboardEvent) (keyIdentifier key : string) :
  In (keyIdentifier, key) Keyboard.bothKnown ->
  Keyboard.getShortcutIdentifier (Keyboard.legacy event keyIdentifier)
  = Keyboard.getShortcutIdentifier (Keyboard.modern event key)
  /\ Keyboard.getShortcutIdentifier
       (Keyboard.mkEvent
          (Keyboard.ctrlKey event) (Keyboard.altKey event)
          (Keyboard.shiftKey event) (Keyboard.metaKey event)
          (Some keyIdentifier) (Some key))
     = Keyboard.getShortcutIdentifier (Keyboard.modern event key).
Proof.
  intros Hin. cbn in Hin.
  repeat (destruct Hin as [Hin|Hin];
          [injection Hin as <- <-; split; reflexivity|]).
  contradiction.
Qed.

Lemma Keyboard_old_and_new_events_agree_witness :
  Keyboard.getShortcutIdentifier
    (Keyboard.legacy
       (Keyboard.mkEvent true false false false None None)
       "U+0047")
  = "Ctrl-G"%string.
Proof.
  rewrite (proj1 (@Keyboard_old_and_new_events_agree
                    (Keyboard.mkEvent true false false false None None
                      )
                    "U+0047"%string "g"%string
                    (or_intror (or_intror (or_intror (or_intror
                       (or_introl eq_refl))))))).
  reflexivity.
Defined.

(** ** The ribbon and the window controls *)

Section ControlsFacts.
Import Controls.
Local Open Scope flow_scope.

Lemma controls_keepsControls_trans (s1 s2 s3 : t) :
  keepsControls s1 s2 -> keepsControls s2 s3 -> keepsControls s1 s3.
Proof.
  unfold keepsControls. intros (A1 & A2 & A3 & A4) (B1 & B2 & B3 & B4).
  repeat split; congruence.
Qed.

Lemma controls_keepsCollapse_trans (s1 s2 s3 : t) :
  keepsCollapse s1 s2 -> keepsCollapse s2 s3 -> keepsCollapse s1 s3.
Proof.
  unfold keepsCollapse. intros (A1 & A2 & A3 & A4) (B1 & B2 & B3 & B4).
  repeat split; congruence.
Qed.

(** What the closure of the toolbar's effect leaves alone. *)
Lemma controls_toolbarClosure
    (evs : list (StyleEffect.Event bool Callback)) (s : t) :
  keepsControls s (Flow.exec (toolbarClosure evs) s)
  /\ keepsCollapse s (Flow.exec (toolbarClosure evs) s)
  /\ expanded_ (Flow.exec (toolbarClosure evs) s) = expanded_ s.
Proof.
  revert s. induction evs as [|[args cb|cb] evs IH]; intros s.
  - cbn. unfold keepsControls, keepsCollapse. repeat split.
  - cbn [toolbarClosure]. rewrite !flow_exec_bind.
    match goal with
    | |- context [Flow.exec (toolbarClosure evs) ?x] =>
        destruct (IH x) as (I1 & I2 & I3)
    end.
    split; [|split].
    + eapply controls_keepsControls_trans; [|exact I1].
      destruct s. unfold keepsControls. repeat split.
    + eapply controls_keepsCollapse_trans; [|exact I2].
      destruct s. unfold keepsCollapse. repeat split.
    + rewrite I3. destruct s. reflexivity.
  - cbn [toolbarClosure]. rewrite !flow_exec_bind.
    match goal with
    | |- context [Flow.exec (toolbarClosure evs) ?x] =>
        destruct (IH x) as (I1 & I2 & I3)
    end.
    split; [|split].
    + eapply controls_keepsControls_trans; [|exact I1].
      destruct s. unfold keepsControls. repeat split.
    + eapply controls_keepsCollapse_trans; [|exact I2].
      destruct s. unfold keepsCollapse. repeat split.
    + rewrite I3. destruct s. reflexivity.
Qed.

Lemma controls_onToolbarEffect (c : StyleEffect.M bool Callback unit)
    (s : t) :
  keepsControls s (Flow.exec (onToolbarEffect c) s)
  /\ keepsCollapse s (Flow.exec (onToolbarEffect c) s)
  /\ expanded_ (Flow.exec (onToolbarEffect c) s) = expanded_ s.
Proof.
  unfold onToolbarEffect. rewrite !flow_exec_bind.
  change (Flow.result Flow.get s) with s.
  change (Flow.exec Flow.get s) with s.
  match goal with
  | |- context [Flow.exec (toolbarClosure ?evs) ?x] =>
      destruct (controls_toolbarClosure evs x) as (I1 & I2 & I3)
  end.
  split; [|split].
  - eapply controls_keepsControls_trans; [|exact I1].
    destruct s. unfold keepsControls. repeat split.
  - eapply controls_keepsCollapse_trans; [|exact I2].
    destruct s. unfold keepsCollapse. repeat split.
  - rewrite I3. destruct s. reflexivity.
Qed.

(** The closure of the controls' effect: the class follows the last
    invocation that has run. *)
Lemma controls_controlsClosure
    (evs : list (StyleEffect.Event bool Callback)) (s : t) :
  let s' := Flow.exec (controlsClosure evs) s in
  keepsCollapse s s'
  /\ expanded_ s' = expanded_ s
  /\ controlsEffect_ s' = controlsEffect_ s
  /\ controlsVisible_ s' = controlsVisible_ s
  /\ controlsShown s'
     = fold_left (fun shown e =>
                    match e with
                    | StyleEffect.Invoked args _ => args
                    | StyleEffect.Deferred _ => shown
                    end) evs (controlsShown s).
Proof.
  revert s. induction evs as [|[args cb|cb] evs IH]; intros s.
  - cbn. unfold keepsCollapse. repeat split.
  - cbn [controlsClosure fold_left]. rewrite !flow_exec_bind.
    match goal with
    | |- context [Flow.exec (controlsClosure evs) ?x] =>
        pose proof (IH x) as IHx
    end.
    cbv zeta in IHx. destruct IHx as (I1 & I2 & I3 & I4 & I5).
    cbv zeta. rewrite I2, I3, I4, I5.
    split; [|destruct s; repeat split].
    eapply controls_keepsCollapse_trans; [|exact I1].
    destruct s. unfold keepsCollapse. repeat split.
  - cbn [controlsClosure fold_left]. rewrite !flow_exec_bind.
    match goal with
    | |- context [Flow.exec (controlsClosure evs) ?x] =>
        pose proof (IH x) as IHx
    end.
    cbv zeta in IHx. destruct IHx as (I1 & I2 & I3 & I4 & I5).
    cbv zeta. rewrite I2, I3, I4, I5.
    split; [|destruct s; repeat split].
    eapply controls_keepsCollapse_trans; [|exact I1].
    destruct s. unfold keepsCollapse. repeat split.
Qed.

Lemma controls_onControlsEffect (c : StyleEffect.M bool Callback unit)
    (s : t) :
  let s' := Flow.exec (onControlsEffect c) s in
  keepsCollapse s s'
  /\ expanded_ s' = expanded_ s
  /\ controlsEffect_ s' = Flow.exec c (controlsEffect_ s)
  /\ controlsVisible_ s' = controlsVisible_ s
  /\ controlsShown s'
     = fold_left (fun shown e =>
                    match e with
                    | StyleEffect.Invoked args _ => args
                    | StyleEffect.Deferred _ => shown
                    end) (Flow.trace c (controlsEffect_ s))
                 (controlsShown s).
Proof.
  unfold onControlsEffect. cbv zeta. rewrite !flow_exec_bind.
  change (Flow.result Flow.get s) with s.
  change (Flow.exec Flow.get s) with s.
  match goal with
  | |- context [Flow.exec (controlsClosure ?evs) ?x] =>
      pose proof (controls_controlsClosure evs x) as IH
  end.
  cbv zeta in IH. destruct IH as (I1 & I2 & I3 & I4 & I5).
  rewrite I2, I3, I4, I5.
  split; [|destruct s; repeat split].
  eapply controls_keepsCollapse_trans; [|exact I1].
  destruct s. unfold keepsCollapse. repeat split.
Qed.

(** [setExpanded_], phase by phase. *)
Lemma controls_setExpanded_eq (hovered expanded : bool) (s : t) :
  Flow.exec (setExpanded_ hovered expanded) s
  = let s2 := armed hovered expanded (cancelled s) in
    if expanded then
      if negb (expanded_ s)
      then Flow.exec
             (onToolbarEffect (StyleEffect.invoke true SetExpanded None)) s2
      else s2
    else
      if expanded_ s
      then Flow.exec
             (onToolbarEffect (StyleEffect.invoke false Noop None))
             (set_expanded_ false s2)
      else s2.
Proof.
  unfold setExpanded_, armed, cancelled.
  destruct s as [perf ex cv ct te ce tx cs df ctm n].
  unfold Flow.exec, Flow.bind, Flow.get, Flow.ret, Flow.modify.
  cbn [collapseTimer_ performanceTestTimer_ expanded_ collapseTimers
       nextTimerId set_collapseTimer_ set_collapseTimers set_expanded_
       fst snd].
  destruct ct as [id|], expanded, hovered, perf as [pid|], ex;
    cbn [negb andb isSet fst snd collapseTimer_ performanceTestTimer_
         expanded_ collapseTimers nextTimerId set_collapseTimer_
         set_collapseTimers set_expanded_];
    try reflexivity;
    match goal with
    | |- context [onToolbarEffect ?c ?x] =>
        destruct (onToolbarEffect c x) as [[u s'] e]; reflexivity
    end.
Qed.

Lemma controls_cancelled (s : t) :
  collapseSlot s ->
  collapseTimers (cancelled s) = []
  /\ collapseTimer_ (cancelled s) = None
  /\ nextTimerId (cancelled s) = nextTimerId s
  /\ performanceTestTimer_ (cancelled s) = performanceTestTimer_ s
  /\ expanded_ (cancelled s) = expanded_ s
  /\ keepsControls s (cancelled s).
Proof.
  intros [Hlen Hslot]. unfold cancelled, keepsControls.
  destruct (collapseTimer_ s) as [id|] eqn:Et.
  - destruct s as [perf ex cv ct te ce tx cs df ctm n]. cbn in *.
    assert (Hkept : filter (fun other => negb (Pos.eqb other id)) ctm = []).
    { clear Hlen. induction ctm as [|x ctm IHc]; [reflexivity|].
      cbn. assert (Hx : Some id = Some x) by (apply Hslot; left; reflexivity).
      injection Hx as <-. rewrite Pos.eqb_refl. cbn.
      apply IHc. intros y Hy. apply Hslot. right. exact Hy. }
    rewrite Hkept. repeat split.
  - destruct (collapseTimers s) as [|x l] eqn:El.
    + repeat split; assumption.
    + specialize (Hslot x (or_introl eq_refl)). discriminate.
Qed.

(** What a call of [setExpanded_] does to the collapse timer, and what
    it leaves alone. *)
Lemma controls_setExpanded (hovered expanded : bool) (s : t) :
  collapseSlot s ->
  let s' := Flow.exec (setExpanded_ hovered expanded) s in
  keepsControls s s'
  /\ collapseSlot s'
  /\ collapseTimers s'
     = (if expanded && negb hovered
           && negb (isSet (performanceTestTimer_ s))
        then [nextTimerId s] else []).
Proof.
  intros Hslot. cbv zeta. rewrite controls_setExpanded_eq. cbv zeta.
  destruct (controls_cancelled Hslot) as (C1 & C2 & C3 & C4 & C5 & C6).
  set (s1 := cancelled s) in *.
  assert (Harmed :
    keepsControls s (armed hovered expanded s1)
    /\ collapseSlot (armed hovered expanded s1)
    /\ collapseTimers (armed hovered expanded s1)
       = (if expanded && negb hovered
             && negb (isSet (performanceTestTimer_ s))
          then [nextTimerId s] else [])).
  { unfold armed. rewrite C4.
    destruct (expanded && negb hovered
              && negb (isSet (performanceTestTimer_ s))).
    - destruct s1 as [perf ex cv ct te ce tx cs df ctm n]. cbn in *.
      subst ctm ct n. unfold keepsControls, collapseSlot in *. cbn in *.
      split; [exact C6|]. split; [|reflexivity].
      split; [lia|]. intros id [<-|[]]. reflexivity.
    - split; [exact C6|]. split; [|exact C1].
      unfold collapseSlot. rewrite C1, C2. split; [cbn; lia|].
      intros id []. }
  destruct Harmed as (A1 & A2 & A3).
  set (s2 := armed hovered expanded s1) in *.
  assert (Hframe : forall (c : StyleEffect.M bool Callback unit) (x : t),
    keepsControls s x -> collapseSlot x ->
    collapseTimers x
    = (if expanded && negb hovered
          && negb (isSet (performanceTestTimer_ s))
       then [nextTimerId s] else []) ->
    keepsControls s (Flow.exec (onToolbarEffect c) x)
    /\ collapseSlot (Flow.exec (onToolbarEffect c) x)
    /\ collapseTimers (Flow.exec (onToolbarEffect c) x)
       = (if expanded && negb hovered
             && negb (isSet (performanceTestTimer_ s))
          then [nextTimerId s] else [])).
  { intros c x K1 K2 K3.
    destruct (controls_onToolbarEffect c x) as (F1 & (F2 & F3 & F4 & F5) & F6).
    split; [eapply controls_keepsControls_trans; eassumption|].
    split; [|congruence].
    unfold collapseSlot in *. rewrite F2, F3. exact K2. }
  destruct expanded.
  - destruct (negb (expanded_ s)); [|auto].
    apply Hframe; assumption.
  - destruct (expanded_ s); [|auto].
    apply Hframe.
    + eapply controls_keepsControls_trans; [exact A1|].
      destruct s2. unfold keepsControls. repeat split.
    + destruct s2. exact A2.
    + destruct s2. exact A3.
Qed.

(** What a call of [setControlsVisible_] does. *)
Lemma controls_setControlsVisible (visible : bool) (opt_delay : option Z)
    (s : t) :
  controlsAgree s ->
  let s' := Flow.exec (setControlsVisible_ visible opt_delay) s in
  controlsAgree s'
  /\ keepsCollapse s s'
  /\ expanded_ s' = expanded_ s
  /\ controlsVisible_ s' = visible.
Proof.
  intros [Hslot Hagree]. cbv zeta. unfold setControlsVisible_.
  rewrite flow_exec_bind.
  change (Flow.result Flow.get s) with s.
  change (Flow.exec Flow.get s) with s.
  destruct (Bool.eqb (controlsVisible_ s) visible) eqn:E.
  - apply Bool.eqb_prop in E. cbn.
    split; [split; assumption|].
    split; [unfold keepsCollapse; repeat split|]. split; [reflexivity|exact E].
  - rewrite flow_exec_bind.
    pose proof (controls_onControlsEffect
                  (StyleEffect.invoke visible Noop opt_delay) s) as Hc.
    cbv zeta in Hc. destruct Hc as (K & Hex & Hce & Hcv & Hcs).
    set (s1 := Flow.exec
                 (onControlsEffect
                    (StyleEffect.invoke visible Noop opt_delay)) s) in *.
    assert (Hslot1 : StyleEffect.singleSlot (controlsEffect_ s1)).
    { rewrite Hce.
      exact (@styleEffect_step_slot bool Callback
               (StyleEffect.Invoke visible Noop opt_delay)
               (controlsEffect_ s) Hslot). }
    assert (Hshape :
      match opt_delay with
      | Some ms =>
          StyleEffect.timers (controlsEffect_ s1)
          = [StyleEffect.mkTimer
               (StyleEffect.nextTimerId (controlsEffect_ s))
               visible Noop ms]
      | None =>
          StyleEffect.timers (controlsEffect_ s1) = []
          /\ controlsShown s1 = visible
      end).
    { rewrite Hce, Hcs. unfold Flow.exec, Flow.trace.
      rewrite styleEffect_invoke_eq. cbv zeta.
      rewrite (styleEffect_kept Hslot).
      destruct opt_delay; [reflexivity|split; reflexivity]. }
    unfold Flow.exec at 1, Flow.modify. cbn [fst snd].
    split; [|split; [|split]].
    + unfold controlsAgree.
      destruct s1 as [perf ex cv ct te ce tx cs df ctm n]. cbn in *.
      split; [exact Hslot1|].
      destruct opt_delay as [ms|].
      * rewrite Hshape. reflexivity.
      * destruct Hshape as [-> ->]. reflexivity.
    + destruct s1. exact K.
    + destruct s1. exact Hex.
    + destruct s1. reflexivity.
Qed.

Lemma controls_preserves_ret : preserves (Flow.ret tt).
Proof. intros s H. exact H. Qed.

Lemma controls_preserves_bind (c1 c2 : M unit) :
  preserves c1 -> preserves c2 -> preserves (c1 ;; c2).
Proof.
  intros H1 H2 s H. rewrite flow_exec_bind. apply H2, H1, H.
Qed.

Lemma controls_preserves_get (k : t -> M unit) :
  (forall x : t, preserves (k x)) -> preserves (x <- Flow.get ;; k x).
Proof.
  intros Hk s H. rewrite flow_exec_bind. apply Hk. exact H.
Qed.

Lemma controls_preserves_setExpanded (hovered expanded : bool) :
  preserves (setExpanded_ hovered expanded).
Proof.
  intros s [[Hslot Hagree] Hcollapse].
  destruct (controls_setExpanded hovered expanded Hcollapse)
    as ((K1 & K2 & K3 & K4) & Hc & _).
  split; [|exact Hc]. unfold controlsAgree. rewrite K1, K2, K3.
  split; assumption.
Qed.

Lemma controls_preserves_setControlsVisible (visible : bool)
    (opt_delay : option Z) :
  preserves (setControlsVisible_ visible opt_delay).
Proof.
  intros s [Hagree [Hlen Hslot]].
  destruct (controls_setControlsVisible visible opt_delay Hagree)
    as (Ha & (K1 & K2 & K3 & K4) & _).
  split; [exact Ha|]. unfold collapseSlot. rewrite K1, K2.
  split; assumption.
Qed.

Lemma controls_preserves_onToolbarEffect
    (c : StyleEffect.M bool Callback unit) :
  preserves (onToolbarEffect c).
Proof.
  intros s [[Hslot Hagree] [Hlen Hcollapse]].
  destruct (controls_onToolbarEffect c s)
    as ((K1 & K2 & K3 & K4) & (L1 & L2 & L3 & L4) & _).
  split.
  - unfold controlsAgree. rewrite K1, K2, K3. split; assumption.
  - unfold collapseSlot. rewrite L1, L2. split; assumption.
Qed.

Lemma controls_preserves_step (a : Action) : preserves (step a).
Proof.
  destruct a as [hovered|hovered distance|leftWindow
                |hovered ribbonFocused event
                |hovered mousedown onStaticArea|id| | |id|];
    cbn [step];
    unfold onFiltersToggleClicked_, onRibbonPullReleased_,
      onWindowMouseOut_, onWindowKeyDown_, onPointerActivity_,
      unlessTesting.
  - apply controls_preserves_get. intros x.
    destruct (isSet (performanceTestTimer_ x));
      [apply controls_preserves_ret|].
    apply controls_preserves_get. intros y.
    apply controls_preserves_setExpanded.
  - apply controls_preserves_get. intros x.
    destruct (isSet (performanceTestTimer_ x));
      [apply controls_preserves_ret|].
    apply controls_preserves_get. intros y.
    destruct (distance <? -50)%Z;
      [apply controls_preserves_setExpanded|].
    destruct (25 <? distance)%Z;
      [apply controls_preserves_setExpanded|apply controls_preserves_ret].
  - apply controls_preserves_get. intros x.
    destruct (isSet (performanceTestTimer_ x));
      [apply controls_preserves_ret|].
    destruct (negb leftWindow);
      [apply controls_preserves_ret
      |apply controls_preserves_setControlsVisible].
  - apply controls_preserves_get. intros x.
    destruct (isSet (performanceTestTimer_ x));
      [apply controls_preserves_ret|].
    destruct ribbonFocused.
    + apply controls_preserves_bind;
        [apply controls_preserves_setExpanded
        |apply controls_preserves_setControlsVisible].
    + destruct (existsb _ navigationKeys).
      * apply controls_preserves_bind;
          apply controls_preserves_setControlsVisible.
      * apply controls_preserves_setControlsVisible.
  - apply controls_preserves_get. intros x.
    destruct (isSet (performanceTestTimer_ x));
      [apply controls_preserves_ret|].
    apply controls_preserves_bind;
      [apply controls_preserves_setControlsVisible|].
    apply controls_preserves_get. intros y.
    destruct (mousedown && onStaticArea);
      [apply controls_preserves_setExpanded|].
    destruct (expanded_ y);
      [apply controls_preserves_setExpanded|apply controls_preserves_ret].
  - apply controls_preserves_get. intros x.
    destruct (existsb (Pos.eqb id) (collapseTimers x));
      [|apply controls_preserves_ret].
    apply controls_preserves_bind;
      [|apply controls_preserves_setExpanded].
    intros s [[Hslot Hagree] [Hlen Hcollapse]].
    destruct s as [perf ex cv ct te ce tx cs df ctm n].
    unfold Flow.exec, Flow.modify. cbn in *.
    split; [split; assumption|].
    unfold collapseSlot. cbn. split.
    + pose proof (filter_length_le
                    (fun other => negb (Pos.eqb other id)) ctm). lia.
    + intros y Hy. apply filter_In in Hy. apply Hcollapse, Hy.
  - apply controls_preserves_onToolbarEffect.
  - intros s [[Hslot Hagree] [Hlen Hcollapse]].
    pose proof (controls_onControlsEffect StyleEffect.completion s) as Hc.
    cbv zeta in Hc. destruct Hc as ((L1 & L2 & L3 & L4) & Hex & Hce & Hcv & Hcs).
    split.
    + unfold controlsAgree. rewrite Hce, Hcv, Hcs.
      unfold Flow.exec, Flow.trace. rewrite styleEffect_completion_eq.
      destruct (StyleEffect.callback_ (controlsEffect_ s));
        cbn; split; assumption.
    + unfold collapseSlot. rewrite L1, L2. split; assumption.
  - intros s [[Hslot Hagree] [Hlen Hcollapse]].
    pose proof (controls_onControlsEffect (StyleEffect.fire id) s) as Hc.
    cbv zeta in Hc. destruct Hc as ((L1 & L2 & L3 & L4) & Hex & Hce & Hcv & Hcs).
    split.
    + unfold controlsAgree. rewrite Hce, Hcv, Hcs.
      pose proof (@styleEffect_step_slot bool Callback
                    (StyleEffect.TimerFired id) (controlsEffect_ s) Hslot)
        as Hslot'.
      cbn [StyleEffect.step] in Hslot'.
      split; [exact Hslot'|].
      unfold Flow.exec, Flow.trace in *.
      rewrite styleEffect_fire_eq in *.
      destruct (find _ (StyleEffect.timers (controlsEffect_ s)))
        as [tm|] eqn:Ef.
      * cbn in *. destruct Hslot as [Hl Hs].
        destruct (StyleEffect.timers (controlsEffect_ s)) as [|tm0 l] eqn:Et;
          [discriminate|].
        assert (l = []) by (destruct l; [reflexivity|cbn in Hl; lia]).
        subst l. cbn in Ef.
        destruct (Pos.eqb (StyleEffect.timerId tm0) id) eqn:Eid;
          [|discriminate].
        injection Ef as <-. cbn. rewrite Eid. cbn. exact Hagree.
      * cbn. exact Hagree.
    + unfold collapseSlot. rewrite L1, L2. split; assumption.
  - intros s [[Hslot Hagree] [Hlen Hcollapse]].
    destruct s as [perf ex cv ct te ce tx cs df ctm n].
    unfold Flow.exec, Flow.bind, Flow.get, Flow.modify, Flow.ret.
    cbn in *. destruct df as [|[|] df]; cbn;
      (split; [split; assumption|split; assumption]).
Qed.

Lemma controls_preserves_steps (acts : list Action) : preserves (steps acts).
Proof.
  induction acts as [|a acts IH].
  - apply controls_preserves_ret.
  - cbn [steps]. apply controls_preserves_bind;
      [apply controls_preserves_step|exact IH].
Qed.

Lemma controls_create_invariant (perf : option positive) :
  invariant (create perf).
Proof.
  split.
  - split; [split; [cbn; lia|intros tm []]|reflexivity].
  - split; [cbn; lia|intros id []].
Qed.

Lemma controls_shown_app (l1 l2 : list Event) :
  shown (l1 ++ l2) = shown l1 ++ shown l2.
Proof.
  induction l1 as [|[] l1 IH]; cbn; rewrite ?IH; reflexivity.
Qed.

Lemma controls_toolbarClosure_shown
    (evs : list (StyleEffect.Event bool Callback)) (s : t) :
  shown (Flow.trace (toolbarClosure evs) s) = [].
Proof.
  revert s. induction evs as [|[args cb|cb] evs IH]; intros s.
  - reflexivity.
  - cbn [toolbarClosure]. rewrite !flow_trace_bind, !controls_shown_app.
    rewrite IH. reflexivity.
  - cbn [toolbarClosure]. rewrite !flow_trace_bind, !controls_shown_app.
    rewrite IH. reflexivity.
Qed.

Lemma controls_quiet_bind (A B : Type) (c : M A) (k : A -> M B) :
  quiet c -> (forall x : A, quiet (k x)) -> quiet (x <- c ;; k x).
Proof.
  intros Hc Hk s. rewrite flow_trace_bind, controls_shown_app, Hc, Hk.
  reflexivity.
Qed.

Lemma controls_quiet_get : quiet (@Flow.get t Event).
Proof. intros s. reflexivity. Qed.

Lemma controls_quiet_ret (A : Type) (x : A) : quiet (Flow.ret x).
Proof. intros s. reflexivity. Qed.

Lemma controls_quiet_modify (f : t -> t) : quiet (Flow.modify f).
Proof. intros s. reflexivity. Qed.

Lemma controls_quiet_onToolbarEffect
    (c : StyleEffect.M bool Callback unit) :
  quiet (onToolbarEffect c).
Proof.
  unfold onToolbarEffect.
  apply controls_quiet_bind; [apply controls_quiet_get|]. intros x.
  apply controls_quiet_bind; [apply controls_quiet_modify|]. intros _.
  intros s. apply controls_toolbarClosure_shown.
Qed.

Lemma controls_setExpanded_shown (hovered expanded : bool) (s : t) :
  shown (Flow.trace (setExpanded_ hovered expanded) s) = []
  /\ controlsVisible_ (Flow.exec (setExpanded_ hovered expanded) s)
     = controlsVisible_ s.
Proof.
  split.
  - revert s. change (quiet (setExpanded_ hovered expanded)).
    unfold setExpanded_.
    apply controls_quiet_bind; [apply controls_quiet_get|]. intros x.
    apply controls_quiet_bind.
    { destruct (collapseTimer_ x); [|apply controls_quiet_ret].
      apply controls_quiet_bind; [apply controls_quiet_modify|]. intros _.
      apply controls_quiet_modify. }
    intros _.
    apply controls_quiet_bind; [apply controls_quiet_get|]. intros y.
    destruct expanded.
    + apply controls_quiet_bind.
      { destruct (negb hovered && negb (isSet (performanceTestTimer_ y)));
          [|apply controls_quiet_ret].
        apply controls_quiet_bind; [apply controls_quiet_modify|].
        intros _. apply controls_quiet_modify. }
      intros _. destruct (negb (expanded_ y));
        [apply controls_quiet_onToolbarEffect|apply controls_quiet_ret].
    + destruct (expanded_ y); [|apply controls_quiet_ret].
      apply controls_quiet_bind; [apply controls_quiet_modify|]. intros _.
      apply controls_quiet_onToolbarEffect.
  - rewrite controls_setExpanded_eq. cbv zeta.
    assert (Hs2 : controlsVisible_ (armed hovered expanded (cancelled s))
                  = controlsVisible_ s).
    { unfold armed, cancelled.
      destruct (collapseTimer_ s),
        (expanded && negb hovered
         && negb (isSet (performanceTestTimer_ _)));
        destruct s; reflexivity. }
    destruct expanded.
    + destruct (negb (expanded_ s)); [|exact Hs2].
      destruct (controls_onToolbarEffect
                  (StyleEffect.invoke true SetExpanded None)
                  (armed hovered true (cancelled s)))
        as ((K1 & K2 & K3 & K4) & _).
      rewrite K3. exact Hs2.
    + destruct (expanded_ s); [|exact Hs2].
      destruct (controls_onToolbarEffect
                  (StyleEffect.invoke false Noop None)
                  (set_expanded_ false (armed hovered false (cancelled s))))
        as ((K1 & K2 & K3 & K4) & _).
      rewrite K3. rewrite <- Hs2.
      destruct (armed hovered false (cancelled s)). reflexivity.
Qed.

(** A call of [setControlsVisible_] without delay: the class changes
    when the flag does. *)
Lemma controls_setControlsVisible_now (visible : bool) (s : t) :
  shown (Flow.trace (setControlsVisible_ visible None) s)
  = (if Bool.eqb (controlsVisible_ s) visible then [] else [visible])
  /\ controlsVisible_ (Flow.exec (setControlsVisible_ visible None) s)
     = visible.
Proof.
  unfold setControlsVisible_.
  rewrite flow_trace_bind, flow_exec_bind.
  change (Flow.result Flow.get s) with s.
  change (Flow.exec Flow.get s) with s.
  change (Flow.trace Flow.get s) with (@nil Event). cbn [app].
  destruct (Bool.eqb (controlsVisible_ s) visible) eqn:E.
  - apply Bool.eqb_prop in E. split; [reflexivity|exact E].
  - rewrite flow_trace_bind, flow_exec_bind. split.
    + rewrite controls_shown_app. cbn [shown app].
      rewrite app_nil_r.
      unfold onControlsEffect.
      rewrite !flow_trace_bind.
      change (Flow.trace Flow.get s) with (@nil Event). cbn [app].
      change (Flow.result Flow.get s) with s.
      change (Flow.exec Flow.get s) with s.
      unfold Flow.trace at 3. rewrite styleEffect_invoke_eq. cbn.
      reflexivity.
    + unfold Flow.exec at 1, Flow.modify.
      destruct (Flow.exec _ s). reflexivity.
Qed.

End ControlsFacts.

(** X19.  A key pressed in the window leaves the window controls shown.
    Outside a performance test, whatever key is pressed and whatever is
    focused, [controlsVisible_] is true after [onWindowKeyDown_].  A
    navigation key (the arrows, space, Home, End) pressed while the
    ribbon is not focused hides the controls first, the [switch] falling
    through from its case to the default: when they were shown, their
    class is removed and added again at once. *)
Theorem Controls_key_down_shows_controls (s : Controls.t)
    (hovered ribbonFocused : bool) (event : Keyboard.KeyboardEvent) :
  Controls.performanceTestTimer_ s = None ->
  let handler := Controls.onWindowKeyDown_ hovered ribbonFocused event in
  Controls.controlsVisible_ (Flow.exec handler s) = true
  /\ Controls.shown (Flow.trace handler s)
     = if Controls.controlsVisible_ s then
         if negb ribbonFocused
            && existsb (String.eqb (Keyboard.getShortcutIdentifier event))
                       Controls.navigationKeys
         then [false; true] else []
       else [true].
Proof.
  intros Hperf handler. subst handler.
  unfold Controls.onWindowKeyDown_, Controls.unlessTesting.
  rewrite flow_exec_bind, flow_trace_bind.
  change (Flow.result Flow.get s) with s.
  change (Flow.exec Flow.get s) with s.
  change (Flow.trace Flow.get s) with (@nil Controls.Event). cbn [app].
  rewrite Hperf. cbn [Controls.isSet].
  destruct ribbonFocused; cbn [negb andb].
  - rewrite flow_exec_bind, flow_trace_bind, controls_shown_app.
    destruct (controls_setExpanded_shown hovered true s) as [E1 E2].
    rewrite E1. cbn [app].
    set (s1 := Flow.exec (Controls.setExpanded_ hovered true) s) in *.
    destruct (controls_setControlsVisible_now true s1) as [V1 V2].
    split; [exact V2|]. rewrite V1, E2.
    destruct (Controls.controlsVisible_ s); reflexivity.
  - destruct (existsb _ Controls.navigationKeys).
    + rewrite flow_exec_bind, flow_trace_bind, controls_shown_app.
      destruct (controls_setControlsVisible_now false s) as [H1 H2].
      set (s1 := Flow.exec (Controls.setControlsVisible_ false None) s)
        in *.
      destruct (controls_setControlsVisible_now true s1) as [V1 V2].
      split; [exact V2|]. rewrite H1, V1, H2.
      destruct (Controls.controlsVisible_ s); reflexivity.
    + destruct (controls_setControlsVisible_now true s) as [V1 V2].
      split; [exact V2|]. rewrite V1.
      destruct (Controls.controlsVisible_ s); reflexivity.
Qed.

Lemma Controls_key_down_shows_controls_witness :
  Controls.shown
    (Flow.trace
       (Controls.onWindowKeyDown_ false false
          (Keyboard.mkEvent false false false false None
             (Some "ArrowLeft"%string)))
       (Controls.create None))
  = [false; true].
Proof.
  exact (proj2 (@Controls_key_down_shows_controls
                  (Controls.create None) false false
                  (Keyboard.mkEvent false false false false None
                     (Some "ArrowLeft"%string))
                  eq_refl)).
Defined.

(** X20.  The page and the view agree on the window controls.  Whatever
    clicks, keys, pointer moves, timers and ends of transitions follow
    one another, the class [controls-visible] of the page is the one
    [controlsVisible_] tells as soon as no delayed invocation of the
    controls' effect is pending, and while one is pending it is for the
    state [controlsVisible_] tells: showing the controls again cancels
    the hiding that leaving the window has scheduled. *)
Theorem Controls_page_follows_the_flag (acts : list Controls.Action)
    (performanceTestTimer : option positive) :
  Controls.controlsAgree
    (Flow.exec (Controls.steps acts)
       (Controls.create performanceTestTimer)).
Proof.
  apply (@controls_preserves_steps acts).
  apply controls_create_invariant.
Qed.

(** X21.  The collapse timer is a single slot that every call of
    [setExpanded_] resets.  At any time at most one collapse timer is
    pending and it is the one [collapseTimer_] holds; after
    [setExpanded_(false)] none is pending, and after [setExpanded_(true)]
    the only one pending is the one just set, for 3000 ms from now,
    unless the toolbar is hovered or a performance test runs, when there
    is none either. *)
Theorem Controls_single_collapse_timer (acts : list Controls.Action)
    (performanceTestTimer : option positive) (hovered expanded : bool) :
  let s :=
    Flow.exec (Controls.steps acts)
      (Controls.create performanceTestTimer) in
  Controls.collapseSlot s
  /\ Controls.collapseTimers
       (Flow.exec (Controls.setExpanded_ hovered expanded) s)
     = if expanded && negb hovered
          && negb (Controls.isSet (Controls.performanceTestTimer_ s))
       then [Controls.nextTimerId s] else [].
Proof.
  intros s.
  assert (Hinv : Controls.invariant s).
  { apply (@controls_preserves_steps acts).
    apply controls_create_invariant. }
  destruct Hinv as [_ Hslot].
  split; [exact Hslot|].
  exact (proj2 (proj2 (controls_setExpanded hovered expanded Hslot))).
Qed.

(** ** Taking pictures: the count-down, the multi-shot and the captures *)

Section ShutterFacts.
Import Shutter.
Local Open Scope flow_scope.
Local Open Scope Z_scope.

Ltac sflow :=
  unfold fire, onTimerTick, takePicture, takePictureImmediately_, blink,
    capture, resetTakePicture_, takePicture_, setTimeout, clearTimeout,
    Flow.exec, Flow.trace, Flow.result,
    Flow.bind, Flow.ret, Flow.get, Flow.modify, Flow.emit.

(** *** Lists of timers *)

Lemma shutter_cleared_filter (f : Timer -> bool) (slot : option positive)
    (l : list Timer) :
  filter f (cleared slot l) = cleared slot (filter f l).
Proof.
  destruct slot as [id|]; [|reflexivity]. cbn [cleared].
  induction l as [|tm l IH]; [reflexivity|]. cbn [filter].
  destruct (negb (Pos.eqb (timerId tm) id)) eqn:E1, (f tm) eqn:E2;
    cbn [filter]; rewrite ?E1, ?E2, IH; reflexivity.
Qed.

Lemma shutter_cleared_fresh (slot : option positive) (l : list Timer) :
  Forall (fun tm => slot <> Some (timerId tm)) l -> cleared slot l = l.
Proof.
  destruct slot as [id|]; [|reflexivity]. cbn [cleared].
  induction 1 as [|tm l Hne _ IH]; [reflexivity|]. cbn [filter].
  destruct (Pos.eqb_spec (timerId tm) id) as [E|_]; cbn [negb].
  - exfalso. apply Hne. rewrite E. reflexivity.
  - rewrite IH. reflexivity.
Qed.

Lemma shutter_cleared_incl (slot : option positive) (l : list Timer)
    (tm : Timer) :
  In tm (cleared slot l) -> In tm l.
Proof.
  destruct slot as [id|]; [|auto]. cbn [cleared]. intros H.
  apply filter_In in H. tauto.
Qed.

Lemma shutter_cleared_single (id : positive) (c : Callback)
    (slot : option positive) :
  cleared (Some id) (cleared slot [mkTimer id c]) = [].
Proof.
  destruct slot as [id'|]; cbn [cleared filter timerId].
  - destruct (negb (Pos.eqb id id')); cbn [filter timerId];
      rewrite ?Pos.eqb_refl; reflexivity.
  - rewrite Pos.eqb_refl. reflexivity.
Qed.

Lemma shutter_cleared_nil (slot : option positive) :
  cleared slot [] = [].
Proof. destruct slot; reflexivity. Qed.

Lemma shutter_without_incl (id : positive) (l : list Timer) (tm : Timer) :
  In tm (without id l) -> In tm l.
Proof.
  induction l as [|tm0 l IH]; [auto|]. cbn [without].
  destruct (Pos.eqb (timerId tm0) id); cbn [In]; tauto.
Qed.

(** The timer the host fires, among the pending ones: the others stay. *)
Lemma shutter_without_other (f : Timer -> bool) (id : positive)
    (l : list Timer) (tm : Timer) :
  find (fun tm => Pos.eqb (timerId tm) id) l = Some tm ->
  f tm = false ->
  filter f (without id l) = filter f l.
Proof.
  induction l as [|tm0 l IH]; [discriminate|].
  cbn [find without]. destruct (Pos.eqb (timerId tm0) id) eqn:E.
  - intros [= ->] Hf. cbn [filter]. rewrite Hf. reflexivity.
  - intros Hfind Hf. cbn [filter]. rewrite (IH Hfind Hf). reflexivity.
Qed.

Lemma shutter_without_same (f : Timer -> bool) (id : positive)
    (l : list Timer) (tm : Timer) :
  find (fun tm => Pos.eqb (timerId tm) id) l = Some tm ->
  f tm = true ->
  In tm (filter f l)
  /\ S (List.length (filter f (without id l))) = List.length (filter f l).
Proof.
  induction l as [|tm0 l IH]; [discriminate|].
  cbn [find without]. destruct (Pos.eqb (timerId tm0) id) eqn:E.
  - intros [= ->] Hf. cbn [filter]. rewrite Hf. split; [left|]; reflexivity.
  - intros Hfind Hf. destruct (IH Hfind Hf) as [Hin Hlen].
    cbn [filter]. destruct (f tm0); cbn [List.length In]; [|tauto].
    split; [tauto|]. rewrite Hlen. reflexivity.
Qed.

(** *** Counting the calls *)

Lemma shutter_counts_app (l1 l2 : list Event) :
  sounds (l1 ++ l2) = sounds l1 + sounds l2
  /\ released (l1 ++ l2) = released l1 + released l2
  /\ taken (l1 ++ l2) = taken l1 + taken l2.
Proof.
  unfold sounds, released, taken. rewrite !filter_app, !length_app. lia.
Qed.

Lemma shutter_counts (te me : bool) :
  0 <= seconds te /\ 0 < pictures me.
Proof.
  unfold seconds, pictures. destruct te, me; lia.
Qed.

Lemma shutter_all_ticks (evs : list Event) :
  forallb isTickSound evs = true ->
  released evs = 0 /\ taken evs = 0 /\ ticksFirst evs = true.
Proof.
  induction evs as [|e evs IH]; [repeat split|].
  cbn [forallb]. intros H. apply andb_true_iff in H. destruct H as [He H].
  destruct e; try discriminate He. destruct (IH H) as (R & T & F).
  unfold released, taken in *. cbn [filter ticksFirst]. tauto.
Qed.

Lemma shutter_all_ticks_app (evs l : list Event) :
  forallb isTickSound evs = true ->
  ticksFirst l = true -> ticksFirst (evs ++ l) = true.
Proof.
  induction evs as [|e evs IH]; [auto|].
  cbn [forallb]. intros H Hl. apply andb_true_iff in H. destruct H as [He H].
  destruct e; try discriminate He. cbn [app ticksFirst]. auto.
Qed.

Lemma shutter_ticksFirst_app (evs l : list Event) :
  ticksFirst evs = true ->
  forallb (fun e => negb (isTickSound e)) l = true ->
  ticksFirst (evs ++ l) = true.
Proof.
  intros He Hl. induction evs as [|e evs IH].
  - destruct l as [|e l]; [reflexivity|]. cbn [forallb] in Hl.
    apply andb_true_iff in Hl. destruct Hl as [H1 H2].
    destruct e; try discriminate H1; exact H2.
  - destruct e; cbn [app ticksFirst] in *;
      [apply IH; exact He| |];
      rewrite forallb_app, He, Hl; reflexivity.
Qed.

(** *** The functions, written out *)

Lemma shutter_immediate_eq (s : t) :
  running_ s = true ->
  takePictureImmediately_ s
  = (tt,
     set_timers (timers s ++ [mkTimer (nextTimerId s) Capture])
       (Pos.succ (nextTimerId s)) s,
     [ShutterSound]).
Proof.
  intros Hr. sflow. rewrite Hr. reflexivity.
Qed.

Lemma shutter_reset_eq (s : t) :
  resetTakePicture_ s
  = (tt,
     mk (running_ s) (model_ s) None None (tickCounter s)
        (multiShotCounter s) false false
        (cleared (multiShotInterval_ s)
           (cleared (takePictureTimer_ s) (timers s)))
        (nextTimerId s),
     []).
Proof.
  destruct s as [r m tpt msi tc mc d an tms n].
  destruct tpt as [id1|], msi as [id2|]; reflexivity.
Qed.

Lemma shutter_takePicture_eq (s : t) :
  running_ s = true ->
  takePicture s
  = let n := nextTimerId s in
    let tms := timers s ++ [mkTimer n Capture] in
    (tt,
     if Z.eqb (multiShotCounter s - 1) 0 then
       mk (running_ s) (model_ s) None None (tickCounter s)
          (multiShotCounter s - 1) false false
          (cleared (multiShotInterval_ s)
             (cleared (takePictureTimer_ s) tms))
          (Pos.succ n)
     else
       mk (running_ s) (model_ s) (takePictureTimer_ s)
          (multiShotInterval_ s) (tickCounter s) (multiShotCounter s - 1)
          (disabled s) (animate s) tms (Pos.succ n),
     [ShutterSound]).
Proof.
  intros Hr. unfold takePicture.
  unfold Flow.bind at 1. rewrite (shutter_immediate_eq s Hr).
  unfold Flow.bind at 1, Flow.modify. unfold Flow.bind at 1, Flow.get.
  cbn [multiShotCounter set_multiShotCounter set_timers fst snd].
  destruct (Z.eqb (multiShotCounter s - 1) 0).
  - rewrite shutter_reset_eq. destruct s. reflexivity.
  - destruct s. reflexivity.
Qed.

Lemma shutter_onTimerTick_eq (s : t) :
  running_ s = true ->
  onTimerTick s
  = let n := nextTimerId s in
    if Z.eqb (tickCounter s - 1) 0 then
      let tms := timers s ++ [mkTimer n Capture] in
      (tt,
       if Z.eqb (multiShotCounter s - 1) 0 then
         mk (running_ s) (model_ s) None None (tickCounter s - 1)
            (multiShotCounter s - 1) false false
            (cleared (multiShotInterval_ s)
               (cleared (takePictureTimer_ s) tms))
            (Pos.succ n)
       else
         mk (running_ s) (model_ s) (takePictureTimer_ s)
            (Some (Pos.succ n)) (tickCounter s - 1)
            (multiShotCounter s - 1) (disabled s) (animate s)
            (tms ++ [mkTimer (Pos.succ n) TakePicture])
            (Pos.succ (Pos.succ n)),
       [ShutterSound])
    else
      (tt,
       mk (running_ s) (model_ s) (Some n) (multiShotInterval_ s)
          (tickCounter s - 1) (multiShotCounter s) (disabled s) true
          (timers s ++ [mkTimer n OnTimerTick; mkTimer (Pos.succ n) Blink])
          (Pos.succ (Pos.succ n)),
       [TickSound]).
Proof.
  intros Hr. unfold onTimerTick.
  unfold Flow.bind at 1, Flow.modify. unfold Flow.bind at 1, Flow.get.
  cbn [tickCounter set_tickCounter fst snd].
  destruct (Z.eqb (tickCounter s - 1) 0).
  - unfold Flow.bind at 1.
    rewrite shutter_takePicture_eq by (destruct s; exact Hr).
    cbv zeta. destruct s as [r m tpt msi tc mc d an tms n].
    cbn [multiShotCounter set_tickCounter running_ model_ takePictureTimer_
         multiShotInterval_ tickCounter disabled animate timers nextTimerId
         fst snd].
    destruct (Z.eqb (mc - 1) 0) eqn:E; sflow;
      cbn [multiShotCounter fst snd]; rewrite E; cbn;
      rewrite <- ?app_assoc; reflexivity.
  - destruct s as [r m tpt msi tc mc d an tms n]. sflow. cbn.
    rewrite <- ?app_assoc. reflexivity.
Qed.

Lemma shutter_fire_eq (id : positive) (s : t) :
  fire id s
  = match find (fun tm => Pos.eqb (timerId tm) id) (timers s) with
    | None => (tt, s, [])
    | Some tm =>
        match callback tm with
        | OnTimerTick =>
            onTimerTick
              (set_timers (without id (timers s)) (nextTimerId s) s)
        | Blink =>
            blink (set_timers (without id (timers s)) (nextTimerId s) s)
        | TakePicture => takePicture s
        | Capture =>
            (tt, set_timers (without id (timers s)) (nextTimerId s) s,
             [Picture])
        end
    end.
Proof.
  unfold fire, Flow.bind at 1, Flow.get. cbn [fst snd].
  destruct (find _ (timers s)) as [tm|]; [|reflexivity].
  destruct (callback tm).
  - unfold Flow.bind at 1, Flow.modify.
    destruct (onTimerTick _) as [[u s'] e]. reflexivity.
  - unfold Flow.bind at 1, Flow.modify.
    destruct (blink _) as [[u s'] e]. reflexivity.
  - destruct (takePicture s) as [[u s'] e]. reflexivity.
  - reflexivity.
Qed.

Lemma shutter_blink_eq (s : t) :
  blink s
  = (tt,
     match takePictureTimer_ s with
     | Some _ => set_animate false s
     | None => s
     end, []).
Proof.
  unfold blink, Flow.bind, Flow.get, Flow.modify, Flow.ret. cbn.
  destruct (takePictureTimer_ s); reflexivity.
Qed.

(** *** Identifiers are handed out once *)

Lemma shutter_ids_without (tpt msi : option positive) (l : list Timer)
    (n id : positive) :
  uniqueIds tpt msi l n -> uniqueIds tpt msi (without id l) n.
Proof.
  intros (H1 & H2 & H3 & H4). repeat split; try assumption.
  - rewrite Forall_forall in *. intros tm Hin. apply H1.
    eapply shutter_without_incl. exact Hin.
  - rewrite Forall_forall in *. intros tm Hin. apply H4.
    apply filter_In in Hin. destruct Hin as [Hin Hc].
    apply filter_In. split; [|exact Hc].
    eapply shutter_without_incl. exact Hin.
Qed.

Lemma shutter_ids_reset (tpt msi a b : option positive) (l : list Timer)
    (n : positive) :
  uniqueIds tpt msi l n -> uniqueIds None None (cleared a (cleared b l)) n.
Proof.
  intros (H1 & H2 & H3 & H4). repeat split; try exact I.
  - rewrite Forall_forall in *. intros tm Hin. apply H1.
    eapply shutter_cleared_incl, shutter_cleared_incl. exact Hin.
  - apply Forall_forall. intros tm _. split; discriminate.
Qed.

Lemma shutter_handedOut_succ (slot : option positive) (n : positive) :
  handedOut slot n -> handedOut slot (Pos.succ n).
Proof.
  destruct slot as [id|]; cbn; [lia|auto].
Qed.

Lemma shutter_ids_push (tpt msi : option positive) (l : list Timer)
    (n : positive) (c : Callback) :
  uniqueIds tpt msi l n ->
  uniqueIds tpt msi (l ++ [mkTimer n c]) (Pos.succ n).
Proof.
  intros (H1 & H2 & H3 & H4). repeat split.
  - apply Forall_app. split.
    + eapply Forall_impl; [|exact H1]. cbn. intros tm Hlt. lia.
    + constructor; [cbn; lia|constructor].
  - apply shutter_handedOut_succ. exact H2.
  - apply shutter_handedOut_succ. exact H3.
  - rewrite filter_app. apply Forall_app. split; [exact H4|].
    cbn [filter]. destruct (isCapture (mkTimer n c)); [|constructor].
    constructor; [|constructor]. cbn [timerId].
    split; intros E; [rewrite E in H2|rewrite E in H3]; cbn in *; lia.
Qed.

Lemma shutter_ids_low (tpt msi : option positive) (l : list Timer)
    (n : positive) :
  uniqueIds tpt msi l n ->
  Forall (fun tm => (timerId tm < n)%positive) (filter isCapture l).
Proof.
  intros (H1 & _). rewrite Forall_forall in *. intros tm Hin.
  apply H1. apply filter_In in Hin. tauto.
Qed.

(** The slot of the count-down takes the identifier of a timer that is
    not a capture. *)
Lemma shutter_ids_tick (tpt msi : option positive) (l : list Timer)
    (n id : positive) :
  uniqueIds tpt msi l n -> (id < n)%positive ->
  Forall (fun tm => id <> timerId tm) (filter isCapture l) ->
  uniqueIds (Some id) msi l n.
Proof.
  intros (H1 & H2 & H3 & H4) Hid Hne. repeat split; try assumption.
  rewrite Forall_forall in *. intros tm Hin. split.
  - intros [= E]. exact (Hne tm Hin E).
  - apply (H4 tm Hin).
Qed.

Lemma shutter_ids_interval (tpt msi : option positive) (l : list Timer)
    (n id : positive) :
  uniqueIds tpt msi l n -> (id < n)%positive ->
  Forall (fun tm => id <> timerId tm) (filter isCapture l) ->
  uniqueIds tpt (Some id) l n.
Proof.
  intros (H1 & H2 & H3 & H4) Hid Hne. repeat split; try assumption.
  rewrite Forall_forall in *. intros tm Hin. split.
  - apply (H4 tm Hin).
  - intros [= E]. exact (Hne tm Hin E).
Qed.

(** The captures a reset leaves pending: all of them. *)
Lemma shutter_ids_captures (tpt msi : option positive) (l : list Timer)
    (n : positive) :
  uniqueIds tpt msi l n ->
  filter isCapture (cleared msi (cleared tpt l)) = filter isCapture l.
Proof.
  intros (_ & _ & _ & H4).
  rewrite !shutter_cleared_filter.
  rewrite (@shutter_cleared_fresh tpt).
  - apply shutter_cleared_fresh.
    eapply Forall_impl; [|exact H4]. cbn. tauto.
  - eapply Forall_impl; [|exact H4]. cbn. tauto.
Qed.

(** *** One firing *)

Lemma shutter_after_tick (evs : list Event) :
  sounds (evs ++ [TickSound]) = sounds evs + 1
  /\ released (evs ++ [TickSound]) = released evs
  /\ taken (evs ++ [TickSound]) = taken evs.
Proof.
  destruct (shutter_counts_app evs [TickSound]) as (-> & -> & ->).
  unfold sounds, released, taken. cbn [filter isTickSound List.length].
  lia.
Qed.

Lemma shutter_after_release (evs : list Event) :
  sounds (evs ++ [ShutterSound]) = sounds evs
  /\ released (evs ++ [ShutterSound]) = released evs + 1
  /\ taken (evs ++ [ShutterSound]) = taken evs.
Proof.
  destruct (shutter_counts_app evs [ShutterSound]) as (-> & -> & ->).
  unfold sounds, released, taken. cbn [filter isTickSound List.length].
  lia.
Qed.

Lemma shutter_after_picture (evs : list Event) :
  sounds (evs ++ [Picture]) = sounds evs
  /\ released (evs ++ [Picture]) = released evs
  /\ taken (evs ++ [Picture]) = taken evs + 1.
Proof.
  destruct (shutter_counts_app evs [Picture]) as (-> & -> & ->).
  unfold sounds, released, taken. cbn [filter isTickSound List.length].
  lia.
Qed.

Lemma shutter_fire (timerEnabled multiEnabled : bool) (id : positive)
    (evs : list Event) (s : t) :
  standing timerEnabled multiEnabled evs s ->
  standing timerEnabled multiEnabled
    (evs ++ Flow.trace (fire id) s) (Flow.exec (fire id) s).
Proof.
  intros (Hrun & Hwf & Hcount & Hst).
  destruct s as [r m tpt msi tc mc d an tms n]. cbn in Hrun. subst r.
  unfold standing, wellFormed, countdown, captures in *.
  cbn [timers takePictureTimer_ multiShotInterval_ tickCounter
       multiShotCounter disabled running_ nextTimerId] in Hwf, Hcount, Hst.
  unfold Flow.exec, Flow.trace. rewrite shutter_fire_eq.
  cbn [timers nextTimerId].
  destruct (find (fun tm => Pos.eqb (timerId tm) id) tms) as [tm|] eqn:Ef.
  2:{ cbn [fst snd timers takePictureTimer_ multiShotInterval_ tickCounter
           multiShotCounter disabled running_ nextTimerId].
      rewrite app_nil_r. tauto. }
  pose proof (shutter_counts timerEnabled multiEnabled) as [Hsec Hpic].
  pose proof (shutter_ids_without id Hwf) as Hwf'.
  destruct tm as [id0 cb]. cbn [callback]. destruct cb.
  - (* a tick of the count-down *)
    destruct (shutter_without_same isCountdown id tms Ef eq_refl)
      as [Hin Hlen].
    pose proof (shutter_without_other isCapture id tms Ef eq_refl) as Hcap.
    destruct Hst as [(id1 & Hp & Ht & Hpos & Hsum & Hmc & Hticks & Hd)
                    |[(id1 & Hp & _)|(Hp & _)]].
    2:{ rewrite Hp in Hin. destruct Hin as [Hin|[]]. discriminate Hin. }
    2:{ rewrite Hp in Hin. destruct Hin. }
    rewrite Hp in Hlen. cbn [List.length] in Hlen.
    assert (Hnone : filter isCountdown (without id tms) = []).
    { apply length_zero_iff_nil. lia. }
    destruct (shutter_all_ticks evs Hticks) as (Hrel & Htak & Hfirst).
    rewrite shutter_onTimerTick_eq by reflexivity. cbv zeta.
    cbn [timers takePictureTimer_ multiShotInterval_ tickCounter
         multiShotCounter disabled running_ nextTimerId set_timers
         model_ animate].
    pose proof (shutter_ids_push Capture Hwf') as Hwf1.
    destruct (Z.eqb (tc - 1) 0) eqn:Etc.
    + apply Z.eqb_eq in Etc.
      destruct (shutter_after_release evs) as (Es & Er & Et).
      cbn [fst snd]. rewrite Es, Er, Et.
      assert (Hfirst' : ticksFirst (evs ++ [ShutterSound]) = true).
      { apply shutter_all_ticks_app; [exact Hticks|reflexivity]. }
      destruct (Z.eqb (mc - 1) 0) eqn:Emc.
      * apply Z.eqb_eq in Emc.
        cbn [timers takePictureTimer_ multiShotInterval_ tickCounter
             multiShotCounter disabled running_ nextTimerId].
        split; [reflexivity|]. split; [eapply shutter_ids_reset; exact Hwf1|].
        rewrite (shutter_ids_captures Hwf1).
        rewrite shutter_cleared_filter, shutter_cleared_filter.
        rewrite !filter_app, Hnone, Hcap.
        cbn [filter isCountdown isCapture callback app].
        rewrite !shutter_cleared_nil, length_app. cbn [List.length].
        split; [lia|]. right. right. repeat split; try assumption; lia.
      * apply Z.eqb_neq in Emc.
        cbn [timers takePictureTimer_ multiShotInterval_ tickCounter
             multiShotCounter disabled running_ nextTimerId].
        split; [reflexivity|].
        split.
        { apply shutter_ids_interval with (msi := msi).
          - apply shutter_ids_push. exact Hwf1.
          - lia.
          - rewrite filter_app. cbn [filter isCapture callback].
            rewrite app_nil_r.
            eapply Forall_impl; [|exact (shutter_ids_low Hwf1)].
            cbn. intros tm Hlt. lia. }
        rewrite !filter_app, Hnone, Hcap.
        cbn [filter isCountdown isCapture callback app].
        rewrite app_nil_r, length_app. cbn [List.length].
        split; [lia|]. right. left. exists (Pos.succ n).
        repeat split; try assumption; lia.
    + apply Z.eqb_neq in Etc.
      destruct (shutter_after_tick evs) as (Es & Er & Et).
      cbn [fst snd timers takePictureTimer_ multiShotInterval_ tickCounter
           multiShotCounter disabled running_ nextTimerId].
      rewrite Es, Er, Et.
      split; [reflexivity|].
      split.
      { apply shutter_ids_tick with (tpt := tpt).
        - change [mkTimer n OnTimerTick; mkTimer (Pos.succ n) Blink]
            with ([mkTimer n OnTimerTick] ++ [mkTimer (Pos.succ n) Blink]).
          rewrite app_assoc. apply shutter_ids_push.
          apply shutter_ids_push. exact Hwf'.
        - lia.
        - rewrite filter_app. cbn [filter isCapture callback].
          rewrite app_nil_r.
          eapply Forall_impl; [|exact (shutter_ids_low Hwf')].
          cbn. intros tm Hlt. lia. }
      rewrite !filter_app, Hnone, Hcap.
      cbn [filter isCountdown isCapture callback app].
      rewrite app_nil_r.
      split; [lia|]. left. exists n.
      repeat split; try assumption; try lia.
      rewrite forallb_app, Hticks. reflexivity.
  - (* the end of a blink *)
    pose proof (shutter_without_other isCountdown id tms Ef eq_refl) as Hcd.
    pose proof (shutter_without_other isCapture id tms Ef eq_refl) as Hcap.
    rewrite shutter_blink_eq.
    cbn [fst snd takePictureTimer_ set_timers]. rewrite app_nil_r.
    destruct tpt as [idt|];
      cbn [timers takePictureTimer_ multiShotInterval_ tickCounter
           multiShotCounter disabled running_ nextTimerId set_animate
           set_timers];
      rewrite Hcd, Hcap;
      (split; [reflexivity|]); (split; [exact Hwf'|]);
      (split; [exact Hcount|exact Hst]).
  - (* a picture of the multi-shot *)
    assert (Hin : In (mkTimer id0 TakePicture) (filter isCountdown tms)).
    { apply find_some in Ef. apply filter_In. split; [tauto|reflexivity]. }
    destruct Hst as [(id1 & Hp & _)
                    |[(id1 & Hp & Hi & Hpos & Hsum & Hticked & Hfirst & Hd)
                     |(Hp & _)]].
    1:{ rewrite Hp in Hin. destruct Hin as [Hin|[]]. discriminate Hin. }
    2:{ rewrite Hp in Hin. destruct Hin. }
    rewrite shutter_takePicture_eq by reflexivity. cbv zeta.
    cbn [fst snd timers takePictureTimer_ multiShotInterval_ tickCounter
         multiShotCounter disabled running_ nextTimerId model_ animate].
    pose proof (shutter_ids_push Capture Hwf) as Hwf1.
    destruct (shutter_after_release evs) as (Es & Er & Et).
    rewrite Es, Er, Et.
    assert (Hfirst' : ticksFirst (evs ++ [ShutterSound]) = true).
    { apply shutter_ticksFirst_app; [exact Hfirst|reflexivity]. }
    destruct (Z.eqb (mc - 1) 0) eqn:Emc.
    + apply Z.eqb_eq in Emc.
      cbn [timers takePictureTimer_ multiShotInterval_ tickCounter
           multiShotCounter disabled running_ nextTimerId].
      split; [reflexivity|]. split; [eapply shutter_ids_reset; exact Hwf1|].
      rewrite (shutter_ids_captures Hwf1).
      rewrite shutter_cleared_filter, shutter_cleared_filter.
      rewrite !filter_app, Hp.
      cbn [filter isCountdown isCapture callback app].
      rewrite ?app_nil_r, length_app. cbn [List.length].
      subst msi. rewrite shutter_cleared_single.
      split; [lia|]. right. right. repeat split; try assumption; lia.
    + apply Z.eqb_neq in Emc.
      cbn [timers takePictureTimer_ multiShotInterval_ tickCounter
           multiShotCounter disabled running_ nextTimerId].
      split; [reflexivity|]. split; [exact Hwf1|].
      rewrite !filter_app, Hp.
      cbn [filter isCountdown isCapture callback app].
      rewrite length_app. cbn [List.length].
      split; [lia|]. right. left. exists id1.
      repeat split; try assumption; lia.
  - (* a capture *)
    destruct (shutter_without_same isCapture id tms Ef eq_refl)
      as [Hin Hlen].
    pose proof (shutter_without_other isCountdown id tms Ef eq_refl) as Hcd.
    destruct (shutter_after_picture evs) as (Es & Er & Et).
    cbn [fst snd timers takePictureTimer_ multiShotInterval_ tickCounter
         multiShotCounter disabled running_ nextTimerId set_timers].
    rewrite Es, Er, Et, Hcd.
    split; [reflexivity|]. split; [exact Hwf'|].
    split; [lia|].
    destruct Hst as [(id1 & Hp & Ht & Hpos & Hsum & Hmc & Hticks & Hd)
                    |[(id1 & Hp & Hi & Hpos & Hsum & Hticked & Hfirst & Hd)
                     |(Hp & Ht & Hi & Hrel & Hticked & Hfirst & Hd)]].
    + exfalso. destruct (shutter_all_ticks evs Hticks) as (Hrel & Htak & _).
      destruct (filter isCapture tms); [destruct Hin|].
      cbn [List.length] in Hcount. lia.
    + right. left. exists id1. repeat split; try assumption.
      apply shutter_ticksFirst_app; [exact Hfirst|reflexivity].
    + right. right. repeat split; try assumption.
      apply shutter_ticksFirst_app; [exact Hfirst|reflexivity].
Qed.

Lemma shutter_fires (timerEnabled multiEnabled : bool)
    (ids : list positive) :
  forall (evs : list Event) (s : t),
    standing timerEnabled multiEnabled evs s ->
    standing timerEnabled multiEnabled
      (evs ++ Flow.trace (fires ids) s) (Flow.exec (fires ids) s).
Proof.
  induction ids as [|id ids IH]; intros evs s H.
  - cbn. rewrite app_nil_r. exact H.
  - cbn [fires]. rewrite flow_exec_bind, flow_trace_bind, app_assoc.
    apply IH. apply shutter_fire. exact H.
Qed.

(** The call itself, on a view that captures and has a model. *)
Lemma shutter_takePicture (timerEnabled multiEnabled : bool) :
  standing timerEnabled multiEnabled []
    (Flow.exec (takePicture_ timerEnabled multiEnabled) (create true true))
  /\ Flow.trace (takePicture_ timerEnabled multiEnabled) (create true true)
     = [].
Proof.
  split; [|reflexivity].
  split; [reflexivity|]. split.
  { repeat split; cbn; repeat constructor. }
  split; [reflexivity|]. left. exists 1%positive.
  unfold seconds, pictures.
  destruct timerEnabled, multiEnabled; cbn; repeat split; lia.
Qed.

(** Once the count-down and the multi-shot are over or reset, the
    timers left take the pictures whose shutter was released, and
    nothing else happens. *)
Lemma shutter_idle_fire (id : positive) (s : t) :
  idle s ->
  idle (Flow.exec (fire id) s)
  /\ sounds (Flow.trace (fire id) s) = 0
  /\ released (Flow.trace (fire id) s) = 0
  /\ taken (Flow.trace (fire id) s)
     + Z.of_nat (List.length (captures (Flow.exec (fire id) s)))
     = Z.of_nat (List.length (captures s)).
Proof.
  intros (Hcd & Ht & Hi & Hd).
  destruct s as [r m tpt msi tc mc d an tms n].
  unfold idle, countdown, captures in *.
  cbn [timers takePictureTimer_ multiShotInterval_ disabled] in *.
  subst tpt msi d.
  unfold Flow.exec, Flow.trace. rewrite shutter_fire_eq.
  cbn [timers nextTimerId].
  destruct (find (fun tm => Pos.eqb (timerId tm) id) tms) as [tm|] eqn:Ef.
  2:{ cbn. repeat split; try assumption; try lia. }
  assert (Hnot : isCountdown tm = false).
  { destruct (isCountdown tm) eqn:E; [|reflexivity]. exfalso.
    apply find_some in Ef. destruct Ef as [Hin _].
    assert (Hin' : In tm (filter isCountdown tms)).
    { apply filter_In. split; assumption. }
    rewrite Hcd in Hin'. exact Hin'. }
  pose proof (shutter_without_other isCountdown id tms Ef Hnot) as Hcd'.
  destruct tm as [id0 cb]. cbn [callback].
  destruct cb; try discriminate Hnot.
  - pose proof (shutter_without_other isCapture id tms Ef eq_refl) as Hcap.
    rewrite shutter_blink_eq.
    cbn [fst snd takePictureTimer_ set_timers timers multiShotInterval_
         disabled].
    rewrite Hcd', Hcap. cbn. repeat split; try assumption; try lia.
  - destruct (shutter_without_same isCapture id tms Ef eq_refl)
      as [_ Hlen].
    cbn [fst snd takePictureTimer_ set_timers timers multiShotInterval_
         disabled].
    rewrite Hcd'. unfold sounds, released, taken.
    cbn [filter isTickSound List.length].
    repeat split; try assumption; lia.
Qed.

Lemma shutter_idle_fires (ids : list positive) :
  forall s : t,
    idle s ->
    idle (Flow.exec (fires ids) s)
    /\ sounds (Flow.trace (fires ids) s) = 0
    /\ released (Flow.trace (fires ids) s) = 0
    /\ taken (Flow.trace (fires ids) s)
       + Z.of_nat (List.length (captures (Flow.exec (fires ids) s)))
       = Z.of_nat (List.length (captures s)).
Proof.
  induction ids as [|id ids IH]; intros s H.
  - cbn. repeat split; try apply H.
  - cbn [fires]. rewrite flow_exec_bind, flow_trace_bind.
    destruct (shutter_idle_fire id H) as (H1 & S1 & R1 & T1).
    destruct (IH _ H1) as (H2 & S2 & R2 & T2).
    destruct (shutter_counts_app (Flow.trace (fire id) s)
                (Flow.trace (fires ids) (Flow.exec (fire id) s)))
      as (-> & -> & ->).
    split; [exact H2|]. repeat split; lia.
Qed.

(** [resetTakePicture_], wherever the call stands. *)
Lemma shutter_reset (timerEnabled multiEnabled : bool) (evs : list Event)
    (s : t) :
  standing timerEnabled multiEnabled evs s ->
  idle (Flow.exec resetTakePicture_ s)
  /\ captures (Flow.exec resetTakePicture_ s) = captures s
  /\ Flow.trace resetTakePicture_ s = [].
Proof.
  intros (Hrun & Hwf & Hcount & Hst).
  unfold Flow.exec, Flow.trace. rewrite shutter_reset_eq. cbn [fst snd].
  unfold idle, countdown, captures, wellFormed in *.
  cbn [timers takePictureTimer_ multiShotInterval_ disabled].
  split; [|split; [exact (shutter_ids_captures Hwf)|reflexivity]].
  repeat split.
  rewrite shutter_cleared_filter, shutter_cleared_filter.
  destruct Hst as [(id & Hp & Ht & _)|[(id & Hp & Hi & _)|(Hp & _)]];
    rewrite Hp.
  - rewrite Ht. cbn [cleared filter timerId]. rewrite Pos.eqb_refl.
    apply shutter_cleared_nil.
  - rewrite Hi. apply shutter_cleared_single.
  - rewrite !shutter_cleared_nil. reflexivity.
Qed.

End ShutterFacts.

(** X22.  A call of [takePicture_] on a capturing view releases the
    shutter exactly once, or three times with the multi-shot, after
    exactly five ticks with the timer and none without, and every
    release leaves its picture to a timeout of its own.  Whatever
    pending timers the host fires and in whatever order: the ticks and
    the releases never exceed these numbers, no tick comes after a
    release, and the pictures taken are the releases whose timeout has
    fired.  The count-down and the multi-shot are over exactly when the
    buttons are enabled again; the ticks and the releases are complete
    then, and the pictures once no timeout of a release is pending
    either. *)
Theorem Shutter_countdown_totals (timerEnabled multiEnabled : bool)
    (ids : list positive) :
  let s0 :=
    Flow.exec (Shutter.takePicture_ timerEnabled multiEnabled)
      (Shutter.create true true) in
  let evs := Flow.trace (Shutter.fires ids) s0 in
  let s := Flow.exec (Shutter.fires ids) s0 in
  (Shutter.sounds evs <= Shutter.seconds timerEnabled)%Z
  /\ (Shutter.released evs <= Shutter.pictures multiEnabled)%Z
  /\ Shutter.ticksFirst evs = true
  /\ ((0 < Shutter.released evs)%Z ->
      Shutter.sounds evs = Shutter.seconds timerEnabled)
  /\ (Shutter.taken evs
      + Z.of_nat (List.length (Shutter.captures s))
      = Shutter.released evs)%Z
  /\ (Shutter.disabled s = false <-> Shutter.countdown s = [])
  /\ (Shutter.countdown s = [] ->
      Shutter.released evs = Shutter.pictures multiEnabled
      /\ Shutter.sounds evs = Shutter.seconds timerEnabled)
  /\ (Shutter.countdown s = [] -> Shutter.captures s = [] ->
      Shutter.taken evs = Shutter.pictures multiEnabled).
Proof.
  intros s0 evs s.
  destruct (shutter_takePicture timerEnabled multiEnabled) as [H0 _].
  pose proof (@shutter_fires timerEnabled multiEnabled ids [] s0 H0) as H.
  cbn [app] in H. fold evs in H. fold s in H.
  destruct (shutter_counts timerEnabled multiEnabled) as [Hs Hp].
  destruct H as (_ & _ & Hcount & Hst).
  split; [|split; [|split; [|split; [|split; [exact Hcount|]]]]].
  - destruct Hst as [(id & _ & _ & Hpos & Hsum & _)
                    |[(id & _ & _ & _ & _ & Ht & _)
                     |(_ & _ & _ & _ & Ht & _)]]; lia.
  - destruct Hst as [(id & _ & _ & _ & _ & _ & Hticks & _)
                    |[(id & _ & _ & Hpos & Hsum & _)
                     |(_ & _ & _ & Hr & _)]];
      [destruct (shutter_all_ticks _ Hticks) as (Hr & _)|..]; lia.
  - destruct Hst as [(id & _ & _ & _ & _ & _ & Hticks & _)
                    |[(id & _ & _ & _ & _ & _ & Hf & _)
                     |(_ & _ & _ & _ & _ & Hf & _)]];
      [destruct (shutter_all_ticks _ Hticks) as (_ & _ & Hf)|..];
      exact Hf.
  - destruct Hst as [(id & _ & _ & _ & _ & _ & Hticks & _)
                    |[(id & _ & _ & _ & _ & Ht & _)
                     |(_ & _ & _ & _ & Ht & _)]];
      [destruct (shutter_all_ticks _ Hticks) as (Hr & _); lia|..];
      intros _; exact Ht.
  - destruct Hst as [(id & P & _ & _ & _ & _ & _ & Hd)
                    |[(id & P & _ & _ & _ & _ & _ & Hd)
                     |(P & _ & _ & Hr & Ht & _ & Hd)]];
      rewrite P, Hd.
    + split; [split; discriminate|]. split; discriminate.
    + split; [split; discriminate|]. split; discriminate.
    + split; [split; reflexivity|]. split; [auto|].
      intros _ Hc. rewrite Hc in Hcount. cbn [List.length] in Hcount. lia.
Qed.

(** A count-down of five seconds and a multi-shot, the host firing
    every timeout when it is due: the third picture is taken after the
    buttons have been enabled again. *)
Example shutter_full_run :
  let s0 := Flow.exec (Shutter.takePicture_ true true)
              (Shutter.create true true) in
  let ids := [1; 2; 4; 6; 8; 10; 12; 13; 14; 13]%positive in
  Flow.trace (Shutter.fires ids) s0
  = [Shutter.TickSound; Shutter.TickSound; Shutter.TickSound;
     Shutter.TickSound; Shutter.TickSound;
     Shutter.ShutterSound; Shutter.Picture;
     Shutter.ShutterSound; Shutter.Picture;
     Shutter.ShutterSound]
  /\ Shutter.disabled (Flow.exec (Shutter.fires ids) s0) = false
  /\ Shutter.countdown (Flow.exec (Shutter.fires ids) s0) = []
  /\ List.length (Shutter.captures (Flow.exec (Shutter.fires ids) s0))
     = 1%nat.
Proof.
  vm_compute. repeat split.
Qed.

(** X23.  [resetTakePicture_] cancels the count-down and the
    multi-shot, not the pictures on their way: wherever the call
    stands, after it the buttons are enabled and no timer that the host
    may still fire ticks or releases the shutter, but every timeout
    left by a release before the reset is still pending and takes its
    picture when it fires. *)
Theorem Shutter_reset_spares_captures (timerEnabled multiEnabled : bool)
    (before after : list positive) :
  let s :=
    Flow.exec (Shutter.fires before)
      (Flow.exec (Shutter.takePicture_ timerEnabled multiEnabled)
         (Shutter.create true true)) in
  let s' := Flow.exec Shutter.resetTakePicture_ s in
  let evs := Flow.trace (Shutter.fires after) s' in
  let s'' := Flow.exec (Shutter.fires after) s' in
  Flow.trace Shutter.resetTakePicture_ s = []
  /\ Shutter.countdown s' = []
  /\ Shutter.captures s' = Shutter.captures s
  /\ Shutter.sounds evs = 0%Z
  /\ Shutter.released evs = 0%Z
  /\ (Shutter.taken evs + Z.of_nat (List.length (Shutter.captures s''))
      = Z.of_nat (List.length (Shutter.captures s)))%Z
  /\ Shutter.disabled s'' = false.
Proof.
  intros s s' evs s''.
  destruct (shutter_takePicture timerEnabled multiEnabled) as [H0 _].
  pose proof (@shutter_fires timerEnabled multiEnabled before [] _ H0)
    as H.
  cbn [app] in H. fold s in H.
  destruct (shutter_reset H) as (Hidle & Hcap & Htrace).
  fold s' in Hidle, Hcap.
  destruct (shutter_idle_fires after Hidle) as (Hidle' & Hs & Hr & Ht).
  fold evs in Hs, Hr, Ht. fold s'' in Hidle', Ht.
  split; [exact Htrace|]. split; [apply Hidle|]. split; [exact Hcap|].
  split; [exact Hs|]. split; [exact Hr|].
  split; [rewrite <- Hcap; exact Ht|]. apply Hidle'.
Qed.

(** The multi-shot reset after its first release: the picture of that
    release is taken all the same. *)
Example shutter_reset_run :
  let s :=
    Flow.exec (Shutter.fires [1]%positive)
      (Flow.exec (Shutter.takePicture_ false true)
         (Shutter.create true true)) in
  let s' := Flow.exec Shutter.resetTakePicture_ s in
  Flow.trace (Shutter.fires [1]%positive) 
    (Flow.exec (Shutter.takePicture_ false true) (Shutter.create true true))
  = [Shutter.ShutterSound]
  /\ Flow.trace (Shutter.fires [3; 2; 2]%positive) s' = [Shutter.Picture].
Proof.
  vm_compute. repeat split.
Qed.

(** ** The size of the preview *)

Section BoundsFacts.
Import Bounds.

Lemma doubles_range_In (n : nat) :
  forall from z : Z,
    (from <= z < from + Z.of_nat n)%Z -> In z (Doubles.range from n).
Proof.
  induction n as [|n IH]; intros from z Hz; [lia|].
  cbn [Doubles.range]. destruct (Z.eq_dec from z) as [->|Hne];
    [left; reflexivity|].
  right. apply IH. lia.
Qed.

(** The state before a call matters to none of what [fits] tests. *)
Lemma bounds_fits_state (videoWidth videoHeight offsetHeight : Z)
    (s s0 : t) :
  (0 < videoHeight)%Z ->
  fits videoWidth videoHeight offsetHeight s
  = fits 0 videoHeight offsetHeight s0.
Proof.
  intros Hv. unfold fits, synchronizeBounds_.
  destruct (Z.eqb_spec videoHeight 0) as [->|_]; [lia|].
  cbn [mainPreviewProcessor_scale mainFastProcessor_scale video_width
       video_height].
  rewrite !Z.eqb_refl. reflexivity.
Qed.

(** Every video height up to 1200 with every window height up to 2400,
    one by one. *)
Lemma bounds_fits_all :
  (let windows := Doubles.range 0 2401 in
   forallb (fun videoHeight =>
              forallb (fun offsetHeight =>
                         fits 0 videoHeight offsetHeight
                           (mk PrimFloat.zero PrimFloat.zero 0 0))
                      windows)
           (Doubles.range 1 1200)) = true.
Proof. vm_compute. reflexivity. Qed.

End BoundsFacts.

(** X24.  The preview is never scaled up and fits the window: for a
    video of up to 1200 lines and a window up to 2400 pixels high,
    [synchronizeBounds_] sets the scale of the preview, in double
    precision, between 0 and 1, to 1 exactly when the window is as high
    as the video or higher, and so that the video once scaled is as high
    as the lower of the window and the video to within [2^-20] of a
    pixel (the product is not always the height of the window itself);
    twice the scale of the fast processor is the scale of the preview,
    exactly. *)
Theorem Bounds_preview_fits_window (videoWidth videoHeight offsetHeight : Z)
    (s : Bounds.t) :
  (0 < videoHeight <= 1200)%Z -> (0 <= offsetHeight <= 2400)%Z ->
  let s' :=
    Bounds.synchronizeBounds_ videoWidth videoHeight offsetHeight s in
  let scale := Bounds.mainPreviewProcessor_scale s' in
  PrimFloat.leb PrimFloat.zero scale = true
  /\ PrimFloat.leb scale PrimFloat.one = true
  /\ PrimFloat.eqb scale PrimFloat.one = (videoHeight <=? offsetHeight)%Z
  /\ Bounds.scaledTo scale videoHeight (Z.min offsetHeight videoHeight)
     = true
  /\ PrimFloat.eqb
       (PrimFloat.mul (Bounds.mainFastProcessor_scale s') PrimFloat.two)
       scale = true
  /\ Bounds.video_width s' = videoWidth
  /\ Bounds.video_height s' = videoHeight.
Proof.
  intros Hv Ho s' scale.
  assert (Hfits : Bounds.fits videoWidth videoHeight offsetHeight s = true).
  { rewrite (@bounds_fits_state videoWidth videoHeight offsetHeight s
               (Bounds.mk PrimFloat.zero PrimFloat.zero 0 0))
      by lia.
    pose proof bounds_fits_all as Hall. cbv zeta in Hall.
    rewrite forallb_forall in Hall.
    specialize (Hall videoHeight (@doubles_range_In 1200 1 videoHeight
                                    ltac:(lia))).
    rewrite forallb_forall in Hall.
    exact (Hall offsetHeight (@doubles_range_In 2401 0 offsetHeight
                                ltac:(lia))). }
  unfold Bounds.fits in Hfits. fold s' in Hfits. fold scale in Hfits.
  repeat (apply andb_true_iff in Hfits; destruct Hfits as [Hfits ?]).
  repeat split; try assumption.
  - apply Bool.eqb_prop. assumption.
  - apply Z.eqb_eq. assumption.
  - apply Z.eqb_eq. assumption.
Qed.

(** A video of 1080 lines in a window 1007 pixels high: the scale is
    below 1, and the video once scaled is a little higher than the
    window. *)
Lemma Bounds_preview_fits_window_witness :
  let s' :=
    Bounds.synchronizeBounds_ 1920 1080 1007
      (Bounds.mk PrimFloat.one PrimFloat.one 0 0) in
  PrimFloat.leb (Bounds.mainPreviewProcessor_scale s') PrimFloat.one = true
  /\ PrimFloat.ltb (Doubles.ofZ 1007)
       (PrimFloat.mul (Bounds.mainPreviewProcessor_scale s')
          (Doubles.ofZ 1080)) = true.
Proof.
  intros s'. split; [|vm_compute; reflexivity].
  apply (@Bounds_preview_fits_window 1920 1080 1007
           (Bounds.mk PrimFloat.one PrimFloat.one 0 0)); lia.
Defined.

(** ** The watchdog of the stream *)

Section WatchdogFacts.
Import Negotiation.

Lemma watchdog_filter_comm (A : Type) (f g : A -> bool) (l : list A) :
  filter f (filter g l) = filter g (filter f l).
Proof.
  induction l as [|x l IH]; [reflexivity|].
  cbn [filter]. destruct (f x) eqn:Ef, (g x) eqn:Eg; cbn [filter];
    rewrite ?Ef, ?Eg, IH; reflexivity.
Qed.

Lemma watchdog_filter_all (id : positive) (l : list Timer) :
  (forall tm : Timer, In tm l -> id = timerId tm) ->
  filter (fun tm => negb (Pos.eqb (timerId tm) id)) l = [].
Proof.
  induction l as [|tm l IH]; intros H; [reflexivity|].
  cbn [filter]. rewrite <- (H tm (or_introl eq_refl)), Pos.eqb_refl.
  cbn [negb]. apply IH. intros tm' Hin. apply H. right. exact Hin.
Qed.

End WatchdogFacts.

(** X25.  A stream that is no longer active is not reported as an error:
    the watchdog stops the capture ([capturing_] false, [running_] left
    as it is), removes itself and schedules a retry of [start_] in the
    single slot of the retry timer, replacing whatever retry was pending,
    and calls nothing else; while the stream is active it does
    nothing. *)
Theorem Watchdog_disconnection_schedules_retry (s : Negotiation.t) :
  Negotiation.singleSlot s ->
  (forall tm : Negotiation.Timer,
     In tm (Watchdog.pendingWatchdogs s) ->
     Negotiation.watchdog_ s = Some (Negotiation.timerId tm)) ->
  (forall id : positive,
     Negotiation.watchdog_ s = Some id ->
     (id < Negotiation.nextTimerId s)%positive) ->
  let s' := Negotiation.exec (Watchdog.check false) s in
  Negotiation.trace (Watchdog.check false) s = []
  /\ Negotiation.capturing_ s' = false
  /\ Negotiation.running_ s' = Negotiation.running_ s
  /\ Negotiation.watchdog_ s' = None
  /\ Watchdog.pendingWatchdogs s' = []
  /\ Negotiation.singleSlot s'
  /\ Negotiation.pendingRetries s'
     = [Negotiation.mkTimer (Negotiation.nextTimerId s)
          Negotiation.StartCallback 1000]
  /\ Negotiation.retryStartTimer_ s'
     = Some (Negotiation.nextTimerId s)
  /\ Negotiation.exec (Watchdog.check true) s = s
  /\ Negotiation.trace (Watchdog.check true) s = [].
Proof.
  intros Hslot Hdog Hfresh s'.
  assert (Hretries :
    filter (fun tm => Negotiation.isStartCallback (Negotiation.callback tm))
      match Negotiation.retryStartTimer_ s with
      | Some idr =>
          filter (fun tm => negb (Pos.eqb (Negotiation.timerId tm) idr))
                 (Negotiation.timers s)
      | None => Negotiation.timers s
      end = []).
  { destruct (Negotiation.retryStartTimer_ s) as [idr|] eqn:Er.
    - apply singleSlot_cleared; assumption.
    - apply (singleSlot_empty Hslot Er). }
  assert (Hdogs : forall idw : positive,
    Negotiation.watchdog_ s = Some idw ->
    filter (fun tm => negb (Pos.eqb (Negotiation.timerId tm) idw))
      (filter (fun tm => match Negotiation.callback tm with
                         | Negotiation.WatchdogCallback => true
                         | _ => false
                         end)
         match Negotiation.retryStartTimer_ s with
         | Some idr =>
             filter (fun tm => negb (Pos.eqb (Negotiation.timerId tm) idr))
                    (Negotiation.timers s)
         | None => Negotiation.timers s
         end) = []).
  { intros idw Hw. apply watchdog_filter_all. intros tm Hin.
    apply filter_In in Hin. destruct Hin as [Hin Hcb].
    assert (Hin' : In tm (Negotiation.timers s)).
    { destruct (Negotiation.retryStartTimer_ s); [|exact Hin].
      apply filter_In in Hin. tauto. }
    assert (Hd : Negotiation.watchdog_ s = Some (Negotiation.timerId tm)).
    { apply Hdog. apply filter_In. split; assumption. }
    congruence. }
  assert (Hnone : Negotiation.watchdog_ s = None ->
    filter (fun tm => match Negotiation.callback tm with
                      | Negotiation.WatchdogCallback => true
                      | _ => false
                      end)
      match Negotiation.retryStartTimer_ s with
      | Some idr =>
          filter (fun tm => negb (Pos.eqb (Negotiation.timerId tm) idr))
                 (Negotiation.timers s)
      | None => Negotiation.timers s
      end = []).
  { intros Hw.
    match goal with
    | |- ?ts = [] => destruct ts as [|tm l] eqn:E; [reflexivity|exfalso]
    end.
    assert (Hin : In tm (tm :: l)) by (left; reflexivity).
    rewrite <- E in Hin. apply filter_In in Hin. destruct Hin as [Hin Hcb].
    assert (Hin' : In tm (Negotiation.timers s)).
    { destruct (Negotiation.retryStartTimer_ s); [|exact Hin].
      apply filter_In in Hin. tauto. }
    assert (Hd : Negotiation.watchdog_ s = Some (Negotiation.timerId tm)).
    { apply Hdog. apply filter_In. split; assumption. }
    congruence. }
  assert (Hs' :
    Negotiation.trace (Watchdog.check false) s = []
    /\ Negotiation.capturing_ s' = false
    /\ Negotiation.running_ s' = Negotiation.running_ s
    /\ Negotiation.watchdog_ s' = None
    /\ Watchdog.pendingWatchdogs s' = []
    /\ Negotiation.pendingRetries s'
       = [Negotiation.mkTimer (Negotiation.nextTimerId s)
            Negotiation.StartCallback 1000]
    /\ Negotiation.retryStartTimer_ s'
       = Some (Negotiation.nextTimerId s)).
  { subst s'.
    unfold Watchdog.pendingWatchdogs, Negotiation.pendingRetries,
      Watchdog.check,
      Negotiation.scheduleRetry, Negotiation.clearRetryStartTimer,
      Negotiation.setTimeout, Negotiation.clearTimeout, Negotiation.exec,
      Negotiation.trace, Negotiation.bind, Negotiation.get,
      Negotiation.modify, Negotiation.ret, Flow.exec, Flow.trace,
      Flow.bind, Flow.get, Flow.modify, Flow.ret.
    destruct s as [l r c rt w tms n].
    cbn [Negotiation.retryStartTimer_ Negotiation.timers
         Negotiation.watchdog_ Negotiation.nextTimerId] in *.
    destruct rt as [idr|], w as [idw|]; cbn;
      repeat split;
      rewrite ?(watchdog_filter_comm
                  (fun tm => Negotiation.isStartCallback
                               (Negotiation.callback tm))),
              ?(watchdog_filter_comm
                  (fun tm => match Negotiation.callback tm with
                             | Negotiation.WatchdogCallback => true
                             | _ => false
                             end)),
              ?filter_app;
      cbn [filter Negotiation.callback Negotiation.isStartCallback
           Negotiation.timerId app];
      rewrite ?Hretries, ?app_nil_r, ?(Hdogs idw eq_refl),
              ?(Hnone eq_refl);
      cbn [filter app Negotiation.timerId];
      try reflexivity;
      try (pose proof (Hfresh idw eq_refl) as Hlt;
           destruct (Pos.eqb_spec n idw) as [->|Hne]; [lia|reflexivity]). }
  destruct Hs' as (H1 & H2 & H3 & H4 & H5 & H6 & H7).
  repeat (split; [assumption|]).
  split.
  { apply pending_singleSlot. right. eexists. split; [exact H6|exact H7]. }
  split; [exact H6|]. split; [exact H7|]. split; reflexivity.
Qed.

Lemma Watchdog_disconnection_schedules_retry_witness :
  let s :=
    Negotiation.exec
      (Negotiation.startWithResolution_ (1280, 720)%Z true
         Negotiation.onSuccess Negotiation.onFailure)
      (Negotiation.create false) in
  Negotiation.watchdog_ s = Some 1%positive
  /\ Watchdog.pendingWatchdogs (Negotiation.exec (Watchdog.check false) s)
     = []
  /\ Negotiation.pendingRetries (Negotiation.exec (Watchdog.check false) s)
     = [Negotiation.mkTimer (Negotiation.nextTimerId s)
          Negotiation.StartCallback 1000].
Proof.
  intros s. split; [reflexivity|].
  assert (Hslot : Negotiation.singleSlot s).
  { intros tm Hin Hst. vm_compute in Hin.
    repeat (destruct Hin as [<-|Hin]; [discriminate Hst|]).
    contradiction. }
  assert (Hdog : forall tm : Negotiation.Timer,
            In tm (Watchdog.pendingWatchdogs s) ->
            Negotiation.watchdog_ s = Some (Negotiation.timerId tm)).
  { intros tm Hin. vm_compute in Hin.
    repeat (destruct Hin as [<-|Hin]; [reflexivity|]).
    contradiction. }
  assert (Hfresh : forall id : positive,
            Negotiation.watchdog_ s = Some id ->
            (id < Negotiation.nextTimerId s)%positive).
  { intros id Hid. vm_compute in Hid. injection Hid as <-. reflexivity. }
  pose proof (@Watchdog_disconnection_schedules_retry s Hslot Hdog Hfresh)
    as H.
  split; [apply H|apply H].
Defined.

(** ** The orientation of a photo *)

Section PhotoFacts.
Import Photo.
Local Open Scope Z_scope.

Lemma photo_byteAt (view : DataView) (byteOffset b : Z) :
  byteAt view byteOffset = Some b ->
  0 <= b < 256 /\ 0 <= byteOffset < byteLength view.
Proof.
  unfold byteAt, byteLength.
  destruct (Z.ltb_spec byteOffset 0) as [Hneg|Hpos]; [discriminate|].
  destruct (nth_error view (Z.to_nat byteOffset)) as [x|] eqn:Enth;
    [|discriminate].
  cbn [option_map]. intros [= <-].
  pose proof (Byte.to_N_bounded x) as Hb.
  assert (Hlen : (Z.to_nat byteOffset < List.length view)%nat).
  { apply nth_error_Some. congruence. }
  lia.
Qed.

Lemma photo_byteAt_outside (view : DataView) (byteOffset : Z) :
  byteLength view <= byteOffset -> byteAt view byteOffset = None.
Proof.
  intros Hout. destruct (byteAt view byteOffset) as [b|] eqn:E;
    [|reflexivity].
  apply photo_byteAt in E. lia.
Qed.

Lemma photo_getUint16 (view : DataView) (byteOffset v : Z) (little : bool) :
  getUint16 view byteOffset little = Some v ->
  0 <= v < 65536 /\ 0 <= byteOffset /\ byteOffset + 1 < byteLength view.
Proof.
  unfold getUint16.
  destruct (byteAt view byteOffset) as [b0|] eqn:E0; [|discriminate].
  destruct (byteAt view (byteOffset + 1)) as [b1|] eqn:E1; [|discriminate].
  apply photo_byteAt in E0, E1. intros [= <-].
  destruct little; lia.
Qed.

Lemma photo_getUint16_outside (view : DataView) (byteOffset : Z)
    (little : bool) :
  byteLength view <= byteOffset + 1 ->
  getUint16 view byteOffset little = None.
Proof.
  intros Hout. destruct (getUint16 view byteOffset little) as [v|] eqn:E;
    [|reflexivity].
  apply photo_getUint16 in E. lia.
Qed.

Lemma photo_getUint32 (view : DataView) (byteOffset v : Z) (little : bool) :
  getUint32 view byteOffset little = Some v -> 0 <= v.
Proof.
  unfold getUint32.
  destruct (byteAt view byteOffset) as [b0|] eqn:E0; [|discriminate].
  destruct (byteAt view (byteOffset + 1)) as [b1|] eqn:E1; [|discriminate].
  destruct (byteAt view (byteOffset + 2)) as [b2|] eqn:E2; [|discriminate].
  destruct (byteAt view (byteOffset + 3)) as [b3|] eqn:E3; [|discriminate].
  apply photo_byteAt in E0, E1, E2, E3. intros [= <-].
  destruct little; lia.
Qed.

(** The loop over the tags ends with an orientation or a [RangeError],
    or goes through all the tags. *)
Lemma photo_tagsLoop (remaining : nat) (view : DataView) (offset : Z)
    (little : bool) (i : Z) :
  tagsLoop remaining view offset little i <> Some OutOfFuel.
Proof.
  revert i. induction remaining as [|n IH]; intros i; cbn [tagsLoop].
  - discriminate.
  - destruct (getUint16 view (offset + i * 12) little) as [tag|];
      [|discriminate].
    destruct (tag =? 274).
    + destruct (getUint16 view (offset + i * 12 + 8) little); discriminate.
    + apply IH.
Qed.

(** Every round of the [while] loop that goes on moves the offset
    forward, so the rounds left are fewer than the bytes left. *)
Lemma photo_scan (fuel : nat) (view : DataView) (offset : Z) :
  (Z.to_nat (byteLength view - offset) < fuel)%nat ->
  scan fuel view offset <> OutOfFuel.
Proof.
  revert offset. induction fuel as [|fuel IH]; intros offset Hfuel; [lia|].
  cbn [scan].
  destruct (Z.ltb_spec offset (byteLength view)) as [Hin|Hout];
    [|discriminate].
  destruct (getUint16 view (offset + 2) false) as [size|] eqn:Esize;
    [|discriminate].
  destruct (Z.leb_spec size 8) as [Hsmall|Hsize]; [discriminate|].
  destruct (getUint16 view offset false) as [marker|] eqn:Emarker;
    [|discriminate].
  destruct (marker =? 65505).
  - destruct (getUint32 view (offset + 2 + 2) false) as [exif|] eqn:Eexif;
      [|discriminate].
    destruct (negb (exif =? 1165519206)); [discriminate|].
    destruct (getUint16 view (offset + 2 + 2 + 6) false) as [order|]
      eqn:Eorder; [|discriminate].
    destruct (getUint32 view (offset + 2 + 2 + 6 + 4) (order =? 18761))
      as [first|] eqn:Efirst; [|discriminate].
    destruct (getUint16 view (offset + 2 + 2 + 6 + first) (order =? 18761))
      as [tags|] eqn:Etags; [|discriminate].
    destruct (tagsLoop (Z.to_nat tags) view
                (offset + 2 + 2 + 6 + first + 2) (order =? 18761) 0)
      as [outcome|] eqn:Eloop.
    + intros ->. exact (photo_tagsLoop _ _ _ _ _ Eloop).
    + apply IH. apply photo_getUint32 in Efirst. lia.
  - destruct (negb (Z.land marker 65280 =? 65280)); [discriminate|].
    apply IH. lia.
Qed.

Lemma photo_getOrientation (blob : DataView) :
  getOrientation blob <> OutOfFuel.
Proof.
  unfold getOrientation.
  destruct (getUint16 blob 0 false) as [magic|]; [|discriminate].
  destruct (negb (magic =? 65496)); [discriminate|].
  apply photo_scan. lia.
Qed.

(** More rounds than the bytes of the blob change nothing. *)
Lemma photo_scan_fuel (fuel fuel' : nat) (view : DataView) (offset : Z) :
  (Z.to_nat (byteLength view - offset) < fuel)%nat ->
  (Z.to_nat (byteLength view - offset) < fuel')%nat ->
  scan fuel view offset = scan fuel' view offset.
Proof.
  revert fuel' offset.
  induction fuel as [|fuel IH]; intros fuel' offset Hfuel Hfuel'; [lia|].
  destruct fuel' as [|fuel']; [lia|].
  cbn [scan].
  destruct (Z.ltb_spec offset (byteLength view)) as [Hin|Hout];
    [|reflexivity].
  destruct (getUint16 view (offset + 2) false) as [size|] eqn:Esize;
    [|reflexivity].
  destruct (Z.leb_spec size 8) as [Hsmall|Hsize]; [reflexivity|].
  destruct (getUint16 view offset false) as [marker|] eqn:Emarker;
    [|reflexivity].
  destruct (marker =? 65505).
  - destruct (getUint32 view (offset + 2 + 2) false) as [exif|] eqn:Eexif;
      [|reflexivity].
    destruct (negb (exif =? 1165519206)); [reflexivity|].
    destruct (getUint16 view (offset + 2 + 2 + 6) false) as [order|]
      eqn:Eorder; [|reflexivity].
    destruct (getUint32 view (offset + 2 + 2 + 6 + 4) (order =? 18761))
      as [first|] eqn:Efirst; [|reflexivity].
    destruct (getUint16 view (offset + 2 + 2 + 6 + first) (order =? 18761))
      as [tags|] eqn:Etags; [|reflexivity].
    destruct (tagsLoop (Z.to_nat tags) view
                (offset + 2 + 2 + 6 + first + 2) (order =? 18761) 0)
      as [outcome|] eqn:Eloop; [reflexivity|].
    apply photo_getUint32 in Efirst. apply IH; lia.
  - destruct (negb (Z.land marker 65280 =? 65280)); [reflexivity|].
    apply IH; lia.
Qed.

End PhotoFacts.

(** X26.  The reading of a blob always ends: every round of the loop
    over the segments moves the offset forward, so on every blob the
    promise is resolved with an orientation or a [RangeError] leaves it
    pending, and going on for more rounds than the blob has bytes changes
    nothing. *)
Theorem Photo_reading_ends (blob : Photo.DataView) (fuel : nat) :
  (Photo.getOrientation blob = Photo.RangeError
   \/ exists orientation : Z,
        Photo.getOrientation blob = Photo.Resolved orientation)
  /\ Photo.scan (fuel + S (Z.to_nat (Photo.byteLength blob))) blob 2
     = Photo.scan (S (Z.to_nat (Photo.byteLength blob))) blob 2.
Proof.
  split.
  - pose proof (photo_getOrientation blob) as H.
    destruct (Photo.getOrientation blob) as [o| |].
    + right. exists o. reflexivity.
    + left. reflexivity.
    + contradiction.
  - apply photo_scan_fuel; lia.
Qed.

(** X27.  A blob that does not begin with the JPEG marker [0xFFD8] is
    handed to [onSuccess] as it is, whatever follows the first two
    bytes. *)
Theorem Photo_not_jpeg_is_unchanged (blob : Photo.DataView) (magic : Z) :
  Photo.getUint16 blob 0 false = Some magic ->
  magic <> 65496%Z ->
  Photo.getPhotoOrientation blob = Some (Photo.mkOrientation 0 false)
  /\ Photo.orientPhoto blob = Photo.Unchanged.
Proof.
  intros Hmagic Hne.
  assert (H : Photo.getPhotoOrientation blob
              = Some (Photo.mkOrientation 0 false)).
  { unfold Photo.getPhotoOrientation, Photo.getOrientation.
    rewrite Hmagic. apply Z.eqb_neq in Hne. rewrite Hne. reflexivity. }
  split; [exact H|]. unfold Photo.orientPhoto. rewrite H. reflexivity.
Qed.

Lemma Photo_not_jpeg_is_unchanged_witness :
  Photo.orientPhoto (Photo.bytes [137; 80; 78; 71; 13; 10]%N)
  = Photo.Unchanged.
Proof.
  refine (proj2 (@Photo_not_jpeg_is_unchanged
                   (Photo.bytes [137; 80; 78; 71; 13; 10]%N) 35152%Z _ _)).
  - reflexivity.
  - discriminate.
Defined.

(** X28.  A blob of fewer than two bytes, and a JPEG of three to five
    bytes, make the reading throw a [RangeError]: the promise stays
    pending and [orientPhoto] calls neither [onSuccess] nor [onFailure].
    A JPEG of the two marker bytes alone is handed to [onSuccess]. *)
Theorem Photo_truncated_blob_is_pending (blob : Photo.DataView) :
  (Photo.byteLength blob < 2)%Z
  \/ (Photo.getUint16 blob 0 false = Some 65496%Z
      /\ (2 < Photo.byteLength blob < 6)%Z) ->
  Photo.getOrientation blob = Photo.RangeError
  /\ Photo.orientPhoto blob = Photo.Pending.
Proof.
  intros H.
  assert (Hr : Photo.getOrientation blob = Photo.RangeError).
  { unfold Photo.getOrientation.
    destruct H as [Hshort|[Hmagic Hlen]].
    - rewrite photo_getUint16_outside by lia. reflexivity.
    - rewrite Hmagic. cbn [Z.eqb Pos.eqb negb Photo.scan].
      destruct (Z.ltb_spec 2 (Photo.byteLength blob)) as [_|Hge]; [|lia].
      rewrite photo_getUint16_outside by lia. reflexivity. }
  split; [exact Hr|].
  unfold Photo.orientPhoto, Photo.getPhotoOrientation. rewrite Hr.
  reflexivity.
Qed.

Lemma Photo_truncated_blob_is_pending_witness :
  Photo.orientPhoto (Photo.bytes [255; 216; 255; 225]%N) = Photo.Pending
  /\ Photo.orientPhoto (Photo.bytes [255; 216]%N) = Photo.Unchanged.
Proof.
  split; [|reflexivity].
  refine (proj2 (@Photo_truncated_blob_is_pending
                   (Photo.bytes [255; 216; 255; 225]%N) _)).
  right. split; [reflexivity|]. cbv. split; reflexivity.
Defined.

(** X29.  Of the orientations a blob can give, exactly 2 to 8 make
    [orientPhoto] redraw the photo, each of them in its own way, by a
    quarter turn or none; and the output canvas swaps the width and the
    height exactly for 5 to 8. *)
Theorem Photo_redrawn_exactly_for_2_to_8 (blob : Photo.DataView)
    (orientation : Z) :
  Photo.getOrientation blob = Photo.Resolved orientation ->
  Photo.orientPhoto blob
  = (if (2 <=? orientation)%Z && (orientation <=? 8)%Z
     then Photo.Redrawn (Photo.upright orientation)
     else Photo.Unchanged)
  /\ In (Photo.rotation (Photo.upright orientation)) [0; 90; 180; 270]%Z
  /\ (forall other : Z,
        (2 <= orientation <= 8)%Z -> (2 <= other <= 8)%Z ->
        Photo.upright orientation = Photo.upright other ->
        orientation = other)
  /\ (forall width height : Z,
        Photo.outputSize (Photo.upright orientation) width height
        = if (5 <=? orientation)%Z && (orientation <=? 8)%Z
          then (height, width) else (width, height)).
Proof.
  intros Hres.
  assert (Hcases : (orientation < 1 \/ orientation = 1 \/ orientation = 2
                    \/ orientation = 3 \/ orientation = 4
                    \/ orientation = 5 \/ orientation = 6
                    \/ orientation = 7 \/ orientation = 8
                    \/ 8 < orientation)%Z) by lia.
  assert (Hout : (orientation < 1 \/ 8 < orientation)%Z ->
                 Photo.upright orientation = Photo.mkOrientation 0 false).
  { intros Ho. unfold Photo.upright.
    repeat match goal with
    | |- context [(orientation =? ?n)%Z] =>
        destruct (Z.eqb_spec orientation n); [lia|]
    end.
    reflexivity. }
  split; [|split; [|split]].
  - unfold Photo.orientPhoto, Photo.getPhotoOrientation. rewrite Hres.
    destruct Hcases as [H|[H|[H|[H|[H|[H|[H|[H|[H|H]]]]]]]]];
      try (subst orientation; reflexivity);
      rewrite Hout by lia;
      destruct (Z.leb_spec 2 orientation), (Z.leb_spec orientation 8);
      try lia; reflexivity.
  - destruct Hcases as [H|[H|[H|[H|[H|[H|[H|[H|[H|H]]]]]]]]];
      try (subst orientation; cbn; tauto);
      rewrite Hout by lia; cbn; tauto.
  - intros other Ho Hother.
    assert (Hc : (orientation = 2 \/ orientation = 3 \/ orientation = 4
                  \/ orientation = 5 \/ orientation = 6
                  \/ orientation = 7 \/ orientation = 8)%Z) by lia.
    assert (Hc' : (other = 2 \/ other = 3 \/ other = 4 \/ other = 5
                   \/ other = 6 \/ other = 7 \/ other = 8)%Z) by lia.
    destruct Hc as [H|[H|[H|[H|[H|[H|H]]]]]];
      destruct Hc' as [H'|[H'|[H'|[H'|[H'|[H'|H']]]]]];
      subst orientation other; cbn; intros Heq;
      first [reflexivity | discriminate Heq].
  - intros width height.
    destruct Hcases as [H|[H|[H|[H|[H|[H|[H|[H|[H|H]]]]]]]]];
      try (subst orientation; reflexivity);
      rewrite Hout by lia;
      destruct (Z.leb_spec 5 orientation), (Z.leb_spec orientation 8);
      try lia; reflexivity.
Qed.

(** A JPEG whose EXIF segment, in little-endian order, holds the
    orientation 6 in its only tag. *)
Lemma Photo_redrawn_exactly_for_2_to_8_witness :
  Photo.orientPhoto
    (Photo.bytes [255; 216; 255; 225; 0; 34; 69; 120; 105; 102; 0; 0;
                  73; 73; 42; 0; 8; 0; 0; 0; 1; 0;
                  18; 1; 3; 0; 1; 0; 0; 0; 6; 0; 0; 0]%N)
  = Photo.Redrawn (Photo.mkOrientation 90 false).
Proof.
  refine (proj1 (@Photo_redrawn_exactly_for_2_to_8
    (Photo.bytes [255; 216; 255; 225; 0; 34; 69; 120; 105; 102; 0; 0;
                  73; 73; 42; 0; 8; 0; 0; 0; 1; 0;
                  18; 1; 3; 0; 1; 0; 0; 0; 6; 0; 0; 0]%N) 6%Z _)).
  vm_compute. reflexivity.
Defined.
